(* ===== verification/_CoqProject ===== *)
-Q . S2P
Prelude.v
Machine.v
CString.v
Io.v
Vga.v
Pic.v
Serial.v
Keyboard.v
Net.v
Pci.v
Multiboot.v
Pmm.v
Alloc.v
Heap.v
Vmm.v
PageAlloc.v
E1000.v
NetStack.v
Gdt.v
Task.v
Timer.v
Idt.v
Syscall.v
Trap.v
User.v
Ramfs.v
Vfs.v
FsFrame.v
FsCalls.v
Shell.v
Kernel.v
System.v
Live.v
Boot.v
Tests.v
