(* ===== verification/Prelude.v ===== *)
(** * MatryoshkaOS: a verification of the kernel's core

    MatryoshkaOS is a small 32-bit x86 kernel (C, under src/kernel/).  This
    library models its components as executable definitions over an explicit
    machine state and proves what each of them promises to the others.

    ** The system

    The boot loader passes a memory map (arch/x86_64/multiboot2.c); the frame
    allocator (mm/pmm.c) builds a bitmap of 4 KB frames from it; paging
    (mm/vmm.c) identity-maps memory and takes page tables from the frame
    allocator; the heap (mm/heap.c) is a first-fit block list in a fixed range;
    the scheduler (proc/task.c) takes stacks from the heap, opens user pages
    through paging, switches stacks on interrupts and keeps the TSS
    (arch/x86_64/gdt.c) up to date; the filesystem (fs/ramfs.c behind
    fs/vfs.c) keeps its nodes and file buffers in the heap.  Interrupts come
    through the controllers (arch/x86_64/pic.c) from the timer
    (drivers/timer.c) and the keyboard (drivers/keyboard.c); output goes to
    the screen (drivers/vga.c) and the serial line (drivers/serial.c); the
    network stack (net/net.c) answers ARP and ping over the Ethernet card
    (drivers/e1000.c), which is found through drivers/pci.c.  User tasks enter
    by system calls (syscall/syscall.c); kernel.c brings everything up and ends
    in a shell (shell.c) over all of it.

    ** The files

    - [Prelude]: w-bit integers as [Z] with the wrap-around written out
      ([u8] .. [u64], [s8], [s32]; the operators [+₃₂] etc. of [cint_scope]),
      bit lemmas, counting, tactics and the hint database [mshka].
    - [Machine]: byte-addressed memory with little-endian loads and stores, what
      a piece of code leaves alone ([same_outside], [same_except]), and the
      console calls a component makes ([machine]).
    - [CString]: kernel/string.c.  [Multiboot]: multiboot2.c.
    - [Io]: port accesses (io.h).  [Vga], [Pic], [Serial], [Keyboard]: the
      drivers over it.  [Net]: net/net.c.
    - [Pci]: pci.c, against the class [PciBus] of what a bus does with the two
      ports.  [E1000]: e1000.c, with the card's side of the receive ring as a
      step relation.  [NetStack]: a round of [net_poll] over the driver, from the
      receive ring to the transmit ring.
    - [Pmm], [Heap], [Vmm]: the memory managers.  [Alloc] is the interface of
      the heap: [AllocOps] (the operations and what it means to own a list of
      live payloads) and [AllocLaws] (their contract).  [Heap] proves the laws
      of its instance; [Task], [Ramfs] and [Vfs] are proved against them.
      [PageAlloc]: what paging needs of the frame allocator, and where the page
      tables end up.
    - [Gdt], [Task], [Timer], [Idt]: segments, the scheduler, the timer, and the
      dispatcher that runs handlers and scheduler on an interrupt.
    - [Ramfs], [Vfs]: the filesystem.  [VfsBackend] is the operations table
      ([vfs_ops_t]) as a class, [VfsLaws] its contract; [Ramfs] is the instance.
      [FsFrame]: every call on any argument, and what it leaves alone; [FsCalls]:
      programs of calls as data, with their interpreter.
    - [Syscall]: syscall.c, over the state of [Idt].  [Trap]: the interrupt stubs of
      isr.asm, the registers of a task, and tasks that are interrupted and resumed as
      a step relation.  [User]: the wrappers of syscall.h and the program shell.c runs
      in ring 3, over the whole path of an interrupt.
    - [Shell]: shell.c, over
      [sys], the state of all components a command reaches.  [Kernel]: kernel.c,
      over [boot], the whole state; [kernel_main] in its phases.
    - [System]: the invariant of all components over one memory and one heap
      ([sys_inv]), and every shell command against it.  [Live]: the running
      kernel as a step relation (the shell, interrupts and system calls, the card,
      the network task, task exit and creation).  [Boot]: from power-on to the
      shell.
    - [Tests]: the unit tests of tests/unit, run on these definitions.

    A static variable of a C file is a field of the record its file declares
    ([pmm], [heap], [vmm], [sched], [vfs], ...); structures the code reaches
    through pointers and whose layout matters (bitmap, block headers, page
    tables, task stacks, frames, the screen) are bytes of memory; filesystem
    nodes are a store of records by address.  A function is a definition of the
    same name from the state it reads to the state it leaves; a loop is a
    fixpoint.  Static addresses the linker chooses are arguments.

    ** What is proved

    - Memory: the frame allocator's counter and bitmap agree under every
      sequence of calls, allocation is lowest-first and first-fit, [pmm_init]
      frees exactly the available frames past the kernel; the heap refines a
      list of blocks, keeps every live payload's bytes and coalesces; [vmm_map],
      [vmm_unmap] change the translation of one page, the TLB never goes stale in
      frame or permissions, [vmm_init] is the identity below the memory's size and
      maps nothing beyond.
    - Scheduling: one running task, bounded waiting (also while tasks are created),
      exact effect of a switch, the kernel stack a ring-3 task's interrupts land on,
      the frame a new task starts from, which pages a user task can reach, and
      one invariant of scheduler, paging and heap under all interleavings of
      interrupts and creations; the dispatcher does what those theorems say of
      an interrupt, and the gates are where they should be.  The stubs and the
      scheduler together are transparent: a task that is interrupted gets every
      register and its stacks back as they were, whatever runs in between.
    - Files: files are byte sequences under [pwrite] and [pread], names and
      directories, paths are their components, descriptors are allocated lowest
      first and share files with offsets of their own; every program of calls
      runs to its end and keeps the filesystem well formed.
    - Devices: the key buffer is a lossless queue under every interleaving, the
      console is a terminal, masks of interrupt lines, sleeping, the Internet
      checksum, the ARP and echo replies byte by byte; the configuration-space
      functions on any bus that keeps [PciBus]; [e1000_init] leaves the rings as
      the card needs them, what the driver receives is what the card accepted, in
      order, and a frame to send is complete in memory when the tail register is
      written; an echo or ARP request in the receive ring becomes its answer in the
      transmit ring, whatever the card receives in the meantime.
    - System calls: the result each call leaves in the caller's frame, the memory
      it changes and the task that runs next; a payload of [sbrk] is apart from
      all live ones, a task that exits never runs again.  The ring-3 program of the
      shell, preempted in any way and on pages open to it, prints its texts in order
      and ends.
    - Shell: the decimal printer, line editing as a fold over the keys, the
      command a line runs, [cat] prints a file's bytes, what [write] puts there
      [cat] prints, and [ls] lists a directory.
    - Start-up: the two allocator self-tests pass and leave the allocators as
      they were, the memory phase establishes the invariants that the theorems
      about frames and heap assume, and with enough frames below the heap and no
      interrupt inside a call [kernel_main] reaches the shell with the invariant of
      the whole system.
    - The whole: every state the running kernel reaches by whole operations has that
      invariant; the shell comes back from every line that does not reboot, and a
      step changes no byte on the stacks of a task that is not running.
    - Where the code does not do what it means to, a theorem states what it
      does: wrap-around in [kmalloc], heap frames handed out as page tables, a
      half-initialised task that can be scheduled, two tasks given the same payload,
      the closed top of a user stack, [strncpy], truncating and appending, long path
      components, sizes above 2 GiB, echo replies that leak memory.

    ** Fuel and non-termination

    Loops over a counter recurse on it.  The others take fuel, or return [None]
    when the code would not return: [HEAP_FUEL] is one more than the number of
    blocks the heap can hold; [GROW_FUEL] and [FOLD_FUEL] are the doublings and
    carries a 32-bit value allows; [CAT_FUEL] is more than the pieces of the
    longest file; [TX_TIMEOUT] is the code's own bound on its polling;
    [walk_fuel] is one more than the nodes there are; string and tag walks take
    any fuel beyond the length; [flush] takes any fuel at which the keyboard
    controller is empty.  Theorems about results say that the call returns.
    Waiting loops take the list of what the environment does at each wait.

    ** Not modelled

    The assembly that enters [kernel_main], linker scripts, and the integration tests
    (scripts for an emulator).  The stack frames of the C functions themselves are
    not in memory.  Interrupts inside one C function are modelled only where a
    theorem says so ([Keyboard.kb_step], [Task.task_create_race],
    [Heap.kmalloc_race]) or where the code is any code ([Trap.context_step]);
    [Live.live_step] takes them between the calls; start-up takes them in its first
    sleep and, from the creation of the first task on, between its calls and in its
    second.  System calls are outside [Live.live_step] when their arguments break
    what [call_ok] says: the kernel does not check them.
    What the card does while [e1000_send] polls is a list of changes to its rings.
    Kernel code accesses memory, the page tables included, at physical addresses:
    under the identity map of [vmm_init] these are its linear ones.  The permissions
    of a page are checked where the code is of ring 3 ([User.statement]).
    The order of memory writes and register writes is kept where the card can see it:
    every register write of [E1000] is logged with the memory at that moment.
    The code a task runs besides calling the kernel is any write to its own stacks
    and to static memory; ring-3 code that passes the kernel a pointer it does not
    own is outside the step relation, since the kernel does not check it. *)

From stdpp Require Import base numbers list gmap strings.
From stdpp Require Export tactics.
From Stdlib Require Import ZArith Lia.

#[global] Open Scope Z_scope.

(** ** Machine integers

    The kernel is built with [-m32]: [size_t], [unsigned long] and pointers
    have 32 bits.  A w-bit unsigned value is a [Z] in [0, 2^w); every C
    operation that can leave that range is wrapped explicitly. *)

Definition wrap (w x : Z) : Z := x mod 2 ^ w.

Definition u8 (x : Z) : Z := wrap 8 x.
Definition u16 (x : Z) : Z := wrap 16 x.
Definition u32 (x : Z) : Z := wrap 32 x.
Definition u64 (x : Z) : Z := wrap 64 x.

(** Conversion to a signed type of [w] bits (two's complement). *)
Definition swrap (w x : Z) : Z := wrap w (x + 2 ^ (w - 1)) - 2 ^ (w - 1).

Definition s8 (x : Z) : Z := swrap 8 x.
Definition s32 (x : Z) : Z := swrap 32 x.

(** [if (x & mask)] of the C code. *)
Definition has_flag (x mask : Z) : bool := negb (Z.land x mask =? 0).

(** [(x + 7) & ~7] on a 32-bit unsigned [x]. *)
Definition align8 (x : Z) : Z := Z.land (u32 (x + 7)) (u32 (Z.lnot 7)).

Declare Scope cint_scope.
Delimit Scope cint_scope with cint.
Notation "x +₈ y" := (u8 (x + y)) (at level 50, left associativity) : cint_scope.
Notation "x -₈ y" := (u8 (x - y)) (at level 50, left associativity) : cint_scope.
Notation "x +₁₆ y" := (u16 (x + y)) (at level 50, left associativity) : cint_scope.
Notation "x -₁₆ y" := (u16 (x - y)) (at level 50, left associativity) : cint_scope.
Notation "x +₃₂ y" := (u32 (x + y)) (at level 50, left associativity) : cint_scope.
Notation "x -₃₂ y" := (u32 (x - y)) (at level 50, left associativity) : cint_scope.
Notation "x *₃₂ y" := (u32 (x * y)) (at level 40, left associativity) : cint_scope.
Notation "x +₆₄ y" := (u64 (x + y)) (at level 50, left associativity) : cint_scope.
Notation "x -₆₄ y" := (u64 (x - y)) (at level 50, left associativity) : cint_scope.
Notation "x *₆₄ y" := (u64 (x * y)) (at level 40, left associativity) : cint_scope.
#[global] Open Scope cint_scope.

Create HintDb mshka.
Create Rewrite HintDb mshka_rw.

Lemma wrap_range w x : 0 <= w -> 0 <= wrap w x < 2 ^ w.
Proof. intros. apply Z.mod_pos_bound, Z.pow_pos_nonneg; lia. Qed.

Lemma wrap_small w x : 0 <= x < 2 ^ w -> wrap w x = x.
Proof. apply Z.mod_small. Qed.

Lemma u8_range x : 0 <= u8 x < 2 ^ 8.
Proof. by apply wrap_range. Qed.
Lemma u16_range x : 0 <= u16 x < 2 ^ 16.
Proof. by apply wrap_range. Qed.
Lemma u32_range x : 0 <= u32 x < 2 ^ 32.
Proof. by apply wrap_range. Qed.
Lemma u64_range x : 0 <= u64 x < 2 ^ 64.
Proof. by apply wrap_range. Qed.

Lemma u8_small x : 0 <= x < 2 ^ 8 -> u8 x = x.
Proof. apply wrap_small. Qed.
Lemma u16_small x : 0 <= x < 2 ^ 16 -> u16 x = x.
Proof. apply wrap_small. Qed.
Lemma u32_small x : 0 <= x < 2 ^ 32 -> u32 x = x.
Proof. apply wrap_small. Qed.
Lemma u64_small x : 0 <= x < 2 ^ 64 -> u64 x = x.
Proof. apply wrap_small. Qed.

Lemma s8_range x : -128 <= s8 x < 128.
Proof. unfold s8, swrap. pose proof (wrap_range 8 (x + 2 ^ (8 - 1))). change (2 ^ (8 - 1)) with 128 in *. lia. Qed.

Lemma s32_small x : - 2 ^ 31 <= x < 2 ^ 31 -> s32 x = x.
Proof. intros. unfold s32, swrap. rewrite wrap_small; change (32 - 1) with 31; lia. Qed.

#[export] Hint Resolve u8_range u16_range u32_range u64_range : mshka.

Lemma u32_idem x : u32 (u32 x) = u32 x.
Proof. apply u32_small, u32_range. Qed.

Lemma u8_idem x : u8 (u8 x) = u8 x.
Proof. apply u8_small, u8_range. Qed.

#[export] Hint Rewrite u32_idem u8_idem : mshka_rw.

(** ** Tactics *)

(** [lia] with quotients and remainders by constants. *)
Ltac dlia := Z.to_euclidean_division_equations; lia.

(** Remove the wrap-around of expressions that provably stay in range. *)
Ltac unwrap :=
  repeat match goal with
  | |- context [u8 ?x] => rewrite (u8_small x) by lia
  | |- context [u16 ?x] => rewrite (u16_small x) by lia
  | |- context [u32 ?x] => rewrite (u32_small x) by lia
  | |- context [u64 ?x] => rewrite (u64_small x) by lia
  end.

Ltac unwrap_in H :=
  repeat match type of H with
  | context [u8 ?x] => rewrite (u8_small x) in H by lia
  | context [u16 ?x] => rewrite (u16_small x) in H by lia
  | context [u32 ?x] => rewrite (u32_small x) in H by lia
  | context [u64 ?x] => rewrite (u64_small x) in H by lia
  end.

(** Case analysis on the integer comparisons of a goal. *)
Ltac zcases :=
  repeat match goal with
  | |- context [?x =? ?y] => destruct (Z.eqb_spec x y)
  | |- context [?x <? ?y] => destruct (Z.ltb_spec x y)
  | |- context [?x <=? ?y] => destruct (Z.leb_spec x y)
  | |- context [?x >? ?y] => rewrite (Z.gtb_ltb x y)
  | |- context [?x >=? ?y] => rewrite (Z.geb_leb x y)
  end.

Ltac zcases_in H :=
  repeat match type of H with
  | context [?x =? ?y] => destruct (Z.eqb_spec x y)
  | context [?x <? ?y] => destruct (Z.ltb_spec x y)
  | context [?x <=? ?y] => destruct (Z.leb_spec x y)
  | context [?x >? ?y] => rewrite (Z.gtb_ltb x y) in H
  | context [?x >=? ?y] => rewrite (Z.geb_leb x y) in H
  end.

(** ** Bit-level facts *)

Lemma land_shiftl_1 x n :
  0 <= n -> (Z.land x (Z.shiftl 1 n) =? 0) = negb (Z.testbit x n).
Proof.
  intros Hn. destruct (Z.testbit x n) eqn:E; simpl.
  - apply Z.eqb_neq. intros H.
    assert (Z.testbit (Z.land x (Z.shiftl 1 n)) n = false) as F by (rewrite H; apply Z.bits_0).
    rewrite Z.land_spec, E, Z.shiftl_spec, Z.sub_diag in F by lia. done.
  - apply Z.eqb_eq, Z.bits_inj'. intros i Hi.
    rewrite Z.land_spec, Z.shiftl_spec, Z.bits_0 by lia.
    destruct (decide (i = n)) as [->|]; [by rewrite E|].
    replace (Z.testbit 1 (i - n)) with false; [apply andb_false_r|].
    destruct (Z.ltb_spec (i - n) 0); [by rewrite Z.testbit_neg_r|].
    symmetry. apply (Z.bits_above_log2 1); simpl; lia.
Qed.

Lemma testbit_shiftl_1 n i : 0 <= n -> 0 <= i -> Z.testbit (Z.shiftl 1 n) i = (i =? n).
Proof.
  intros. rewrite Z.shiftl_spec by lia. destruct (Z.eqb_spec i n) as [->|].
  - by rewrite Z.sub_diag.
  - destruct (Z.ltb_spec (i - n) 0); [by rewrite Z.testbit_neg_r|].
    apply (Z.bits_above_log2 1); simpl; lia.
Qed.

Lemma has_flag_pow2 x n : 0 <= n -> has_flag x (2 ^ n) = Z.testbit x n.
Proof.
  intros. unfold has_flag. rewrite <- Z.shiftl_1_l, land_shiftl_1 by lia. apply negb_involutive.
Qed.

(** Two [w]-bit values are equal when their low [w] bits are. *)
Lemma bits_inj_range w x y :
  0 <= w -> 0 <= x < 2 ^ w -> 0 <= y < 2 ^ w ->
  (forall i, 0 <= i < w -> Z.testbit x i = Z.testbit y i) -> x = y.
Proof.
  intros Hw Hx Hy H. rewrite <- (Z.mod_small x (2 ^ w)), <- (Z.mod_small y (2 ^ w)) by lia.
  apply Z.bits_inj'. intros i Hi. destruct (Z.ltb_spec i w).
  - rewrite !Z.mod_pow2_bits_low by lia. auto with lia.
  - by rewrite !Z.mod_pow2_bits_high by lia.
Qed.

(** Bitwise combinations of [w]-bit values are [w]-bit values. *)
Lemma range_of_bits w x :
  0 <= w -> 0 <= x -> (forall i, w <= i -> Z.testbit x i = false) -> 0 <= x < 2 ^ w.
Proof.
  intros Hw Hx H. split; [done|]. replace x with (x mod 2 ^ w); [apply Z.mod_pos_bound; lia|].
  apply Z.bits_inj'. intros i Hi. destruct (Z.ltb_spec i w).
  - by rewrite Z.mod_pow2_bits_low by lia.
  - rewrite Z.mod_pow2_bits_high by lia. by rewrite H.
Qed.

Lemma testbit_high w x i : 0 <= x < 2 ^ w -> 0 <= w <= i -> Z.testbit x i = false.
Proof. intros. rewrite <- (Z.mod_small x (2 ^ w)) by lia. apply Z.mod_pow2_bits_high. lia. Qed.

Lemma lor_range w x y :
  0 <= w -> 0 <= x < 2 ^ w -> 0 <= y < 2 ^ w -> 0 <= Z.lor x y < 2 ^ w.
Proof.
  intros. apply range_of_bits; [done|apply Z.lor_nonneg; lia|].
  intros i Hi. by rewrite Z.lor_spec, !(testbit_high w) by lia.
Qed.

Lemma land_range w x y : 0 <= w -> 0 <= x < 2 ^ w -> 0 <= Z.land x y < 2 ^ w.
Proof.
  intros. apply range_of_bits; [done|apply Z.land_nonneg; lia|].
  intros i Hi. by rewrite Z.land_spec, !(testbit_high w) by lia.
Qed.

(** Clearing the low [n] bits of a [w]-bit value. *)
Lemma land_clear_low n w x :
  0 <= n <= w -> 0 <= x < 2 ^ w -> Z.land x (Z.shiftl (Z.ones (w - n)) n) = x / 2 ^ n * 2 ^ n.
Proof.
  intros Hn Hx. rewrite <- Z.shiftl_mul_pow2, <- Z.shiftr_div_pow2 by lia. apply Z.bits_inj'. intros i Hi.
  rewrite Z.land_spec, !Z.shiftl_spec by lia. destruct (Z.ltb_spec (i - n) 0).
  - rewrite !(Z.testbit_neg_r _ (i - n)) by lia. apply andb_false_r.
  - rewrite Z.shiftr_spec by lia. replace (i - n + n) with i by lia. destruct (Z.ltb_spec i w).
    + rewrite Z.ones_spec_low by lia. apply andb_true_r.
    + by rewrite (testbit_high w x i) by lia.
Qed.

(** Bits below [n] added to a multiple of [2 ^ n]. *)
Lemma lor_low n a f : 0 <= n -> 0 <= f < 2 ^ n -> Z.lor (a * 2 ^ n) f = a * 2 ^ n + f.
Proof.
  intros Hn Hf. assert (E : Z.land (a * 2 ^ n) f = 0).
  { apply Z.bits_inj'. intros i Hi. rewrite Z.land_spec, Z.bits_0.
    destruct (Z.ltb_spec i n).
    - by rewrite Z.mul_pow2_bits_low.
    - by rewrite (testbit_high n f), andb_false_r by lia. }
  rewrite <- Z.lxor_lor by done. symmetry. by apply Z.add_nocarry_lxor.
Qed.

(** [align8] rounds up to a multiple of 8, modulo 2^32. *)
Lemma align8_spec x : align8 x = u32 (x + 7) / 8 * 8.
Proof. apply (land_clear_low 3 32); [lia|apply u32_range]. Qed.

Lemma align8_bounds x :
  0 <= x -> x + 7 < 2 ^ 32 -> x <= align8 x < x + 8 /\ align8 x mod 8 = 0.
Proof.
  intros. rewrite align8_spec. unwrap. split; [|apply Z.mod_mul; lia].
  pose proof (Z.div_mod (x + 7) 8). pose proof (Z.mod_pos_bound (x + 7) 8). lia.
Qed.

(** ** Counting over an initial segment of the integers *)

Fixpoint count_below (n : nat) (g : Z -> bool) : Z :=
  match n with
  | O => 0
  | S n' => count_below n' g + (if g (Z.of_nat n') then 1 else 0)
  end.

Lemma count_below_range n g : 0 <= count_below n g <= Z.of_nat n.
Proof. induction n; cbn [count_below]; [lia|]. destruct (g _); lia. Qed.

Lemma count_below_ext n g g' :
  (forall i, 0 <= i < Z.of_nat n -> g' i = g i) -> count_below n g' = count_below n g.
Proof.
  induction n as [|n IH]; intros H; [done|]. cbn [count_below].
  rewrite H by lia. f_equal. apply IH. intros; apply H; lia.
Qed.

Lemma count_below_all n g :
  (forall i, 0 <= i < Z.of_nat n -> g i = true) -> count_below n g = Z.of_nat n.
Proof.
  induction n as [|n IH]; intros H; [done|]. cbn [count_below].
  rewrite H by lia. rewrite IH; [lia|]. intros; apply H; lia.
Qed.

(** Changing the predicate at one point changes the count by that point. *)
Lemma count_below_upd n g g' f :
  0 <= f < Z.of_nat n -> (forall i, 0 <= i < Z.of_nat n -> i <> f -> g' i = g i) ->
  count_below n g' = count_below n g + (if g' f then 1 else 0) - (if g f then 1 else 0).
Proof.
  induction n as [|n IH]; intros Hf H; [lia|]. cbn [count_below].
  destruct (decide (f = Z.of_nat n)) as [->|].
  - rewrite (count_below_ext n g g'); [lia|]. intros; apply H; lia.
  - rewrite (H (Z.of_nat n)) by lia. rewrite IH; [lia|lia|]. intros; apply H; lia.
Qed.

(** Checking every value below a bound. *)
Lemma forallb_below (P : Z -> bool) n x : forallb P (seqZ 0 n) = true -> 0 <= x < n -> P x = true.
Proof.
  intros Hall Hx. rewrite forallb_forall in Hall. apply Hall.
  rewrite <- list_elem_of_In, elem_of_seqZ. lia.
Qed.
