(* ===== verification/Machine.v ===== *)
(** * The machine the kernel runs on: physical memory and console output

    [memory] is byte-addressed RAM; multi-byte loads and stores are
    little-endian, as on x86.  [machine] adds the calls the modelled code
    makes to the console (the VGA text screen and the serial log), in order;
    [Vga] replays the screen calls.

    No source file is modelled here: this is the C abstract machine the other
    files share. *)
From stdpp Require Import base numbers list gmap strings.
From Stdlib Require Import ZArith Lia.
From S2P Require Import Prelude.

Abbreviation memory := (gmap Z Z).

Definition load8 (m : memory) (a : Z) : Z := u8 (default 0 (m !! a)).
Definition store8 (m : memory) (a v : Z) : memory := <[a := u8 v]> m.

(** Little-endian access to [n] bytes. *)
Fixpoint load_le (n : nat) (m : memory) (a : Z) : Z :=
  match n with
  | O => 0
  | S n' => load8 m a + 256 * load_le n' m (a + 1)
  end.

Fixpoint store_le (n : nat) (m : memory) (a v : Z) : memory :=
  match n with
  | O => m
  | S n' => store_le n' (store8 m a v) (a + 1) (v / 256)
  end.

Definition load16 := load_le 2.
Definition load32 := load_le 4.
Definition load64 := load_le 8.
Definition store16 := store_le 2.
Definition store32 := store_le 4.

(** The [n] bytes at [a], as a list. *)
Fixpoint bytes_at (m : memory) (a : Z) (n : nat) : list Z :=
  match n with
  | O => []
  | S n' => load8 m a :: bytes_at m (a + 1) n'
  end.

(** Consecutive byte stores. *)
Fixpoint store_bytes (m : memory) (a : Z) (l : list Z) : memory :=
  match l with
  | [] => m
  | v :: l' => store_bytes (store8 m a v) (a + 1) l'
  end.

(** [m'] differs from [m] at most inside [lo, hi). *)
Definition same_outside (lo hi : Z) (m m' : memory) : Prop :=
  forall a, ~ (lo <= a < hi) -> load8 m' a = load8 m a.

(** [m'] and [m] hold the same bytes in [lo, hi). *)
Definition same_inside (lo hi : Z) (m m' : memory) : Prop :=
  forall a, lo <= a < hi -> load8 m' a = load8 m a.

(** Two memories are equivalent when every byte reads the same: a stored zero
    and an untouched cell are the same byte. *)
#[global] Instance memory_equiv : Equiv memory :=
  fun m m' => forall a, load8 m a = load8 m' a.

(** ** Console calls *)

(** The colours of the screen ([vga_color_t]). *)
Definition VGA_COLOR_BLACK : Z := 0.
Definition VGA_COLOR_BLUE : Z := 1.
Definition VGA_COLOR_GREEN : Z := 2.
Definition VGA_COLOR_CYAN : Z := 3.
Definition VGA_COLOR_RED : Z := 4.
Definition VGA_COLOR_MAGENTA : Z := 5.
Definition VGA_COLOR_BROWN : Z := 6.
Definition VGA_COLOR_LIGHT_GREY : Z := 7.
Definition VGA_COLOR_DARK_GREY : Z := 8.
Definition VGA_COLOR_LIGHT_BLUE : Z := 9.
Definition VGA_COLOR_LIGHT_GREEN : Z := 10.
Definition VGA_COLOR_LIGHT_CYAN : Z := 11.
Definition VGA_COLOR_LIGHT_RED : Z := 12.
Definition VGA_COLOR_LIGHT_MAGENTA : Z := 13.
Definition VGA_COLOR_YELLOW : Z := 14.
Definition VGA_COLOR_WHITE : Z := 15.

Inductive out_call :=
  | VgaClear (fg bg : Z)
  | VgaSetColor (fg bg : Z)
  | VgaPutchar (c : Z)
  | VgaPuts (s : string)
  | Klog (s : string).

Definition nl : string := String (Ascii.ascii_of_nat 10) "".
Definition line (s : string) : string := (s ++ nl)%string.

(** The string of a list of byte values. *)
Definition string_of (l : list Z) : string :=
  String.string_of_list_ascii (map (fun c => Ascii.ascii_of_N (Z.to_N c)) l).

(** The bytes of a string literal. *)
Definition bytes_of (s : string) : list Z := map (fun c => Z.of_N (Ascii.N_of_ascii c)) (String.list_ascii_of_string s).

Record machine := Machine {
  ram : memory;
  con : list out_call;
}.

Definition set_ram (w : machine) (m : memory) : machine :=
  {| ram := m; con := con w |}.
Definition emit (w : machine) (cs : list out_call) : machine :=
  {| ram := ram w; con := con w ++ cs |}.

(** ** Byte loads and stores *)

Lemma load8_range m a : 0 <= load8 m a < 256.
Proof. apply u8_range. Qed.

Lemma load8_store8_eq m a v : load8 (store8 m a v) a = u8 v.
Proof. unfold load8, store8. rewrite lookup_insert_eq. simpl. apply u8_idem. Qed.

Lemma load8_store8_ne m a b v : a <> b -> load8 (store8 m a v) b = load8 m b.
Proof. intros. unfold load8, store8. by rewrite lookup_insert_ne. Qed.

Lemma load8_store8 m a b v :
  load8 (store8 m a v) b = if a =? b then u8 v else load8 m b.
Proof.
  destruct (Z.eqb_spec a b) as [->|]; [apply load8_store8_eq | by apply load8_store8_ne].
Qed.

Lemma load_le_range n m a : 0 <= load_le n m a < 2 ^ (8 * Z.of_nat n).
Proof.
  revert a. induction n as [|n IH]; intros a; [simpl; lia|].
  cbn [load_le]. pose proof (load8_range m a). pose proof (IH (a + 1)).
  replace (8 * Z.of_nat (S n)) with (8 + 8 * Z.of_nat n) by lia.
  rewrite Z.pow_add_r by lia. change (2 ^ 8) with 256. lia.
Qed.

Lemma load16_range m a : 0 <= load16 m a < 2 ^ 16.
Proof. apply (load_le_range 2). Qed.
Lemma load32_range m a : 0 <= load32 m a < 2 ^ 32.
Proof. apply (load_le_range 4). Qed.
Lemma load64_range m a : 0 <= load64 m a < 2 ^ 64.
Proof. apply (load_le_range 8). Qed.

#[export] Hint Resolve load8_range load16_range load32_range load64_range : mshka.

(** A multi-byte store changes only its own bytes. *)
Lemma store_le_outside n m a v b :
  ~ (a <= b < a + Z.of_nat n) -> load8 (store_le n m a v) b = load8 m b.
Proof.
  revert m a v. induction n as [|n IH]; intros m a v Hb; [done|].
  cbn [store_le]. rewrite IH by lia. apply load8_store8_ne. lia.
Qed.

Lemma load_le_ext n m m' a :
  (forall b, a <= b < a + Z.of_nat n -> load8 m' b = load8 m b) ->
  load_le n m' a = load_le n m a.
Proof.
  revert a. induction n as [|n IH]; intros a H; [done|].
  cbn [load_le]. rewrite (H a) by lia. rewrite (IH (a + 1)); [done|].
  intros; apply H; lia.
Qed.

Lemma load_store_le_eq n m a v :
  load_le n (store_le n m a v) a = wrap (8 * Z.of_nat n) v.
Proof.
  revert m a v. induction n as [|n IH]; intros m a v.
  { simpl. unfold wrap. by rewrite Z.mod_1_r. }
  cbn [load_le store_le]. rewrite IH, store_le_outside, load8_store8_eq by lia.
  unfold u8, wrap. change (2 ^ 8) with 256.
  replace (8 * Z.of_nat (S n)) with (8 + 8 * Z.of_nat n) by lia.
  rewrite Z.pow_add_r, Z.rem_mul_r by lia. done.
Qed.

Lemma load_store_le_disjoint n k m a b v :
  a + Z.of_nat n <= b \/ b + Z.of_nat k <= a ->
  load_le k (store_le n m a v) b = load_le k m b.
Proof. intros. apply load_le_ext. intros. apply store_le_outside. lia. Qed.

Lemma load32_store32_eq m a v : load32 (store32 m a v) a = u32 v.
Proof. apply (load_store_le_eq 4). Qed.

Lemma load32_store32_same m a v : 0 <= v < 2 ^ 32 -> load32 (store32 m a v) a = v.
Proof. intros. rewrite load32_store32_eq. by apply u32_small. Qed.

Lemma load32_store32_ne m a b v :
  a + 4 <= b \/ b + 4 <= a -> load32 (store32 m a v) b = load32 m b.
Proof. apply (load_store_le_disjoint 4 4). Qed.

Lemma load8_store32_ne m a b v :
  ~ (a <= b < a + 4) -> load8 (store32 m a v) b = load8 m b.
Proof. apply (store_le_outside 4). Qed.

Lemma load32_store8_ne m a b v :
  ~ (b <= a < b + 4) -> load32 (store8 m a v) b = load32 m b.
Proof. intros. apply (load_le_ext 4). intros. apply load8_store8_ne. lia. Qed.

Lemma load32_ext m m' a :
  (forall b, a <= b < a + 4 -> load8 m' b = load8 m b) -> load32 m' a = load32 m a.
Proof. apply (load_le_ext 4). Qed.

(** ** Byte lists *)

Lemma length_bytes_at m a n : length (bytes_at m a n) = n.
Proof. revert a; induction n; intros; simpl; auto. Qed.

Lemma lookup_bytes_at m a n i :
  (i < n)%nat -> bytes_at m a n !! i = Some (load8 m (a + Z.of_nat i)).
Proof.
  revert a i. induction n as [|n IH]; intros a i Hi; [lia|].
  destruct i as [|i]; cbn [bytes_at lookup list_lookup].
  - by rewrite Z.add_0_r.
  - rewrite IH by lia. do 2 f_equal. lia.
Qed.

Lemma lookup_bytes_at_total m a n i :
  bytes_at m a n !! i = if decide (i < n)%nat then Some (load8 m (a + Z.of_nat i)) else None.
Proof.
  destruct (decide _); [by apply lookup_bytes_at|]. apply lookup_ge_None. rewrite length_bytes_at. lia.
Qed.

Lemma bytes_at_ext m m' a n :
  (forall b, a <= b < a + Z.of_nat n -> load8 m' b = load8 m b) ->
  bytes_at m' a n = bytes_at m a n.
Proof.
  revert a. induction n as [|n IH]; intros a H; [done|].
  cbn [bytes_at]. rewrite (H a) by lia. f_equal. apply IH. intros; apply H; lia.
Qed.

(** The same bytes at two addresses. *)
Lemma bytes_at_ext2 m m' a b n :
  (forall i, 0 <= i < Z.of_nat n -> load8 m' (b + i) = load8 m (a + i)) ->
  bytes_at m' b n = bytes_at m a n.
Proof.
  intros Hx. apply list_eq. intros i. rewrite !lookup_bytes_at_total.
  destruct (decide _); [|done]. by rewrite Hx by lia.
Qed.

Lemma bytes_at_app m a n k :
  bytes_at m a (n + k) = bytes_at m a n ++ bytes_at m (a + Z.of_nat n) k.
Proof.
  revert a. induction n as [|n IH]; intros a; simpl.
  - by rewrite Z.add_0_r.
  - f_equal. rewrite IH. do 2 f_equal. lia.
Qed.

(** ** Frames *)

Lemma same_outside_refl lo hi m : same_outside lo hi m m.
Proof. done. Qed.

Lemma same_outside_trans lo hi m1 m2 m3 :
  same_outside lo hi m1 m2 -> same_outside lo hi m2 m3 -> same_outside lo hi m1 m3.
Proof. intros H1 H2 a Ha. by rewrite H2, H1. Qed.

Lemma same_outside_mono lo hi lo' hi' m m' :
  lo' <= lo -> hi <= hi' -> same_outside lo hi m m' -> same_outside lo' hi' m m'.
Proof. intros ?? H a Ha. apply H. lia. Qed.

Lemma same_outside_load32 lo hi m m' a :
  same_outside lo hi m m' -> a + 4 <= lo \/ hi <= a -> load32 m' a = load32 m a.
Proof. intros H Ha. apply load32_ext. intros. apply H. lia. Qed.

Lemma same_outside_store32 m a v : same_outside a (a + 4) m (store32 m a v).
Proof. intros b Hb. by apply load8_store32_ne. Qed.

Lemma same_outside_store8 m a v : same_outside a (a + 1) m (store8 m a v).
Proof. intros b Hb. apply load8_store8_ne. lia. Qed.

#[export] Hint Resolve same_outside_refl : mshka.

#[global] Instance memory_equivalence : Equivalence (≡@{memory}).
Proof. split; repeat intro; unfold equiv, memory_equiv in *; congruence. Qed.

#[global] Instance load8_proper : Proper ((≡@{memory}) ==> eq ==> eq) load8.
Proof. intros m m' Hm a a' ->. apply Hm. Qed.

#[global] Instance load_le_proper n : Proper ((≡@{memory}) ==> eq ==> eq) (load_le n).
Proof. intros m m' Hm a a' ->. apply load_le_ext. intros b _. apply (Hm b). Qed.

(** ** Blocks of bytes *)

Lemma store_bytes_load m d l a :
  Forall (fun b => 0 <= b < 256) l ->
  load8 (store_bytes m d l) a =
    if (d <=? a) && (a <? d + Z.of_nat (length l)) then default 0 (l !! Z.to_nat (a - d)) else load8 m a.
Proof.
  intros Hl. revert m d. induction Hl as [|b l Hb Hl IH]; intros m d; cbn [store_bytes length].
  - zcases; done || lia.
  - rewrite IH, load8_store8, (u8_small b) by done. destruct (Z.eq_dec a d) as [->|Hne].
    + rewrite Z.sub_diag. zcases; try lia; done.
    + zcases; try lia; try done; cbn [andb].
      replace (Z.to_nat (a - d)) with (S (Z.to_nat (a - (d + 1)))) by lia. done.
Qed.

Lemma store_bytes_outside m d l : same_outside d (d + Z.of_nat (length l)) m (store_bytes m d l).
Proof.
  revert m d. induction l as [|b l IH]; intros m d a Ha; [done|]. cbn [store_bytes length] in *.
  rewrite IH by lia. apply load8_store8_ne. lia.
Qed.

Lemma store_bytes_snoc m a l v : store_bytes m a (l ++ [v]) = store8 (store_bytes m a l) (a + Z.of_nat (length l)) v.
Proof.
  revert m a. induction l as [|x l IH]; intros m a; cbn [app store_bytes length]; [by rewrite Z.add_0_r|].
  rewrite IH. f_equal. lia.
Qed.

Lemma bytes_at_store_bytes m d l : Forall (fun b => 0 <= b < 256) l -> bytes_at (store_bytes m d l) d (length l) = l.
Proof.
  intros Hl. apply list_eq. intros i. rewrite lookup_bytes_at_total. destruct (decide _) as [Hi|Hi].
  - rewrite store_bytes_load by done. destruct (lookup_lt_is_Some_2 l i Hi) as [b Hb]. rewrite Hb.
    zcases; try lia. cbn [andb]. replace (Z.to_nat (d + Z.of_nat i - d)) with i by lia. by rewrite Hb.
  - symmetry. apply lookup_ge_None. lia.
Qed.

(** ** Memory that changes in given ranges only *)

Definition within (r : Z * Z) (x : Z) : Prop := r.1 <= x < r.1 + r.2.

Definition same_except (rs : list (Z * Z)) (m m' : memory) : Prop :=
  forall x, (forall r, In r rs -> ~ within r x) -> load8 m' x = load8 m x.

#[export] Instance same_except_preorder rs : PreOrder (same_except rs).
Proof. split; [by intros m x _|]. intros m1 m2 m3 H12 H23 x Hx. by rewrite H23, H12. Qed.

Lemma same_except_in rs a n m m' : In (a, n) rs -> same_outside a (a + n) m m' -> same_except rs m m'.
Proof. intros Hin Ho x Hx. apply Ho. apply (Hx _ Hin). Qed.

Lemma same_except_incl rs rs' m m' : incl rs rs' -> same_except rs m m' -> same_except rs' m m'.
Proof. intros Hs Ho x Hx. apply Ho. intros r Hr. apply Hx, Hs, Hr. Qed.
