(* ===== verification/CString.v ===== *)
(** * [kernel/string.c]: string and memory utilities

    Each routine runs on the byte memory.  A pointer parameter is an address;
    a pointer walking through an object is address arithmetic without
    wrap-around (C gives no meaning to a pointer that leaves its object).
    The loops over NUL-terminated strings take fuel; the theorems show that
    any fuel larger than the string's length gives the result.  The loops
    counted by [n] recurse on [n].

    [cstr m s l] says that the NUL-terminated string at [s] is the byte list
    [l]; the specifications relate each routine to lists. *)
From stdpp Require Import base numbers list gmap strings.
From Stdlib Require Import ZArith Lia.
From S2P Require Import Prelude.
From S2P Require Import Machine.

(** ** The routines *)

Fixpoint strlen_loop (fuel : nat) (m : memory) (s n : Z) : option Z :=
  match fuel with
  | O => None
  | S fuel' =>
      if load8 m (s + n) =? 0 then Some n
      else strlen_loop fuel' m s (n +₃₂ 1)
  end.

Definition strlen (fuel : nat) (m : memory) (s : Z) : option Z :=
  strlen_loop fuel m s 0.

Fixpoint strcmp (fuel : nat) (m : memory) (a b : Z) : option Z :=
  match fuel with
  | O => None
  | S fuel' =>
      if negb (load8 m a =? 0) && (load8 m a =? load8 m b)
      then strcmp fuel' m (a + 1) (b + 1)
      else Some (load8 m a - load8 m b)
  end.

(** [strncmp_loop n] is the loop [while (--n && *a && *a == *b)] entered with
    the counter at [n + 1]. *)
Fixpoint strncmp_loop (n : nat) (m : memory) (a b : Z) : Z :=
  match n with
  | O => load8 m a - load8 m b
  | S n' =>
      if negb (load8 m a =? 0) && (load8 m a =? load8 m b)
      then strncmp_loop n' m (a + 1) (b + 1)
      else load8 m a - load8 m b
  end.

Definition strncmp (m : memory) (a b : Z) (n : nat) : Z :=
  match n with
  | O => 0
  | S n' => strncmp_loop n' m a b
  end.

Fixpoint strcpy (fuel : nat) (m : memory) (d s : Z) : option memory :=
  match fuel with
  | O => None
  | S fuel' =>
      let c := load8 m s in
      let m' := store8 m d c in
      if c =? 0 then Some m' else strcpy fuel' m' (d + 1) (s + 1)
  end.

(** [while (n--) *d++ = c]: also the second loop of [strncpy]. *)
Fixpoint memset (m : memory) (p c : Z) (n : nat) : memory :=
  match n with
  | O => m
  | S n' => memset (store8 m p c) (p + 1) c n'
  end.

Fixpoint strncpy (m : memory) (d s : Z) (n : nat) : memory :=
  match n with
  | O => m
  | S n' =>
      let c := load8 m s in
      let m' := store8 m d c in
      if c =? 0 then memset m' (d + 1) 0 n
      else strncpy m' (d + 1) (s + 1) n'
  end.

Fixpoint memcpy (m : memory) (d s : Z) (n : nat) : memory :=
  match n with
  | O => m
  | S n' => memcpy (store8 m d (load8 m s)) (d + 1) (s + 1) n'
  end.

(** [while (n--) *--d = *--s], entered with [d] and [s] past the end. *)
Fixpoint memmove_down (m : memory) (d s : Z) (n : nat) : memory :=
  match n with
  | O => m
  | S n' => memmove_down (store8 m (d - 1) (load8 m (s - 1))) (d - 1) (s - 1) n'
  end.

Definition memmove (m : memory) (d s : Z) (n : nat) : memory :=
  if d <? s then memcpy m d s n
  else memmove_down m (d + Z.of_nat n) (s + Z.of_nat n) n.

Fixpoint memcmp (m : memory) (a b : Z) (n : nat) : Z :=
  match n with
  | O => 0
  | S n' =>
      if negb (load8 m a =? load8 m b) then load8 m a - load8 m b
      else memcmp m (a + 1) (b + 1) n'
  end.

(** ** Specification vocabulary *)

(** The NUL-terminated string at [s] is [l]. *)
Fixpoint cstr (m : memory) (s : Z) (l : list Z) : Prop :=
  match l with
  | [] => load8 m s = 0
  | c :: l' => load8 m s = c /\ c <> 0 /\ cstr m (s + 1) l'
  end.

(** Lexicographic order on byte strings. *)
Fixpoint lex_lt (l1 l2 : list Z) : Prop :=
  match l1, l2 with
  | _, [] => False
  | [], _ :: _ => True
  | c1 :: l1', c2 :: l2' => c1 < c2 \/ (c1 = c2 /\ lex_lt l1' l2')
  end.

(** The sign of the C comparison functions' result. *)
Definition cmp_spec (r : Z) (l1 l2 : list Z) : Prop :=
  (r = 0 <-> l1 = l2) /\ (r < 0 <-> lex_lt l1 l2).

(** ** Strings *)

Lemma cstr_nonzero m s l c : cstr m s l -> In c l -> 0 < c < 256.
Proof.
  revert s. induction l as [|c' l IH]; intros s; [done|].
  intros (Hc & Hn & Hl) [->|Hin]; [|by eapply IH].
  pose proof (load8_range m s). lia.
Qed.

Lemma cstr_ext m m' s l :
  (forall a, s <= a <= s + Z.of_nat (length l) -> load8 m' a = load8 m a) ->
  cstr m s l -> cstr m' s l.
Proof.
  revert s. induction l as [|c l IH]; intros s Hext; cbn [cstr length] in *.
  - intros. rewrite Hext by lia. done.
  - intros (Hc & Hn & Hl). split; [rewrite Hext by lia; done|]. split; [done|].
    apply IH; [|done]. intros; apply Hext; lia.
Qed.

(** A string copied byte by byte, terminator included. *)
Lemma cstr_copy m m' d s l :
  (forall i, 0 <= i <= Z.of_nat (length l) -> load8 m' (d + i) = load8 m (s + i)) ->
  cstr m s l -> cstr m' d l.
Proof.
  revert d s. induction l as [|c l IH]; intros d s H Hs; cbn [cstr length] in *.
  - specialize (H 0 ltac:(lia)). rewrite !Z.add_0_r in H. congruence.
  - destruct Hs as (Hc & Hz & Hl). split; [|split; [done|]].
    + specialize (H 0 ltac:(lia)). rewrite !Z.add_0_r in H. congruence.
    + apply (IH (d + 1) (s + 1)); [|done]. intros i Hi.
      rewrite <- !Z.add_assoc. apply H. lia.
Qed.

Lemma cstr_end m s l : cstr m s l -> load8 m (s + Z.of_nat (length l)) = 0.
Proof.
  revert s. induction l as [|c l IH]; intros s Hs; cbn [cstr length] in *.
  - by rewrite Z.add_0_r.
  - destruct Hs as (_ & _ & Hl). apply IH in Hl. rewrite <- Hl. f_equal. lia.
Qed.

(** A string is determined by the memory. *)
Lemma cstr_inj m s l1 l2 : cstr m s l1 -> cstr m s l2 -> l1 = l2.
Proof.
  revert s l2. induction l1 as [|c l1 IH]; intros s [|c' l2] H1 H2; cbn [cstr] in *.
  - done.
  - destruct H2 as (? & ? & ?). congruence.
  - destruct H1 as (? & ? & ?). congruence.
  - destruct H1 as (? & _ & H1), H2 as (? & _ & H2). f_equal; [congruence|by eapply IH].
Qed.

Lemma strlen_loop_ok m s l fuel n :
  cstr m (s + n) l -> (length l < fuel)%nat -> 0 <= n ->
  n + Z.of_nat (length l) < 2 ^ 32 ->
  strlen_loop fuel m s n = Some (n + Z.of_nat (length l)).
Proof.
  revert fuel n. induction l as [|c l IH]; intros fuel n Hs Hf Hn Hb;
    (destruct fuel as [|fuel]; [simpl in *; lia|]); cbn [strlen_loop cstr length] in *.
  - rewrite Hs. simpl. f_equal; lia.
  - destruct Hs as (Hc & Hnz & Hl). rewrite Hc.
    destruct (Z.eqb_spec c 0); [done|]. unwrap.
    rewrite IH; [f_equal; lia | by replace (s + (n + 1)) with (s + n + 1) by lia | lia..].
Qed.

Lemma cmp_spec_cons c l1 l2 r :
  cmp_spec r l1 l2 -> cmp_spec r (c :: l1) (c :: l2).
Proof.
  intros [H1 H2]. split; [rewrite H1; split; congruence|].
  rewrite H2. simpl. intuition lia.
Qed.

Lemma cmp_spec_head c1 c2 l1 l2 :
  c1 <> c2 -> cmp_spec (c1 - c2) (c1 :: l1) (c2 :: l2).
Proof. intros. split; [split; [lia|congruence]|]. simpl. intuition lia. Qed.

Lemma cmp_spec_nil_cons c l : 0 < c -> cmp_spec (0 - c) [] (c :: l).
Proof. intros. split; [split; [lia|done]|]. simpl. intuition lia. Qed.

Lemma cmp_spec_cons_nil c l : 0 < c -> cmp_spec (c - 0) (c :: l) [].
Proof. intros. split; [split; [lia|done]|]. simpl. intuition lia. Qed.

Lemma cmp_spec_nil : cmp_spec 0 [] [].
Proof. split; simpl; intuition lia. Qed.

#[export] Hint Resolve cmp_spec_cons cmp_spec_head cmp_spec_nil_cons cmp_spec_cons_nil
  cmp_spec_nil : mshka.

Lemma cstr_head_pos m s c l : cstr m s (c :: l) -> 0 < c.
Proof. intros H. eapply cstr_nonzero in H; [|by left]. lia. Qed.

Lemma strcmp_spec m a b la lb fuel :
  cstr m a la -> cstr m b lb -> (length la < fuel)%nat ->
  exists r, strcmp fuel m a b = Some r /\ cmp_spec r la lb.
Proof.
  revert a b lb fuel. induction la as [|c la IH]; intros a b lb fuel Ha Hb Hf;
    (destruct fuel as [|fuel]; [simpl in *; lia|]); cbn [strcmp].
  - simpl in Ha. rewrite Ha. simpl. eexists; split; [done|].
    destruct lb as [|c' lb].
    + simpl in Hb. rewrite Hb. apply cmp_spec_nil.
    + rewrite (proj1 Hb). apply cmp_spec_nil_cons. by eapply cstr_head_pos.
  - pose proof (cstr_head_pos _ _ _ _ Ha). destruct Ha as (Hc & Hn & Hla). rewrite Hc.
    destruct (Z.eqb_spec c 0); [done|]. simpl.
    destruct lb as [|c' lb].
    + simpl in Hb. rewrite Hb. destruct (Z.eqb_spec c 0); [done|].
      eexists; split; [done|]. by apply cmp_spec_cons_nil.
    + destruct Hb as (Hc' & Hn' & Hlb). rewrite Hc'. destruct (Z.eqb_spec c c') as [->|].
      * destruct (IH _ _ _ fuel Hla Hlb) as (r & Hr & Hs); [simpl in *; lia|].
        exists r. eauto with mshka.
      * eauto with mshka.
Qed.

Lemma strncmp_loop_spec m a b la lb n :
  cstr m a la -> cstr m b lb ->
  cmp_spec (strncmp_loop n m a b) (take (S n) la) (take (S n) lb).
Proof.
  revert a b la lb. induction n as [|n IH]; intros a b la lb Ha Hb; cbn [strncmp_loop].
  - destruct la as [|c la], lb as [|c' lb]; cbn [cstr] in *; simpl take.
    + rewrite Ha, Hb. apply cmp_spec_nil.
    + pose proof (cstr_head_pos _ _ _ _ Hb). destruct Hb as (Hb & _). rewrite Ha, Hb.
      auto with mshka.
    + pose proof (cstr_head_pos _ _ _ _ Ha). destruct Ha as (Ha & _). rewrite Ha, Hb.
      auto with mshka.
    + destruct Ha as (-> & _), Hb as (-> & _). destruct (decide (c = c')) as [->|].
      * rewrite Z.sub_diag. apply cmp_spec_cons. destruct la, lb; apply cmp_spec_nil.
      * auto with mshka.
  - destruct la as [|c la].
    + simpl in Ha. rewrite Ha. simpl. destruct lb as [|c' lb].
      * simpl in Hb. rewrite Hb. apply cmp_spec_nil.
      * pose proof (cstr_head_pos _ _ _ _ Hb). destruct Hb as (Hb & _).
        rewrite Hb, firstn_cons. auto with mshka.
    + pose proof (cstr_head_pos _ _ _ _ Ha). destruct Ha as (Hc & Hn & Hla). rewrite Hc.
      destruct (Z.eqb_spec c 0); [done|]. cbn [negb andb].
      destruct lb as [|c' lb].
      * simpl in Hb. rewrite Hb. destruct (Z.eqb_spec c 0); [done|].
        rewrite firstn_cons. auto with mshka.
      * destruct Hb as (Hc' & Hn' & Hlb). rewrite Hc'. destruct (Z.eqb_spec c c') as [->|].
        -- rewrite 2!firstn_cons. apply cmp_spec_cons, IH; done.
        -- rewrite 2!firstn_cons. auto with mshka.
Qed.

Lemma memcmp_bytes m a b n :
  cmp_spec (memcmp m a b n) (bytes_at m a n) (bytes_at m b n).
Proof.
  revert a b. induction n as [|n IH]; intros a b; cbn [memcmp bytes_at]; [apply cmp_spec_nil|].
  destruct (Z.eqb_spec (load8 m a) (load8 m b)) as [->|]; simpl; auto with mshka.
Qed.

(** ** Block operations *)

Lemma memset_load m p c n a :
  load8 (memset m p c n) a =
  if (p <=? a) && (a <? p + Z.of_nat n) then u8 c else load8 m a.
Proof.
  revert m p. induction n as [|n IH]; intros m p; cbn [memset].
  - zcases; simpl; try done; lia.
  - rewrite IH, load8_store8. zcases; simpl; try done; lia.
Qed.

(** Copying upwards is right whenever the destination does not start inside
    the source. *)
Lemma memcpy_load m d s n a :
  d <= s \/ s + Z.of_nat n <= d ->
  load8 (memcpy m d s n) a =
  if (d <=? a) && (a <? d + Z.of_nat n) then load8 m (s + (a - d)) else load8 m a.
Proof.
  revert m d s. induction n as [|n IH]; intros m d s Hd; cbn [memcpy].
  - zcases; simpl; try done; lia.
  - rewrite IH by lia. rewrite !load8_store8, (u8_small (load8 m s)) by apply load8_range.
    zcases; simpl; try lia; try done; f_equal; lia.
Qed.

Lemma memmove_down_load m d s n a :
  s <= d ->
  load8 (memmove_down m d s n) a =
  if (d - Z.of_nat n <=? a) && (a <? d) then load8 m (s + (a - d)) else load8 m a.
Proof.
  revert m d s. induction n as [|n IH]; intros m d s Hd; cbn [memmove_down].
  - zcases; simpl; try done; lia.
  - rewrite IH by lia. rewrite !load8_store8, (u8_small (load8 m (s - 1))) by apply load8_range.
    zcases; simpl; try lia; try done; f_equal; lia.
Qed.

Lemma memset_same_outside m p c n : same_outside p (p + Z.of_nat n) m (memset m p c n).
Proof. intros a Ha. rewrite memset_load. zcases; simpl; try done; lia. Qed.

Lemma memcpy_same_outside m d s n : same_outside d (d + Z.of_nat n) m (memcpy m d s n).
Proof.
  revert m d s. induction n as [|n IH]; intros m d s a Ha; cbn [memcpy]; [done|].
  rewrite (IH _ _ _ a) by lia. apply load8_store8_ne. lia.
Qed.

(** ** String copies *)

Lemma strcpy_ok m d s l fuel :
  cstr m s l -> (length l < fuel)%nat ->
  d + Z.of_nat (length l) < s \/ s + Z.of_nat (length l) < d ->
  exists m', strcpy fuel m d s = Some m' /\ cstr m' d l /\
    same_outside d (d + Z.of_nat (length l) + 1) m m'.
Proof.
  revert m d s fuel. induction l as [|c l IH]; intros m d s fuel Hs Hf Hd;
    (destruct fuel as [|fuel]; [simpl in *; lia|]); cbn [strcpy length cstr] in *.
  - rewrite Hs. simpl. eexists; split; [done|]. split.
    + by rewrite load8_store8_eq.
    + intros a Ha. apply load8_store8_ne. lia.
  - destruct Hs as (Hc & Hn & Hl). rewrite Hc. destruct (Z.eqb_spec c 0); [done|].
    destruct (IH (store8 m d c) (d + 1) (s + 1) fuel) as (m' & Hm' & Hc' & Ho).
    + apply cstr_ext with m; [|done]. intros a Ha. apply load8_store8_ne. lia.
    + lia.
    + lia.
    + exists m'. split; [done|]. split; [split|].
      * rewrite Ho by lia. rewrite load8_store8_eq. apply u8_small.
        rewrite <- Hc. apply load8_range.
      * done.
      * intros a Ha. rewrite Ho by lia. apply load8_store8_ne. lia.
Qed.

(** What [strncpy] leaves in memory when the source is shorter than [n]: the
    string, then NULs up to and including offset [n]. *)
Lemma strncpy_short m d s l n a :
  cstr m s l -> (length l < n)%nat ->
  d + Z.of_nat (length l) < s \/ s + Z.of_nat (length l) < d ->
  load8 (strncpy m d s n) a =
  if (d <=? a) && (a <? d + Z.of_nat (length l)) then load8 m (s + (a - d))
  else if (d + Z.of_nat (length l) <=? a) && (a <=? d + Z.of_nat n) then 0
  else load8 m a.
Proof.
  revert m d s n. induction l as [|c l IH]; intros m d s n Hs Hn Hd;
    (destruct n as [|n]; [simpl in *; lia|]); cbn [strncpy length cstr] in *.
  - rewrite Hs. cbn [Z.eqb]. rewrite memset_load, load8_store8. change (u8 0) with 0.
    zcases; simpl; try done; lia.
  - destruct Hs as (Hc & Hz & Hl). rewrite Hc. destruct (Z.eqb_spec c 0); [done|].
    rewrite IH; [| |lia|lia].
    + rewrite !load8_store8. rewrite (u8_small c) by (rewrite <- Hc; apply load8_range).
      zcases; simpl; try lia; try done; subst; f_equal; lia.
    + apply cstr_ext with m; [|done]. intros b Hb. apply load8_store8_ne. lia.
Qed.

(** ** Main results *)

(** [memmove] copies the [n] source bytes to the destination and changes
    no other byte, for every relative position of the two ranges, overlapping
    or not. *)
Theorem memmove_correct (m : memory) (d s : Z) (n : nat) (a : Z) :
  load8 (memmove m d s n) a =
  if (d <=? a) && (a <? d + Z.of_nat n) then load8 m (s + (a - d)) else load8 m a.
Proof.
  unfold memmove. destruct (Z.ltb_spec d s).
  - apply memcpy_load. lia.
  - rewrite memmove_down_load by lia.
    replace (d + Z.of_nat n - Z.of_nat n) with d by lia. zcases; simpl; try done; f_equal; lia.
Qed.

(** [strcmp] on two NUL-terminated strings returns (any fuel beyond the
    first string's length is enough); the result is 0 exactly when the strings
    are equal and negative exactly when the first is lexicographically
    smaller in unsigned bytes. *)
Theorem strcmp_correct (m : memory) (a b : Z) (la lb : list Z) (fuel : nat)
    (Ha : cstr m a la) (Hb : cstr m b lb) (Hf : (length la < fuel)%nat) :
  exists r, strcmp fuel m a b = Some r /\ cmp_spec r la lb.
Proof. by apply strcmp_spec. Qed.

Definition demo_strings : memory :=
  store_bytes (store_bytes ∅ 100 [101; 99; 104; 111; 0]) 200 [101; 120; 105; 116; 0].

Lemma strcmp_correct_witness :
  exists r, strcmp 5 demo_strings 100 200 = Some r /\
    cmp_spec r [101; 99; 104; 111] [101; 120; 105; 116].
Proof. apply (strcmp_correct demo_strings 100 200); [vm_compute; auto 20 with lia..|simpl; lia]. Defined.

(** [strncmp] compares the first [n] bytes of two NUL-terminated strings:
    0 exactly when the [n]-prefixes are equal, negative exactly when the first
    prefix is lexicographically smaller. *)
Theorem strncmp_correct (m : memory) (a b : Z) (la lb : list Z) (n : nat)
    (Ha : cstr m a la) (Hb : cstr m b lb) :
  cmp_spec (strncmp m a b n) (take n la) (take n lb).
Proof.
  destruct n as [|n]; [rewrite !take_0; apply cmp_spec_nil|]. by apply strncmp_loop_spec.
Qed.

Lemma strncmp_correct_witness :
  cmp_spec (strncmp demo_strings 100 200 1) (take 1 [101; 99; 104; 111]) (take 1 [101; 120; 105; 116]).
Proof. apply (strncmp_correct demo_strings 100 200); vm_compute; auto 20 with lia. Defined.

(** [strncpy] with a source shorter than [n] writes [n + 1] bytes: the
    byte at [d + n], one past the [n]-byte destination, becomes NUL.  (The
    first loop leaves [n] undecremented for the terminating NUL it copies.) *)
Theorem strncpy_writes_past_n (m : memory) (d s : Z) (l : list Z) (n : nat)
    (Hs : cstr m s l) (Hn : (length l < n)%nat)
    (Hd : d + Z.of_nat n < s \/ s + Z.of_nat (length l) < d) :
  cstr (strncpy m d s n) d l /\ load8 (strncpy m d s n) (d + Z.of_nat n) = 0.
Proof.
  assert (Hd' : d + Z.of_nat (length l) < s \/ s + Z.of_nat (length l) < d) by lia.
  pose proof (fun a => strncpy_short m d s l n a Hs Hn Hd') as Hload. split.
  - apply cstr_copy with m s; [|done]. intros i Hi. rewrite Hload.
    destruct (decide (i = Z.of_nat (length l))) as [->|].
    + rewrite (cstr_end m s l Hs). zcases; simpl; try done; lia.
    + zcases; simpl; try lia. f_equal; lia.
  - rewrite Hload. zcases; simpl; try done; lia.
Qed.

Lemma strncpy_writes_past_n_witness :
  cstr (strncpy demo_strings 300 100 6) 300 [101; 99; 104; 111] /\
  load8 (strncpy demo_strings 300 100 6) (300 + 6) = 0.
Proof.
  apply (strncpy_writes_past_n demo_strings 300 100 [101; 99; 104; 111] 6);
    [vm_compute; auto 20 with lia|simpl; lia..].
Defined.
