(* ===== verification/Io.v ===== *)
(** * [io.h]: port input and output

    A driver's view of the I/O ports: the log of the accesses it made, oldest
    first, and the values its next reads will see, which the device decides. *)
From stdpp Require Import base numbers list.
From Stdlib Require Import ZArith Lia.
From S2P Require Import Prelude.

Inductive io_op :=
  | OutB (port v : Z)
  | OutW (port v : Z)
  | OutL (port v : Z)
  | InB (port v : Z)
  | InW (port v : Z)
  | InL (port v : Z).

Record io := Io {
  io_log : list io_op;
  io_in : list Z;
}.

Definition io_push (s : io) (ops : list io_op) : io :=
  {| io_log := io_log s ++ ops; io_in := io_in s |}.
(** The next value the device presents. *)
Definition io_next (s : io) : Z := hd 0 (io_in s).
Definition io_drop (s : io) : io := {| io_log := io_log s; io_in := tl (io_in s) |}.

Definition inb (s : io) (port : Z) : Z * io :=
  let v := u8 (io_next s) in (v, io_push (io_drop s) [InB port v]).
Definition inw (s : io) (port : Z) : Z * io :=
  let v := u16 (io_next s) in (v, io_push (io_drop s) [InW port v]).
Definition inl_ (s : io) (port : Z) : Z * io :=
  let v := u32 (io_next s) in (v, io_push (io_drop s) [InL port v]).

Definition outb (s : io) (port data : Z) : io := io_push s [OutB port (u8 data)].
Definition outw (s : io) (port data : Z) : io := io_push s [OutW port (u16 data)].
Definition outl (s : io) (port data : Z) : io := io_push s [OutL port (u32 data)].
Definition io_wait (s : io) : io := outb s 0x80 0.

Lemma io_push_push s a b : io_push (io_push s a) b = io_push s (a ++ b).
Proof. unfold io_push. cbn [io_log io_in]. by rewrite app_assoc. Qed.

