(* ===== verification/Vga.v ===== *)
(** * [kernel/drivers/vga.c]: the text console

    The frame buffer is the 80 by 25 cells of 16 bits at [VGA_MEMORY] of the
    machine's memory; the cursor and colour are the driver's variables; the
    hardware cursor is set through ports.  The rest of the kernel is modelled as
    making the calls of [Machine.out_call]; [console_run] is what they do here.

    [term] is the terminal the driver implements: a grid of cells and a cursor,
    with the usual reading of the control characters. *)
From stdpp Require Import base numbers list gmap strings.
From Stdlib Require Import ZArith Lia.
From S2P Require Import Prelude.
From S2P Require Import Machine.
From S2P Require Import CString.
From S2P Require Import Io.

Definition VGA_WIDTH : Z := 80.
Definition VGA_HEIGHT : Z := 25.
Definition VGA_MEMORY : Z := 0xB8000.

Record vga := Vga {
  vga_ram : memory;
  vga_cursor_x : Z;
  vga_cursor_y : Z;
  vga_current_color : Z;
  vga_io : io;
}.

(** [vga_buffer[i]] *)
Definition get_cell (m : memory) (i : Z) : Z := load16 m (VGA_MEMORY + 2 * i).
Definition put_cell (m : memory) (i v : Z) : memory := store16 m (VGA_MEMORY + 2 * i) v.

Definition with_buffer (v : vga) (m : memory) : vga :=
  {| vga_ram := m; vga_cursor_x := vga_cursor_x v; vga_cursor_y := vga_cursor_y v;
     vga_current_color := vga_current_color v; vga_io := vga_io v |}.
Definition with_cursor (v : vga) (x y : Z) : vga :=
  {| vga_ram := vga_ram v; vga_cursor_x := x; vga_cursor_y := y;
     vga_current_color := vga_current_color v; vga_io := vga_io v |}.
Definition with_color (v : vga) (c : Z) : vga :=
  {| vga_ram := vga_ram v; vga_cursor_x := vga_cursor_x v; vga_cursor_y := vga_cursor_y v;
     vga_current_color := c; vga_io := vga_io v |}.
Definition with_io (v : vga) (s : io) : vga :=
  {| vga_ram := vga_ram v; vga_cursor_x := vga_cursor_x v; vga_cursor_y := vga_cursor_y v;
     vga_current_color := vga_current_color v; vga_io := s |}.

(** A [char] is signed: [(uint16_t)c] extends its sign. *)
Definition vga_entry (c color : Z) : Z := u16 (Z.lor (u16 c) (Z.shiftl color 8)).
Definition vga_color (fg bg : Z) : Z := u8 (Z.lor fg (Z.shiftl bg 4)).

Definition vga_update_cursor (v : vga) (x y : Z) : vga :=
  let pos := u16 (y * VGA_WIDTH + x) in
  with_io v (outb (outb (outb (outb (vga_io v) 0x3D4 0x0F) 0x3D5 (Z.land pos 0xFF))
    0x3D4 0x0E) 0x3D5 (Z.land (Z.shiftr pos 8) 0xFF)).

(** [for (...; i < ...; i++) vga_buffer[i] = blank;], [n] cells left. *)
Fixpoint fill_cells (n : nat) (m : memory) (i blank : Z) : memory :=
  match n with
  | O => m
  | S n' => fill_cells n' (put_cell m i blank) (i + 1) blank
  end.

Definition vga_clear (v : vga) (fg bg : Z) : vga :=
  let blank := vga_entry 32 (vga_color fg bg) in
  let m := fill_cells (Z.to_nat (VGA_WIDTH * VGA_HEIGHT)) (vga_ram v) 0 blank in
  vga_update_cursor (with_cursor (with_buffer v m) 0 0) 0 0.

Definition vga_set_color (v : vga) (fg bg : Z) : vga := with_color v (vga_color fg bg).

(** The loop over [x] of the copy, and the loop over [y]. *)
Fixpoint scroll_row (n : nat) (m : memory) (y x : Z) : memory :=
  match n with
  | O => m
  | S n' =>
      let src := (y + 1) * VGA_WIDTH + x in
      let dst := y * VGA_WIDTH + x in
      scroll_row n' (put_cell m dst (get_cell m src)) y (x + 1)
  end.
Fixpoint scroll_rows (n : nat) (m : memory) (y : Z) : memory :=
  match n with
  | O => m
  | S n' => scroll_rows n' (scroll_row (Z.to_nat VGA_WIDTH) m y 0) (y + 1)
  end.

Definition vga_scroll (v : vga) : vga :=
  let blank := vga_entry 32 (vga_current_color v) in
  let m := scroll_rows (Z.to_nat (VGA_HEIGHT - 1)) (vga_ram v) 0 in
  with_buffer v (fill_cells (Z.to_nat VGA_WIDTH) m ((VGA_HEIGHT - 1) * VGA_WIDTH) blank).

(** [c] is the value of the [char]. *)
Definition vga_putchar (v : vga) (c : Z) : vga :=
  let x := vga_cursor_x v in
  let y := vga_cursor_y v in
  let v1 :=
    if c =? 10 then with_cursor v 0 (u8 (y + 1))
    else if c =? 13 then with_cursor v 0 y
    else if c =? 9 then with_cursor v (u8 (Z.land (x + 8) (Z.lnot 7))) y
    else if c =? 8 then (if x >? 0 then with_cursor v (u8 (x - 1)) y else v)
    else
      with_cursor (with_buffer v (put_cell (vga_ram v) (y * VGA_WIDTH + x)
        (vga_entry c (vga_current_color v)))) (u8 (x + 1)) y in
  let v2 := if vga_cursor_x v1 >=? VGA_WIDTH then with_cursor v1 0 (u8 (vga_cursor_y v1 + 1)) else v1 in
  let v3 :=
    if vga_cursor_y v2 >=? VGA_HEIGHT
    then with_cursor (vga_scroll v2) (vga_cursor_x v2) (VGA_HEIGHT - 1) else v2 in
  vga_update_cursor v3 (vga_cursor_x v3) (vga_cursor_y v3).

Fixpoint puts_loop (fuel : nat) (v : vga) (str : Z) : option vga :=
  match fuel with
  | O => None
  | S fuel' =>
      if load8 (vga_ram v) str =? 0 then Some v
      else puts_loop fuel' (vga_putchar v (s8 (load8 (vga_ram v) str))) (str + 1)
  end.

Definition vga_puts (fuel : nat) (v : vga) (str : Z) : option vga :=
  if str =? 0 then Some v else puts_loop fuel v str.

Definition vga_putchar_at (v : vga) (c x y fg bg : Z) : vga :=
  if (x >=? VGA_WIDTH) || (y >=? VGA_HEIGHT) then v
  else with_buffer v (put_cell (vga_ram v) (y * VGA_WIDTH + x) (vga_entry c (vga_color fg bg))).

Definition vga_enable_cursor (v : vga) (enable : bool) : vga :=
  if enable then
    let s1 := outb (vga_io v) 0x3D4 0x0A in
    let '(a, s2) := inb s1 0x3D5 in
    let s3 := outb (outb s2 0x3D5 (Z.lor (Z.land a 0xC0) 0)) 0x3D4 0x0B in
    let '(b, s4) := inb s3 0x3D5 in
    with_io v (outb s4 0x3D5 (Z.lor (Z.land b 0xE0) 15))
  else with_io v (outb (outb (vga_io v) 0x3D4 0x0A) 0x3D5 0x20).

Definition vga_set_cursor_pos (v : vga) (x y : Z) : vga :=
  vga_update_cursor (with_cursor v x y) x y.

Definition vga_init (v : vga) : vga :=
  let v1 := with_color (with_cursor v 0 0) (vga_color VGA_COLOR_LIGHT_GREY VGA_COLOR_BLACK) in
  vga_enable_cursor (vga_clear v1 VGA_COLOR_LIGHT_GREY VGA_COLOR_BLACK) true.

(** The console calls the other components make, [VgaPuts] with a literal. *)
Definition console_step (v : vga) (c : out_call) : vga :=
  match c with
  | VgaClear fg bg => vga_clear v fg bg
  | VgaSetColor fg bg => vga_set_color v fg bg
  | VgaPutchar c => vga_putchar v c
  | VgaPuts s => fold_left (fun v c => vga_putchar v (s8 (Z.of_nat (Ascii.nat_of_ascii c))))
                   (String.list_ascii_of_string s) v
  | Klog _ => v
  end.
Definition console_run (v : vga) (cs : list out_call) : vga := fold_left console_step cs v.

(** ** Specification *)

Record term := Term {
  t_cell : Z -> Z -> Z;
  t_x : Z;
  t_y : Z;
}.

(** What a printed character looks like; the attribute of a character above 127
    is 255 instead of the current colour. *)
Definition glyph (color c : Z) : Z := (if c <? 0 then 255 else color) * 256 + c mod 256.

Definition t_wrap (t : term) : term :=
  if VGA_WIDTH <=? t_x t then {| t_cell := t_cell t; t_x := 0; t_y := t_y t + 1 |} else t.
Definition t_scroll (blank : Z) (t : term) : term :=
  if VGA_HEIGHT <=? t_y t then
    {| t_cell := fun x y => if y =? VGA_HEIGHT - 1 then blank else t_cell t x (y + 1);
       t_x := t_x t; t_y := VGA_HEIGHT - 1 |}
  else t.
(** A character before wrapping and scrolling. *)
Definition t_char (color c : Z) (t : term) : term :=
  if c =? 10 then {| t_cell := t_cell t; t_x := 0; t_y := t_y t + 1 |}
  else if c =? 13 then {| t_cell := t_cell t; t_x := 0; t_y := t_y t |}
  else if c =? 9 then {| t_cell := t_cell t; t_x := 8 * (t_x t / 8 + 1); t_y := t_y t |}
  else if c =? 8 then {| t_cell := t_cell t; t_x := Z.max 0 (t_x t - 1); t_y := t_y t |}
  else {| t_cell := fun x y => if (x =? t_x t) && (y =? t_y t) then glyph color c else t_cell t x y;
          t_x := t_x t + 1; t_y := t_y t |}.
Definition t_put (color : Z) (t : term) (c : Z) : term :=
  t_scroll (glyph color 32) (t_wrap (t_char color c t)).

Definition on_screen (x y : Z) : Prop := 0 <= x < VGA_WIDTH /\ 0 <= y < VGA_HEIGHT.

(** The driver shows the terminal. *)
Record shows (v : vga) (t : term) : Prop := {
  shows_x : vga_cursor_x v = t_x t;
  shows_y : vga_cursor_y v = t_y t;
  shows_cells : forall x y, on_screen x y -> get_cell (vga_ram v) (y * VGA_WIDTH + x) = t_cell t x y;
}.

(** The last cursor position sent to the hardware. *)
Definition hw_cursor (log : list io_op) : option Z :=
  match rev log with
  | OutB 0x3D5 hi :: OutB 0x3D4 0x0E :: OutB 0x3D5 lo :: OutB 0x3D4 0x0F :: _ => Some (hi * 256 + lo)
  | _ => None
  end.

Definition screen_end : Z := VGA_MEMORY + 2 * (VGA_WIDTH * VGA_HEIGHT).

(** ** Cells *)

Lemma get_put_cell m i v j : get_cell (put_cell m i v) j = if j =? i then u16 v else get_cell m j.
Proof.
  unfold get_cell, put_cell. destruct (Z.eqb_spec j i) as [->|].
  - apply (load_store_le_eq 2).
  - apply (load_store_le_disjoint 2 2). lia.
Qed.

Lemma put_cell_outside m i v :
  0 <= i < VGA_WIDTH * VGA_HEIGHT -> same_outside VGA_MEMORY screen_end m (put_cell m i v).
Proof.
  intros Hi a Ha. apply store_le_outside. unfold screen_end, VGA_WIDTH, VGA_HEIGHT in *. lia.
Qed.

Lemma get_cell_range m i : 0 <= get_cell m i < 2 ^ 16.
Proof. apply load16_range. Qed.

Lemma fill_cells_get n m i b j :
  get_cell (fill_cells n m i b) j =
    if (i <=? j) && (j <? i + Z.of_nat n) then u16 b else get_cell m j.
Proof.
  revert m i. induction n as [|n IH]; intros m i; cbn [fill_cells].
  - zcases; done || lia.
  - rewrite IH, get_put_cell. zcases; try lia; done.
Qed.

Lemma fill_cells_outside n m i b :
  0 <= i -> i + Z.of_nat n <= VGA_WIDTH * VGA_HEIGHT ->
  same_outside VGA_MEMORY screen_end m (fill_cells n m i b).
Proof.
  revert m i. induction n as [|n IH]; intros m i Hi Hn; cbn [fill_cells]; [apply same_outside_refl|].
  eapply same_outside_trans; [apply (put_cell_outside m i b); lia|apply IH; lia].
Qed.

Lemma scroll_row_get n m y x j :
  0 <= x -> x + Z.of_nat n <= VGA_WIDTH ->
  get_cell (scroll_row n m y x) j =
    if (y * VGA_WIDTH + x <=? j) && (j <? y * VGA_WIDTH + x + Z.of_nat n)
    then get_cell m (j + VGA_WIDTH) else get_cell m j.
Proof.
  unfold VGA_WIDTH. revert m x. induction n as [|n IH]; intros m x Hx Hn; cbn [scroll_row].
  - zcases; done || lia.
  - unfold VGA_WIDTH. rewrite IH by lia. rewrite !get_put_cell. pose proof (get_cell_range m).
    zcases; try lia; try done. rewrite u16_small by done. f_equal. lia.
Qed.

Lemma scroll_row_outside n m y x :
  0 <= x -> 0 <= y < VGA_HEIGHT -> x + Z.of_nat n <= VGA_WIDTH ->
  same_outside VGA_MEMORY screen_end m (scroll_row n m y x).
Proof.
  revert m x. induction n as [|n IH]; intros m x Hx Hy Hn; cbn [scroll_row]; [apply same_outside_refl|].
  eapply same_outside_trans; [|apply IH; lia].
  apply put_cell_outside. unfold VGA_WIDTH, VGA_HEIGHT in *. lia.
Qed.

Lemma scroll_rows_get n m y j :
  0 <= y ->
  get_cell (scroll_rows n m y) j =
    if (y * VGA_WIDTH <=? j) && (j <? (y + Z.of_nat n) * VGA_WIDTH)
    then get_cell m (j + VGA_WIDTH) else get_cell m j.
Proof.
  revert m y. induction n as [|n IH]; intros m y Hy; cbn [scroll_rows].
  - unfold VGA_WIDTH. zcases; done || lia.
  - rewrite IH by lia. rewrite !scroll_row_get by (unfold VGA_WIDTH; lia).
    change (Z.of_nat (Z.to_nat VGA_WIDTH)) with VGA_WIDTH. unfold VGA_WIDTH in *. zcases; try lia; done.
Qed.

Lemma scroll_rows_outside n m y :
  0 <= y -> y + Z.of_nat n <= VGA_HEIGHT -> same_outside VGA_MEMORY screen_end m (scroll_rows n m y).
Proof.
  revert m y. induction n as [|n IH]; intros m y Hy Hn; cbn [scroll_rows]; [apply same_outside_refl|].
  eapply same_outside_trans; [|apply IH; lia]. apply scroll_row_outside; [lia|lia|done].
Qed.

(** Every character of the driver looks like its glyph: the 2^16 cases. *)
Lemma vga_entry_glyph c color : -128 <= c < 128 -> 0 <= color < 256 -> vga_entry c color = glyph color c.
Proof.
  intros Hc Hk.
  assert (Hall : forallb (fun k => forallb (fun d => vga_entry (d - 128) k =? glyph k (d - 128)) (seqZ 0 256))
    (seqZ 0 256) = true) by (vm_compute; reflexivity).
  pose proof (forallb_below _ _ color Hall Hk) as Hrow.
  pose proof (forallb_below _ _ (c + 128) Hrow ltac:(lia)) as E. cbv beta in E.
  replace (c + 128 - 128) with c in E by lia. by apply Z.eqb_eq.
Qed.

Lemma glyph_range color c : 0 <= color < 256 -> 0 <= glyph color c < 2 ^ 16.
Proof. intros. unfold glyph. pose proof (Z.mod_pos_bound c 256). destruct (c <? 0); lia. Qed.

Lemma tab_stop x : 0 <= x < VGA_WIDTH -> u8 (Z.land (x + 8) (Z.lnot 7)) = 8 * (x / 8 + 1).
Proof.
  unfold VGA_WIDTH. intros Hx.
  assert (Hall : forallb (fun x => u8 (Z.land (x + 8) (Z.lnot 7)) =? 8 * (x / 8 + 1)) (seqZ 0 80) = true)
    by (vm_compute; reflexivity).
  apply Z.eqb_eq. by apply (forallb_below _ _ x Hall).
Qed.

Lemma update_cursor_hw v x y :
  on_screen x y -> hw_cursor (io_log (vga_io (vga_update_cursor v x y))) = Some (y * VGA_WIDTH + x).
Proof.
  unfold on_screen, VGA_WIDTH, VGA_HEIGHT. intros Hxy. unfold vga_update_cursor, outb, VGA_WIDTH, hw_cursor.
  cbn [vga_io with_io io_log io_push]. rewrite !rev_app_distr. cbn [rev app].
  set (pos := y * 80 + x). assert (Hp : 0 <= pos < 2000) by lia. change 255 with (Z.ones 8).
  rewrite !Z.land_ones, Z.shiftr_div_pow2 by lia. rewrite (u16_small pos) by lia.
  change (2 ^ 8) with 256. pose proof (Z.mod_pos_bound pos 256).
  assert (0 <= pos / 256 < 256) by (split; [apply Z.div_pos; lia|apply Z.div_lt_upper_bound; lia]).
  rewrite !u8_small by (rewrite ?Z.mod_small by done; lia). rewrite (Z.mod_small (pos / 256)) by done.
  change (u8 14) with 14. change (u8 15) with 15. cbn. f_equal. pose proof (Z.div_mod pos 256). lia.
Qed.

(** ** The terminal *)

(** What every console operation keeps. *)
Record vga_ok (v : vga) : Prop := {
  ok_cursor : on_screen (vga_cursor_x v) (vga_cursor_y v);
  ok_color : 0 <= vga_current_color v < 256;
}.

(** The character alone; the cursor may be one past the end of a line or of the
    screen. *)
Definition char_step (v : vga) (c : Z) : vga :=
  let x := vga_cursor_x v in
  let y := vga_cursor_y v in
  if c =? 10 then with_cursor v 0 (u8 (y + 1))
  else if c =? 13 then with_cursor v 0 y
  else if c =? 9 then with_cursor v (u8 (Z.land (x + 8) (Z.lnot 7))) y
  else if c =? 8 then (if x >? 0 then with_cursor v (u8 (x - 1)) y else v)
  else
    with_cursor (with_buffer v (put_cell (vga_ram v) (y * VGA_WIDTH + x)
      (vga_entry c (vga_current_color v)))) (u8 (x + 1)) y.

Lemma char_step_shows v t c :
  vga_ok v -> shows v t -> -128 <= c < 128 ->
  shows (char_step v c) (t_char (vga_current_color v) c t) /\
  0 <= t_x (t_char (vga_current_color v) c t) <= VGA_WIDTH /\
  0 <= t_y (t_char (vga_current_color v) c t) <= VGA_HEIGHT /\
  (t_x (t_char (vga_current_color v) c t) = VGA_WIDTH ->
   t_y (t_char (vga_current_color v) c t) < VGA_HEIGHT) /\
  vga_current_color (char_step v c) = vga_current_color v /\
  same_outside VGA_MEMORY screen_end (vga_ram v) (vga_ram (char_step v c)).
Proof.
  intros [Hon Hcol] [Hx Hy Hc] Hrange. pose proof Hon as [Hx' Hy']. rewrite Hx in Hx'. rewrite Hy in Hy'.
  unfold char_step, t_char. rewrite Hx, Hy. unfold VGA_WIDTH, VGA_HEIGHT in *.
  pose proof (same_outside_refl VGA_MEMORY screen_end (vga_ram v)) as Hrefl.
  destruct (c =? 10); [|destruct (c =? 13); [|destruct (c =? 9); [|destruct (c =? 8)]]];
    cbn [vga_ram vga_cursor_x vga_cursor_y vga_current_color with_cursor with_buffer t_x t_y t_cell].
  - rewrite u8_small by lia. repeat split; try done; lia.
  - repeat split; try done; lia.
  - rewrite tab_stop by done. assert (0 <= t_x t / 8 < 10) by (split; [apply Z.div_pos; lia|apply Z.div_lt_upper_bound; lia]).
    repeat split; try done; lia.
  - rewrite Z.gtb_ltb. destruct (Z.ltb_spec 0 (t_x t));
      cbn [vga_ram vga_cursor_x vga_cursor_y vga_current_color with_cursor].
    + rewrite u8_small by lia. repeat split; try done; cbn; lia.
    + repeat split; try done; cbn; lia.
  - rewrite u8_small by lia. repeat split; try done; try lia.
    + cbn [vga_ram with_cursor with_buffer t_cell]. intros x y Hon'. rewrite get_put_cell, vga_entry_glyph by done.
      unfold on_screen, VGA_WIDTH, VGA_HEIGHT in Hon'. pose proof (glyph_range (vga_current_color v) c Hcol).
      rewrite u16_small by done. unfold VGA_WIDTH.
      destruct (Z.eqb_spec (y * 80 + x) (t_y t * 80 + t_x t)), (Z.eqb_spec x (t_x t)), (Z.eqb_spec y (t_y t));
        cbn [andb]; try lia; try done; by apply Hc.
    + apply put_cell_outside. unfold VGA_WIDTH, VGA_HEIGHT. lia.
Qed.

(** Scrolling moves every line up by one and blanks the last. *)
Lemma vga_scroll_get v x y :
  on_screen x y -> 0 <= vga_current_color v < 256 ->
  get_cell (vga_ram (vga_scroll v)) (y * VGA_WIDTH + x) =
    if y =? VGA_HEIGHT - 1 then glyph (vga_current_color v) 32
    else get_cell (vga_ram v) ((y + 1) * VGA_WIDTH + x).
Proof.
  unfold on_screen. intros Hon Hc. unfold vga_scroll. cbn [vga_ram with_buffer].
  rewrite fill_cells_get, scroll_rows_get by lia. rewrite vga_entry_glyph by lia.
  pose proof (glyph_range (vga_current_color v) 32 Hc). rewrite u16_small by done.
  change (Z.of_nat (Z.to_nat VGA_WIDTH)) with VGA_WIDTH.
  change (0 + Z.of_nat (Z.to_nat (VGA_HEIGHT - 1))) with 24. unfold VGA_WIDTH, VGA_HEIGHT in *.
  zcases; try lia; try done. f_equal. lia.
Qed.

Lemma vga_scroll_outside v : same_outside VGA_MEMORY screen_end (vga_ram v) (vga_ram (vga_scroll v)).
Proof.
  unfold vga_scroll. cbn [vga_ram with_buffer]. eapply same_outside_trans.
  - apply (scroll_rows_outside (Z.to_nat (VGA_HEIGHT - 1)) _ 0); [lia|]; done.
  - apply fill_cells_outside; done.
Qed.

Lemma vga_putchar_step v c :
  vga_putchar v c =
    let v1 := char_step v c in
    let v2 := if vga_cursor_x v1 >=? VGA_WIDTH then with_cursor v1 0 (u8 (vga_cursor_y v1 + 1)) else v1 in
    let v3 := if vga_cursor_y v2 >=? VGA_HEIGHT
              then with_cursor (vga_scroll v2) (vga_cursor_x v2) (VGA_HEIGHT - 1) else v2 in
    vga_update_cursor v3 (vga_cursor_x v3) (vga_cursor_y v3).
Proof. reflexivity. Qed.

(** One character: the screen, the cursor on both sides, and nothing else. *)
Lemma vga_putchar_shows v t c :
  vga_ok v -> shows v t -> -128 <= c < 128 ->
  shows (vga_putchar v c) (t_put (vga_current_color v) t c) /\ vga_ok (vga_putchar v c) /\
  vga_current_color (vga_putchar v c) = vga_current_color v /\
  same_outside VGA_MEMORY screen_end (vga_ram v) (vga_ram (vga_putchar v c)) /\
  hw_cursor (io_log (vga_io (vga_putchar v c))) =
    Some (vga_cursor_y (vga_putchar v c) * VGA_WIDTH + vga_cursor_x (vga_putchar v c)).
Proof.
  intros Hok Hs Hc. rewrite vga_putchar_step. cbv zeta. unfold t_put.
  destruct (char_step_shows v t c Hok Hs Hc) as (Hs1 & Hx1 & Hy1 & Hxy1 & Hk1 & Ho1).
  set (v1 := char_step v c) in *. set (t1 := t_char (vga_current_color v) c t) in *.
  set (v2 := if vga_cursor_x v1 >=? VGA_WIDTH then _ else v1).
  assert (H2 : shows v2 (t_wrap t1) /\ 0 <= t_x (t_wrap t1) < VGA_WIDTH /\ 0 <= t_y (t_wrap t1) <= VGA_HEIGHT /\
    vga_current_color v2 = vga_current_color v /\ vga_ram v2 = vga_ram v1).
  { destruct Hs1 as [Ex Ey Ec]. unfold v2, t_wrap. rewrite Z.geb_leb, Ex, Ey.
    destruct (Z.leb_spec VGA_WIDTH (t_x t1)).
    - rewrite u8_small by (unfold VGA_WIDTH, VGA_HEIGHT in *; lia).
      split; [split; done|]. cbn. unfold VGA_WIDTH in *. split; [lia|]. split; [lia|done].
    - split; [by split|]. split; [lia|done]. }
  destruct H2 as (Hs2 & Hx2 & Hy2 & Hk2 & Hm2). set (t2 := t_wrap t1) in *.
  set (v3 := if vga_cursor_y v2 >=? VGA_HEIGHT then _ else v2).
  destruct Hs2 as [Ex Ey Ec]. destruct Hok as [_ Hcol].
  assert (H3 : shows v3 (t_scroll (glyph (vga_current_color v) 32) t2) /\
    on_screen (vga_cursor_x v3) (vga_cursor_y v3) /\ vga_current_color v3 = vga_current_color v /\
    same_outside VGA_MEMORY screen_end (vga_ram v1) (vga_ram v3)).
  { unfold v3, t_scroll, on_screen. rewrite Z.geb_leb, Ey. destruct (Z.leb_spec VGA_HEIGHT (t_y t2)).
    - split; [split; [done|done|]|].
      + intros x y Hon. cbn [vga_ram with_cursor t_cell]. rewrite vga_scroll_get by (rewrite ?Hk2; done).
        rewrite Hk2. destruct (Z.eqb_spec y (VGA_HEIGHT - 1)); [done|]. apply Ec.
        unfold on_screen, VGA_HEIGHT in *. lia.
      + cbn [vga_cursor_x vga_cursor_y with_cursor vga_current_color vga_ram]. rewrite Ex.
        split; [unfold VGA_HEIGHT; lia|]. split; [done|]. rewrite <- Hm2. apply vga_scroll_outside.
    - split; [by split|]. rewrite Ex, Ey. split; [lia|]. split; [done|]. rewrite Hm2. apply same_outside_refl. }
  destruct H3 as ([Ex3 Ey3 Ec3] & Hon3 & Hk3 & Ho3).
  split; [by split|]. split; [split; [done|by cbn; rewrite Hk3]|]. split; [done|].
  split; [by eapply same_outside_trans|]. by apply update_cursor_hw.
Qed.

Lemma puts_loop_shows fuel v t str l :
  vga_ok v -> shows v t -> cstr (vga_ram v) str l -> (length l < fuel)%nat ->
  (str + Z.of_nat (length l) < VGA_MEMORY \/ screen_end <= str) ->
  exists v', puts_loop fuel v str = Some v' /\ vga_ok v' /\
    shows v' (fold_left (t_put (vga_current_color v)) (map s8 l) t) /\
    same_outside VGA_MEMORY screen_end (vga_ram v) (vga_ram v') /\
    (l <> [] -> hw_cursor (io_log (vga_io v')) = Some (vga_cursor_y v' * VGA_WIDTH + vga_cursor_x v')).
Proof.
  revert v t str l. induction fuel as [|fuel IH]; intros v t str l Hok Hs Hl Hf Hout; [lia|].
  cbn [puts_loop]. destruct l as [|c l].
  - cbn [cstr] in Hl. rewrite Hl. exists v. repeat split; try done; try apply Hok; apply Hs.
  - cbn [cstr] in Hl. destruct Hl as (E & Hc0 & Hl). rewrite E. destruct (Z.eqb_spec c 0); [done|].
    assert (Hc : -128 <= s8 c < 128) by apply s8_range.
    destruct (vga_putchar_shows v t (s8 c) Hok Hs Hc) as (Hs1 & Hok1 & Hk1 & Ho1 & Hhw1).
    cbn [length] in Hf, Hout.
    destruct (IH (vga_putchar v (s8 c)) (t_put (vga_current_color v) t (s8 c)) (str + 1) l) as
      (v' & E' & Hok' & Hs' & Ho' & Hhw'); [done|done| |lia|lia|].
    { eapply cstr_ext; [|exact Hl]. intros a Ha. apply Ho1. lia. }
    rewrite Hk1 in Hs'. exists v'. split; [done|]. split; [done|]. split; [done|].
    split; [by eapply same_outside_trans|]. intros _. destruct l; [|by apply Hhw'].
    destruct fuel as [|fuel]; [lia|]. cbn [puts_loop cstr] in E', Hl.
    assert (Hz : load8 (vga_ram (vga_putchar v (s8 c))) (str + 1) = 0) by (rewrite Ho1; [done|cbn in Hout; lia]).
    rewrite Hz in E'. injection E' as <-. done.
Qed.

(** C14: [vga_puts] is the terminal [term]: whatever the string (outside the frame
    buffer), it returns with the screen and cursor that printing its characters
    one by one gives, control characters, wrapping and scrolling included; the
    cursor stays on the screen, the hardware cursor follows it, and no memory
    outside the frame buffer changes. *)
Theorem vga_puts_refines v t str l fuel :
  vga_ok v -> shows v t -> str <> 0 -> cstr (vga_ram v) str l ->
  (str + Z.of_nat (length l) < VGA_MEMORY \/ screen_end <= str) -> (length l < fuel)%nat ->
  exists v', vga_puts fuel v str = Some v' /\ vga_ok v' /\
    shows v' (fold_left (t_put (vga_current_color v)) (map s8 l) t) /\
    same_outside VGA_MEMORY screen_end (vga_ram v) (vga_ram v') /\
    (l <> [] -> hw_cursor (io_log (vga_io v')) = Some (vga_cursor_y v' * VGA_WIDTH + vga_cursor_x v')).
Proof.
  intros Hok Hs Hn Hl Ho Hf. unfold vga_puts. destruct (Z.eqb_spec str 0); [done|].
  by apply puts_loop_shows.
Qed.

(** The terminal a driver shows. *)
Definition screen (v : vga) : term :=
  {| t_cell := fun x y => get_cell (vga_ram v) (y * VGA_WIDTH + x);
     t_x := vga_cursor_x v; t_y := vga_cursor_y v |}.

Lemma shows_screen v : shows v (screen v).
Proof. by split. Qed.

(** After [vga_init] the screen is blank, the cursor at its origin. *)
Lemma vga_init_ok v :
  vga_ok (vga_init v) /\ vga_cursor_x (vga_init v) = 0 /\ vga_cursor_y (vga_init v) = 0 /\
  forall x y, on_screen x y -> get_cell (vga_ram (vga_init v)) (y * VGA_WIDTH + x) = glyph 7 32.
Proof.
  unfold vga_init, vga_enable_cursor, vga_clear, inb. cbn [vga_ram vga_cursor_x vga_cursor_y vga_io with_io
    vga_update_cursor with_cursor with_buffer with_color fst snd].
  split; [split; [done|by vm_compute]|]. split; [done|]. split; [done|]. intros x y Hon.
  rewrite fill_cells_get. unfold on_screen, VGA_WIDTH, VGA_HEIGHT in *. zcases; try lia. done.
Qed.

(** [vga_set_cursor_pos] does not check its arguments: the next character is
    stored past the frame buffer. *)
Lemma vga_set_cursor_pos_escapes v x y c :
  0 <= x < 255 -> VGA_HEIGHT <= y < 255 -> 32 <= c < 128 -> 0 <= vga_current_color v < 256 ->
  get_cell (vga_ram (vga_putchar (vga_set_cursor_pos v x y) c)) (y * VGA_WIDTH + x) =
    glyph (vga_current_color v) c /\
  screen_end <= VGA_MEMORY + 2 * (y * VGA_WIDTH + x).
Proof.
  unfold VGA_HEIGHT. intros Hx Hy Hc Hk. split; [|unfold screen_end, VGA_WIDTH, VGA_HEIGHT; lia].
  unfold vga_putchar, vga_set_cursor_pos, vga_update_cursor.
  cbn [vga_ram vga_cursor_x vga_cursor_y vga_current_color with_io with_cursor with_buffer].
  destruct (Z.eqb_spec c 10), (Z.eqb_spec c 13), (Z.eqb_spec c 9), (Z.eqb_spec c 8); try lia.
  cbn [vga_ram vga_cursor_x vga_cursor_y vga_current_color with_io with_cursor with_buffer].
  rewrite !Z.geb_leb, u8_small by lia. unfold VGA_WIDTH, VGA_HEIGHT.
  rewrite vga_entry_glyph by lia. pose proof (glyph_range (vga_current_color v) c Hk).
  set (cell := y * 80 + x).
  assert (Hmem : forall m blank, get_cell m cell = glyph (vga_current_color v) c ->
    get_cell (fill_cells (Z.to_nat 80) (scroll_rows (Z.to_nat (25 - 1)) m 0) ((25 - 1) * 80) blank) cell =
    glyph (vga_current_color v) c).
  { intros m blank E. rewrite fill_cells_get, scroll_rows_get by lia. unfold VGA_WIDTH, cell in *.
    zcases; try lia; done. }
  assert (Hput : get_cell (put_cell (vga_ram v) cell (glyph (vga_current_color v) c)) cell =
    glyph (vga_current_color v) c) by (rewrite get_put_cell, Z.eqb_refl; by apply u16_small).
  destruct (Z.leb_spec 80 (x + 1));
    cbn [vga_ram vga_cursor_x vga_cursor_y vga_current_color with_io with_cursor with_buffer].
  - rewrite u8_small by lia. destruct (Z.leb_spec 25 (y + 1)); [|lia]. by apply Hmem.
  - destruct (Z.leb_spec 25 y); [|lia]. by apply Hmem.
Qed.

(** A screen just initialised, with the string "Hi" at 4096. *)
Definition demo_vga : vga :=
  vga_init (Vga (store8 (store8 ∅ 4096 72) 4097 105) 0 0 0 (Io [] [])).

Lemma vga_puts_refines_witness :
  exists v', vga_puts 3 demo_vga 4096 = Some v' /\ vga_cursor_x v' = 2 /\ vga_cursor_y v' = 0.
Proof.
  destruct (vga_puts_refines demo_vga (screen demo_vga) 4096 [72; 105] 3) as (v' & R & _ & Hs & _).
  - apply vga_init_ok.
  - apply shows_screen.
  - discriminate.
  - vm_compute. repeat split; discriminate.
  - left. vm_compute. reflexivity.
  - cbn. lia.
  - exists v'. split; [exact R|]. destruct Hs as [Ex Ey _]. split; [rewrite Ex|rewrite Ey]; vm_compute; reflexivity.
Defined.
