(* ===== verification/Pic.v ===== *)
(** * [kernel/arch/x86_64/pic.c]: the interrupt controllers *)
From stdpp Require Import base numbers list strings.
From Stdlib Require Import ZArith Lia.
From S2P Require Import Prelude.
From S2P Require Import Machine.
From S2P Require Import Io.

Definition PIC1_COMMAND : Z := 0x20.
Definition PIC1_DATA : Z := 0x21.
Definition PIC2_COMMAND : Z := 0xA0.
Definition PIC2_DATA : Z := 0xA1.
Definition PIC_EOI : Z := 0x20.
Definition ICW1_ICW4 : Z := 0x01.
Definition ICW1_INIT : Z := 0x10.
Definition ICW4_8086 : Z := 0x01.
Definition IRQ_OFFSET : Z := 32.

(** A write followed by a delay. *)
Definition out_wait (s : io) (port data : Z) : io := io_wait (outb s port data).

Definition pic_init (w : machine) (s : io) : machine * io :=
  let w1 := emit w [VgaSetColor VGA_COLOR_YELLOW VGA_COLOR_BLACK; VgaPuts (line "Initializing PIC...")] in
  let s1 := out_wait (out_wait s PIC1_COMMAND (Z.lor ICW1_INIT ICW1_ICW4))
              PIC2_COMMAND (Z.lor ICW1_INIT ICW1_ICW4) in
  let s2 := out_wait (out_wait s1 PIC1_DATA IRQ_OFFSET) PIC2_DATA (IRQ_OFFSET + 8) in
  let s3 := out_wait (out_wait s2 PIC1_DATA 0x04) PIC2_DATA 0x02 in
  let s4 := out_wait (out_wait s3 PIC1_DATA ICW4_8086) PIC2_DATA ICW4_8086 in
  let s5 := outb (outb s4 PIC1_DATA 0xFF) PIC2_DATA 0xFF in
  (emit w1 [VgaSetColor VGA_COLOR_LIGHT_GREEN VGA_COLOR_BLACK; VgaPuts (line "  [OK] PIC remapped (IRQ 0-15 -> INT 32-47)");
            VgaPuts (line "  [OK] Master PIC: IRQ 0-7"); VgaPuts (line "  [OK] Slave PIC: IRQ 8-15" ++ nl)], s5).

Definition pic_send_eoi (s : io) (irq : Z) : io :=
  let s1 := if irq >=? 8 then outb s PIC2_COMMAND PIC_EOI else s in
  outb s1 PIC1_COMMAND PIC_EOI.

(** The data port of the controller of [irq], and its line there. *)
Definition irq_port (irq : Z) : Z := if irq <? 8 then PIC1_DATA else PIC2_DATA.
Definition irq_line (irq : Z) : Z := if irq <? 8 then irq else irq - 8.

Definition pic_enable_irq (s : io) (irq : Z) : io :=
  let '(v, s1) := inb s (irq_port irq) in
  outb s1 (irq_port irq) (Z.land v (Z.lnot (Z.shiftl 1 (irq_line irq)))).

Definition pic_disable_irq (s : io) (irq : Z) : io :=
  let '(v, s1) := inb s (irq_port irq) in
  outb s1 (irq_port irq) (Z.lor v (Z.shiftl 1 (irq_line irq))).

Definition pic_get_mask (s : io) : Z * io :=
  let '(hi, s1) := inb s PIC2_DATA in
  let '(lo, s2) := inb s1 PIC1_DATA in
  (u16 (Z.lor (Z.shiftl hi 8) lo), s2).

Definition pic_set_mask (s : io) (mask : Z) : io :=
  outb (outb s PIC1_DATA (Z.land mask 0xFF)) PIC2_DATA (Z.land (Z.shiftr mask 8) 0xFF).

(** ** Masks *)

(** The 16-bit mask after the accesses of a log to the two data ports. *)
Fixpoint mask_after (mask : Z * Z) (log : list io_op) : Z * Z :=
  match log with
  | [] => mask
  | OutB p v :: log' =>
      mask_after (if p =? PIC1_DATA then (v, mask.2) else if p =? PIC2_DATA then (mask.1, v) else mask) log'
  | _ :: log' => mask_after mask log'
  end.

(** Line [irq] is masked. *)
Definition masked (mask : Z * Z) (irq : Z) : bool :=
  Z.testbit (if irq <? 8 then mask.1 else mask.2) (irq_line irq).

Lemma u8_testbit x i : 0 <= i < 8 -> Z.testbit (u8 x) i = Z.testbit x i.
Proof. intros Hi. unfold u8, wrap. apply Z.mod_pow2_bits_low. lia. Qed.

Lemma shiftl_1_testbit k i : 0 <= k -> 0 <= i -> Z.testbit (Z.shiftl 1 k) i = (i =? k).
Proof.
  intros Hk Hi. rewrite Z.shiftl_1_l, Z.pow2_bits_eqb by done. apply Z.eqb_sym.
Qed.

Lemma irq_port_cases irq :
  0 <= irq < 16 ->
  (irq < 8 /\ irq_port irq = PIC1_DATA /\ irq_line irq = irq) \/
  (8 <= irq /\ irq_port irq = PIC2_DATA /\ irq_line irq = irq - 8).
Proof.
  intros Hi. unfold irq_port, irq_line. destruct (Z.ltb_spec irq 8); [left|right]; done.
Qed.

(** With a controller that presents its current mask when it is read,
    [pic_enable_irq] and [pic_disable_irq] change the mask of their line and of no
    other of the 16. *)
Theorem pic_irq_mask_correct s mask irq :
  0 <= irq < 16 -> io_next s = (if irq <? 8 then mask.1 else mask.2) ->
  0 <= mask.1 < 256 -> 0 <= mask.2 < 256 ->
  exists en dis,
    io_log (pic_enable_irq s irq) = io_log s ++ en /\ io_log (pic_disable_irq s irq) = io_log s ++ dis /\
    forall j, 0 <= j < 16 ->
      masked (mask_after mask en) j = (if j =? irq then false else masked mask j) /\
      masked (mask_after mask dis) j = (if j =? irq then true else masked mask j).
Proof.
  intros Hi Hn H1 H2. unfold pic_enable_irq, pic_disable_irq, inb, outb, io_push, io_drop.
  cbn [io_log io_in]. rewrite Hn. eexists _, _. rewrite <- !app_assoc. split; [reflexivity|].
  split; [reflexivity|]. intros j Hj. cbn [app mask_after].
  destruct (irq_port_cases irq Hi) as [(Hlt & -> & ->)|(Hge & -> & ->)];
    unfold masked, irq_line; destruct (Z.ltb_spec irq 8), (Z.ltb_spec j 8); try lia;
    cbn [fst snd Z.eqb]; change (PIC1_DATA =? PIC1_DATA) with true; change (PIC2_DATA =? PIC1_DATA) with false;
    change (PIC2_DATA =? PIC2_DATA) with true; cbn [fst snd];
    rewrite ?u8_testbit, ?Z.land_spec, ?Z.lor_spec, ?Z.lnot_spec, ?shiftl_1_testbit, ?u8_testbit by lia;
    split; destruct (Z.eqb_spec j irq) as [->|]; rewrite ?Z.eqb_refl;
    repeat match goal with |- context [?a =? ?b] => destruct (Z.eqb_spec a b); try lia end;
    rewrite ?andb_true_r, ?andb_false_r, ?orb_true_r, ?orb_false_r; done || lia.
Qed.

Lemma pic_irq_mask_correct_witness :
  exists en, io_log (pic_enable_irq (Io [] [0xFF]) 1) = en /\ masked (mask_after (0xFF, 0xFF) en) 1 = false.
Proof.
  destruct (pic_irq_mask_correct (Io [] [0xFF]) (0xFF, 0xFF) 1 ltac:(lia) eq_refl ltac:(cbn; lia) ltac:(cbn; lia))
    as (en & dis & E & _ & Hm).
  exists en. split; [exact E|]. destruct (Hm 1 ltac:(lia)) as [R _]. exact R.
Defined.
