(* ===== verification/Serial.v ===== *)
(** * [kernel/drivers/serial.c]: the serial console *)
From stdpp Require Import base numbers list gmap strings.
From Stdlib Require Import ZArith Lia.
From S2P Require Import Prelude.
From S2P Require Import Machine.
From S2P Require Import CString.
From S2P Require Import Io.

Definition COM1_PORT : Z := 0x3F8.

(** The result and the ports. *)
Definition serial_init (s : io) : Z * io :=
  let s1 := outb (outb (outb (outb s (COM1_PORT + 1) 0x00) (COM1_PORT + 3) 0x80)
              (COM1_PORT + 0) 0x03) (COM1_PORT + 1) 0x00 in
  let s2 := outb (outb (outb s1 (COM1_PORT + 3) 0x03) (COM1_PORT + 2) 0xC7) (COM1_PORT + 4) 0x0B in
  let s3 := outb (outb s2 (COM1_PORT + 4) 0x1E) (COM1_PORT + 0) 0xAE in
  let '(r, s4) := inb s3 (COM1_PORT + 0) in
  if negb (r =? 0xAE) then (-1, s4) else (0, outb s4 (COM1_PORT + 4) 0x0F).

Definition serial_is_transmit_empty (s : io) : Z * io :=
  let '(r, s1) := inb s (COM1_PORT + 5) in (Z.land r 0x20, s1).

(** [while (serial_is_transmit_empty() == 0);], for as long as [fuel] reads. *)
Fixpoint wait_empty (fuel : nat) (s : io) : option io :=
  match fuel with
  | O => None
  | S fuel' =>
      let '(e, s1) := serial_is_transmit_empty s in
      if e =? 0 then wait_empty fuel' s1 else Some s1
  end.

Definition serial_putc (fuel : nat) (s : io) (c : Z) : option io :=
  s1 ← wait_empty fuel s; Some (outb s1 COM1_PORT c).

(** The bytes of a string, each with [fuel] polls. *)
Fixpoint serial_put_bytes (fuel : nat) (s : io) (l : list Z) : option io :=
  match l with
  | [] => Some s
  | c :: l' =>
      s1 ← (if c =? 10 then serial_putc fuel s 13 else Some s);
      s2 ← serial_putc fuel s1 c;
      serial_put_bytes fuel s2 l'
  end.

(** The loop over the string at [str], at most [n] bytes. *)
Fixpoint serial_puts_loop (n fuel : nat) (m : memory) (s : io) (str : Z) : option io :=
  match n with
  | O => None
  | S n' =>
      let c := load8 m str in
      if c =? 0 then Some s
      else
        s1 ← (if c =? 10 then serial_putc fuel s 13 else Some s);
        s2 ← serial_putc fuel s1 c;
        serial_puts_loop n' fuel m s2 (str + 1)
  end.

Definition serial_puts (n fuel : nat) (m : memory) (s : io) (str : Z) : option io :=
  if str =? 0 then Some s else serial_puts_loop n fuel m s str.

Definition serial_println (n fuel : nat) (m : memory) (s : io) (str : Z) : option io :=
  s1 ← serial_puts n fuel m s str;
  s2 ← serial_putc fuel s1 13;
  serial_putc fuel s2 10.

Definition hex_char (d : Z) : Z := if d <? 10 then 48 + d else 55 + d.
(** [for (int i = 28; i >= 0; i -= 4)], [n] digits left. *)
Fixpoint put_hex_loop (n fuel : nat) (s : io) (v : Z) : option io :=
  match n with
  | O => Some s
  | S n' =>
      s1 ← serial_putc fuel s (hex_char (Z.land (Z.shiftr v (4 * Z.of_nat n')) 0xF));
      put_hex_loop n' fuel s1 v
  end.
Definition serial_put_hex32 (fuel : nat) (s : io) (v : Z) : option io :=
  s1 ← serial_put_bytes fuel s [48; 120];
  put_hex_loop 8 fuel s1 v.

(** ["[klog] "], the message, and the line end. *)
Definition klog (n fuel : nat) (m : memory) (s : io) (msg : Z) : option io :=
  s1 ← serial_put_bytes fuel s [91; 107; 108; 111; 103; 93; 32];
  s2 ← serial_puts n fuel m s1 msg;
  s3 ← serial_putc fuel s2 13;
  serial_putc fuel s3 10.

(** ** What goes out on the line *)

(** The bytes sent through the data port. *)
Definition sent (log : list io_op) : list Z :=
  omap (fun o => match o with OutB p v => if p =? COM1_PORT then Some v else None | _ => None end) log.

(** Newlines get a carriage return. *)
Definition crlf (l : list Z) : list Z := flat_map (fun c => if c =? 10 then [13; 10] else [c]) l.

(** The device is ready at each of the next [n] polls. *)
Definition ready (s : io) (n : nat) : Prop :=
  (n <= length (io_in s))%nat /\ Forall (fun v => Z.testbit v 5 = true) (take n (io_in s)).

Lemma sent_app a b : sent (a ++ b) = sent a ++ sent b.
Proof. apply omap_app. Qed.

Lemma transmit_ready v : Z.testbit v 5 = true -> Z.land (u8 v) 0x20 <> 0.
Proof.
  intros Hv E. apply (f_equal (fun x => Z.testbit x 5)) in E.
  rewrite Z.land_spec in E. unfold u8, wrap in E. rewrite Z.mod_pow2_bits_low in E by lia.
  rewrite Hv in E. done.
Qed.

Lemma serial_putc_ok fuel s c n :
  ready s (S n) -> (0 < fuel)%nat -> 0 <= c < 256 ->
  exists s', serial_putc fuel s c = Some s' /\ ready s' n /\ sent (io_log s') = sent (io_log s) ++ [c].
Proof.
  intros [Hl Hf] Hfuel Hc. destruct s as [log inp]. cbn [io_in] in *.
  destruct inp as [|v inp]; [cbn in Hl; lia|]. cbn [take] in Hf. inversion Hf as [|? ? Hv Hf']; subst.
  destruct fuel as [|fuel]; [lia|]. unfold serial_putc. cbn [wait_empty].
  unfold serial_is_transmit_empty, inb, io_next, io_push, io_drop. cbn [io_in io_log hd tl].
  pose proof (transmit_ready v Hv). destruct (Z.eqb_spec (Z.land (u8 v) 32) 0); [done|].
  cbn [mbind option_bind]. eexists. split; [reflexivity|]. unfold outb, io_push. cbn [io_in io_log].
  split; [split; [cbn in *; lia|done]|]. rewrite !sent_app. cbn. rewrite app_nil_r, u8_small; done.
Qed.

Lemma serial_puts_loop_ok m l str s n fuel :
  cstr m str l -> (length l < n)%nat -> (0 < fuel)%nat -> ready s (length (crlf l)) ->
  exists s', serial_puts_loop n fuel m s str = Some s' /\ sent (io_log s') = sent (io_log s) ++ crlf l.
Proof.
  revert str s n. induction l as [|c l IH]; intros str s n Hl Hn Hf Hr;
    (destruct n as [|n]; [cbn in Hn; lia|]); cbn [serial_puts_loop].
  - cbn [cstr] in Hl. rewrite Hl. exists s. by rewrite app_nil_r.
  - pose proof (cstr_nonzero _ _ _ c Hl (or_introl eq_refl)) as Hc0. destruct Hl as (E & Hc & Hl).
    rewrite E. destruct (Z.eqb_spec c 0); [done|]. cbn [crlf flat_map length] in Hr, Hn |- *.
    fold (crlf l) in *. destruct (Z.eqb_spec c 10) as [->|]; cbn [app length] in Hr |- *.
    + destruct (serial_putc_ok fuel s 13 _ Hr Hf ltac:(lia)) as (s1 & -> & Hr1 & E1). cbn [mbind option_bind].
      destruct (serial_putc_ok fuel s1 10 _ Hr1 Hf ltac:(lia)) as (s2 & -> & Hr2 & E2). cbn [mbind option_bind].
      destruct (IH (str + 1) s2 n) as (s' & -> & E'); [done|lia|done|done|].
      exists s'. split; [done|]. rewrite E', E2, E1, <- !app_assoc. done.
    + cbn [mbind option_bind].
      destruct (serial_putc_ok fuel s c _ Hr Hf ltac:(lia)) as (s2 & -> & Hr2 & E2). cbn [mbind option_bind].
      destruct (IH (str + 1) s2 n) as (s' & -> & E'); [done|lia|done|done|].
      exists s'. split; [done|]. rewrite E', E2, <- !app_assoc. done.
Qed.

(** [serial_puts] sends the string with every newline as a carriage return and a
    newline. *)
Lemma serial_puts_crlf m l str s n fuel :
  str <> 0 -> cstr m str l -> (length l < n)%nat -> (0 < fuel)%nat -> ready s (length (crlf l)) ->
  exists s', serial_puts n fuel m s str = Some s' /\ sent (io_log s') = sent (io_log s) ++ crlf l.
Proof.
  intros Hs. unfold serial_puts. destruct (Z.eqb_spec str 0); [done|]. apply serial_puts_loop_ok.
Qed.
