(* ===== verification/Keyboard.v ===== *)
(** * [kernel/drivers/keyboard.c]: scancodes and the key buffer

    The interrupt handler is the producer of a ring buffer whose consumer,
    [keyboard_getchar], it may interrupt between any two of its accesses.
    [kb_step] is that interleaving: the handler runs to its end (interrupts are off
    while it does), the consumer in three steps.  A scancode is the byte the
    handler reads from [KB_DATA_PORT]. *)
From stdpp Require Import base numbers list gmap strings relations.
From Stdlib Require Import ZArith Lia.
From S2P Require Import Prelude.
From S2P Require Import Machine.
From S2P Require Import Io.
From S2P Require Import Pic.

Definition KB_DATA_PORT : Z := 0x60.
Definition KB_STATUS_PORT : Z := 0x64.
Definition KB_BUFFER_SIZE : Z := 256.
Definition KB_MOD_LSHIFT : Z := 0x01.
Definition KB_MOD_RSHIFT : Z := 0x02.
Definition KB_MOD_CTRL : Z := 0x04.
Definition KB_MOD_ALT : Z := 0x08.
Definition KB_MOD_CAPSLOCK : Z := 0x10.

(** The translation tables, without their trailing zeros. *)
Definition sc_normal : list Z :=
  [0; 27; 49; 50; 51; 52; 53; 54;
   55; 56; 57; 48; 45; 61; 8; 9;
   113; 119; 101; 114; 116; 121; 117; 105;
   111; 112; 91; 93; 10; 0; 97; 115;
   100; 102; 103; 104; 106; 107; 108; 59;
   39; 96; 0; 92; 122; 120; 99; 118;
   98; 110; 109; 44; 46; 47; 0; 42;
   0; 32; 0; 0; 0; 0; 0; 0;
   0; 0; 0; 0; 0; 0; 0; 0;
   0; 0; 45; 0; 0; 0; 43; 0;
   0; 0; 0; 46; 0; 0; 0; 0].
Definition sc_shifted : list Z :=
  [0; 27; 33; 64; 35; 36; 37; 94;
   38; 42; 40; 41; 95; 43; 8; 9;
   81; 87; 69; 82; 84; 89; 85; 73;
   79; 80; 123; 125; 10; 0; 65; 83;
   68; 70; 71; 72; 74; 75; 76; 58;
   34; 126; 0; 124; 90; 88; 67; 86;
   66; 78; 77; 60; 62; 63; 0; 42;
   0; 32; 0; 0; 0; 0; 0; 0;
   0; 0; 0; 0; 0; 0; 0; 0;
   0; 0; 45; 0; 0; 0; 43; 0;
   0; 0; 0; 46; 0; 0; 0; 0].

Definition table_at (t : list Z) (key : Z) : Z := default 0 (t !! Z.to_nat key).

Record kbd := Kbd {
  modifiers : Z;
  extended_pending : bool;
  kb_buffer : list Z;
  kb_head : Z;
  kb_tail : Z;
  wait_func : Z;
  kbd_io : io;
}.

Definition with_modifiers (k : kbd) (m : Z) : kbd :=
  {| modifiers := m; extended_pending := extended_pending k; kb_buffer := kb_buffer k;
     kb_head := kb_head k; kb_tail := kb_tail k; wait_func := wait_func k; kbd_io := kbd_io k |}.
Definition with_extended (k : kbd) (e : bool) : kbd :=
  {| modifiers := modifiers k; extended_pending := e; kb_buffer := kb_buffer k;
     kb_head := kb_head k; kb_tail := kb_tail k; wait_func := wait_func k; kbd_io := kbd_io k |}.
Definition with_tail (k : kbd) (t : Z) : kbd :=
  {| modifiers := modifiers k; extended_pending := extended_pending k; kb_buffer := kb_buffer k;
     kb_head := kb_head k; kb_tail := t; wait_func := wait_func k; kbd_io := kbd_io k |}.
Definition with_kbd_io (k : kbd) (s : io) : kbd :=
  {| modifiers := modifiers k; extended_pending := extended_pending k; kb_buffer := kb_buffer k;
     kb_head := kb_head k; kb_tail := kb_tail k; wait_func := wait_func k; kbd_io := s |}.

Definition buf_put (k : kbd) (c : Z) : kbd :=
  let next := (kb_head k + 1) mod KB_BUFFER_SIZE in
  if next =? kb_tail k then k
  else {| modifiers := modifiers k; extended_pending := extended_pending k;
          kb_buffer := <[Z.to_nat (kb_head k) := c]> (kb_buffer k);
          kb_head := next; kb_tail := kb_tail k; wait_func := wait_func k; kbd_io := kbd_io k |}.

Definition is_alpha (c : Z) : bool :=
  ((c >=? 97) && (c <=? 122)) || ((c >=? 65) && (c <=? 90)).
Definition toggle_case (c : Z) : Z :=
  if (c >=? 97) && (c <=? 122) then c - 32
  else if (c >=? 65) && (c <=? 90) then c + 32 else c.

(** [modifiers &= ~flag] on release, [modifiers |= flag] on press. *)
Definition track (k : kbd) (flag : Z) (released : bool) : kbd :=
  with_modifiers k (if released then Z.land (modifiers k) (u8 (Z.lnot flag)) else Z.lor (modifiers k) flag).

(** The character of a key, 0 for none. *)
Definition key_char (mods key : Z) : Z :=
  let shift := negb (Z.land mods (Z.lor KB_MOD_LSHIFT KB_MOD_RSHIFT) =? 0) in
  let c := if shift then table_at sc_shifted key else table_at sc_normal key in
  if negb (c =? 0) && is_alpha c && negb (Z.land mods KB_MOD_CAPSLOCK =? 0) then toggle_case c else c.

(** The part of the handler between the read of the scancode and the end of
    interrupt. *)
Definition handle_scancode (k : kbd) (scancode : Z) : kbd :=
  if scancode =? 0xE0 then with_extended k true
  else if extended_pending k then with_extended k false
  else
    let released := negb (Z.land scancode 0x80 =? 0) in
    let key := Z.land scancode 0x7F in
    if key =? 0x2A then track k KB_MOD_LSHIFT released
    else if key =? 0x36 then track k KB_MOD_RSHIFT released
    else if key =? 0x1D then track k KB_MOD_CTRL released
    else if key =? 0x38 then track k KB_MOD_ALT released
    else if (key =? 0x3A) && negb released then with_modifiers k (Z.lxor (modifiers k) KB_MOD_CAPSLOCK)
    else if released then k
    else
      let c := key_char (modifiers k) key in
      if negb (c =? 0) then buf_put k c else k.

Definition keyboard_irq_handler (k : kbd) : kbd :=
  let '(scancode, s1) := inb (kbd_io k) KB_DATA_PORT in
  let k2 := handle_scancode (with_kbd_io k s1) scancode in
  with_kbd_io k2 (pic_send_eoi (kbd_io k2) 1).

(** [while (inb(KB_STATUS_PORT) & 0x01) inb(KB_DATA_PORT);], at most [fuel] reads of
    the status. *)
Fixpoint flush (fuel : nat) (s : io) : option io :=
  match fuel with
  | O => None
  | S fuel' =>
      let '(st, s1) := inb s KB_STATUS_PORT in
      if Z.land st 0x01 =? 0 then Some s1 else flush fuel' (inb s1 KB_DATA_PORT).2
  end.

(** The vector whose handler is registered is returned for the caller's table. *)
Definition keyboard_init (fuel : nat) (w : machine) (k : kbd) : option (machine * kbd * Z) :=
  s1 ← flush fuel (kbd_io k);
  let k1 := {| modifiers := 0; extended_pending := false; kb_buffer := kb_buffer k; kb_head := 0;
               kb_tail := 0; wait_func := 0; kbd_io := pic_enable_irq s1 1 |} in
  Some (emit w [VgaSetColor VGA_COLOR_LIGHT_GREEN VGA_COLOR_BLACK; VgaPuts (line "  [OK] Keyboard driver initialized (IRQ1)" ++ nl)], k1, 33).

(** One wait of [keyboard_getchar]: the interrupts that arrive during it. *)
Definition irqs (n : nat) (k : kbd) : kbd := Nat.iter n keyboard_irq_handler k.

(** [keyboard_getchar] when the successive waits bring these numbers of keyboard
    interrupts; [None] when they run out. *)
Fixpoint keyboard_getchar (waits : list nat) (k : kbd) : option (Z * kbd) :=
  if kb_head k =? kb_tail k then
    match waits with
    | [] => None
    | n :: waits' => keyboard_getchar waits' (irqs n k)
    end
  else
    Some (default 0 (kb_buffer k !! Z.to_nat (kb_tail k)),
          with_tail k ((kb_tail k + 1) mod KB_BUFFER_SIZE)).

Definition keyboard_has_input (k : kbd) : bool := negb (kb_head k =? kb_tail k).
Definition keyboard_get_modifiers (k : kbd) : Z := modifiers k.
Definition keyboard_set_wait_func (k : kbd) (func : Z) : kbd :=
  {| modifiers := modifiers k; extended_pending := extended_pending k; kb_buffer := kb_buffer k;
     kb_head := kb_head k; kb_tail := kb_tail k; wait_func := func; kbd_io := kbd_io k |}.

(** ** The buffer as a queue *)

(** The number of waiting characters, and the characters, oldest first. *)
Definition waiting (k : kbd) : Z := (kb_head k - kb_tail k) mod KB_BUFFER_SIZE.
Definition queue (k : kbd) : list Z :=
  map (fun i => default 0 (kb_buffer k !! Z.to_nat ((kb_tail k + i) mod KB_BUFFER_SIZE))) (seqZ 0 (waiting k)).

Record kbd_inv (k : kbd) : Prop := {
  inv_buf : length (kb_buffer k) = Z.to_nat KB_BUFFER_SIZE;
  inv_head : 0 <= kb_head k < KB_BUFFER_SIZE;
  inv_tail : 0 <= kb_tail k < KB_BUFFER_SIZE;
}.

(** The character a scancode types in the state [k], if any. *)
Definition typed (k : kbd) (sc : Z) : option Z :=
  if (sc =? 0xE0) || extended_pending k || negb (Z.land sc 0x80 =? 0) then None
  else
    let key := Z.land sc 0x7F in
    if bool_decide (key ∈ [0x2A; 0x36; 0x1D; 0x38; 0x3A]) then None
    else let c := key_char (modifiers k) key in if c =? 0 then None else Some c.

(** ** The consumer and the handler, interleaved *)

Inductive consumer := CCheck | CFetch | CAdvance (c : Z).

Record kworld := KWorld {
  kw_kbd : kbd;
  kw_pc : consumer;
  (** the characters [keyboard_getchar] returned, oldest first *)
  kw_got : list Z;
  (** the characters typed while the buffer had room *)
  kw_accepted : list Z;
}.

Definition accepts (k : kbd) (sc : Z) : list Z :=
  match typed k sc with
  | Some c => if waiting k <? KB_BUFFER_SIZE - 1 then [c] else []
  | None => []
  end.

Inductive kb_step : kworld -> kworld -> Prop :=
  (** the handler, on the scancode the controller holds *)
  | kb_step_irq k pc got acc :
      kb_step (KWorld k pc got acc)
        (KWorld (keyboard_irq_handler k) pc got (acc ++ accepts k (u8 (io_next (kbd_io k)))))
  (** [kb_head == kb_tail] is false, or another round of the loop *)
  | kb_step_check k got acc :
      keyboard_has_input k = true -> kb_step (KWorld k CCheck got acc) (KWorld k CFetch got acc)
  | kb_step_spin k got acc :
      keyboard_has_input k = false -> kb_step (KWorld k CCheck got acc) (KWorld k CCheck got acc)
  (** [char c = kb_buffer[kb_tail];] *)
  | kb_step_fetch k got acc :
      kb_step (KWorld k CFetch got acc)
        (KWorld k (CAdvance (default 0 (kb_buffer k !! Z.to_nat (kb_tail k)))) got acc)
  (** [kb_tail = (kb_tail + 1) % KB_BUFFER_SIZE; return c;] *)
  | kb_step_advance k c got acc :
      kb_step (KWorld k (CAdvance c) got acc)
        (KWorld (with_tail k ((kb_tail k + 1) mod KB_BUFFER_SIZE)) CCheck (got ++ [c]) acc).

Lemma length_queue k : Z.of_nat (length (queue k)) = waiting k.
Proof.
  unfold queue. rewrite length_map, length_seqZ. unfold waiting, KB_BUFFER_SIZE.
  pose proof (Z.mod_pos_bound (kb_head k - kb_tail k) 256). lia.
Qed.

Lemma waiting_range k : 0 <= waiting k < KB_BUFFER_SIZE.
Proof. apply Z.mod_pos_bound. done. Qed.

(** The handler leaves the queue alone unless it puts a character. *)
Lemma queue_same k k' :
  kb_buffer k' = kb_buffer k -> kb_head k' = kb_head k -> kb_tail k' = kb_tail k ->
  queue k' = queue k /\ (kbd_inv k -> kbd_inv k').
Proof.
  intros E1 E2 E3. split; [unfold queue, waiting; by rewrite E1, E2, E3|].
  intros [I1 I2 I3]. split; congruence.
Qed.

Lemma buf_put_full k c : kbd_inv k -> waiting k = KB_BUFFER_SIZE - 1 -> buf_put k c = k.
Proof.
  intros [_ Hh Ht] Hw. unfold buf_put. unfold waiting, KB_BUFFER_SIZE in *.
  destruct (Z.eqb_spec ((kb_head k + 1) mod 256) (kb_tail k)); [done|]. dlia.
Qed.

Lemma buf_put_room k c :
  kbd_inv k -> waiting k < KB_BUFFER_SIZE - 1 -> queue (buf_put k c) = queue k ++ [c] /\ kbd_inv (buf_put k c).
Proof.
  intros [Hb Hh Ht] Hw. unfold buf_put.
  assert (Hne : (kb_head k + 1) mod KB_BUFFER_SIZE <> kb_tail k).
  { unfold waiting, KB_BUFFER_SIZE in *. clear Hb. dlia. }
  destruct (Z.eqb_spec ((kb_head k + 1) mod KB_BUFFER_SIZE) (kb_tail k)); [done|].
  split; [|split; cbn [kb_buffer kb_head kb_tail]; [by rewrite length_insert|by apply Z.mod_pos_bound|done]].
  unfold queue, waiting. cbn [kb_buffer kb_head kb_tail].
  assert (Hw1 : ((kb_head k + 1) mod KB_BUFFER_SIZE - kb_tail k) mod KB_BUFFER_SIZE =
    (kb_head k - kb_tail k) mod KB_BUFFER_SIZE + 1).
  { unfold waiting, KB_BUFFER_SIZE in *. clear Hb. dlia. }
  rewrite Hw1. pose proof (waiting_range k) as Hr. fold (waiting k).
  rewrite seqZ_app by lia. rewrite map_app. f_equal.
  - apply map_ext_in. intros i Hi%list_elem_of_In. rewrite elem_of_seqZ in Hi.
    rewrite list_lookup_insert_ne; [done|]. unfold waiting, KB_BUFFER_SIZE in *. clear Hb Hw1.
    intros E. apply Z2Nat.inj in E; [|lia|apply Z.mod_pos_bound; lia]. dlia.
  - change (seqZ (0 + waiting k) 1) with [0 + waiting k]. cbn [map].
    assert (Hi : (kb_tail k + (0 + waiting k)) mod KB_BUFFER_SIZE = kb_head k).
    { unfold waiting, KB_BUFFER_SIZE in *. clear Hb Hw1. dlia. }
    rewrite Hi, list_lookup_insert_eq; [done|]. unfold KB_BUFFER_SIZE in *. lia.
Qed.

(** A scancode adds the character it types, if there is room. *)
Lemma handle_scancode_queue k sc :
  kbd_inv k -> queue (handle_scancode k sc) = queue k ++ accepts k sc /\ kbd_inv (handle_scancode k sc).
Proof.
  intros Hi. unfold handle_scancode, accepts, typed.
  assert (Hsame : forall k', kb_buffer k' = kb_buffer k -> kb_head k' = kb_head k -> kb_tail k' = kb_tail k ->
    queue k' = queue k ++ [] /\ kbd_inv k').
  { intros k' E1 E2 E3. destruct (queue_same k k' E1 E2 E3) as [-> Hk]. rewrite app_nil_r. by split; [|apply Hk]. }
  destruct (sc =? 0xE0); [by apply Hsame|]. destruct (extended_pending k); [by apply Hsame|]. cbn [orb].
  set (key := Z.land sc 0x7F). set (rel := negb (Z.land sc 0x80 =? 0)).
  destruct rel; cbn [negb orb andb].
  { rewrite andb_false_r. repeat match goal with |- context [if ?b then _ else _] => destruct b end; by apply Hsame. }
  rewrite andb_true_r. case_bool_decide as Hin.
  - rewrite !elem_of_cons in Hin.
    destruct (Z.eqb_spec key 0x2A); [by apply Hsame|]. destruct (Z.eqb_spec key 0x36); [by apply Hsame|].
    destruct (Z.eqb_spec key 0x1D); [by apply Hsame|]. destruct (Z.eqb_spec key 0x38); [by apply Hsame|].
    destruct (Z.eqb_spec key 0x3A); [by apply Hsame|]. exfalso.
    destruct Hin as [|[|[|[|[|Hin]]]]]; [done..|]. by apply not_elem_of_nil in Hin.
  - rewrite !not_elem_of_cons in Hin. destruct Hin as (N1 & N2 & N3 & N4 & N5 & _).
    apply Z.eqb_neq in N1, N2, N3, N4, N5. rewrite N1, N2, N3, N4, N5. cbv zeta.
    destruct (key_char (modifiers k) key =? 0); cbn [negb]; [by apply Hsame|].
    pose proof (waiting_range k). destruct (Z.ltb_spec (waiting k) (KB_BUFFER_SIZE - 1)).
    + by apply buf_put_room.
    + rewrite buf_put_full by (done || lia). by apply Hsame.
Qed.

Lemma irq_handler_queue k :
  kbd_inv k ->
  queue (keyboard_irq_handler k) = queue k ++ accepts k (u8 (io_next (kbd_io k))) /\
  kbd_inv (keyboard_irq_handler k).
Proof.
  intros Hi. unfold keyboard_irq_handler, inb. cbn [fst snd].
  set (k1 := with_kbd_io k _). set (sc := u8 (io_next (kbd_io k))).
  assert (Hk1 : kbd_inv k1) by (by apply (queue_same k k1)).
  destruct (handle_scancode_queue k1 sc Hk1) as [E Hi'].
  set (k2 := handle_scancode k1 sc) in *.
  destruct (queue_same k2 (with_kbd_io k2 (pic_send_eoi (kbd_io k2) 1))) as [E2 Hi2]; [done..|].
  split; [|by apply Hi2]. rewrite E2, E. done.
Qed.

(** Taking the oldest character. *)
Lemma queue_advance k :
  kbd_inv k -> keyboard_has_input k = true ->
  queue k = default 0 (kb_buffer k !! Z.to_nat (kb_tail k)) ::
            queue (with_tail k ((kb_tail k + 1) mod KB_BUFFER_SIZE)) /\
  kbd_inv (with_tail k ((kb_tail k + 1) mod KB_BUFFER_SIZE)).
Proof.
  intros [Hb Hh Ht] Hin. unfold keyboard_has_input in Hin.
  destruct (Z.eqb_spec (kb_head k) (kb_tail k)) as [|Hne]; [done|]. clear Hin.
  split; [|split; cbn [kb_buffer kb_head kb_tail with_tail]; [done|done|by apply Z.mod_pos_bound]].
  unfold queue, waiting. cbn [kb_buffer kb_head kb_tail with_tail].
  assert (Hw1 : (kb_head k - kb_tail k) mod KB_BUFFER_SIZE =
    1 + (kb_head k - (kb_tail k + 1) mod KB_BUFFER_SIZE) mod KB_BUFFER_SIZE).
  { unfold KB_BUFFER_SIZE in *. clear Hb. dlia. }
  rewrite Hw1. pose proof (Z.mod_pos_bound (kb_head k - (kb_tail k + 1) mod KB_BUFFER_SIZE) KB_BUFFER_SIZE eq_refl).
  rewrite seqZ_app by lia. change (seqZ 0 1) with [0]. cbn [app map]. f_equal.
  - rewrite Z.add_0_r, Z.mod_small by done. done.
  - change (0 + 1) with (Z.add 1 0). rewrite <- fmap_add_seqZ.
    change (Z.add 1 <$> ?l) with (map (Z.add 1) l). rewrite map_map.
    apply map_ext_in. intros i Hi%list_elem_of_In. rewrite elem_of_seqZ in Hi. do 3 f_equal.
    rewrite Z.add_mod_idemp_l by done. f_equal. lia.
Qed.

Lemma has_input_queue k : kbd_inv k -> keyboard_has_input k = true <-> queue k <> [].
Proof.
  intros [_ Hh Ht]. unfold keyboard_has_input. pose proof (length_queue k) as Hl. split.
  - intros Hne E. rewrite E in Hl. cbn [length] in Hl.
    destruct (Z.eqb_spec (kb_head k) (kb_tail k)) as [|Hn]; [done|].
    unfold waiting, KB_BUFFER_SIZE in *. dlia.
  - intros Hq. destruct (Z.eqb_spec (kb_head k) (kb_tail k)) as [E|]; [|done]. exfalso. apply Hq.
    unfold queue, waiting. by rewrite E, Z.sub_diag.
Qed.

(** The consumer's progress agrees with the queue, and nothing accepted is lost. *)
Record kw_inv (w : kworld) : Prop := {
  kw_ok : kbd_inv (kw_kbd w);
  kw_split : kw_accepted w = kw_got w ++ queue (kw_kbd w);
  kw_at : match kw_pc w with
          | CCheck => True
          | CFetch => queue (kw_kbd w) <> []
          | CAdvance c => exists q, queue (kw_kbd w) = c :: q
          end;
}.

Lemma kw_inv_step w w' : kw_inv w -> kb_step w w' -> kw_inv w'.
Proof.
  intros [Hok Hsplit Hat] Hstep. destruct Hstep; cbn [kw_kbd kw_pc kw_got kw_accepted] in *.
  - destruct (irq_handler_queue k Hok) as [Eq Hi]. split; cbn [kw_kbd kw_pc kw_got kw_accepted]; [done| |].
    + by rewrite Eq, Hsplit, app_assoc.
    + rewrite Eq. destruct pc; [done| |].
      * by destruct (queue k).
      * destruct Hat as [q ->]. by eexists.
  - split; [done|done|]. by apply has_input_queue.
  - by split.
  - split; [done|done|]. cbn [kw_kbd kw_pc]. destruct (queue_advance k Hok) as [E _]; [by apply has_input_queue|].
    by eexists.
  - destruct Hat as [q Eq]. destruct (queue_advance k Hok) as [E Hi]; [apply has_input_queue; [done|by rewrite Eq]|].
    rewrite Eq in E. injection E as -> ->. split; [done| |done].
    cbn [kw_accepted kw_got kw_kbd]. by rewrite Hsplit, Eq, <- app_assoc.
Qed.

(** C12: the key buffer is a lossless FIFO under every interleaving of the
    interrupt handler with the three steps of [keyboard_getchar]: what the reader
    has returned, followed by what waits in the ring, is exactly what was typed
    while fewer than 255 characters were waiting, in order; at most 255 wait. *)
Theorem keyboard_fifo k w :
  kbd_inv k -> queue k = [] -> rtc kb_step (KWorld k CCheck [] []) w ->
  kw_accepted w = kw_got w ++ queue (kw_kbd w) /\ (length (queue (kw_kbd w)) <= 255)%nat /\
  (forall c q, queue (kw_kbd w) = c :: q -> forall waits,
     exists k', keyboard_getchar waits (kw_kbd w) = Some (c, k') /\ queue k' = q).
Proof.
  intros Hi Hq Hr.
  assert (Hw : kw_inv w).
  { apply (rtc_ind_l (fun w0 => kw_inv w0 -> kw_inv w) w) with (3 := Hr).
    - done.
    - intros x y Hxy _ IH Hx. apply IH. by eapply kw_inv_step.
    - split; [done|by cbn [kw_accepted kw_got kw_kbd]; rewrite Hq|done]. }
  destruct Hw as [Hok Hsplit _]. split; [done|]. split.
  - pose proof (length_queue (kw_kbd w)). pose proof (waiting_range (kw_kbd w)). unfold KB_BUFFER_SIZE in *. lia.
  - intros c q Eq waits. assert (Hin : keyboard_has_input (kw_kbd w) = true).
    { apply has_input_queue; [done|by rewrite Eq]. }
    destruct (queue_advance _ Hok Hin) as [E _]. rewrite Eq in E. injection E as Ec Eq'.
    eexists. split; [|symmetry; exact Eq']. unfold keyboard_has_input in Hin.
    destruct waits; cbn [keyboard_getchar]; (destruct (kb_head (kw_kbd w) =? kb_tail (kw_kbd w)); [done|]);
      by rewrite Ec.
Qed.

(** The 26 letter keys give a capital exactly when one of shift and caps lock is on. *)
Definition letter_keys : list (Z * Z) :=
  [(0x1E, 97); (0x30, 98); (0x2E, 99); (0x20, 100); (0x12, 101); (0x21, 102); (0x22, 103); (0x23, 104);
   (0x17, 105); (0x24, 106); (0x25, 107); (0x26, 108); (0x32, 109); (0x31, 110); (0x18, 111); (0x19, 112);
   (0x10, 113); (0x13, 114); (0x1F, 115); (0x14, 116); (0x16, 117); (0x2F, 118); (0x11, 119); (0x2D, 120);
   (0x15, 121); (0x2C, 122)].

Lemma key_char_letters mods key c :
  0 <= mods < 32 -> In (key, c) letter_keys ->
  key_char mods key =
    if xorb (Z.testbit mods 0 || Z.testbit mods 1) (Z.testbit mods 4) then c - 32 else c.
Proof.
  intros Hm Hin.
  assert (Hall : forallb (fun m => forallb (fun p => key_char m p.1 =?
      if xorb (Z.testbit m 0 || Z.testbit m 1) (Z.testbit m 4) then p.2 - 32 else p.2) letter_keys)
    (seqZ 0 32) = true) by (vm_compute; reflexivity).
  pose proof (forallb_below _ _ mods Hall Hm) as Hrow. cbv beta in Hrow.
  rewrite forallb_forall in Hrow. specialize (Hrow _ Hin). by apply Z.eqb_eq.
Qed.

(** A keyboard after its initialisation, with the scancodes of "a" to come. *)
Definition demo_kbd : kbd := Kbd 0 false (replicate 256 0) 0 0 0 (Io [] [0x1E; 0x9E]).

Lemma keyboard_fifo_witness :
  exists w, rtc kb_step (KWorld demo_kbd CCheck [] []) w /\ kw_accepted w = [97] /\
    kw_accepted w = kw_got w ++ queue (kw_kbd w).
Proof.
  set (w := KWorld (keyboard_irq_handler demo_kbd) CCheck [] [97]).
  assert (Hr : rtc kb_step (KWorld demo_kbd CCheck [] []) w).
  { apply rtc_once. exact (kb_step_irq demo_kbd CCheck [] []). }
  exists w. split; [exact Hr|]. split; [reflexivity|].
  apply (keyboard_fifo demo_kbd w); [|reflexivity|exact Hr].
  split; [reflexivity| |]; cbn; unfold KB_BUFFER_SIZE; lia.
Defined.
