(* ===== verification/Net.v ===== *)
(** * [kernel/net/net.c]: ARP and ICMP echo

    Frames are bytes in memory.  [net_tx] is the list of the frames handed to
    [e1000_send], oldest first; what [e1000_receive] put in the buffer is an
    argument of [net_poll].  [our_mac] and [our_ip] are the static arrays, and
    comparing with them by [memcmp] is equality of the bytes
    ([CString.memcmp_bytes]).  The ARP reply is a local array whose 42 bytes are
    all assigned: it is built as a list.  The ICMP reply is the static array at
    [reply], copied from the frame and changed in place. *)
From stdpp Require Import base numbers list gmap strings.
From Stdlib Require Import ZArith Lia.
From S2P Require Import Prelude.
From S2P Require Import Machine.
From S2P Require Import CString.

Definition ETH_TYPE_ARP : Z := 0x0806.
Definition ETH_TYPE_IP : Z := 0x0800.
Definition ARP_OP_REQUEST : Z := 1.
Definition ARP_OP_REPLY : Z := 2.
Definition IP_PROTO_ICMP : Z := 1.
Definition ICMP_ECHO_REPLY : Z := 0.
Definition ICMP_ECHO_REQUEST : Z := 8.

Definition sizeof_eth : Z := 14.
Definition sizeof_arp : Z := 28.
Definition sizeof_ip : Z := 20.
Definition sizeof_icmp : Z := 8.

(** The fields, by their addresses. *)
Definition eth_dst (f : Z) : Z := f.
Definition eth_src (f : Z) : Z := f + 6.
Definition eth_ethertype (f : Z) : Z := f + 12.
Definition arp_operation (p : Z) : Z := p + 6.
Definition arp_sender_mac (p : Z) : Z := p + 8.
Definition arp_sender_ip (p : Z) : Z := p + 14.
Definition arp_target_ip (p : Z) : Z := p + 24.
Definition ip_ver_ihl (p : Z) : Z := p.
Definition ip_total_length (p : Z) : Z := p + 2.
Definition ip_ttl (p : Z) : Z := p + 8.
Definition ip_protocol (p : Z) : Z := p + 9.
Definition ip_cksum (p : Z) : Z := p + 10.
Definition ip_src (p : Z) : Z := p + 12.
Definition ip_dst (p : Z) : Z := p + 16.
Definition icmp_type (p : Z) : Z := p.
Definition icmp_cksum (p : Z) : Z := p + 2.

Definition htons (v : Z) : Z := u16 (Z.lor (Z.shiftr v 8) (Z.shiftl v 8)).
Definition ntohs (v : Z) : Z := htons v.

Record net := Net {
  our_mac : list Z;
  our_ip : list Z;
  net_tx : list (list Z);
}.

Definition net_send (n : net) (f : list Z) : net :=
  {| our_mac := our_mac n; our_ip := our_ip n; net_tx := net_tx n ++ [f] |}.

(** ** The checksum *)

(** [while (len > 1) { sum += *p++; len -= 2; }] and the odd byte. *)
Fixpoint sum_loop (k : nat) (m : memory) (p len sum : Z) : Z :=
  match k with
  | O => sum
  | S k' =>
      if 1 <? len then sum_loop k' m (p + 2) (len - 2) (sum +₃₂ load16 m p)
      else if len =? 0 then sum else sum +₃₂ load8 m p
  end.

(** [while (sum >> 16) sum = (sum & 0xFFFF) + (sum >> 16);] *)
Fixpoint fold_loop (fuel : nat) (sum : Z) : option Z :=
  if Z.shiftr sum 16 =? 0 then Some sum
  else match fuel with
       | O => None
       | S fuel' => fold_loop fuel' (Z.land sum 0xFFFF +₃₂ Z.shiftr sum 16)
       end.

(** Rounds after which the carries are gone. *)
Definition FOLD_FUEL : nat := 2.

Definition ip_checksum (m : memory) (data len : Z) : option Z :=
  sum ← fold_loop FOLD_FUEL (sum_loop (S (Z.to_nat (len / 2))) m data len 0);
  Some (u16 (Z.lnot sum)).

(** ** Handlers *)

(** The bytes of a 16-bit value in memory. *)
Definition le16 (v : Z) : list Z := [v mod 256; v / 256].

Definition handle_arp (w : machine) (n : net) (frame len : Z) : machine * net :=
  if len <? sizeof_eth + sizeof_arp then (w, n)
  else
    let arp := frame + sizeof_eth in
    if negb (ntohs (load16 (ram w) (arp_operation arp)) =? ARP_OP_REQUEST) then (w, n)
    else if negb (bool_decide (bytes_at (ram w) (arp_target_ip arp) 4 = our_ip n)) then (w, n)
    else
      let w1 := emit w [Klog "net: ARP request for us, sending reply"] in
      let sender_mac := bytes_at (ram w) (arp_sender_mac arp) 6 in
      let sender_ip := bytes_at (ram w) (arp_sender_ip arp) 4 in
      let reply :=
        sender_mac ++ our_mac n ++ le16 (htons ETH_TYPE_ARP) ++
        le16 (htons 1) ++ le16 (htons 0x0800) ++ [6; 4] ++ le16 (htons ARP_OP_REPLY) ++
        our_mac n ++ our_ip n ++ sender_mac ++ sender_ip in
      (w1, net_send n reply).

(** [memcpy] into memory from a static array. *)
Definition put_bytes (m : memory) (d : Z) (l : list Z) : memory := store_bytes m d l.

Definition handle_icmp (w : machine) (n : net) (reply frame len : Z) : option (machine * net) :=
  let ip := frame + sizeof_eth in
  let ip_hdr_len := Z.land (load8 (ram w) (ip_ver_ihl ip)) 0x0F * 4 in
  let ip_total := ntohs (load16 (ram w) (ip_total_length ip)) in
  if len <? sizeof_eth + ip_hdr_len + sizeof_icmp then Some (w, n)
  else
    let icmp := frame + sizeof_eth + ip_hdr_len in
    if negb (load8 (ram w) (icmp_type icmp) =? ICMP_ECHO_REQUEST) then Some (w, n)
    else
      let w1 := emit w [Klog "net: ICMP echo request, sending reply"] in
      let reply_len := u16 (sizeof_eth + ip_total) in
      if reply_len >? 1518 then Some (w1, n)
      else
        let m1 := memcpy (ram w1) reply frame (Z.to_nat reply_len) in
        let rip := reply + sizeof_eth in
        let ricmp := reply + sizeof_eth + ip_hdr_len in
        let m2 := memcpy m1 (eth_dst reply) (eth_src frame) 6 in
        let m3 := put_bytes m2 (eth_src reply) (our_mac n) in
        let m4 := memcpy m3 (ip_dst rip) (ip_src ip) 4 in
        let m5 := put_bytes m4 (ip_src rip) (our_ip n) in
        let m6 := store8 m5 (ip_ttl rip) 64 in
        let m7 := store16 m6 (ip_cksum rip) 0 in
        c1 ← ip_checksum m7 rip ip_hdr_len;
        let m8 := store16 m7 (ip_cksum rip) c1 in
        let m9 := store8 m8 (icmp_type ricmp) ICMP_ECHO_REPLY in
        let m10 := store16 m9 (icmp_cksum ricmp) 0 in
        let icmp_len := u16 (ip_total - ip_hdr_len) in
        c2 ← ip_checksum m10 ricmp icmp_len;
        let m11 := store16 m10 (icmp_cksum ricmp) c2 in
        Some (set_ram w1 m11, net_send n (bytes_at m11 reply (Z.to_nat reply_len))).

Definition handle_ip (w : machine) (n : net) (reply frame len : Z) : option (machine * net) :=
  if len <? sizeof_eth + sizeof_ip then Some (w, n)
  else
    let ip := frame + sizeof_eth in
    if negb (Z.shiftr (load8 (ram w) (ip_ver_ihl ip)) 4 =? 4) then Some (w, n)
    else if negb (bool_decide (bytes_at (ram w) (ip_dst ip) 4 = our_ip n)) then Some (w, n)
    else if load8 (ram w) (ip_protocol ip) =? IP_PROTO_ICMP then handle_icmp w n reply frame len
    else Some (w, n).

Definition net_init (w : machine) (n : net) (mac : list Z) : machine * net :=
  (emit w [Klog "net: stack initialized"], {| our_mac := mac; our_ip := our_ip n; net_tx := net_tx n |}).

Definition net_set_ip (n : net) (a b c d : Z) : net :=
  {| our_mac := our_mac n; our_ip := [a; b; c; d]; net_tx := net_tx n |}.

Definition net_get_ip (w : machine) (n : net) (ip : Z) : machine := set_ram w (put_bytes (ram w) ip (our_ip n)).

(** [e1000_receive] returned [len] and left the frame at [buf]. *)
Definition net_poll (w : machine) (n : net) (reply buf len : Z) : option (machine * net) :=
  if len <=? 0 then Some (w, n)
  else if u16 len <? sizeof_eth then Some (w, n)
  else
    let type := ntohs (load16 (ram w) (eth_ethertype buf)) in
    if type =? ETH_TYPE_ARP then Some (handle_arp w n buf (u16 len))
    else if type =? ETH_TYPE_IP then handle_ip w n reply buf (u16 len)
    else Some (w, n).

(** ** Specification *)

(** The sum of the 16-bit words of a byte sequence, the last byte of an odd one
    counting as its own word. *)
Fixpoint words (l : list Z) : Z :=
  match l with
  | a :: b :: l' => a + 256 * b + words l'
  | [a] => a
  | [] => 0
  end.

(** The Internet checksum of the sequence verifies: the one's complement sum of
    its words is all ones. *)
Definition cksum_ok (l : list Z) : Prop := words l <> 0 /\ words l mod 65535 = 0.

(** The end-around carry, in closed form. *)
Definition ones_sum (s : Z) : Z := if s =? 0 then 0 else (s - 1) mod 65535 + 1.

(** ** The checksum *)

Lemma load16_bytes m p : load16 m p = load8 m p + 256 * load8 m (p + 1).
Proof. unfold load16. cbn [load_le]. lia. Qed.

Lemma words_bounds l : Forall (fun b => 0 <= b < 256) l -> 0 <= words l <= 65535 * (Z.of_nat (length l) + 1) / 2.
Proof.
  intros Hl. assert (Hs : 0 <= words l /\ 2 * words l <= 65535 * (Z.of_nat (length l) + 1)).
  { revert Hl. induction l as [l IH] using (well_founded_induction (Nat.lt_wf_0_projected length)).
    intros Hl. destruct l as [|a [|b l]]; cbn [words length]; [lia|inversion Hl; lia|].
    inversion Hl as [|? ? Ha Hl1]; subst. inversion Hl1 as [|? ? Hb Hl2]; subst.
    destruct (IH l) as [H1 H2]; [cbn; lia|done|]. lia. }
  split; [lia|]. apply Z.div_le_lower_bound; lia.
Qed.

Lemma words_app l1 l2 : Nat.even (length l1) = true -> words (l1 ++ l2) = words l1 + words l2.
Proof.
  induction l1 as [l1 IH] using (well_founded_induction (Nat.lt_wf_0_projected length)).
  intros He. destruct l1 as [|a [|b l1]]; cbn [app words]; [done|done|].
  rewrite IH; [lia|cbn; lia|done].
Qed.

Lemma bytes_at_Forall m a n : Forall (fun b => 0 <= b < 256) (bytes_at m a n).
Proof. revert a. induction n as [|n IH]; intros a; constructor; [apply load8_range|apply IH]. Qed.

Lemma sum_loop_words k m p len s :
  0 <= len -> len / 2 < Z.of_nat k -> 0 <= s -> s + words (bytes_at m p (Z.to_nat len)) < 2 ^ 32 ->
  sum_loop k m p len s = s + words (bytes_at m p (Z.to_nat len)).
Proof.
  revert p len s. induction k as [|k IH]; intros p len s Hl Hk Hs Hb; [dlia|]. cbn [sum_loop].
  destruct (Z.ltb_spec 1 len).
  - assert (En : Z.to_nat len = S (S (Z.to_nat (len - 2)))) by lia. rewrite En in *.
    cbn [bytes_at words] in *. replace (p + 1 + 1) with (p + 2) in * by lia.
    pose proof (words_bounds _ (bytes_at_Forall m (p + 2) (Z.to_nat (len - 2)))) as [Hw _].
    rewrite load16_bytes. pose proof (load8_range m p). pose proof (load8_range m (p + 1)).
    rewrite u32_small by lia. rewrite IH by dlia. lia.
  - destruct (Z.eqb_spec len 0) as [->|].
    + change (Z.to_nat 0) with 0%nat. cbn [bytes_at words]. lia.
    + assert (len = 1) as -> by lia. change (Z.to_nat 1) with 1%nat in *. cbn [bytes_at words] in *.
      pose proof (load8_range m p). rewrite u32_small by lia. done.
Qed.

Lemma ones_sum_small n : 0 <= n <= 65535 -> ones_sum n = n.
Proof. intros Hn. unfold ones_sum. destruct (Z.eqb_spec n 0); [lia|]. rewrite Z.mod_small; lia. Qed.

Lemma ones_sum_carry n : 0 <= n -> ones_sum (n mod 65536 + n / 65536) = ones_sum n.
Proof.
  intros Hn. unfold ones_sum. destruct (Z.eqb_spec n 0) as [->|]; [done|].
  destruct (Z.eqb_spec (n mod 65536 + n / 65536) 0); [dlia|].
  f_equal. replace (n - 1) with (n mod 65536 + n / 65536 - 1 + n / 65536 * 65535) by dlia.
  by rewrite Z.mod_add.
Qed.

Lemma ones_sum_mod n : 0 <= n -> ones_sum n mod 65535 = n mod 65535 /\ 0 <= ones_sum n <= 65535.
Proof.
  intros Hn. unfold ones_sum. destruct (Z.eqb_spec n 0) as [->|]; [done|].
  pose proof (Z.mod_pos_bound (n - 1) 65535). split; [|lia].
  rewrite Z.add_mod_idemp_l by lia. f_equal. lia.
Qed.

Lemma fold_loop_ones n : 0 <= n < 2 ^ 32 -> fold_loop FOLD_FUEL n = Some (ones_sum n).
Proof.
  intros Hn.
  assert (Hstep : forall fuel n, 0 <= n < 2 ^ 32 ->
    fold_loop fuel n = if n <? 65536 then Some n
                       else match fuel with O => None | S f => fold_loop f (n mod 65536 + n / 65536) end).
  { clear n Hn. intros fuel n Hn. destruct fuel; cbn [fold_loop]; rewrite Z.shiftr_div_pow2 by lia;
      change (2 ^ 16) with 65536; (destruct (Z.ltb_spec n 65536);
      [rewrite Z.div_small by lia; done|destruct (Z.eqb_spec (n / 65536) 0); [dlia|]]); [done|].
    change 0xFFFF with (Z.ones 16). rewrite Z.land_ones by lia. change (2 ^ 16) with 65536.
    rewrite u32_small by dlia. done. }
  unfold FOLD_FUEL. rewrite Hstep by done. destruct (Z.ltb_spec n 65536).
  { by rewrite ones_sum_small by lia. }
  rewrite <- ones_sum_carry by lia. set (n1 := n mod 65536 + n / 65536).
  assert (H1 : 0 <= n1 <= 131070) by (unfold n1; dlia). rewrite Hstep by lia.
  destruct (Z.ltb_spec n1 65536); [by rewrite ones_sum_small by lia|].
  rewrite <- (ones_sum_carry n1) by lia. set (n2 := n1 mod 65536 + n1 / 65536).
  assert (H2 : 0 <= n2 <= 65535) by (unfold n2; dlia). rewrite Hstep by lia.
  destruct (Z.ltb_spec n2 65536); [|lia]. by rewrite ones_sum_small.
Qed.

Lemma ip_checksum_words m data len :
  0 <= len <= 65535 ->
  ip_checksum m data len = Some (65535 - ones_sum (words (bytes_at m data (Z.to_nat len)))).
Proof.
  intros Hl. unfold ip_checksum.
  pose proof (words_bounds _ (bytes_at_Forall m data (Z.to_nat len))) as [Hw Hw2].
  rewrite length_bytes_at, Z2Nat.id in Hw2 by lia.
  assert (Hw3 : words (bytes_at m data (Z.to_nat len)) < 2 ^ 32) by dlia.
  rewrite sum_loop_words by (rewrite ?Nat2Z.inj_succ, ?Z2Nat.id by (apply Z.div_pos; lia); lia).
  rewrite Z.add_0_l, fold_loop_ones by lia. cbn [mbind option_bind].
  destruct (ones_sum_mod (words (bytes_at m data (Z.to_nat len)))) as [_ Hr]; [done|]. f_equal.
  set (s := ones_sum _) in *. unfold Z.lnot. unfold u16, wrap. change (2 ^ 16) with 65536.
  replace (Z.pred (- s)) with (65535 - s + (-1) * 65536) by lia. rewrite Z.mod_add by lia.
  apply Z.mod_small. lia.
Qed.

(** Replacing the word at an even offset. *)
Lemma words_store16 m data len off c :
  0 <= off -> off mod 2 = 0 -> off + 2 <= len -> 0 <= c < 65536 ->
  words (bytes_at (store16 m (data + off) c) data (Z.to_nat len)) =
    words (bytes_at m data (Z.to_nat len)) - load16 m (data + off) + c.
Proof.
  intros Ho He Hl Hc. set (rest := Z.to_nat (len - off - 2)).
  assert (En : Z.to_nat len = (Z.to_nat off + (2 + rest))%nat) by lia.
  assert (Heven : forall m', Nat.even (length (bytes_at m' data (Z.to_nat off))) = true).
  { intros m'. rewrite length_bytes_at. apply Nat.even_spec. exists (Z.to_nat (off / 2)). dlia. }
  assert (Hsplit : forall m', words (bytes_at m' data (Z.to_nat len)) =
    words (bytes_at m' data (Z.to_nat off)) + load16 m' (data + off) + words (bytes_at m' (data + off + 2) rest)).
  { intros m'. rewrite En, bytes_at_app, words_app by apply Heven. rewrite Z2Nat.id by lia.
    cbn [Nat.add bytes_at words]. rewrite <- !Z.add_assoc, load16_bytes. change (1 + 1) with 2.
    rewrite <- !Z.add_assoc. done. }
  rewrite !Hsplit.
  rewrite (bytes_at_ext m _ data), (bytes_at_ext m _ (data + off + 2));
    try (intros b Hb; apply store_le_outside; lia).
  assert (El : load16 (store16 m (data + off) c) (data + off) = c).
  { unfold load16, store16. rewrite (load_store_le_eq 2). unfold wrap. change (2 ^ (8 * Z.of_nat 2)) with 65536.
    by apply Z.mod_small. }
  rewrite El. lia.
Qed.

(** Storing the checksum of a block in its zeroed field makes it verify. *)
Lemma checksum_stored m data len off c :
  0 <= len <= 65535 -> 0 <= off -> off mod 2 = 0 -> off + 2 <= len -> load16 m (data + off) = 0 ->
  ip_checksum m data len = Some c ->
  0 <= c < 65536 /\ cksum_ok (bytes_at (store16 m (data + off) c) data (Z.to_nat len)).
Proof.
  intros Hl Ho He Hl2 Hz Hc. rewrite ip_checksum_words in Hc by done. injection Hc as <-.
  pose proof (words_bounds _ (bytes_at_Forall m data (Z.to_nat len))) as [Hw _].
  set (W := words (bytes_at m data (Z.to_nat len))) in *.
  destruct (ones_sum_mod W Hw) as [Hm Hr]. split; [lia|]. unfold cksum_ok.
  rewrite words_store16 by lia. fold W. rewrite Hz. split.
  - unfold ones_sum in *. destruct (Z.eqb_spec W 0); lia.
  - replace (W - 0 + (65535 - ones_sum W)) with (W - ones_sum W + 1 * 65535) by lia.
    rewrite Z.mod_add by lia. rewrite Zminus_mod, Hm, Z.sub_diag. done.
Qed.

(** C37: [ip_checksum] is the Internet checksum: it returns for every block of up
    to 65535 bytes, and a block whose 16-bit checksum field was zero verifies, and
    has checksum zero, once the result is stored in the field. *)
Theorem ip_checksum_verifies m data len off :
  0 <= len <= 65535 -> 0 <= off -> off mod 2 = 0 -> off + 2 <= len -> load16 m (data + off) = 0 ->
  exists c, ip_checksum m data len = Some c /\ 0 <= c < 65536 /\
    cksum_ok (bytes_at (store16 m (data + off) c) data (Z.to_nat len)) /\
    ip_checksum (store16 m (data + off) c) data len = Some 0.
Proof.
  intros Hl Ho He Hl2 Hz. pose proof (ip_checksum_words m data len Hl) as Hc.
  eexists. split; [exact Hc|]. destruct (checksum_stored m data len off _ Hl Ho He Hl2 Hz Hc) as [Hr Hok].
  split; [done|]. split; [done|]. rewrite ip_checksum_words by done. destruct Hok as [Hne Hm].
  set (m' := store16 m (data + off) _) in *. set (W := words (bytes_at m' data (Z.to_nat len))) in *.
  pose proof (words_bounds _ (bytes_at_Forall m' data (Z.to_nat len))) as [Hw _]. fold W in Hw.
  f_equal. unfold ones_sum. destruct (Z.eqb_spec W 0); [done|]. dlia.
Qed.

Lemma ip_checksum_verifies_witness :
  ip_checksum (store16 (store8 ∅ 100 0x45) 110 0xFFBA) 100 20 = Some 0.
Proof.
  destruct (ip_checksum_verifies (store8 ∅ 100 0x45) 100 20 10) as (c & E & _ & _ & R).
  - lia.
  - lia.
  - reflexivity.
  - lia.
  - reflexivity.
  - assert (Hc : ip_checksum (store8 ∅ 100 0x45) 100 20 = Some 0xFFBA) by (vm_compute; reflexivity).
    rewrite Hc in E. injection E as <-. exact R.
Defined.

(** ** ARP *)

(** The frame at [frame] is an ARP request for [ip]. *)
Definition arp_request (m : memory) (frame len : Z) (ip : list Z) : bool :=
  (42 <=? len) && bool_decide (bytes_at m (frame + 20) 2 = [0; 1]) && bool_decide (bytes_at m (frame + 38) 4 = ip).

Lemma htons_swap a b : 0 <= a < 256 -> 0 <= b < 256 -> htons (a + 256 * b) = b + 256 * a.
Proof.
  intros Ha Hb.
  assert (Hall : forallb (fun a => forallb (fun b => htons (a + 256 * b) =? b + 256 * a) (seqZ 0 256))
    (seqZ 0 256) = true) by (vm_compute; reflexivity).
  apply Z.eqb_eq. pose proof (forallb_below _ _ a Hall Ha) as Hrow. by apply (forallb_below _ _ b Hrow).
Qed.

Lemma arp_request_op m frame :
  (ntohs (load16 m (frame + 20)) =? ARP_OP_REQUEST) = bool_decide (bytes_at m (frame + 20) 2 = [0; 1]).
Proof.
  unfold ntohs. rewrite load16_bytes. pose proof (load8_range m (frame + 20)).
  pose proof (load8_range m (frame + 20 + 1)). rewrite htons_swap by done. cbn [bytes_at].
  destruct (Z.eqb_spec (load8 m (frame + 20 + 1) + 256 * load8 m (frame + 20)) ARP_OP_REQUEST) as [E|E];
    unfold ARP_OP_REQUEST in E; symmetry.
  - apply bool_decide_eq_true. repeat f_equal; lia.
  - apply bool_decide_eq_false. intros [= E1 E2]. lia.
Qed.

(** An ARP request for our address is answered by exactly one frame, the
    42-byte reply addressed to the asker that binds our address to our MAC; any
    other frame handed to [handle_arp] sends nothing. *)
Theorem handle_arp_correct w n frame len :
  let '(w', n') := handle_arp w n frame len in
  our_mac n' = our_mac n /\ our_ip n' = our_ip n /\ ram w' = ram w /\
  net_tx n' = net_tx n ++
    (if arp_request (ram w) frame len (our_ip n) then
       let asker := bytes_at (ram w) (frame + 22) 6 in
       [ (* Ethernet *) asker ++ our_mac n ++ [0x08; 0x06] ++
         (* hardware, protocol, lengths, reply *) [0; 1; 0x08; 0x00; 6; 4; 0; 2] ++
         our_mac n ++ our_ip n ++ asker ++ bytes_at (ram w) (frame + 28) 4 ]
     else []).
Proof.
  unfold handle_arp, arp_request, sizeof_eth, sizeof_arp, arp_operation, arp_target_ip, arp_sender_mac,
    arp_sender_ip. rewrite <- !Z.add_assoc. change (14 + 6) with 20. change (14 + 24) with 38.
  change (14 + 8) with 22. change (14 + 14) with 28. change (14 + 28) with 42. rewrite arp_request_op.
  destruct (Z.ltb_spec len 42), (Z.leb_spec 42 len); try lia; [by rewrite app_nil_r|]. cbn [andb].
  destruct (bool_decide (bytes_at (ram w) (frame + 20) 2 = [0; 1])); cbn [negb andb]; [|by rewrite app_nil_r].
  destruct (bool_decide (bytes_at (ram w) (frame + 38) 4 = our_ip n)); cbn [negb]; [|by rewrite app_nil_r].
  cbn [our_mac our_ip net_tx net_send ram emit]. repeat split.
Qed.

(** ** ICMP echo *)

Lemma bytes_at_sub m a n k j :
  (k + j <= n)%nat -> bytes_at m (a + Z.of_nat k) j = take j (drop k (bytes_at m a n)).
Proof.
  intros Hk. replace n with (k + (j + (n - k - j)))%nat by lia. rewrite !bytes_at_app.
  rewrite drop_app_length'; [|by rewrite length_bytes_at]. rewrite take_app_length'; [done|].
  by rewrite length_bytes_at.
Qed.

(** The reply to the frame whose bytes are [f], fields with a checksum aside: the
    request with the addresses turned round, a fresh time to live and the type of
    a reply. *)
Definition echo_byte (f : Z -> Z) (mac ip : list Z) (hdr i : Z) : Z :=
  if i <? 6 then f (6 + i)
  else if i <? 12 then default 0 (mac !! Z.to_nat (i - 6))
  else if i =? 22 then 64
  else if (26 <=? i) && (i <? 30) then default 0 (ip !! Z.to_nat (i - 26))
  else if (30 <=? i) && (i <? 34) then f (i - 4)
  else if i =? 14 + hdr then ICMP_ECHO_REPLY
  else f i.

Section icmp.
Context (m : memory) (n : net) (reply frame : Z).
Context (Hmac : length (our_mac n) = 6%nat) (Hmacb : Forall (fun b => 0 <= b < 256) (our_mac n)).
Context (Hip : length (our_ip n) = 4%nat) (Hipb : Forall (fun b => 0 <= b < 256) (our_ip n)).
Context (hdr total : Z) (Hhdr : 20 <= hdr <= 60) (Htot : hdr + 8 <= total <= 1504) (Hmod : hdr mod 4 = 0).
Context (Hap : reply + 1518 <= frame \/ frame + 1518 <= reply).

Let rl := 14 + total.
Let m1 := memcpy m reply frame (Z.to_nat rl).
Let m2 := memcpy m1 reply (frame + 6) 6.
Let m3 := put_bytes m2 (reply + 6) (our_mac n).
Let m4 := memcpy m3 (reply + 30) (frame + 26) 4.
Let m5 := put_bytes m4 (reply + 26) (our_ip n).
Let m6 := store8 m5 (reply + 22) 64.
Let m7 := store16 m6 (reply + 24) 0.

Lemma icmp_m1 a : load8 m1 a =
  if (reply <=? a) && (a <? reply + rl) then load8 m (frame + (a - reply)) else load8 m a.
Proof. unfold m1. rewrite memcpy_load by lia. by rewrite Z2Nat.id by lia. Qed.

Lemma icmp_m3 a : load8 m3 a =
  if (reply <=? a) && (a <? reply + 6) then load8 m (frame + (6 + (a - reply)))
  else if (reply + 6 <=? a) && (a <? reply + 12) then default 0 (our_mac n !! Z.to_nat (a - reply - 6))
  else load8 m1 a.
Proof.
  unfold m3, put_bytes. rewrite store_bytes_load by done. rewrite Hmac. unfold m2. rewrite memcpy_load by lia.
  change (Z.of_nat 6) with 6.
  destruct (Z.leb_spec (reply + 6) a), (Z.ltb_spec a (reply + 6 + 6)); cbn [andb];
    destruct (Z.leb_spec reply a), (Z.ltb_spec a (reply + 6)), (Z.leb_spec (reply + 6) a),
      (Z.ltb_spec a (reply + 12)); cbn [andb]; try lia; try done.
  - do 3 f_equal. lia.
  - rewrite icmp_m1. zcases; try lia; f_equal; lia.
Qed.

Lemma icmp_m5 i : 0 <= i < rl -> load8 m5 (reply + i) =
  if (26 <=? i) && (i <? 30) then default 0 (our_ip n !! Z.to_nat (i - 26))
  else if (30 <=? i) && (i <? 34) then load8 m (frame + (i - 4))
  else load8 m3 (reply + i).
Proof.
  intros Hi. unfold m5, put_bytes. rewrite store_bytes_load by done. rewrite Hip.
  unfold m4. rewrite memcpy_load by lia. change (Z.of_nat 4) with 4.
  destruct (Z.leb_spec (reply + 26) (reply + i)), (Z.leb_spec 26 i); try lia; cbn [andb].
  2:{ destruct (Z.leb_spec (reply + 30) (reply + i)), (Z.leb_spec 30 i); try lia; done. }
  destruct (Z.ltb_spec (reply + i) (reply + 26 + 4)), (Z.ltb_spec i 30); try lia.
  - do 3 f_equal. lia.
  - destruct (Z.leb_spec (reply + 30) (reply + i)), (Z.leb_spec 30 i); try lia; cbn [andb].
    destruct (Z.ltb_spec (reply + i) (reply + 30 + 4)), (Z.ltb_spec i 34); try lia.
    rewrite icmp_m3, icmp_m1. zcases; try lia; f_equal; lia.
Qed.

Lemma icmp_m7 i : 0 <= i < rl -> i <> 24 -> i <> 25 -> i <> 14 + hdr ->
  load8 m7 (reply + i) = echo_byte (fun j => load8 m (frame + j)) (our_mac n) (our_ip n) hdr i.
Proof.
  intros Hi H1 H2 H3. unfold m7. unfold store16. rewrite store_le_outside by lia. unfold m6.
  rewrite load8_store8. unfold echo_byte.
  destruct (Z.eqb_spec (reply + 22) (reply + i)).
  { assert (i = 22) as -> by lia. done. }
  rewrite icmp_m5, icmp_m3, icmp_m1 by done.
  destruct (Z.ltb_spec i 6); [zcases; try lia; f_equal; lia|].
  destruct (Z.ltb_spec i 12); [zcases; try lia; do 3 f_equal; lia|].
  destruct (Z.eqb_spec i 22); [lia|]. destruct (Z.eqb_spec i (14 + hdr)); [lia|].
  zcases; try lia; try done; f_equal; lia.
Qed.

Lemma icmp_m7_zero : load16 m7 (reply + 24) = 0.
Proof. unfold m7. unfold load16, store16. by rewrite (load_store_le_eq 2). Qed.

(** The two checksums, and the frame that is sent. *)
Lemma icmp_tail :
  exists c1 c2,
    ip_checksum m7 (reply + 14) hdr = Some c1 /\
    let m8 := store16 m7 (reply + 24) c1 in
    let m10 := store16 (store8 m8 (reply + 14 + hdr) 0) (reply + 14 + hdr + 2) 0 in
    ip_checksum m10 (reply + 14 + hdr) (total - hdr) = Some c2 /\
    let f := bytes_at (store16 m10 (reply + 14 + hdr + 2) c2) reply (Z.to_nat rl) in
    (forall i, 0 <= i < rl -> ~ In i [24; 25; 14 + hdr + 2; 14 + hdr + 3] ->
       f !! Z.to_nat i =
         Some (echo_byte (fun j => load8 m (frame + j)) (our_mac n) (our_ip n) hdr i)) /\
    cksum_ok (take (Z.to_nat hdr) (drop 14 f)) /\ cksum_ok (drop (14 + Z.to_nat hdr) f).
Proof.
  pose proof (ip_checksum_words m7 (reply + 14) hdr ltac:(lia)) as Hc1.
  set (c1 := 65535 - _) in Hc1.
  pose proof (checksum_stored m7 (reply + 14) hdr 10 c1 ltac:(lia) ltac:(lia) eq_refl ltac:(lia)) as Hk1.
  replace (reply + 14 + 10) with (reply + 24) in Hk1 by lia. specialize (Hk1 icmp_m7_zero Hc1).
  destruct Hk1 as [_ Hk1]. exists c1.
  set (m8 := store16 m7 (reply + 24) c1) in *.
  set (m10 := store16 (store8 m8 (reply + 14 + hdr) 0) (reply + 14 + hdr + 2) 0).
  pose proof (ip_checksum_words m10 (reply + 14 + hdr) (total - hdr) ltac:(lia)) as Hc2.
  set (c2 := 65535 - _) in Hc2.
  assert (Hz : load16 m10 (reply + 14 + hdr + 2) = 0).
  { unfold m10. unfold load16, store16. by rewrite (load_store_le_eq 2). }
  destruct (checksum_stored m10 (reply + 14 + hdr) (total - hdr) 2 c2 ltac:(lia) ltac:(lia) eq_refl ltac:(lia) Hz Hc2)
    as [_ Hk2].
  exists c2. split; [exact Hc1|]. cbv zeta. fold m8. fold m10. split; [exact Hc2|].
  set (m11 := store16 m10 (reply + 14 + hdr + 2) c2) in *.
  assert (Hout : forall a, a <> reply + 14 + hdr -> ~ (reply + 14 + hdr + 2 <= a < reply + 14 + hdr + 4) ->
    load8 m11 a = load8 m8 a).
  { intros a H1 H2. unfold m11, store16. rewrite store_le_outside by lia. unfold m10, store16.
    rewrite store_le_outside by lia. apply load8_store8_ne. lia. }
  split; [|split].
  - intros i Hi Hnot. rewrite lookup_bytes_at by lia. rewrite Z2Nat.id by lia. f_equal.
    cbn [In] in Hnot. destruct (Z.eq_dec i (14 + hdr)) as [->|Hne].
    + unfold echo_byte. zcases; try lia. unfold m11, store16. rewrite store_le_outside by lia.
      unfold m10, store16. rewrite store_le_outside by lia. rewrite load8_store8.
      by destruct (Z.eqb_spec (reply + 14 + hdr) (reply + (14 + hdr))); [|lia].
    + rewrite Hout by lia. unfold m8, store16. rewrite store_le_outside by lia. apply icmp_m7; lia.
  - rewrite <- (bytes_at_sub m11 reply (Z.to_nat rl) 14 (Z.to_nat hdr)) by lia. change (Z.of_nat 14) with 14.
    rewrite (bytes_at_ext m8 m11); [exact Hk1|]. intros a Ha. apply Hout; lia.
  - replace (drop (14 + Z.to_nat hdr) (bytes_at m11 reply (Z.to_nat rl))) with
      (take (Z.to_nat (total - hdr)) (drop (14 + Z.to_nat hdr) (bytes_at m11 reply (Z.to_nat rl)))).
    + rewrite <- (bytes_at_sub m11 reply (Z.to_nat rl) (14 + Z.to_nat hdr) (Z.to_nat (total - hdr))) by lia.
      replace (reply + Z.of_nat (14 + Z.to_nat hdr)) with (reply + 14 + hdr) by lia. exact Hk2.
    + apply take_ge. rewrite length_drop, length_bytes_at. lia.
Qed.
End icmp.

(** An echo request of an IP packet with header length [hdr] and total length
    [total], in a frame of [len] bytes. *)
Record echo_request (m : memory) (frame len hdr total : Z) : Prop := {
  req_hdr : Z.land (load8 m (frame + 14)) 0x0F * 4 = hdr;
  req_total : 256 * load8 m (frame + 16) + load8 m (frame + 17) = total;
  req_type : load8 m (frame + 14 + hdr) = ICMP_ECHO_REQUEST;
  req_bounds : 20 <= hdr /\ hdr + 8 <= total /\ 14 + total <= 1518 /\ 14 + hdr + 8 <= len;
}.

(** The static arrays have the sizes of their types. *)
Record net_ok (n : net) : Prop := {
  ok_mac : length (our_mac n) = 6%nat;
  ok_mac_bytes : Forall (fun b => 0 <= b < 256) (our_mac n);
  ok_ip : length (our_ip n) = 4%nat;
  ok_ip_bytes : Forall (fun b => 0 <= b < 256) (our_ip n);
}.

Lemma handle_icmp_reply w n reply frame len hdr total :
  net_ok n -> echo_request (ram w) frame len hdr total ->
  (reply + 1518 <= frame \/ frame + 1518 <= reply) ->
  exists w' f, handle_icmp w n reply frame len = Some (w', net_send n f) /\
    f = bytes_at (ram w') reply (Z.to_nat (14 + total)) /\ Z.of_nat (length f) = 14 + total /\
    (forall i, 0 <= i < 14 + total -> ~ In i [24; 25; 14 + hdr + 2; 14 + hdr + 3] ->
       f !! Z.to_nat i =
         Some (echo_byte (fun j => load8 (ram w) (frame + j)) (our_mac n) (our_ip n) hdr i)) /\
    cksum_ok (take (Z.to_nat hdr) (drop 14 f)) /\ cksum_ok (drop (14 + Z.to_nat hdr) f).
Proof.
  intros [O1 O2 O3 O4] [Eh Et Ety (B1 & B2 & B3 & B4)] Hap.
  assert (Hh : 0 <= Z.land (load8 (ram w) (frame + 14)) 15 < 16).
  { change 15 with (Z.ones 4). rewrite Z.land_ones by lia. by apply Z.mod_pos_bound. }
  unfold handle_icmp, sizeof_eth, sizeof_icmp, ip_ver_ihl, ip_total_length, icmp_type, icmp_cksum,
    ip_cksum, ip_ttl, ip_src, ip_dst, eth_dst, eth_src.
  rewrite Eh. replace (frame + 14 + 2) with (frame + 16) by lia.
  assert (Ent : ntohs (load16 (ram w) (frame + 16)) = total).
  { unfold ntohs. rewrite load16_bytes, htons_swap by apply load8_range.
    replace (frame + 16 + 1) with (frame + 17) by lia. lia. }
  rewrite Ent. destruct (Z.ltb_spec len (14 + hdr + 8)); [lia|]. rewrite Ety. cbn [negb Z.eqb ICMP_ECHO_REQUEST].
  change (8 =? 8) with true. cbn [negb]. rewrite (u16_small (14 + total)), Z.gtb_ltb by lia.
  destruct (Z.ltb_spec 1518 (14 + total)); [lia|]. cbn [ram emit].
  destruct (icmp_tail (ram w) n reply frame O1 O2 O3 O4 hdr total) as (c1 & c2 & Hc1 & Hc2 & Hf & Hk1 & Hk2);
    [lia|lia|done|].
  replace (reply + 14 + 16) with (reply + 30) by lia. replace (frame + 14 + 12) with (frame + 26) by lia.
  replace (reply + 14 + 12) with (reply + 26) by lia. replace (reply + 14 + 8) with (reply + 22) by lia.
  replace (reply + 14 + 10) with (reply + 24) by lia.
  rewrite Hc1. cbn [mbind option_bind]. change ICMP_ECHO_REPLY with 0. rewrite (u16_small (total - hdr)) by lia.
  rewrite Hc2. cbn [mbind option_bind]. eexists _, _. split; [reflexivity|].
  cbn [ram set_ram]. split; [done|]. rewrite length_bytes_at. split; [lia|]. by split.
Qed.

(** ** Any frame *)

(** What handling a frame may do, whatever its bytes: at most one frame of at
    most 1518 bytes is sent, and only the static [reply] array is written. *)
Record net_moves (reply : Z) (w : machine) (n : net) (w' : machine) (n' : net) : Prop := {
  nm_mac : our_mac n' = our_mac n;
  nm_ip : our_ip n' = our_ip n;
  nm_ram : same_outside reply (reply + 1518) (ram w) (ram w');
  nm_tx : net_tx n' = net_tx n \/ exists f, net_tx n' = net_tx n ++ [f] /\ Z.of_nat (length f) <= 1518;
}.

Lemma net_moves_none reply w n : net_moves reply w n w n.
Proof. split; [done|done|apply same_outside_refl|by left]. Qed.

Lemma net_moves_log reply w n cs : net_moves reply w n (emit w cs) n.
Proof. split; [done|done|apply same_outside_refl|by left]. Qed.

Lemma handle_arp_cases w n frame len :
  net_ok n -> handle_arp w n frame len = (w, n) \/
    exists cs f, handle_arp w n frame len = (emit w cs, net_send n f) /\ length f = 42%nat.
Proof.
  intros [O1 _ O3 _]. unfold handle_arp. destruct (len <? _); [by left|]. cbv zeta.
  destruct (negb _); [by left|]. destruct (negb _); [by left|]. right. eexists _, _. split; [done|].
  by rewrite !length_app, !length_bytes_at, O1, O3.
Qed.

Lemma handle_arp_moves w n reply frame len :
  net_ok n -> let '(w', n') := handle_arp w n frame len in net_moves reply w n w' n'.
Proof.
  intros Hn. destruct (handle_arp_cases w n frame len Hn) as [-> | (cs & f & -> & Hf)]; [apply net_moves_none|].
  split; [done|done|apply same_outside_refl|]. right. exists f. split; [done|lia].
Qed.

Lemma handle_icmp_moves w n reply frame len :
  net_ok n -> exists w' n', handle_icmp w n reply frame len = Some (w', n') /\ net_moves reply w n w' n'.
Proof.
  intros [O1 _ O3 _]. unfold handle_icmp.
  assert (Hh : 0 <= Z.land (load8 (ram w) (ip_ver_ihl (frame + sizeof_eth))) 0x0F < 16).
  { change 0x0F with (Z.ones 4). rewrite Z.land_ones by lia. by apply Z.mod_pos_bound. }
  set (hdr := Z.land _ _ * 4). assert (Hhdr : 0 <= hdr <= 60) by (unfold hdr; lia). clearbody hdr. clear Hh. cbv zeta.
  destruct (len <? _); [eexists _, _; split; [done|apply net_moves_none]|].
  destruct (negb _); [eexists _, _; split; [done|apply net_moves_none]|].
  set (total := ntohs _). pose proof (u16_range (sizeof_eth + total)) as Hrl. set (rl := u16 _) in *. rewrite Z.gtb_ltb.
  destruct (Z.ltb_spec 1518 rl); [eexists _, _; split; [done|apply net_moves_log]|].
  rewrite ip_checksum_words by lia. cbn [mbind option_bind].
  pose proof (u16_range (total - hdr)). rewrite ip_checksum_words by lia. cbn [mbind option_bind].
  eexists _, _. split; [done|]. split; [done|done| |].
  - cbn [ram set_ram emit].
    unfold ip_dst, ip_src, ip_ttl, ip_cksum, icmp_type, icmp_cksum, eth_dst, eth_src, sizeof_eth, put_bytes, store16.
    intros a Ha. rewrite !store_le_outside, !load8_store8_ne, !store_le_outside, !load8_store8_ne by lia.
    rewrite store_bytes_outside, memcpy_same_outside, store_bytes_outside, !memcpy_same_outside by (rewrite ?O1, ?O3; lia).
    done.
  - right. eexists. split; [done|]. rewrite length_bytes_at. lia.
Qed.

Lemma net_poll_moves w n reply buf len :
  net_ok n -> exists w' n', net_poll w n reply buf len = Some (w', n') /\ net_moves reply w n w' n'.
Proof.
  intros Hn. unfold net_poll, handle_ip. cbv zeta.
  repeat (case_match; try (eexists _, _; split; [done|apply net_moves_none])).
  - pose proof (handle_arp_moves w n reply buf (u16 len) Hn). destruct (handle_arp _ _ _ _). by eexists _, _.
  - by apply handle_icmp_moves.
Qed.

(** An ICMP echo request (any IP options and payload, up to 1518 bytes) is
    answered by exactly one frame as long as the request: its bytes with the MAC
    and IP addresses turned round, time to live 64 and type 0, every other header
    and payload byte unchanged, and both the IP header and the ICMP message carry
    valid checksums. *)
Theorem handle_icmp_echo_correct w n reply frame len hdr total :
  net_ok n -> echo_request (ram w) frame len hdr total -> 14 + total <= len ->
  (reply + 1518 <= frame \/ frame + 1518 <= reply) ->
  exists w' f, handle_icmp w n reply frame len = Some (w', net_send n f) /\
    Z.of_nat (length f) = 14 + total /\
    (forall i, 0 <= i < 14 + total -> ~ In i [24; 25; 14 + hdr + 2; 14 + hdr + 3] ->
       f !! Z.to_nat i =
         Some (echo_byte (fun j => load8 (ram w) (frame + j)) (our_mac n) (our_ip n) hdr i)) /\
    cksum_ok (take (Z.to_nat hdr) (drop 14 f)) /\ cksum_ok (drop (14 + Z.to_nat hdr) f).
Proof.
  intros Hn Hr _ Hap. destruct (handle_icmp_reply w n reply frame len hdr total Hn Hr Hap) as (w' & f & E & _ & H).
  by exists w', f.
Qed.

(** The length in the IP header is not compared with the bytes received: a
    request that claims more than the [len] bytes that arrived is answered with
    a frame as long as it claims, whose excess is whatever memory followed. *)
Theorem handle_icmp_leaks w n reply frame len hdr total :
  net_ok n -> echo_request (ram w) frame len hdr total -> len < 14 + total ->
  (reply + 1518 <= frame \/ frame + 1518 <= reply) ->
  exists w' f, handle_icmp w n reply frame len = Some (w', net_send n f) /\
    len < Z.of_nat (length f) /\
    forall i, len <= i < Z.of_nat (length f) -> f !! Z.to_nat i = Some (load8 (ram w) (frame + i)).
Proof.
  intros Hn Hr Hl Hap.
  destruct (handle_icmp_reply w n reply frame len hdr total Hn Hr Hap) as (w' & f & E & _ & Hlen & Hf & _).
  destruct Hr as [_ _ _ (B1 & B2 & B3 & B4)]. exists w', f. split; [done|]. rewrite Hlen. split; [lia|].
  intros i Hi. rewrite Hf; [|lia|cbn [In]; lia]. f_equal. unfold echo_byte. zcases; try lia; done.
Qed.

(** A minimal echo request in a frame at 8192, from MAC 2:2:2:2:2:2 and 10.0.2.2. *)
Definition demo_frame (claimed : Z) : machine :=
  Machine (store_bytes ∅ 8192
    ([1; 1; 1; 1; 1; 1; 2; 2; 2; 2; 2; 2; 8; 0] ++
     [0x45; 0; 0; claimed; 0; 0; 0; 0; 64; 1; 0; 0; 10; 0; 2; 2; 10; 0; 2; 15] ++
     [8; 0; 0; 0; 1; 2; 3; 4])) [].
Definition demo_net : net := Net [1; 1; 1; 1; 1; 1] [10; 0; 2; 15] [].

Lemma demo_net_ok : net_ok demo_net.
Proof. split; [done| |done|]; repeat constructor; lia. Qed.

Lemma handle_icmp_echo_correct_witness :
  exists w' f, handle_icmp (demo_frame 28) demo_net 4096 8192 42 = Some (w', net_send demo_net f) /\
    length f = 42%nat.
Proof.
  destruct (handle_icmp_echo_correct (demo_frame 28) demo_net 4096 8192 42 20 28 demo_net_ok) as
    (w' & f & R & Hl & _).
  - split; [reflexivity|reflexivity|reflexivity|lia].
  - lia.
  - lia.
  - exists w', f. split; [exact R|]. lia.
Defined.

Lemma handle_icmp_leaks_witness :
  exists w' f, handle_icmp (demo_frame 100) demo_net 4096 8192 42 = Some (w', net_send demo_net f) /\
    42 < Z.of_nat (length f).
Proof.
  destruct (handle_icmp_leaks (demo_frame 100) demo_net 4096 8192 42 20 100 demo_net_ok) as (w' & f & R & Hl & _).
  - split; [reflexivity|reflexivity|reflexivity|lia].
  - lia.
  - lia.
  - exists w', f. exact (conj R Hl).
Defined.
