(* ===== verification/Pci.v ===== *)
(** * [kernel/drivers/pci.c]: PCI configuration space

    The driver reaches configuration space through two 32-bit ports, an address
    and a data port.  [Ports] are the two accesses; [PciBus] is what the driver
    relies on: the data port reads and writes the configuration word whose
    address was written last.  The functions are proved against [PciBus], [io]
    records the accesses they make, and [pci_bus] is a bus with a table of
    words. *)
From stdpp Require Import base numbers list gmap.
From Stdlib Require Import ZArith Lia.
From S2P Require Import Prelude.
From S2P Require Import Io.

Definition PCI_CONFIG_ADDR : Z := 0xCF8.
Definition PCI_CONFIG_DATA : Z := 0xCFC.
Definition PCI_VENDOR_ID : Z := 0x00.
Definition PCI_DEVICE_ID : Z := 0x02.
Definition PCI_COMMAND : Z := 0x04.
Definition PCI_BAR0 : Z := 0x10.
Definition PCI_IRQ_LINE : Z := 0x3C.
Definition PCI_CMD_MEMORY : Z := 0x0002.
Definition PCI_CMD_MASTER : Z := 0x0004.

(** [outl] and [inl] of io.h, on any state. *)
Class Ports (S : Type) := {
  p_outl : S -> Z -> Z -> S;
  p_inl : S -> Z -> Z * S;
}.

#[export] Instance io_ports : Ports io := { p_outl := outl; p_inl := inl_ }.

Record pci_device := PciDevice {
  d_bus : Z; d_slot : Z; d_func : Z;
  d_vendor_id : Z; d_device_id : Z;
  d_class_code : Z; d_subclass : Z;
  d_irq_line : Z;
  d_bar0 : Z;
}.

Definition pci_addr (bus slot func off : Z) : Z :=
  Z.lor (Z.lor (Z.lor (Z.lor 0x80000000 (u32 (Z.shiftl bus 16))) (u32 (Z.shiftl slot 11)))
    (u32 (Z.shiftl func 8))) (Z.land off 0xFC).

Section pci.
Context {S : Type} `{Ports S}.

Definition pci_read32 (s : S) (bus slot func off : Z) : Z * S :=
  p_inl (p_outl s PCI_CONFIG_ADDR (pci_addr bus slot func off)) PCI_CONFIG_DATA.

Definition pci_read16 (s : S) (bus slot func off : Z) : Z * S :=
  let '(val, s1) := pci_read32 s bus slot func (u8 (Z.land off (Z.lnot 3))) in
  (u16 (Z.shiftr val (Z.land off 2 * 8)), s1).

Definition pci_write32 (s : S) (bus slot func off val : Z) : S :=
  p_outl (p_outl s PCI_CONFIG_ADDR (pci_addr bus slot func off)) PCI_CONFIG_DATA val.

Definition pci_write16 (s : S) (bus slot func off val : Z) : S :=
  let '(old, s1) := pci_read32 s bus slot func (u8 (Z.land off (Z.lnot 3))) in
  let shift := Z.land off 2 * 8 in
  let old1 := Z.land old (u32 (Z.lnot (Z.shiftl 0xFFFF shift))) in
  let old2 := Z.lor old1 (u32 (Z.shiftl val shift)) in
  pci_write32 s1 bus slot func (u8 (Z.land off (Z.lnot 3))) old2.

(** The device found at a slot; the fields are read in the order of the code. *)
Definition pci_read_device (s : S) (bus slot vid did : Z) : pci_device * S :=
  let '(c1, s1) := pci_read32 s bus slot 0 0x08 in
  let '(c2, s2) := pci_read32 s1 bus slot 0 0x08 in
  let '(b, s3) := pci_read32 s2 bus slot 0 PCI_BAR0 in
  let '(i, s4) := pci_read32 s3 bus slot 0 PCI_IRQ_LINE in
  ({| d_bus := u8 bus; d_slot := slot; d_func := 0; d_vendor_id := vid; d_device_id := did;
      d_class_code := u8 (Z.shiftr c1 24); d_subclass := u8 (Z.shiftr c2 16);
      d_irq_line := u8 i; d_bar0 := Z.land b (u32 (Z.lnot 0xF)) |}, s4).

(** [for (slot = ...; slot < 32; slot++)], [n] slots left. *)
Fixpoint slot_loop (n : nat) (s : S) (vendor device bus slot : Z) : option pci_device * S :=
  match n with
  | O => (None, s)
  | Datatypes.S n' =>
      let '(vid, s1) := pci_read16 s bus slot 0 PCI_VENDOR_ID in
      if vid =? 0xFFFF then slot_loop n' s1 vendor device bus (slot + 1)
      else
        let '(did, s2) := pci_read16 s1 bus slot 0 PCI_DEVICE_ID in
        if (vid =? vendor) && (did =? device) then
          let '(d, s3) := pci_read_device s2 bus slot vid did in (Some d, s3)
        else slot_loop n' s2 vendor device bus (slot + 1)
  end.

(** [for (bus = ...; bus < 256; bus++)], [n] buses left. *)
Fixpoint bus_loop (n : nat) (s : S) (vendor device bus : Z) : option pci_device * S :=
  match n with
  | O => (None, s)
  | Datatypes.S n' =>
      match slot_loop 32 s vendor device bus 0 with
      | (Some d, s1) => (Some d, s1)
      | (None, s1) => bus_loop n' s1 vendor device (bus + 1)
      end
  end.

Definition pci_find_device (s : S) (vendor device : Z) : option pci_device * S :=
  bus_loop 256 s vendor device 0.
End pci.

(** ** Specification *)

(** What the driver relies on: [config s a] is the configuration word at [a]. *)
Class PciBus (S : Type) `{Ports S} := {
  config : S -> Z -> Z;
  config_range s a : 0 <= config s a < 2 ^ 32;
  config_read s a : 0 <= a < 2 ^ 32 ->
    (p_inl (p_outl s PCI_CONFIG_ADDR a) PCI_CONFIG_DATA).1 = config s a;
  config_read_keeps s a b : 0 <= a < 2 ^ 32 ->
    config (p_inl (p_outl s PCI_CONFIG_ADDR a) PCI_CONFIG_DATA).2 b = config s b;
  (** a register that holds what is written to it *)
  rw : Z -> bool;
  config_write s a v b : 0 <= a < 2 ^ 32 -> 0 <= v < 2 ^ 32 -> rw a = true ->
    config (p_outl (p_outl s PCI_CONFIG_ADDR a) PCI_CONFIG_DATA v) b = if b =? a then v else config s b;
}.

(** The address of the word of a register, as bit fields. *)
Definition reg_addr (bus slot func off : Z) : Z := 2 ^ 31 + bus * 2 ^ 16 + slot * 2 ^ 11 + func * 2 ^ 8 + off.

(** ** Addresses *)

Lemma pci_addr_fields bus slot func off :
  0 <= bus < 256 -> 0 <= slot < 32 -> 0 <= func < 8 -> 0 <= off < 256 ->
  pci_addr bus slot func off = reg_addr bus slot func (off / 4 * 4) /\
  0 <= pci_addr bus slot func off < 2 ^ 32.
Proof.
  intros Hb Hs Hf Ho. unfold pci_addr, reg_addr. rewrite !Z.shiftl_mul_pow2 by lia. unwrap.
  rewrite (land_clear_low 2 8) by lia. change (2 ^ 2) with 4.
  change 0x80000000 with (1 * 2 ^ 31). rewrite (lor_low 31) by lia.
  replace (1 * 2 ^ 31 + bus * 2 ^ 16) with ((2 ^ 15 + bus) * 2 ^ 16) by lia. rewrite (lor_low 16) by lia.
  replace ((2 ^ 15 + bus) * 2 ^ 16 + slot * 2 ^ 11) with ((2 ^ 20 + bus * 2 ^ 5 + slot) * 2 ^ 11) by lia.
  rewrite (lor_low 11) by lia.
  replace ((2 ^ 20 + bus * 2 ^ 5 + slot) * 2 ^ 11 + func * 2 ^ 8)
    with ((2 ^ 23 + bus * 2 ^ 8 + slot * 2 ^ 3 + func) * 2 ^ 8) by lia.
  rewrite (lor_low 8) by dlia. dlia.
Qed.

Lemma word_off off : 0 <= off < 256 -> u8 (Z.land off (Z.lnot 3)) = off / 4 * 4.
Proof.
  intros Ho. change 3 with (Z.ones 2). rewrite <- Z.ldiff_land, Z.ldiff_ones_r by lia.
  rewrite Z.shiftl_mul_pow2, Z.shiftr_div_pow2 by lia. change (2 ^ 2) with 4. apply u8_small. dlia.
Qed.

Lemma half_shift off : Z.land off 2 * 8 = 16 * (off / 2 mod 2).
Proof.
  assert (E1 : off / 2 mod 2 = Z.land off 2 / 2).
  { rewrite <- !Z.div2_div, !Z.div2_spec, Z.shiftr_land. by rewrite <- (Z.land_ones _ 1). }
  rewrite E1.
  assert (E : Z.land off 2 mod 2 = 0); [|dlia].
  rewrite <- (Z.land_ones _ 1) by lia. rewrite <- Z.land_assoc. apply Z.land_0_r.
Qed.

Section bus.
Context {S : Type} `{PciBus S}.

Section slot.
Context (bus slot func : Z) (Hb : 0 <= bus < 256) (Hs : 0 <= slot < 32) (Hf : 0 <= func < 8).

(** The word of a register. *)
Definition word_at (s : S) (off : Z) : Z := config s (reg_addr bus slot func (off / 4 * 4)).

Lemma pci_read32_spec s off :
  0 <= off < 256 -> (pci_read32 s bus slot func off).1 = word_at s off /\
  forall a, config (pci_read32 s bus slot func off).2 a = config s a.
Proof.
  intros Ho. destruct (pci_addr_fields bus slot func off Hb Hs Hf Ho) as [E R]. unfold pci_read32, word_at.
  rewrite <- E. split; [by apply config_read|]. intros a. by apply config_read_keeps.
Qed.

(** The 16-bit register at an even offset. *)
Definition half_at (s : S) (off : Z) : Z := word_at s off / 2 ^ (16 * (off / 2 mod 2)) mod 2 ^ 16.

Lemma pci_read16_spec s off :
  0 <= off < 256 -> (pci_read16 s bus slot func off).1 = half_at s off /\
  forall a, config (pci_read16 s bus slot func off).2 a = config s a.
Proof.
  intros Ho. unfold pci_read16. rewrite word_off, half_shift by done.
  destruct (pci_read32_spec s (off / 4 * 4)) as [E Hk]; [dlia|].
  destruct (pci_read32 _ _ _ _ _) as [v s1]. cbn [fst snd] in *. split; [|done].
  rewrite E, Z.shiftr_div_pow2 by dlia. unfold half_at, word_at, u16, wrap.
  by rewrite Z.div_mul by lia.
Qed.

(** The word [pci_write16] writes back. *)
Definition replace_half (old off val : Z) : Z :=
  if off / 2 mod 2 =? 0 then old / 2 ^ 16 * 2 ^ 16 + val else old mod 2 ^ 16 + val * 2 ^ 16.

Lemma replace_half_ok old off val :
  0 <= old < 2 ^ 32 -> 0 <= val < 2 ^ 16 ->
  Z.lor (Z.land old (u32 (Z.lnot (Z.shiftl 0xFFFF (Z.land off 2 * 8)))))
    (u32 (Z.shiftl val (Z.land off 2 * 8))) = replace_half old off val /\
  0 <= replace_half old off val < 2 ^ 32.
Proof.
  intros Hold Hv. rewrite half_shift. unfold replace_half.
  destruct (Z.eqb_spec (off / 2 mod 2) 0) as [->|Hne].
  - change (16 * 0) with 0. rewrite !Z.shiftl_0_r. rewrite (u32_small val) by lia.
    change (u32 (Z.lnot 0xFFFF)) with (Z.shiftl (Z.ones (32 - 16)) 16).
    rewrite (land_clear_low 16 32), (lor_low 16) by lia. split; [done|dlia].
  - assert (off / 2 mod 2 = 1) as -> by dlia. change (16 * 1) with 16. rewrite !Z.shiftl_mul_pow2 by lia. rewrite (u32_small (val * 2 ^ 16)) by lia.
    change (u32 (Z.lnot (0xFFFF * 2 ^ 16))) with (Z.ones 16).
    rewrite Z.land_ones, Z.lor_comm, lor_low by (try lia; apply Z.mod_pos_bound; lia). split; [lia|dlia].
Qed.

Lemma pci_write16_spec s off val :
  0 <= off < 256 -> 0 <= val < 2 ^ 16 -> rw (reg_addr bus slot func (off / 4 * 4)) = true ->
  forall a, config (pci_write16 s bus slot func off val) a =
    if a =? reg_addr bus slot func (off / 4 * 4) then replace_half (word_at s off) off val else config s a.
Proof.
  intros Ho Hv Hrw a. unfold pci_write16. rewrite word_off by done.
  destruct (pci_read32_spec s (off / 4 * 4)) as [E Hk]; [dlia|].
  destruct (pci_read32 _ _ _ _ _) as [old s1]. cbn [fst snd] in *.
  assert (Ew : word_at s (off / 4 * 4) = word_at s off) by (unfold word_at; by rewrite Z.div_mul by lia).
  rewrite Ew in E. destruct (replace_half_ok old off val) as [-> Hr]; [rewrite E; apply config_range|done|].
  destruct (pci_addr_fields bus slot func (off / 4 * 4)) as [Ea Ra]; [done|done|done|dlia|].
  rewrite Z.div_mul in Ea by lia. unfold pci_write32. rewrite config_write by (rewrite ?Ea; try done; by rewrite <- Ea).
  rewrite Ea, Hk, E. done.
Qed.

(** The words of a device's header, through [pci_read_device]. *)
Lemma pci_read_device_spec s vid did :
  func = 0 ->
  (pci_read_device s bus slot vid did).1 =
    {| d_bus := bus; d_slot := slot; d_func := 0; d_vendor_id := vid; d_device_id := did;
       d_class_code := word_at s 8 / 2 ^ 24; d_subclass := word_at s 8 / 2 ^ 16 mod 2 ^ 8;
       d_irq_line := word_at s 0x3C mod 2 ^ 8; d_bar0 := word_at s 0x10 / 16 * 16 |} /\
  forall a, config (pci_read_device s bus slot vid did).2 a = config s a.
Proof.
  intros F. unfold pci_read_device, PCI_BAR0, PCI_IRQ_LINE. rewrite <- F.
  destruct (pci_read32_spec s 0x08 ltac:(lia)) as [E1 K1]. destruct (pci_read32 s _ _ _ _) as [c1 s1].
  destruct (pci_read32_spec s1 0x08 ltac:(lia)) as [E2 K2]. destruct (pci_read32 s1 _ _ _ _) as [c2 s2].
  destruct (pci_read32_spec s2 0x10 ltac:(lia)) as [E3 K3]. destruct (pci_read32 s2 _ _ _ _) as [c3 s3].
  destruct (pci_read32_spec s3 0x3C ltac:(lia)) as [E4 K4]. destruct (pci_read32 s3 _ _ _ _) as [c4 s4].
  cbn [fst snd] in *. split; [|intros a; by rewrite K4, K3, K2, K1].
  assert (W2 : word_at s1 8 = word_at s 8) by apply K1.
  assert (W3 : word_at s2 0x10 = word_at s 0x10) by (unfold word_at; by rewrite K2, K1).
  assert (W4 : word_at s3 0x3C = word_at s 0x3C) by (unfold word_at; by rewrite K3, K2, K1).
  rewrite E1, E2, E3, E4, W2, W3, W4.
  pose proof (config_range s (reg_addr bus slot func (8 / 4 * 4))) as R1.
  pose proof (config_range s (reg_addr bus slot func (0x10 / 4 * 4))) as R3. fold (word_at s 8) in R1.
  fold (word_at s 0x10) in R3. rewrite !Z.shiftr_div_pow2 by lia. f_equal.
  - apply u8_small. lia.
  - apply u8_small. dlia.
  - apply (land_clear_low 4 32); lia.
Qed.
End slot.

(** Slot [slot] of bus [bus] holds a device with these identifiers. *)
Definition identifies (s : S) (vendor device bus slot : Z) : Prop :=
  config s (reg_addr bus slot 0 0) = device * 2 ^ 16 + vendor.

(** What is known of the device found at a slot. *)
Definition describes (s : S) (vendor device : Z) (d : pci_device) : Prop :=
  let word off := config s (reg_addr (d_bus d) (d_slot d) 0 off) in
  0 <= d_bus d < 256 /\ 0 <= d_slot d < 32 /\ d_func d = 0 /\ d_vendor_id d = vendor /\ d_device_id d = device /\
  identifies s vendor device (d_bus d) (d_slot d) /\
  d_class_code d = word 8 / 2 ^ 24 /\ d_subclass d = word 8 / 2 ^ 16 mod 2 ^ 8 /\
  d_irq_line d = word 0x3C mod 2 ^ 8 /\ d_bar0 d = word 0x10 / 16 * 16.

Section search.
Context (vendor device : Z) (Hv : 0 <= vendor < 0xFFFF) (Hd : 0 <= device < 2 ^ 16).

Lemma describes_ext s s' d : (forall a, config s' a = config s a) -> describes s' vendor device d -> describes s vendor device d.
Proof. intros E. unfold describes, identifies. rewrite !E. done. Qed.

(** The result of searching the slots of a bus from [slot] on. *)
Definition slot_result (s : S) (bus slot : Z) (res : option pci_device * S) : Prop :=
  (forall a, config res.2 a = config s a) /\
  match res.1 with
  | None => forall i, slot <= i < 32 -> ~ identifies s vendor device bus i
  | Some d => describes s vendor device d /\ d_bus d = bus /\ slot <= d_slot d /\
      forall i, slot <= i < d_slot d -> ~ identifies s vendor device bus i
  end.

Lemma slot_result_skip s s2 bus slot res :
  (forall a, config s2 a = config s a) -> ~ identifies s vendor device bus slot ->
  slot_result s2 bus (slot + 1) res -> slot_result s bus slot res.
Proof.
  intros K Hno [K' Hr]. split; [intros a; by rewrite K', K|].
  assert (Hi : forall i, ~ identifies s2 vendor device bus i -> ~ identifies s vendor device bus i)
    by (intros i; unfold identifies; by rewrite K).
  destruct res.1 as [d|].
  - destruct Hr as (D & Db & Ds & Dn). split; [by apply (describes_ext s s2)|]. split; [done|]. split; [lia|].
    intros i Hir. destruct (Z.eq_dec i slot) as [->|]; [done|]. apply Hi, Dn. lia.
  - intros i Hir. destruct (Z.eq_dec i slot) as [->|]; [done|]. apply Hi, Hr. lia.
Qed.

Lemma slot_loop_spec n s bus slot :
  0 <= bus < 256 -> 0 <= slot -> slot + Z.of_nat n = 32 ->
  slot_result s bus slot (slot_loop n s vendor device bus slot).
Proof.
  intros Hb. revert s slot. induction n as [|n IH]; intros s slot Hs Hn; cbn [slot_loop].
  { split; [done|]. cbn [fst]. lia. }
  destruct (pci_read16_spec bus slot 0 Hb ltac:(lia) ltac:(lia) s PCI_VENDOR_ID ltac:(done)) as [E1 K1].
  destruct (pci_read16 s bus slot 0 PCI_VENDOR_ID) as [vid s1]. cbn [fst snd] in *.
  pose proof (config_range s (reg_addr bus slot 0 0)) as Hr.
  assert (Evid : vid = config s (reg_addr bus slot 0 0) mod 2 ^ 16) by (rewrite E1; unfold half_at, word_at; by rewrite Z.div_1_r).
  destruct (Z.eqb_spec vid 0xFFFF) as [Ev|_].
  { apply (slot_result_skip s s1); [done|unfold identifies; intros E; dlia|apply IH; lia]. }
  destruct (pci_read16_spec bus slot 0 Hb ltac:(lia) ltac:(lia) s1 PCI_DEVICE_ID ltac:(done)) as [E2 K2].
  destruct (pci_read16 s1 bus slot 0 PCI_DEVICE_ID) as [did s2]. cbn [fst snd] in *.
  assert (Edid : did = config s (reg_addr bus slot 0 0) / 2 ^ 16).
  { rewrite E2. unfold half_at, word_at. rewrite K1. change (PCI_DEVICE_ID / 4 * 4) with 0.
    change (16 * (PCI_DEVICE_ID / 2 mod 2)) with 16. apply Z.mod_small. dlia. }
  destruct (Z.eqb_spec vid vendor) as [F1|F1], (Z.eqb_spec did device) as [F2|F2]; cbn [andb].
  2-4: apply (slot_result_skip s s2); [intros a; by rewrite K2, K1| |apply IH; lia]; unfold identifies; intros E;
    clear -E Evid Edid F1 F2 Hv Hd; dlia.
  destruct (pci_read_device_spec bus slot 0 Hb ltac:(lia) ltac:(lia) s2 vid did eq_refl) as [D K3].
  destruct (pci_read_device s2 bus slot vid did) as [d s3]. cbn [fst snd] in *.
  split; [intros a; cbn [snd]; by rewrite K3, K2, K1|]. subst d. cbn [fst d_bus d_slot]. split; [|split; [done|split; [lia|lia]]].
  apply (describes_ext s s2); [intros a; by rewrite K2, K1|]. unfold describes, identifies, word_at.
  cbn [d_bus d_slot d_func d_vendor_id d_device_id d_class_code d_subclass d_irq_line d_bar0].
  split; [done|]. split; [lia|]. do 3 (split; [done|]). split; [rewrite K2, K1; clear -Evid Edid F1 F2 Hr; dlia|].
  done.
Qed.

Lemma bus_loop_spec n s bus :
  0 <= bus -> bus + Z.of_nat n = 256 ->
  let '(r, s') := bus_loop n s vendor device bus in
  (forall a, config s' a = config s a) /\
  match r with
  | None => forall b i, bus <= b < 256 -> 0 <= i < 32 -> ~ identifies s vendor device b i
  | Some d => describes s vendor device d /\ bus <= d_bus d /\
      forall b i, bus <= b < 256 -> 0 <= i < 32 -> b * 32 + i < d_bus d * 32 + d_slot d ->
        ~ identifies s vendor device b i
  end.
Proof.
  revert s bus. induction n as [|n IH]; intros s bus Hb Hn; cbn [bus_loop].
  { split; [done|]. lia. }
  pose proof (slot_loop_spec 32 s bus 0 ltac:(lia) ltac:(lia) eq_refl) as Hs.
  destruct (slot_loop 32 s vendor device bus 0) as [[d|] s1]; destruct Hs as [K Hs].
  - split; [done|]. destruct Hs as (D & Db & Ds & Dn). split; [done|]. split; [lia|].
    intros b i Hbr Hi Hlt. destruct D as (_ & Hsl & _). destruct (Z.eq_dec b bus) as [->|]; [|lia].
    apply Dn. lia.
  - specialize (IH s1 (bus + 1) ltac:(lia) ltac:(lia)). destruct (bus_loop n s1 vendor device (bus + 1)) as [r s'].
    destruct IH as [K' IH]. split; [intros a; by rewrite K', K|].
    assert (Hi : forall b i, ~ identifies s1 vendor device b i -> ~ identifies s vendor device b i)
      by (intros b i; unfold identifies; by rewrite K).
    destruct r as [d|].
    + destruct IH as (D & Db & Dn). split; [by apply (describes_ext s s1)|]. split; [lia|].
      intros b i Hbr Hir Hlt. destruct (Z.eq_dec b bus) as [->|]; [by apply Hs|]. apply Hi, Dn; lia.
    + intros b i Hbr Hir. destruct (Z.eq_dec b bus) as [->|]; [by apply Hs|]. apply Hi, IH; lia.
Qed.
End search.
End bus.

(** ** A bus with a table of words *)

Record pci_bus := PciBusState {
  latch : Z;
  cfg_words : gmap Z Z;
}.

Definition bus_word (s : pci_bus) (a : Z) : Z := u32 (default 0xFFFFFFFF (cfg_words s !! a)).

#[export] Instance bus_ports : Ports pci_bus := {
  p_outl s port v :=
    if port =? PCI_CONFIG_ADDR then {| latch := u32 v; cfg_words := cfg_words s |}
    else if port =? PCI_CONFIG_DATA then {| latch := latch s; cfg_words := <[latch s := v]> (cfg_words s) |}
    else s;
  p_inl s port := (if port =? PCI_CONFIG_DATA then bus_word s (latch s) else 0, s);
}.

#[export] Instance bus_laws : PciBus pci_bus.
Proof.
  refine {| config := bus_word; rw := fun _ => true |}.
  - intros s a. apply u32_range.
  - intros s a Ha. cbn. by rewrite u32_small.
  - done.
  - intros s a v b Ha Hv _. cbn. unfold bus_word. cbn [cfg_words latch]. rewrite (u32_small a) by done.
    destruct (Z.eqb_spec b a) as [->|Hne].
    + rewrite lookup_insert_eq. cbn. by apply u32_small.
    + by rewrite lookup_insert_ne by done.
Defined.

(** ** Properties *)

(** The result of searching the bus. *)
Definition find_result {S : Type} `{PciBus S} (s : S) (vendor device : Z) (res : option pci_device * S) : Prop :=
  (forall a, config res.2 a = config s a) /\
  match res.1 with
  | None => forall b i, 0 <= b < 256 -> 0 <= i < 32 -> ~ identifies s vendor device b i
  | Some d => describes s vendor device d /\
      forall b i, 0 <= b < 256 -> 0 <= i < 32 -> b * 32 + i < d_bus d * 32 + d_slot d ->
        ~ identifies s vendor device b i
  end.

Lemma pci_find_device_spec {S : Type} `{PciBus S} (s : S) vendor device :
  0 <= vendor < 0xFFFF -> 0 <= device < 2 ^ 16 -> find_result s vendor device (pci_find_device s vendor device).
Proof.
  intros Hv Hd. pose proof (bus_loop_spec vendor device Hv Hd 256 s 0 ltac:(lia) eq_refl) as R.
  unfold pci_find_device. destruct (bus_loop 256 s vendor device 0) as [[d|] s']; [|done].
  destruct R as (K & D & _ & Hn). done.
Qed.

(** C25: [pci_find_device] returns the first device, in the order of buses and
    slots, whose function 0 has the vendor and device asked for, with its
    location, class, interrupt line and base address as configuration space has
    them; it reports that there is none exactly when there is none.  The search
    changes no configuration word. *)
Theorem pci_find_device_correct {S : Type} `{PciBus S} (s : S) (vendor device : Z)
  (Hv : 0 <= vendor < 0xFFFF) (Hd : 0 <= device < 2 ^ 16) :
  let '(r, s') := pci_find_device s vendor device in
  (forall a, config s' a = config s a) /\
  match r with
  | None => forall b i, 0 <= b < 256 -> 0 <= i < 32 -> ~ identifies s vendor device b i
  | Some d => describes s vendor device d /\
      forall b i, 0 <= b < 256 -> 0 <= i < 32 -> b * 32 + i < d_bus d * 32 + d_slot d ->
        ~ identifies s vendor device b i
  end.
Proof.
  pose proof (pci_find_device_spec s vendor device Hv Hd) as R.
  by destruct (pci_find_device s vendor device) as [r s'].
Qed.

(** A network card at slot 3 of bus 0. *)
Definition demo_bus : pci_bus :=
  PciBusState 0 (list_to_map
    [(reg_addr 0 3 0 0, 0x100E * 2 ^ 16 + 0x8086); (reg_addr 0 3 0 4, 0); (reg_addr 0 3 0 8, 0x02000003);
     (reg_addr 0 3 0 0x10, 0xFEBC0000); (reg_addr 0 3 0 0x3C, 11)]).

Lemma pci_find_device_correct_witness :
  exists d s', pci_find_device demo_bus 0x8086 0x100E = (Some d, s') /\
    describes demo_bus 0x8086 0x100E d /\ d_slot d = 3 /\ d_bar0 d = 0xFEBC0000.
Proof.
  pose proof (pci_find_device_correct demo_bus 0x8086 0x100E ltac:(lia) ltac:(lia)) as R.
  assert (E : exists d s', pci_find_device demo_bus 0x8086 0x100E = (Some d, s') /\ d_slot d = 3 /\ d_bar0 d = 0xFEBC0000)
    by (eexists _, _; split; [vm_compute; reflexivity|split; reflexivity]).
  destruct E as (d & s' & E & E3 & Eb). rewrite E in R. exists d, s'.
  split; [exact E|]. split; [exact (proj1 (proj2 R))|]. exact (conj E3 Eb).
Defined.

(** A 16-bit configuration register reads back what [pci_write16] wrote to
    it; the other half of its word and every other word are unchanged. *)
Theorem pci_write16_roundtrip {S : Type} `{PciBus S} (s : S) (bus slot func off val : Z)
  (Hb : 0 <= bus < 256) (Hs : 0 <= slot < 32) (Hf : 0 <= func < 8) (Ho : 0 <= off < 256)
  (Hv : 0 <= val < 2 ^ 16) (Hrw : rw (reg_addr bus slot func (off / 4 * 4)) = true) :
  let s' := pci_write16 s bus slot func off val in
  let other := off / 4 * 4 + (2 - off / 2 mod 2 * 2) in
  (pci_read16 s' bus slot func off).1 = val /\
  (pci_read16 s' bus slot func other).1 = (pci_read16 s bus slot func other).1 /\
  (forall a, a <> reg_addr bus slot func (off / 4 * 4) -> config s' a = config s a).
Proof.
  intros s' other. pose proof (pci_write16_spec bus slot func Hb Hs Hf s off val Ho Hv Hrw) as W. fold s' in W.
  assert (Hoth : 0 <= other < 256 /\ other / 4 * 4 = off / 4 * 4 /\ other / 2 mod 2 = 1 - off / 2 mod 2)
    by (unfold other; clear -Ho; dlia).
  destruct Hoth as (Ho' & E4 & E2).
  rewrite (proj1 (pci_read16_spec bus slot func Hb Hs Hf s' off Ho)),
    !(proj1 (pci_read16_spec bus slot func Hb Hs Hf _ other Ho')).
  unfold half_at, word_at. rewrite E4, E2, W, Z.eqb_refl. unfold replace_half, word_at.
  pose proof (config_range s (reg_addr bus slot func (off / 4 * 4))) as R.
  set (old := config s (reg_addr bus slot func (off / 4 * 4))) in *. clearbody old.
  split; [|split].
  - destruct (Z.eqb_spec (off / 2 mod 2) 0) as [E|E].
    + rewrite E. change (2 ^ (16 * 0)) with 1. rewrite Z.div_1_r. clear -Hv. dlia.
    + assert (off / 2 mod 2 = 1) as -> by (clear -E; dlia). change (2 ^ (16 * 1)) with (2 ^ 16). clear -Hv R. dlia.
  - destruct (Z.eqb_spec (off / 2 mod 2) 0) as [E|E].
    + rewrite E. change (2 ^ (16 * (1 - 0))) with (2 ^ 16). clear -Hv R. dlia.
    + assert (off / 2 mod 2 = 1) as -> by (clear -E; dlia). change (2 ^ (16 * (1 - 1))) with 1.
      rewrite !Z.div_1_r. clear -Hv R. dlia.
  - intros a Ha. rewrite W. by destruct (Z.eqb_spec a (reg_addr bus slot func (off / 4 * 4))).
Qed.

Lemma pci_write16_roundtrip_witness :
  (pci_read16 (pci_write16 demo_bus 0 3 0 PCI_COMMAND 6) 0 3 0 PCI_COMMAND).1 = 6.
Proof.
  apply (pci_write16_roundtrip demo_bus 0 3 0 PCI_COMMAND 6); unfold PCI_COMMAND; try lia. reflexivity.
Defined.
