(* ===== verification/Multiboot.v ===== *)
(** * [kernel/arch/x86_64/multiboot2.c]: the Multiboot2 information parser

    The boot loader leaves a structure in memory: an 8-byte header followed by
    tags (type, size, payload), each aligned to 8 bytes, ended by a tag of type
    0.  A pointer result is an address, 0 for [NULL].  [None] stands for a run
    that does not finish: the tag loop has no bound in the source, so it takes
    fuel, and the division by [entry_size] faults when the loader says 0. *)
From stdpp Require Import base numbers list gmap strings.
From Stdlib Require Import ZArith Lia.
From S2P Require Import Prelude.
From S2P Require Import Machine.

Definition MULTIBOOT_TAG_TYPE_END : Z := 0.
Definition MULTIBOOT_TAG_TYPE_BASIC_MEMINFO : Z := 4.
Definition MULTIBOOT_TAG_TYPE_MMAP : Z := 6.
Definition MULTIBOOT_MEMORY_AVAILABLE : Z := 1.

(** [multiboot_tag_t]: type at offset 0, size at offset 4. *)
Definition tag_type (m : memory) (tag : Z) : Z := load32 m tag.
Definition tag_size (m : memory) (tag : Z) : Z := load32 m (tag + 4).

(** [multiboot_tag_mmap_t]: [entry_size] at offset 8, entries at offset 16. *)
Definition sizeof_tag_mmap : Z := 16.
Definition mmap_entry_size (m : memory) (tag : Z) : Z := load32 m (tag + 8).
Definition mmap_entries (tag : Z) : Z := tag + sizeof_tag_mmap.

(** [multiboot_mmap_entry_t], read at its address. *)
Record mmap_entry := MmapEntry { e_addr : Z; e_len : Z; e_type : Z }.

Definition read_entry (m : memory) (a : Z) : mmap_entry :=
  {| e_addr := load64 m a; e_len := load64 m (a + 8); e_type := load32 m (a + 16) |}.

Definition is_available (e : mmap_entry) : bool := e_type e =? MULTIBOOT_MEMORY_AVAILABLE.

(** [while (tag->type != END) { if (tag->type == type) return tag; tag += ... }] *)
Fixpoint find_tag_loop (fuel : nat) (m : memory) (tag type : Z) : option Z :=
  match fuel with
  | O => None
  | S fuel' =>
      if tag_type m tag =? MULTIBOOT_TAG_TYPE_END then Some 0
      else if tag_type m tag =? type then Some tag
      else find_tag_loop fuel' m (tag + align8 (tag_size m tag)) type
  end.

Definition multiboot_find_tag (fuel : nat) (m : memory) (mbi type : Z) : option Z :=
  if mbi =? 0 then Some 0 else find_tag_loop fuel m (mbi + 8) type.

Definition multiboot_get_mmap (fuel : nat) (m : memory) (mbi : Z) : option Z :=
  if mbi =? 0 then Some 0 else multiboot_find_tag fuel m mbi MULTIBOOT_TAG_TYPE_MMAP.

(** [(mmap_tag->size - sizeof(multiboot_tag_mmap_t)) / mmap_tag->entry_size];
    [None] is the divide fault. *)
Definition mmap_entry_count (m : memory) (tag : Z) : option Z :=
  if mmap_entry_size m tag =? 0 then None
  else Some ((tag_size m tag -₃₂ sizeof_tag_mmap) / mmap_entry_size m tag).

(** The entries the loops visit: [count] of them, [stride] bytes apart. *)
Fixpoint entries_at (m : memory) (a stride : Z) (count : nat) : list mmap_entry :=
  match count with
  | O => []
  | S count' => read_entry m a :: entries_at m (a + stride) stride count'
  end.

Definition add_available (total : Z) (e : mmap_entry) : Z :=
  if is_available e then total +₆₄ e_len e else total.

Definition multiboot_get_total_memory (fuel : nat) (m : memory) (mbi : Z) : option Z :=
  if mbi =? 0 then Some 0
  else
    mmap_tag ← multiboot_get_mmap fuel m mbi;
    if negb (mmap_tag =? 0) then
      count ← mmap_entry_count m mmap_tag;
      Some (foldl add_available 0
              (entries_at m (mmap_entries mmap_tag) (mmap_entry_size m mmap_tag) (Z.to_nat count)))
    else
      meminfo ← multiboot_find_tag fuel m mbi MULTIBOOT_TAG_TYPE_BASIC_MEMINFO;
      if negb (meminfo =? 0)
      then Some (u64 (load32 m (meminfo + 8) * 1024 + load32 m (meminfo + 12) * 1024 + 1024 * 1024))
      else Some 0.

(** ** Specification *)

(** A well-formed tag list at [a]: the (type, size) pairs before the end tag. *)
Fixpoint tags_at (m : memory) (a : Z) (tags : list (Z * Z)) : Prop :=
  match tags with
  | [] => tag_type m a = MULTIBOOT_TAG_TYPE_END
  | (ty, sz) :: tags' =>
      tag_type m a = ty /\ tag_size m a = sz /\ ty <> MULTIBOOT_TAG_TYPE_END /\
      tags_at m (a + align8 sz) tags'
  end.

(** Where the first tag of a given type is, 0 when there is none. *)
Fixpoint first_tag (a : Z) (tags : list (Z * Z)) (type : Z) : Z :=
  match tags with
  | [] => 0
  | (ty, sz) :: tags' => if ty =? type then a else first_tag (a + align8 sz) tags' type
  end.

(** The sum of the lengths of the available regions. *)
Definition available_bytes (es : list mmap_entry) : Z :=
  foldr (fun e acc => (if is_available e then e_len e else 0) + acc) 0 es.

(** ** Proofs *)

Lemma find_tag_loop_ok fuel m a tags type :
  tags_at m a tags -> (length tags < fuel)%nat -> type <> MULTIBOOT_TAG_TYPE_END ->
  find_tag_loop fuel m a type = Some (first_tag a tags type).
Proof.
  revert a fuel. induction tags as [|[ty sz] tags IH]; intros a fuel Ht Hf Hty;
    (destruct fuel as [|fuel]; [simpl in *; lia|]); cbn [find_tag_loop tags_at first_tag] in *.
  - rewrite Ht. done.
  - destruct Ht as (Hy & Hs & Hn & Ht). rewrite Hy, Hs.
    destruct (Z.eqb_spec ty MULTIBOOT_TAG_TYPE_END); [done|].
    destruct (Z.eqb_spec ty type); [done|]. apply IH; [done|simpl in *; lia|done].
Qed.

Lemma length_entries_at m a stride n : length (entries_at m a stride n) = n.
Proof. revert a; induction n; intros; simpl; auto. Qed.

Lemma entries_at_ext m m' a stride n :
  0 <= stride ->
  (forall b, a <= b < a + stride * Z.of_nat n + 20 -> load8 m' b = load8 m b) ->
  entries_at m' a stride n = entries_at m a stride n.
Proof.
  intros Hs. revert a. induction n as [|n IH]; intros a H; [done|]. cbn [entries_at].
  rewrite (IH (a + stride)).
  - f_equal. unfold read_entry.
    assert (forall k b, a <= b -> b + Z.of_nat k <= a + 20 -> load_le k m' b = load_le k m b) as E.
    { intros k b H1 H2. apply load_le_ext. intros. apply H. nia. }
    unfold load64, load32. rewrite !E by lia. done.
  - intros b Hb. apply H. nia.
Qed.

Lemma read_entry_ranges m a :
  0 <= e_addr (read_entry m a) < 2 ^ 64 /\ 0 <= e_len (read_entry m a) < 2 ^ 64.
Proof. split; apply load64_range. Qed.

Lemma foldl_add_available es total :
  (forall e, In e es -> 0 <= e_len e) -> 0 <= total -> total + available_bytes es < 2 ^ 64 ->
  foldl add_available total es = total + available_bytes es.
Proof.
  revert total. induction es as [|e es IH]; intros total Hl Ht Hb; simpl in *; [lia|].
  assert (0 <= available_bytes es).
  { clear IH Hb. induction es as [|e' es IH']; simpl; [lia|].
    assert (0 <= e_len e') by (apply Hl; simpl; auto).
    assert (0 <= available_bytes es) by (apply IH'; simpl in *; intuition).
    destruct (is_available e'); unfold available_bytes in *; lia. }
  assert (0 <= e_len e) by (apply Hl; auto).
  unfold add_available at 2. unfold available_bytes in *.
  destruct (is_available e); unwrap; (rewrite IH; [lia|auto|lia|lia]).
Qed.

(** C38: on a well-formed tag list the parser terminates and finds the memory
    map: [multiboot_get_mmap] returns the address of the first tag of type 6,
    or [NULL] when there is none. *)
Theorem multiboot_get_mmap_correct (m : memory) (mbi : Z) (tags : list (Z * Z)) (fuel : nat)
    (Hmbi : mbi <> 0) (Ht : tags_at m (mbi + 8) tags) (Hf : (length tags < fuel)%nat) :
  multiboot_get_mmap fuel m mbi = Some (first_tag (mbi + 8) tags MULTIBOOT_TAG_TYPE_MMAP).
Proof.
  unfold multiboot_get_mmap, multiboot_find_tag. destruct (Z.eqb_spec mbi 0); [done|].
  by apply find_tag_loop_ok.
Qed.

(** An information structure with a 12-byte command line tag and a memory map
    of one available region, 0x500000 to 0x2000000. *)
Definition demo_mbi : memory :=
  store_bytes ∅ 4096
    ([80;0;0;0; 0;0;0;0] ++
     [1;0;0;0; 12;0;0;0; 97;98;99;0; 0;0;0;0] ++
     [6;0;0;0; 40;0;0;0; 24;0;0;0; 0;0;0;0] ++
     [0;0;0x50;0; 0;0;0;0; 0;0;0xB0;1; 0;0;0;0; 1;0;0;0; 0;0;0;0] ++
     [0;0;0;0; 8;0;0;0]).

Lemma multiboot_get_mmap_correct_witness :
  multiboot_get_mmap 3 demo_mbi 4096 = Some 4120.
Proof.
  apply (multiboot_get_mmap_correct demo_mbi 4096 [(1, 12); (6, 40)] 3); [lia| |simpl; lia].
  vm_compute. repeat split; discriminate.
Defined.
