(* ===== verification/Pmm.v ===== *)
(** * [kernel/mm/pmm.c]: the physical frame allocator

    The bitmap (one bit per 4 KB frame, 1 = used) lives in physical memory, at
    [_kernel_end]; the static variables are the record [pmm].  Every routine is
    a function of the memory and the record.  The counters are 64-bit and wrap.

    [frame_free] is the abstract view: the set of free frames.  The theorems
    state each routine on that set, on every branch. *)
From stdpp Require Import base numbers list gmap strings.
From Stdlib Require Import ZArith Lia.
From S2P Require Import Prelude.
From S2P Require Import Machine.
From S2P Require Import Multiboot.

Definition PMM_FRAME_SIZE : Z := 4096.
Definition PMM_ADDR_TO_FRAME (addr : Z) : Z := addr / PMM_FRAME_SIZE.
Definition PMM_FRAME_TO_ADDR (frame : Z) : Z := frame *₆₄ PMM_FRAME_SIZE.

(** The static variables of the file. *)
Record pmm := Pmm {
  frame_bitmap : Z;
  total_frames : Z;
  used_frames : Z;
  total_memory : Z;
  highest_address : Z;
}.

(** Their values before [pmm_init]. *)
Definition pmm_boot : pmm := Pmm 0 0 0 0 0.

Definition set_used (p : pmm) (n : Z) : pmm :=
  {| frame_bitmap := frame_bitmap p; total_frames := total_frames p; used_frames := n;
     total_memory := total_memory p; highest_address := highest_address p |}.

Record pmm_stats := PmmStats {
  st_total_frames : Z;
  st_used_frames : Z;
  st_free_frames : Z;
  st_total_memory : Z;
  st_used_memory : Z;
  st_free_memory : Z;
}.

(** ** Bitmap primitives *)

(** The address of [frame_bitmap[frame / 32]]. *)
Definition word_addr (p : pmm) (frame : Z) : Z := frame_bitmap p + 4 * (frame / 32).

Definition bitmap_set (m : memory) (p : pmm) (frame : Z) : memory :=
  let bit := frame mod 32 in
  store32 m (word_addr p frame)
    (Z.lor (load32 m (word_addr p frame)) (u32 (Z.shiftl 1 bit))).

Definition bitmap_clear (m : memory) (p : pmm) (frame : Z) : memory :=
  let bit := frame mod 32 in
  store32 m (word_addr p frame)
    (Z.land (load32 m (word_addr p frame)) (u32 (Z.lnot (Z.shiftl 1 bit)))).

Definition bitmap_test (m : memory) (p : pmm) (frame : Z) : bool :=
  let bit := frame mod 32 in
  negb (Z.land (load32 m (word_addr p frame)) (u32 (Z.shiftl 1 bit)) =? 0).

(** The inner loop of [find_free_frame], [n] iterations left at bit [j] of word [i]. *)
Fixpoint find_free_in_word (n : nat) (m : memory) (p : pmm) (i j : Z) : option Z :=
  match n with
  | O => None
  | S n' =>
      let frame := i * 32 + j in
      if (frame <? total_frames p) && negb (bitmap_test m p frame) then Some frame
      else find_free_in_word n' m p i (j + 1)
  end.

(** The outer loop, [n] words left from word [i]. *)
Fixpoint find_free_from (n : nat) (m : memory) (p : pmm) (i : Z) : Z :=
  match n with
  | O => u64 (-1)
  | S n' =>
      if negb (load32 m (frame_bitmap p + 4 * i) =? 0xFFFFFFFF) then
        match find_free_in_word 32 m p i 0 with
        | Some frame => frame
        | None => find_free_from n' m p (i + 1)
        end
      else find_free_from n' m p (i + 1)
  end.

Definition find_free_frame (m : memory) (p : pmm) : Z :=
  find_free_from (Z.to_nat (total_frames p / 32)) m p 0.

(** ** Allocation and release *)

Definition pmm_alloc_frame (m : memory) (p : pmm) : Z * memory * pmm :=
  let frame := find_free_frame m p in
  if frame =? u64 (-1) then (0, m, p)
  else (PMM_FRAME_TO_ADDR frame, bitmap_set m p frame, set_used p (used_frames p +₆₄ 1)).

(** [for (i = 0; i < count; i++) { bitmap_set(start + i); used_frames++; }] *)
Fixpoint set_run (n : nat) (m : memory) (p : pmm) (frame : Z) : memory * pmm :=
  match n with
  | O => (m, p)
  | S n' => set_run n' (bitmap_set m p frame) (set_used p (used_frames p +₆₄ 1)) (frame + 1)
  end.

(** The scan of [pmm_alloc_frames]: [n] frames left from [frame], a free run of
    [found] frames ending before it, begun at [start]. *)
Fixpoint find_run (n : nat) (m : memory) (p : pmm) (count frame start found : Z) : option Z :=
  match n with
  | O => None
  | S n' =>
      if negb (bitmap_test m p frame) then
        let start' := if found =? 0 then frame else start in
        let found' := found + 1 in
        if found' =? count then Some start'
        else find_run n' m p count (frame + 1) start' found'
      else find_run n' m p count (frame + 1) start 0
  end.

Definition pmm_alloc_frames (m : memory) (p : pmm) (count : Z) : Z * memory * pmm :=
  if count =? 0 then (0, m, p)
  else
    match find_run (Z.to_nat (total_frames p)) m p count 0 0 0 with
    | Some start =>
        let '(m', p') := set_run (Z.to_nat count) m p start in
        (PMM_FRAME_TO_ADDR start, m', p')
    | None => (0, m, p)
    end.

Definition pmm_free_frame (m : memory) (p : pmm) (addr : Z) : memory * pmm :=
  let frame := PMM_ADDR_TO_FRAME addr in
  if frame >=? total_frames p then (m, p)
  else if negb (bitmap_test m p frame) then (m, p)
  else (bitmap_clear m p frame, set_used p (used_frames p -₆₄ 1)).

Fixpoint pmm_free_frames_loop (n : nat) (m : memory) (p : pmm) (addr i : Z) : memory * pmm :=
  match n with
  | O => (m, p)
  | S n' =>
      let '(m', p') := pmm_free_frame m p (addr +₆₄ (i *₃₂ PMM_FRAME_SIZE)) in
      pmm_free_frames_loop n' m' p' addr (i + 1)
  end.

Definition pmm_free_frames (m : memory) (p : pmm) (addr count : Z) : memory * pmm :=
  pmm_free_frames_loop (Z.to_nat count) m p addr 0.

Definition pmm_is_frame_allocated (m : memory) (p : pmm) (addr : Z) : bool :=
  let frame := PMM_ADDR_TO_FRAME addr in
  if frame >=? total_frames p then true else bitmap_test m p frame.

Definition pmm_get_stats (p : pmm) : pmm_stats :=
  {| st_total_frames := total_frames p;
     st_used_frames := used_frames p;
     st_free_frames := total_frames p -₆₄ used_frames p;
     st_total_memory := total_memory p;
     st_used_memory := used_frames p *₆₄ PMM_FRAME_SIZE;
     st_free_memory := (total_frames p -₆₄ used_frames p) *₆₄ PMM_FRAME_SIZE |}.

(** [pmm_get_stats(stats)] with its pointer: the structure at [stats] is filled in,
    and nothing happens for NULL.  The callers read it back ([stats_at]). *)
Definition pmm_get_stats_to (m : memory) (p : pmm) (stats : Z) : memory :=
  if stats =? 0 then m
  else
    let m1 := store_le 8 m stats (total_frames p) in
    let m2 := store_le 8 m1 (stats + 8) (used_frames p) in
    let m3 := store_le 8 m2 (stats + 16) (total_frames p -₆₄ used_frames p) in
    let m4 := store_le 8 m3 (stats + 24) (total_memory p) in
    let m5 := store_le 8 m4 (stats + 32) (used_frames p *₆₄ PMM_FRAME_SIZE) in
    store_le 8 m5 (stats + 40) ((total_frames p -₆₄ used_frames p) *₆₄ PMM_FRAME_SIZE).
Definition stats_at (m : memory) (a : Z) : pmm_stats :=
  {| st_total_frames := load64 m a; st_used_frames := load64 m (a + 8); st_free_frames := load64 m (a + 16);
     st_total_memory := load64 m (a + 24); st_used_memory := load64 m (a + 32); st_free_memory := load64 m (a + 40) |}.

Definition pmm_reserve_frame (m : memory) (p : pmm) (addr : Z) : memory * pmm :=
  let frame := PMM_ADDR_TO_FRAME addr in
  if frame >=? total_frames p then (m, p)
  else if negb (bitmap_test m p frame)
  then (bitmap_set m p frame, set_used p (used_frames p +₆₄ 1))
  else (m, p).

(** [for (frame = start; frame <= end_frame && frame < total_frames; frame++)] *)
Fixpoint reserve_loop (n : nat) (m : memory) (p : pmm) (frame end_frame : Z) : memory * pmm :=
  match n with
  | O => (m, p)
  | S n' =>
      if (frame <=? end_frame) && (frame <? total_frames p) then
        let '(m', p') := pmm_reserve_frame m p (PMM_FRAME_TO_ADDR frame) in
        reserve_loop n' m' p' (frame + 1) end_frame
      else (m, p)
  end.

Definition pmm_reserve_region (m : memory) (p : pmm) (start end_ : Z) : memory * pmm :=
  let start_frame := PMM_ADDR_TO_FRAME start in
  let end_frame := PMM_ADDR_TO_FRAME end_ +
                   (if negb (end_ mod PMM_FRAME_SIZE =? 0) then 1 else 0) in
  reserve_loop (Z.to_nat (Z.min (end_frame + 1) (total_frames p) - start_frame))
    m p start_frame end_frame.

(** ** Initialisation *)

(** First pass over the memory map: total memory and highest address. *)
Definition measure_entry (acc : Z * Z) (e : mmap_entry) : Z * Z :=
  let '(total, highest) := acc in
  if is_available e then
    let end_addr := e_addr e +₆₄ e_len e in
    (total +₆₄ e_len e, if end_addr >? highest then end_addr else highest)
  else acc.

(** [for (i = 0; i < n; i++) frame_bitmap[i] = 0xFFFFFFFF;] *)
Fixpoint fill_bitmap (n : nat) (m : memory) (a : Z) : memory :=
  match n with
  | O => m
  | S n' => fill_bitmap n' (store32 m a 0xFFFFFFFF) (a + 4)
  end.

(** [for (frame = start; frame < end && frame < total_frames; frame++)
    { bitmap_clear(frame); used_frames--; }] *)
Fixpoint clear_loop (n : nat) (m : memory) (p : pmm) (frame end_frame : Z) : memory * pmm :=
  match n with
  | O => (m, p)
  | S n' =>
      if (frame <? end_frame) && (frame <? total_frames p) then
        clear_loop n' (bitmap_clear m p frame) (set_used p (used_frames p -₆₄ 1))
          (frame + 1) end_frame
      else (m, p)
  end.

Definition free_entry (m : memory) (p : pmm) (e : mmap_entry) : memory * pmm :=
  if is_available e then
    let start_frame := e_addr e / PMM_FRAME_SIZE in
    let end_frame := (e_addr e +₆₄ e_len e) / PMM_FRAME_SIZE in
    clear_loop (Z.to_nat (Z.min end_frame (total_frames p) - start_frame)) m p start_frame end_frame
  else (m, p).

(** Second pass over the memory map; each entry, and the entry size, is read from
    memory again. *)
Fixpoint free_entries (n : nat) (m : memory) (p : pmm) (entry mmap_tag : Z) : memory * pmm :=
  match n with
  | O => (m, p)
  | S n' =>
      let '(m', p') := free_entry m p (read_entry m entry) in
      free_entries n' m' p' (entry + mmap_entry_size m' mmap_tag) mmap_tag
  end.

Definition frames_of (highest : Z) : Z :=
  highest / PMM_FRAME_SIZE + (if negb (highest mod PMM_FRAME_SIZE =? 0) then 1 else 0).

(** One bit per frame, rounded up to bytes and then to 32-bit words. *)
Definition bitmap_bytes (frames : Z) : Z :=
  let size := frames / 8 + (if negb (frames mod 8 =? 0) then 1 else 0) in
  if negb (size mod 4 =? 0) then size + (4 - size mod 4) else size.

Section init.
(** The linker symbol [_kernel_end], where the bitmap is placed. *)
Context (bitmap_location : Z).

Definition pmm_init (fuel : nat) (w : machine) (p : pmm) (mbi : Z) : option (machine * pmm) :=
  if mbi =? 0 then
    Some (emit w [VgaSetColor VGA_COLOR_LIGHT_RED VGA_COLOR_BLACK; VgaPuts (line "ERROR: No Multiboot info")], p)
  else
    mmap_tag ← multiboot_get_mmap fuel (ram w) mbi;
    if mmap_tag =? 0 then
      Some (emit w [VgaSetColor VGA_COLOR_LIGHT_RED VGA_COLOR_BLACK; VgaPuts (line "ERROR: No memory map")], p)
    else
      count ← mmap_entry_count (ram w) mmap_tag;
      let stride := mmap_entry_size (ram w) mmap_tag in
      let es := entries_at (ram w) (mmap_entries mmap_tag) stride (Z.to_nat count) in
      let '(total, highest) := foldl measure_entry (total_memory p, highest_address p) es in
      let frames := frames_of highest in
      let size := bitmap_bytes frames in
      let m1 := fill_bitmap (Z.to_nat (size / 4)) (ram w) bitmap_location in
      let p1 := {| frame_bitmap := bitmap_location; total_frames := frames; used_frames := frames;
                   total_memory := total; highest_address := highest |} in
      let '(m2, p2) := free_entries (Z.to_nat count) m1 p1 (mmap_entries mmap_tag) mmap_tag in
      let '(m3, p3) := pmm_reserve_region m2 p2 0 (bitmap_location + size) in
      Some (set_ram w m3, p3).
End init.

(** ** Specification *)

(** The frames the allocator may hand out. *)
Definition frame_free (m : memory) (p : pmm) (f : Z) : Prop :=
  0 <= f < total_frames p /\ bitmap_test m p f = false.

(** The well-formedness invariant: the frame count comes from a 64-bit address
    space and [used_frames] counts the set bits. *)
Definition pmm_inv (m : memory) (p : pmm) : Prop :=
  0 <= total_frames p <= 2 ^ 52 /\
  used_frames p = count_below (Z.to_nat (total_frames p)) (bitmap_test m p).

(** The bytes of the bitmap. *)
Definition bitmap_end (p : pmm) : Z := frame_bitmap p + bitmap_bytes (total_frames p).

(** The abstract effect of a routine: the frames satisfying [used] are now the
    used ones, only the counter and the bitmap's bytes may have changed, and
    the invariant holds. *)
Definition pmm_becomes (m : memory) (p : pmm) (m' : memory) (p' : pmm) (used : Z -> bool) : Prop :=
  p' = set_used p (used_frames p') /\
  (forall f, bitmap_test m' p' f = used f) /\
  same_outside (frame_bitmap p) (bitmap_end p) m m' /\
  pmm_inv m' p'.

(** The frames an available entry of the memory map frees: from the frame
    containing its first byte to the last whole frame. *)
Definition entry_frames (f : Z) (e : mmap_entry) : bool :=
  is_available e && (e_addr e / PMM_FRAME_SIZE <=? f) &&
  (f <? (e_addr e +₆₄ e_len e) / PMM_FRAME_SIZE).

(** No frame belongs to two entries. *)
Fixpoint entries_disjoint (es : list mmap_entry) : Prop :=
  match es with
  | [] => True
  | e :: es' =>
      (forall e' f, In e' es' -> entry_frames f e = true -> entry_frames f e' = false) /\
      entries_disjoint es'
  end.

(** The last frame [pmm_reserve_region 0 end_] reserves. *)
Definition last_reserved (end_ : Z) : Z :=
  end_ / PMM_FRAME_SIZE + (if negb (end_ mod PMM_FRAME_SIZE =? 0) then 1 else 0).

(** ** Bitmap lemmas *)

Lemma mod32_range f : 0 <= f mod 32 < 32.
Proof. apply Z.mod_pos_bound. lia. Qed.

Lemma shiftl_1_range b : 0 <= b < 32 -> 0 <= Z.shiftl 1 b < 2 ^ 32.
Proof.
  intros. rewrite Z.shiftl_1_l. split; [lia|]. apply Z.pow_lt_mono_r; lia.
Qed.

Lemma bitmap_test_bit m p f :
  bitmap_test m p f = Z.testbit (load32 m (word_addr p f)) (f mod 32).
Proof.
  unfold bitmap_test. pose proof (mod32_range f).
  rewrite u32_small by (by apply shiftl_1_range). rewrite land_shiftl_1 by lia.
  apply negb_involutive.
Qed.

Lemma same_word_or_disjoint p f g :
  f / 32 = g / 32 \/ (f / 32 <> g / 32 /\
    (word_addr p f + 4 <= word_addr p g \/ word_addr p g + 4 <= word_addr p f)).
Proof. unfold word_addr. lia. Qed.

Lemma frame_split f : f = 32 * (f / 32) + f mod 32.
Proof. apply Z.div_mod. lia. Qed.

Lemma bitmap_test_set m p f g :
  bitmap_test (bitmap_set m p f) p g = (g =? f) || bitmap_test m p g.
Proof.
  rewrite !bitmap_test_bit. unfold bitmap_set.
  pose proof (mod32_range f) as Hf. pose proof (mod32_range g) as Hg.
  pose proof (frame_split f) as Sf. pose proof (frame_split g) as Sg.
  destruct (same_word_or_disjoint p f g) as [E|[E D]].
  - replace (word_addr p g) with (word_addr p f) by (unfold word_addr; by rewrite E).
    rewrite load32_store32_same.
    + rewrite Z.lor_spec, (u32_small (Z.shiftl 1 _)), testbit_shiftl_1
        by (lia || by apply shiftl_1_range).
      rewrite orb_comm. f_equal. zcases; congruence || lia.
    + apply lor_range; [lia|apply load32_range|apply u32_range].
  - rewrite load32_store32_ne by done. destruct (Z.eqb_spec g f); [congruence|done].
Qed.

Lemma bitmap_test_clear m p f g :
  bitmap_test (bitmap_clear m p f) p g = negb (g =? f) && bitmap_test m p g.
Proof.
  rewrite !bitmap_test_bit. unfold bitmap_clear.
  pose proof (mod32_range f) as Hf. pose proof (mod32_range g) as Hg.
  pose proof (frame_split f) as Sf. pose proof (frame_split g) as Sg.
  destruct (same_word_or_disjoint p f g) as [E|[E D]].
  - replace (word_addr p g) with (word_addr p f) by (unfold word_addr; by rewrite E).
    rewrite load32_store32_same by (apply land_range; [lia|apply load32_range]).
    rewrite Z.land_spec. unfold u32, wrap.
    rewrite Z.mod_pow2_bits_low, Z.lnot_spec, testbit_shiftl_1 by lia.
    rewrite andb_comm. do 2 f_equal. zcases; congruence || lia.
  - rewrite load32_store32_ne by done. destruct (Z.eqb_spec g f); [congruence|done].
Qed.

Lemma bitmap_test_set_used m p n f : bitmap_test m (set_used p n) f = bitmap_test m p f.
Proof. done. Qed.

(** The bitmap's bytes are where the memory changes. *)
Lemma bitmap_bytes_covers n f : 0 <= f < n -> 4 * (f / 32) + 4 <= bitmap_bytes n.
Proof.
  intros H. unfold bitmap_bytes. set (c := if negb (n mod 8 =? 0) then 1 else 0).
  assert (Hc : n / 8 * 8 + n mod 8 = n) by (pose proof (Z.div_mod n 8); lia).
  assert (Hs : n <= 8 * (n / 8 + c)).
  { subst c. pose proof (Z.mod_pos_bound n 8). destruct (Z.eqb_spec (n mod 8) 0); simpl; lia. }
  set (s := n / 8 + c) in *.
  pose proof (frame_split f). pose proof (mod32_range f).
  pose proof (Z.div_mod s 4). pose proof (Z.mod_pos_bound s 4).
  destruct (Z.eqb_spec (s mod 4) 0); simpl; lia.
Qed.

Lemma bitmap_set_frame m p f :
  0 <= f < total_frames p ->
  same_outside (frame_bitmap p) (bitmap_end p) m (bitmap_set m p f).
Proof.
  intros Hf a Ha. apply load8_store32_ne.
  pose proof (bitmap_bytes_covers _ _ Hf). pose proof (Z.div_pos f 32).
  unfold word_addr, bitmap_end in *. lia.
Qed.

Lemma bitmap_clear_frame m p f :
  0 <= f < total_frames p ->
  same_outside (frame_bitmap p) (bitmap_end p) m (bitmap_clear m p f).
Proof.
  intros Hf a Ha. apply load8_store32_ne.
  pose proof (bitmap_bytes_covers _ _ Hf). pose proof (Z.div_pos f 32).
  unfold word_addr, bitmap_end in *. lia.
Qed.

(** ** The search for a free frame *)

(** A word different from 0xFFFFFFFF has a clear bit. *)
Lemma word_full m p i :
  0 <= i -> load32 m (frame_bitmap p + 4 * i) = 0xFFFFFFFF <->
  forall j, 0 <= j < 32 -> bitmap_test m p (i * 32 + j) = true.
Proof.
  intros Hi.
  assert (W : forall j, 0 <= j < 32 ->
    bitmap_test m p (i * 32 + j) = Z.testbit (load32 m (frame_bitmap p + 4 * i)) j).
  { intros j Hj. rewrite bitmap_test_bit. unfold word_addr.
    replace ((i * 32 + j) / 32) with i by dlia.
    replace ((i * 32 + j) mod 32) with j by dlia. done. }
  change 0xFFFFFFFF with (Z.ones 32). split.
  - intros E j Hj. rewrite W, E by done. apply Z.ones_spec_low. lia.
  - intros H. apply (bits_inj_range 32); [lia|apply load32_range|by vm_compute|].
    intros j Hj. rewrite <- W, H, Z.ones_spec_low by lia. done.
Qed.

Lemma find_free_in_word_spec n m p i j :
  match find_free_in_word n m p i j with
  | Some f => i * 32 + j <= f < i * 32 + j + Z.of_nat n /\ f < total_frames p /\
      bitmap_test m p f = false /\
      forall g, i * 32 + j <= g < f -> g < total_frames p -> bitmap_test m p g = true
  | None => forall g, i * 32 + j <= g < i * 32 + j + Z.of_nat n -> g < total_frames p ->
      bitmap_test m p g = true
  end.
Proof.
  revert j. induction n as [|n IH]; intros j; cbn [find_free_in_word]; [lia|].
  destruct (Z.ltb_spec (i * 32 + j) (total_frames p)) as [Hlt|Hge];
    [destruct (bitmap_test m p (i * 32 + j)) eqn:E|]; simpl.
  2: { repeat split; try lia; done. }
  all: specialize (IH (j + 1)); destruct (find_free_in_word n m p i (j + 1)) as [f|].
  all: try (destruct IH as (H1 & H2 & H3 & H4)).
  all: try (split; [lia|split; [done|split; [done|]]]).
  all: intros g Hg Hg'; destruct (decide (g = i * 32 + j)) as [->|]; try done; try lia.
  - apply H4; lia.
  - apply IH; lia.
Qed.

Lemma find_free_from_spec n m p i :
  0 <= i -> (i + Z.of_nat n) * 32 <= total_frames p ->
  (exists f, find_free_from n m p i = f /\ i * 32 <= f < (i + Z.of_nat n) * 32 /\
     bitmap_test m p f = false /\ forall g, i * 32 <= g < f -> bitmap_test m p g = true) \/
  (find_free_from n m p i = u64 (-1) /\
     forall g, i * 32 <= g < (i + Z.of_nat n) * 32 -> bitmap_test m p g = true).
Proof.
  revert i. induction n as [|n IH]; intros i Hi Hn; cbn [find_free_from].
  { right. split; [done|lia]. }
  pose proof (find_free_in_word_spec 32 m p i 0) as Hw.
  assert (Hcont : (forall g, i * 32 <= g < i * 32 + 32 -> bitmap_test m p g = true) ->
    (exists f, find_free_from n m p (i + 1) = f /\ i * 32 <= f < (i + Z.of_nat (S n)) * 32 /\
       bitmap_test m p f = false /\ forall g, i * 32 <= g < f -> bitmap_test m p g = true) \/
    (find_free_from n m p (i + 1) = u64 (-1) /\
       forall g, i * 32 <= g < (i + Z.of_nat (S n)) * 32 -> bitmap_test m p g = true)).
  { intros Hused. destruct (IH (i + 1)) as [(f & E & Hr & Hf & Hl)|[E Ha]]; [lia|lia| |].
    - left. exists f. split; [done|]. split; [lia|]. split; [done|]. intros g Hg.
      destruct (Z.ltb_spec g (i * 32 + 32)); [apply Hused; lia|apply Hl; lia].
    - right. split; [done|]. intros g Hg.
      destruct (Z.ltb_spec g (i * 32 + 32)); [apply Hused; lia|apply Ha; lia]. }
  destruct (Z.eqb_spec (load32 m (frame_bitmap p + 4 * i)) 0xFFFFFFFF) as [E|E]; simpl negb; cbv iota.
  - apply Hcont. intros g Hg. replace g with (i * 32 + (g - i * 32)) by lia.
    apply word_full; [lia|done|lia].
  - destruct (find_free_in_word 32 m p i 0) as [f|].
    + destruct Hw as (Hr & Ht & Hf & Hl). left. exists f. split; [done|]. split; [lia|].
      split; [done|]. intros g Hg. apply Hl; lia.
    + apply Hcont. intros g Hg. apply Hw; lia.
Qed.

(** The frames the search looks at: all of them when the frame count is a
    multiple of 32, otherwise the whole words only. *)
Definition searched (p : pmm) : Z := total_frames p / 32 * 32.

Lemma find_free_frame_spec m p :
  0 <= total_frames p ->
  (exists f, find_free_frame m p = f /\ 0 <= f < searched p /\ bitmap_test m p f = false /\
     forall g, 0 <= g < f -> bitmap_test m p g = true) \/
  (find_free_frame m p = u64 (-1) /\ forall g, 0 <= g < searched p -> bitmap_test m p g = true).
Proof.
  intros Ht. unfold find_free_frame, searched. set (n := total_frames p / 32).
  assert (Hn : 0 <= n /\ n * 32 <= total_frames p) by (subst n; dlia).
  destruct (find_free_from_spec (Z.to_nat n) m p 0) as [(f & ? & ? & ? & ?)|[? H]]; [lia|lia| |].
  - left. exists f. repeat split; auto; lia.
  - right. split; [done|]. intros g Hg. apply H. lia.
Qed.

Lemma searched_le p : 0 <= total_frames p -> searched p <= total_frames p < searched p + 32.
Proof. unfold searched. intros. dlia. Qed.

(** ** Elementary transitions *)

Lemma becomes_refl m p : pmm_inv m p -> pmm_becomes m p m p (bitmap_test m p).
Proof. intros. split; [by destruct p|]. auto with mshka. Qed.

Lemma becomes_ext m p m' p' g g' :
  (forall f, g f = g' f) -> pmm_becomes m p m' p' g -> pmm_becomes m p m' p' g'.
Proof. intros H (? & Hb & ? & ?). split; [done|]. split; [|done]. intros. by rewrite Hb. Qed.

Lemma becomes_trans m p m1 p1 m2 p2 g1 g2 :
  pmm_becomes m p m1 p1 g1 -> pmm_becomes m1 p1 m2 p2 g2 -> pmm_becomes m p m2 p2 g2.
Proof.
  intros (E1 & H1 & O1 & I1) (E2 & H2 & O2 & I2). split.
  { rewrite E2 at 1. rewrite E1 at 1. done. }
  split; [done|]. split; [|done].
  eapply same_outside_trans; [done|]. rewrite E1 in O2. done.
Qed.

Lemma becomes_total m p m' p' g : pmm_becomes m p m' p' g -> total_frames p' = total_frames p.
Proof. intros (E & _). by rewrite E. Qed.

Lemma becomes_inv m p m' p' g : pmm_becomes m p m' p' g -> pmm_inv m' p'.
Proof. by intros (_ & _ & _ & ?). Qed.

Lemma used_bound m p : pmm_inv m p -> 0 <= used_frames p <= total_frames p.
Proof.
  intros [Ht ->]. pose proof (count_below_range (Z.to_nat (total_frames p)) (bitmap_test m p)). lia.
Qed.

Lemma used_lt m p f : pmm_inv m p -> frame_free m p f -> used_frames p < total_frames p.
Proof.
  intros [Ht Hu] [Hf Hb]. rewrite Hu.
  pose proof (count_below_upd (Z.to_nat (total_frames p)) (bitmap_test m p)
    (fun g => (g =? f) || bitmap_test m p g) f) as E.
  pose proof (count_below_range (Z.to_nat (total_frames p))
    (fun g => (g =? f) || bitmap_test m p g)).
  cbv beta in E. rewrite Z.eqb_refl, Hb in E. simpl in E.
  enough (count_below (Z.to_nat (total_frames p)) (bitmap_test m p) + 1 - 0 <=
    total_frames p) by lia.
  rewrite <- E; [lia|lia|]. intros g Hg Hne. destruct (Z.eqb_spec g f); done.
Qed.

Lemma becomes_set m p f :
  pmm_inv m p -> frame_free m p f ->
  pmm_becomes m p (bitmap_set m p f) (set_used p (used_frames p +₆₄ 1))
    (fun g => (g =? f) || bitmap_test m p g).
Proof.
  intros Hinv Hfree. pose proof (used_lt _ _ _ Hinv Hfree). pose proof (used_bound _ _ Hinv).
  destruct Hinv as [Ht Hu], Hfree as [Hf Hb].
  split; [done|]. split; [intros; rewrite bitmap_test_set_used; apply bitmap_test_set|]. split; [by apply bitmap_set_frame|].
  split; [done|]. cbn [used_frames set_used total_frames]. unwrap. rewrite Hu.
  change (bitmap_test (bitmap_set m p f) _) with (bitmap_test (bitmap_set m p f) p).
  rewrite (count_below_upd _ (bitmap_test m p) (bitmap_test (bitmap_set m p f) p) f);
    [|lia|intros g ? ?; rewrite bitmap_test_set; destruct (Z.eqb_spec g f); done].
  rewrite bitmap_test_set, Z.eqb_refl, Hb. simpl. lia.
Qed.

Lemma becomes_clear m p f :
  pmm_inv m p -> 0 <= f < total_frames p -> bitmap_test m p f = true ->
  pmm_becomes m p (bitmap_clear m p f) (set_used p (used_frames p -₆₄ 1))
    (fun g => negb (g =? f) && bitmap_test m p g).
Proof.
  intros Hinv Hf Hb. pose proof (used_bound _ _ Hinv). destruct Hinv as [Ht Hu].
  assert (E : count_below (Z.to_nat (total_frames p)) (bitmap_test (bitmap_clear m p f) p) =
    used_frames p - 1).
  { rewrite Hu, (count_below_upd _ (bitmap_test m p) (bitmap_test (bitmap_clear m p f) p) f);
      [|lia|intros g ? ?; rewrite bitmap_test_clear; destruct (Z.eqb_spec g f); done].
    rewrite bitmap_test_clear, Z.eqb_refl, Hb. simpl. lia. }
  pose proof (count_below_range (Z.to_nat (total_frames p)) (bitmap_test (bitmap_clear m p f) p)).
  split; [done|]. split; [intros; rewrite bitmap_test_set_used; apply bitmap_test_clear|]. split; [by apply bitmap_clear_frame|].
  split; [done|]. cbn [used_frames set_used total_frames]. unwrap. rewrite <- E. done.
Qed.

(** ** Runs of frames *)

Definition in_run (start n f : Z) : bool := (start <=? f) && (f <? start + n).

Lemma in_run_true s n f : in_run s n f = true <-> s <= f < s + n.
Proof. unfold in_run. rewrite andb_true_iff, Z.leb_le, Z.ltb_lt. done. Qed.

Lemma find_run_spec n m p count frame start found :
  0 <= found < count -> 0 <= frame - found ->
  (found = 0 \/ start = frame - found) ->
  (forall g, frame - found <= g < frame -> bitmap_test m p g = false) ->
  (forall s, 0 <= s < frame - found ->
     exists g, in_run s count g = true /\ g < frame /\ bitmap_test m p g = true) ->
  match find_run n m p count frame start found with
  | Some s => 0 <= s /\ s + count <= frame + Z.of_nat n /\
      (forall g, in_run s count g = true -> bitmap_test m p g = false) /\
      (forall s', 0 <= s' < s -> exists g, in_run s' count g = true /\ bitmap_test m p g = true)
  | None => forall s, 0 <= s -> s + count <= frame + Z.of_nat n ->
      exists g, in_run s count g = true /\ bitmap_test m p g = true
  end.
Proof.
  revert frame start found.
  induction n as [|n IH]; intros frame start found Hfound Hpos Hst Hrun Hno; cbn [find_run].
  { intros s Hs Hs'. destruct (Hno s) as (g & ? & ? & ?); [lia|]. by exists g. }
  destruct (bitmap_test m p frame) eqn:E; simpl negb; cbv iota.
  - specialize (IH (frame + 1) start 0).
    replace (frame + 1 + Z.of_nat n) with (frame + Z.of_nat (S n)) in IH by lia.
    apply IH; [lia|lia|by left|lia|]. intros s Hs. destruct (decide (s < frame - found)).
    + destruct (Hno s) as (g & ? & ? & ?); [lia|]. exists g. split; [done|]. split; [lia|done].
    + exists frame. split; [unfold in_run; lia|]. split; [lia|done].
  - set (start' := if found =? 0 then frame else start).
    assert (Hs' : start' = frame - found) by (subst start'; destruct (Z.eqb_spec found 0); lia).
    assert (Hrun' : forall g, frame - found <= g < frame + 1 -> bitmap_test m p g = false).
    { intros g Hg. destruct (decide (g = frame)) as [->|]; [done|]. apply Hrun. lia. }
    destruct (Z.eqb_spec (found + 1) count) as [Hc|Hc].
    + rewrite Hs'. split; [lia|]. split; [lia|]. split.
      * intros g Hg. apply Hrun'. unfold in_run in Hg. lia.
      * intros s Hs. destruct (Hno s) as (g & ? & ? & ?); [lia|]. by exists g.
    + specialize (IH (frame + 1) start' (found + 1)).
      replace (frame + 1 + Z.of_nat n) with (frame + Z.of_nat (S n)) in IH by lia.
      replace (frame + 1 - (found + 1)) with (frame - found) in IH by lia.
      apply IH; [lia|lia|right; lia|done|].
      intros s Hs. destruct (Hno s) as (g & ? & ? & ?); [lia|].
      exists g. split; [done|]. split; [lia|done].
Qed.

Lemma set_run_becomes n m p start :
  pmm_inv m p -> 0 <= start -> start + Z.of_nat n <= total_frames p ->
  (forall g, in_run start (Z.of_nat n) g = true -> bitmap_test m p g = false) ->
  pmm_becomes m p (set_run n m p start).1 (set_run n m p start).2
    (fun g => in_run start (Z.of_nat n) g || bitmap_test m p g).
Proof.
  revert m p start. induction n as [|n IH]; intros m p start Hinv Hs Ht Hfree; cbn [set_run].
  - eapply becomes_ext; [|by apply becomes_refl]. intros f. unfold in_run. simpl.
    zcases; simpl; try done; lia.
  - assert (Hb : pmm_becomes m p (bitmap_set m p start) (set_used p (used_frames p +₆₄ 1))
      (fun g => (g =? start) || bitmap_test m p g)).
    { apply becomes_set; [done|]. split; [lia|]. apply Hfree, in_run_true. lia. }
    assert (Hset : forall g, bitmap_test (bitmap_set m p start)
      (set_used p (used_frames p +₆₄ 1)) g = (g =? start) || bitmap_test m p g).
    { intros. rewrite bitmap_test_set_used. apply bitmap_test_set. }
    eapply becomes_ext; [|eapply becomes_trans; [exact Hb|apply IH]].
    + intros g. cbv beta. rewrite Hset. unfold in_run.
      zcases; simpl; try done; lia.
    + by eapply becomes_inv.
    + lia.
    + simpl. lia.
    + intros g Hg%in_run_true. rewrite Hset. destruct (Z.eqb_spec g start); [lia|].
      simpl. apply Hfree, in_run_true. lia.
Qed.

(** ** Reservation *)

Lemma frame_addr_frame f :
  0 <= f < 2 ^ 52 -> PMM_ADDR_TO_FRAME (PMM_FRAME_TO_ADDR f) = f.
Proof.
  intros. unfold PMM_ADDR_TO_FRAME, PMM_FRAME_TO_ADDR, PMM_FRAME_SIZE. unwrap.
  apply Z.div_mul. lia.
Qed.

Lemma reserve_frame_becomes m p addr :
  pmm_inv m p -> 0 <= addr -> PMM_ADDR_TO_FRAME addr < total_frames p ->
  pmm_becomes m p (pmm_reserve_frame m p addr).1 (pmm_reserve_frame m p addr).2
    (fun g => (g =? PMM_ADDR_TO_FRAME addr) || bitmap_test m p g).
Proof.
  intros Hinv Ha Hf. unfold pmm_reserve_frame. set (f := PMM_ADDR_TO_FRAME addr) in *.
  assert (0 <= f) by (apply Z.div_pos; unfold PMM_FRAME_SIZE; lia).
  rewrite Z.geb_leb. destruct (Z.leb_spec (total_frames p) f); [lia|].
  destruct (bitmap_test m p f) eqn:E; simpl.
  - eapply becomes_ext; [|by apply becomes_refl].
    intros g. simpl. destruct (Z.eqb_spec g f) as [->|]; [by rewrite E|done].
  - by apply becomes_set.
Qed.

Lemma reserve_loop_becomes n m p frame end_frame :
  pmm_inv m p -> 0 <= frame -> Z.min (end_frame + 1) (total_frames p) - frame <= Z.of_nat n ->
  pmm_becomes m p (reserve_loop n m p frame end_frame).1 (reserve_loop n m p frame end_frame).2
    (fun g => ((frame <=? g) && (g <=? end_frame) && (g <? total_frames p)) || bitmap_test m p g).
Proof.
  revert m p frame. induction n as [|n IH]; intros m p frame Hinv Hf Hn; cbn [reserve_loop].
  - eapply becomes_ext; [|by apply becomes_refl]. intros g. zcases; simpl; try done; lia.
  - destruct (Z.leb_spec frame end_frame); [destruct (Z.ltb_spec frame (total_frames p))|]; simpl andb; cbv iota.
    2, 3: eapply becomes_ext; [|by apply becomes_refl]; intros g; zcases; simpl; try done; lia.
    assert (Hlt : 0 <= frame < 2 ^ 52) by (destruct Hinv; lia).
    pose proof (reserve_frame_becomes m p (PMM_FRAME_TO_ADDR frame) Hinv) as Hb.
    rewrite frame_addr_frame in Hb by done.
    specialize (Hb (proj1 (u64_range _)) ltac:(lia)).
    destruct (pmm_reserve_frame m p (PMM_FRAME_TO_ADDR frame)) as [m' p'] eqn:E. simpl in Hb.
    pose proof (becomes_total _ _ _ _ _ Hb) as Ht.
    eapply becomes_ext; [|eapply becomes_trans; [exact Hb|apply IH]].
    + intros g. destruct Hb as (_ & Hb & _). cbv beta. rewrite Hb, Ht.
      zcases; simpl; try done; lia.
    + by eapply becomes_inv.
    + lia.
    + rewrite Ht. lia.
Qed.

(** ** Initialisation *)

Lemma fill_bitmap_outside n m a :
  same_outside a (a + 4 * Z.of_nat n) m (fill_bitmap n m a).
Proof.
  revert m a. induction n as [|n IH]; intros m a b Hb; cbn [fill_bitmap]; [done|].
  rewrite (IH _ _ b) by lia. apply load8_store32_ne. lia.
Qed.

Lemma fill_bitmap_word n m a i :
  0 <= i < Z.of_nat n -> load32 (fill_bitmap n m a) (a + 4 * i) = 0xFFFFFFFF.
Proof.
  revert m a i. induction n as [|n IH]; intros m a i Hi; [lia|]. cbn [fill_bitmap].
  destruct (decide (i = 0)) as [->|].
  - rewrite Z.mul_0_r, Z.add_0_r.
    rewrite (same_outside_load32 _ _ _ _ _ (fill_bitmap_outside _ _ _)) by lia.
    by apply load32_store32_same.
  - replace (a + 4 * i) with (a + 4 + 4 * (i - 1)) by lia. apply IH. lia.
Qed.

Lemma bitmap_bytes_mod4 n : bitmap_bytes n mod 4 = 0.
Proof.
  unfold bitmap_bytes. set (s := n / 8 + _). destruct (Z.eqb_spec (s mod 4) 0); simpl; [done|dlia].
Qed.

Lemma bitmap_bytes_nonneg n : 0 <= n -> 0 <= bitmap_bytes n.
Proof.
  intros. unfold bitmap_bytes.
  assert (0 <= n / 8) by (apply Z.div_pos; lia).
  set (s := n / 8 + _). assert (0 <= s) by (subst s; destruct (negb _); lia).
  destruct (Z.eqb_spec (s mod 4) 0); simpl; [lia|dlia].
Qed.

Lemma measure_range es t h :
  0 <= h < 2 ^ 64 -> 0 <= (foldl measure_entry (t, h) es).2 < 2 ^ 64.
Proof.
  revert t h. induction es as [|e es IH]; intros t h Hh; [done|]. cbn [foldl measure_entry].
  destruct (is_available e); [|by apply IH]. apply IH.
  pose proof (u64_range (e_addr e + e_len e)). destruct (_ >? _); lia.
Qed.

Lemma frames_of_range h : 0 <= h < 2 ^ 64 -> 0 <= frames_of h <= 2 ^ 52.
Proof.
  intros. unfold frames_of, PMM_FRAME_SIZE. destruct (Z.eqb_spec (h mod 4096) 0); simpl; dlia.
Qed.

(** After the bitmap is filled every frame is used. *)
Lemma filled_inv m p :
  0 <= total_frames p <= 2 ^ 52 -> used_frames p = total_frames p ->
  let m' := fill_bitmap (Z.to_nat (bitmap_bytes (total_frames p) / 4)) m (frame_bitmap p) in
  pmm_inv m' p /\ (forall f, 0 <= f < total_frames p -> bitmap_test m' p f = true).
Proof.
  intros Ht Hu m'.
  assert (Hall : forall f, 0 <= f < total_frames p -> bitmap_test m' p f = true).
  { intros f Hf. pose proof (bitmap_bytes_covers _ _ Hf). pose proof (bitmap_bytes_mod4 (total_frames p)).
    pose proof (mod32_range f). pose proof (Z.div_pos f 32).
    rewrite bitmap_test_bit. unfold word_addr, m'. rewrite fill_bitmap_word by dlia.
    change 0xFFFFFFFF with (Z.ones 32). apply Z.ones_spec_low. lia. }
  split; [|done]. split; [done|]. rewrite count_below_all; [lia|]. intros; apply Hall; lia.
Qed.

Lemma clear_loop_becomes n m p frame end_frame :
  pmm_inv m p -> 0 <= frame -> Z.min end_frame (total_frames p) - frame <= Z.of_nat n ->
  (forall g, frame <= g < end_frame -> g < total_frames p -> bitmap_test m p g = true) ->
  pmm_becomes m p (clear_loop n m p frame end_frame).1 (clear_loop n m p frame end_frame).2
    (fun g => negb ((frame <=? g) && (g <? end_frame) && (g <? total_frames p)) &&
              bitmap_test m p g).
Proof.
  revert m p frame. induction n as [|n IH]; intros m p frame Hinv Hf Hn Hused; cbn [clear_loop].
  - eapply becomes_ext; [|by apply becomes_refl]. intros g. zcases; simpl; try done; lia.
  - destruct (Z.ltb_spec frame end_frame); [destruct (Z.ltb_spec frame (total_frames p))|];
      simpl andb; cbv iota.
    2, 3: eapply becomes_ext; [|by apply becomes_refl]; intros g; zcases; simpl; try done; lia.
    pose proof (becomes_clear m p frame Hinv ltac:(lia) (Hused frame ltac:(lia) ltac:(lia))) as Hb.
    assert (Hcl : forall g, bitmap_test (bitmap_clear m p frame) (set_used p (used_frames p -₆₄ 1)) g =
      negb (g =? frame) && bitmap_test m p g) by apply Hb.
    eapply becomes_ext; [|eapply becomes_trans; [exact Hb|apply IH]].
    + intros g. cbv beta. rewrite Hcl. cbn [total_frames set_used].
      zcases; simpl; try done; lia.
    + by eapply becomes_inv.
    + lia.
    + simpl. lia.
    + intros g Hg Hg'. rewrite Hcl. simpl in Hg'. rewrite Hused by lia.
      destruct (Z.eqb_spec g frame); [lia|done].
Qed.

Lemma free_entry_becomes m p e :
  pmm_inv m p -> 0 <= e_addr e ->
  (forall g, entry_frames g e = true -> g < total_frames p -> bitmap_test m p g = true) ->
  pmm_becomes m p (free_entry m p e).1 (free_entry m p e).2
    (fun g => negb (entry_frames g e && (g <? total_frames p)) && bitmap_test m p g).
Proof.
  intros Hinv Ha Hused. unfold free_entry, entry_frames in *.
  destruct (is_available e); simpl in *.
  - apply clear_loop_becomes; [done|apply Z.div_pos; unfold PMM_FRAME_SIZE; lia|lia|].
    intros g Hg Hg'. apply Hused; [|done]. rewrite andb_true_iff, Z.leb_le, Z.ltb_lt. done.
  - by apply becomes_refl.
Qed.

Lemma free_entries_becomes n m p a tag stride es :
  pmm_inv m p -> 0 <= stride -> mmap_entry_size m tag = stride ->
  (tag + 12 <= frame_bitmap p \/ bitmap_end p <= tag + 8) -> es = entries_at m a stride n -> entries_disjoint es ->
  (a + stride * Z.of_nat n + 20 <= frame_bitmap p \/ bitmap_end p <= a) ->
  (forall e g, In e es -> entry_frames g e = true -> g < total_frames p -> bitmap_test m p g = true) ->
  pmm_becomes m p (free_entries n m p a tag).1 (free_entries n m p a tag).2
    (fun g => negb (existsb (entry_frames g) es && (g <? total_frames p)) && bitmap_test m p g).
Proof.
  revert m p a es. induction n as [|n IH]; intros m p a es Hinv Hst Hsz Htag -> Hdis Hsep Hused;
    cbn [free_entries entries_at existsb] in *.
  { by apply becomes_refl. }
  destruct Hdis as [Hhead Hdis]. set (e := read_entry m a) in *.
  pose proof (free_entry_becomes m p e Hinv (proj1 (load64_range m a))) as Hb.
  specialize (Hb (fun g => Hused e g (or_introl eq_refl))).
  destruct (free_entry m p e) as [m1 p1] eqn:E. simpl in Hb.
  pose proof (becomes_total _ _ _ _ _ Hb) as Ht. pose proof (becomes_inv _ _ _ _ _ Hb) as Hinv1.
  destruct Hb as (Ep & Hb1 & Ho & Hi).
  assert (Hfb : frame_bitmap p1 = frame_bitmap p) by (by rewrite Ep).
  assert (Hend : bitmap_end p1 = bitmap_end p) by (unfold bitmap_end; by rewrite Hfb, Ht).
  assert (Hes : entries_at m1 (a + stride) stride n = entries_at m (a + stride) stride n).
  { apply entries_at_ext; [done|]. intros b Hb. apply Ho.
    assert (0 <= stride * Z.of_nat n) by lia. rewrite Nat2Z.inj_succ in Hsep. lia. }
  assert (Hsz1 : mmap_entry_size m1 tag = stride).
  { rewrite <- Hsz. apply load32_ext. intros x Hx. apply Ho. lia. }
  rewrite Hsz1. eapply becomes_ext; [|eapply becomes_trans;
    [split; [exact Ep|split; [exact Hb1|split; [exact Ho|exact Hi]]]
    |apply (IH m1 p1 (a + stride) (entries_at m (a + stride) stride n))]].
  - intros g. cbv beta. rewrite Hb1, Ht.
    destruct (entry_frames g e), (existsb _ _), (g <? total_frames p), (bitmap_test m p g); done.
  - done.
  - done.
  - done.
  - by rewrite Hfb, Hend.
  - by rewrite Hes.
  - done.
  - rewrite Hfb, Hend. rewrite Nat2Z.inj_succ in Hsep. lia.
  - intros e' g Hin He Hg. rewrite Hb1.
    rewrite (Hused e' g (or_intror Hin) He ltac:(rewrite <- Ht; done)), andb_true_r.
    destruct (entry_frames g e) eqn:Ee; [|done].
    by rewrite (Hhead e' g Hin Ee) in He.
Qed.

(** ** Releasing frames *)

Lemma free_frame_becomes m p addr :
  pmm_inv m p -> 0 <= addr ->
  pmm_becomes m p (pmm_free_frame m p addr).1 (pmm_free_frame m p addr).2
    (fun g => negb ((g =? PMM_ADDR_TO_FRAME addr) && (g <? total_frames p)) && bitmap_test m p g).
Proof.
  intros Hinv Ha. unfold pmm_free_frame. set (f := PMM_ADDR_TO_FRAME addr).
  assert (0 <= f) by (apply Z.div_pos; unfold PMM_FRAME_SIZE; lia).
  rewrite Z.geb_leb. destruct (Z.leb_spec (total_frames p) f).
  - eapply becomes_ext; [|by apply becomes_refl]. intros g. zcases; simpl; try done; lia.
  - destruct (bitmap_test m p f) eqn:E; simpl.
    + eapply becomes_ext; [|by apply becomes_clear]. intros g. zcases; simpl; try done; lia.
    + eapply becomes_ext; [|by apply becomes_refl]. intros g. simpl.
      destruct (Z.eqb_spec g f) as [->|]; [|done]. rewrite E. by rewrite andb_false_r.
Qed.

Lemma free_frames_loop_becomes n m p f i :
  pmm_inv m p -> 0 <= f -> 0 <= i -> (i + Z.of_nat n) * PMM_FRAME_SIZE < 2 ^ 32 ->
  (f + i + Z.of_nat n) * PMM_FRAME_SIZE < 2 ^ 64 ->
  pmm_becomes m p (pmm_free_frames_loop n m p (f * PMM_FRAME_SIZE) i).1
    (pmm_free_frames_loop n m p (f * PMM_FRAME_SIZE) i).2
    (fun g => negb (in_run (f + i) (Z.of_nat n) g && (g <? total_frames p)) && bitmap_test m p g).
Proof.
  revert m p i. induction n as [|n IH]; intros m p i Hinv Hf Hi Hb1 Hb2; cbn [pmm_free_frames_loop].
  - eapply becomes_ext; [|by apply becomes_refl]. intros g. unfold in_run. simpl.
    zcases; simpl; try done; lia.
  - unfold PMM_FRAME_SIZE in *. unwrap.
    pose proof (free_frame_becomes m p (f * 4096 + i * 4096) Hinv ltac:(lia)) as Hb.
    unfold PMM_ADDR_TO_FRAME, PMM_FRAME_SIZE in Hb.
    replace ((f * 4096 + i * 4096) / 4096) with (f + i) in Hb by dlia.
    destruct (pmm_free_frame m p (f * 4096 + i * 4096)) as [m' p']. simpl in Hb.
    pose proof (becomes_total _ _ _ _ _ Hb) as Ht.
    eapply becomes_ext; [|eapply becomes_trans; [exact Hb|apply IH]].
    + intros g. destruct Hb as (_ & Hb & _). cbv beta. rewrite Hb, Ht. unfold in_run.
      zcases; simpl; try done; lia.
    + by eapply becomes_inv.
    + lia.
    + lia.
    + lia.
    + lia.
Qed.

Lemma reserve_region_becomes m p start end_ :
  pmm_inv m p -> 0 <= start ->
  pmm_becomes m p (pmm_reserve_region m p start end_).1 (pmm_reserve_region m p start end_).2
    (fun g => ((PMM_ADDR_TO_FRAME start <=? g) && (g <=? last_reserved end_) &&
               (g <? total_frames p)) || bitmap_test m p g).
Proof.
  intros. apply reserve_loop_becomes; [done|apply Z.div_pos; unfold PMM_FRAME_SIZE; lia|].
  unfold PMM_ADDR_TO_FRAME. fold (last_reserved end_). lia.
Qed.

Lemma alloc_frame_cases m p :
  pmm_inv m p ->
  (exists f, frame_free m p f /\ f < searched p /\ (forall g, frame_free m p g -> f <= g) /\
     pmm_alloc_frame m p =
       (f * PMM_FRAME_SIZE, bitmap_set m p f, set_used p (used_frames p +₆₄ 1))) \/
  ((forall g, frame_free m p g -> searched p <= g) /\ pmm_alloc_frame m p = (0, m, p)).
Proof.
  intros [Ht Hu]. unfold pmm_alloc_frame. pose proof (searched_le p ltac:(lia)).
  destruct (find_free_frame_spec m p ltac:(lia)) as [(f & -> & Hf & Hb & Hl)|[-> Ha]].
  - left. exists f. split; [split; [lia|done]|]. split; [lia|]. split.
    + intros g [Hg Hgb]. destruct (Z.leb_spec f g); [done|]. rewrite Hl in Hgb by lia. done.
    + change (u64 (-1)) with (2 ^ 64 - 1). destruct (Z.eqb_spec f (2 ^ 64 - 1)); [lia|].
      unfold PMM_FRAME_TO_ADDR, PMM_FRAME_SIZE. unwrap. done.
  - right. rewrite Z.eqb_refl. split; [|done].
    intros g [Hg Hgb]. destruct (Z.leb_spec (searched p) g); [done|].
    rewrite Ha in Hgb by lia. done.
Qed.

Lemma alloc_frames_cases m p count :
  pmm_inv m p -> 0 < count ->
  (exists s, 0 <= s /\ s + count <= total_frames p /\
     (forall g, in_run s count g = true -> bitmap_test m p g = false) /\
     (forall s', 0 <= s' < s -> exists g, in_run s' count g = true /\ bitmap_test m p g = true) /\
     pmm_alloc_frames m p count =
       (s * PMM_FRAME_SIZE, (set_run (Z.to_nat count) m p s).1, (set_run (Z.to_nat count) m p s).2)) \/
  ((forall s, 0 <= s -> s + count <= total_frames p ->
      exists g, in_run s count g = true /\ bitmap_test m p g = true) /\
   pmm_alloc_frames m p count = (0, m, p)).
Proof.
  intros Hinv Hc. pose proof Hinv as [Ht _]. unfold pmm_alloc_frames.
  destruct (Z.eqb_spec count 0); [lia|].
  pose proof (find_run_spec (Z.to_nat (total_frames p)) m p count 0 0 0) as Hr.
  specialize (Hr ltac:(lia) ltac:(lia) ltac:(by left) ltac:(lia) ltac:(lia)).
  rewrite Z.add_0_l, Z2Nat.id in Hr by lia.
  destruct (find_run (Z.to_nat (total_frames p)) m p count 0 0 0) as [s|].
  - left. destruct Hr as (H1 & H2 & H3 & H4). exists s. split; [done|]. split; [lia|].
    split; [done|]. split; [done|].
    destruct (set_run (Z.to_nat count) m p s) as [m' p'].
    unfold PMM_FRAME_TO_ADDR, PMM_FRAME_SIZE. unwrap. done.
  - right. split; [done|]. done.
Qed.

(** ** Main results *)

(** C31: [pmm_alloc_frame].  Either it returns the address of the lowest free
    frame, and exactly that frame becomes used (bitmap and counter agree,
    nothing outside the bitmap's bytes changes), or it returns 0 and changes
    nothing, and then every free frame lies in the last, partial bitmap word. *)
Theorem pmm_alloc_frame_correct (m : memory) (p : pmm) (Hinv : pmm_inv m p) :
  let '(addr, m', p') := pmm_alloc_frame m p in
  (exists f, frame_free m p f /\ (forall g, frame_free m p g -> f <= g) /\
     addr = f * PMM_FRAME_SIZE /\
     pmm_becomes m p m' p' (fun g => (g =? f) || bitmap_test m p g)) \/
  (addr = 0 /\ m' = m /\ p' = p /\
   forall g, frame_free m p g -> total_frames p / 32 * 32 <= g).
Proof.
  destruct (alloc_frame_cases m p Hinv) as [(f & Hf & Hs & Hl & ->)|[Hn ->]].
  - left. exists f. split; [done|]. split; [done|]. split; [done|]. by apply becomes_set.
  - by right.
Qed.

(** [pmm_free_frame] frees exactly the frame of its argument when that
    frame exists and is used; on an address beyond the last frame, or on a frame
    that is already free (double free), it changes nothing. *)
Theorem pmm_free_frame_correct (m : memory) (p : pmm) (addr : Z)
    (Hinv : pmm_inv m p) (Ha : 0 <= addr) :
  let f := addr / PMM_FRAME_SIZE in
  let '(m', p') := pmm_free_frame m p addr in
  pmm_becomes m p m' p'
    (fun g => if (g =? f) && (g <? total_frames p) then false else bitmap_test m p g) /\
  (total_frames p <= f \/ bitmap_test m p f = false -> (m', p') = (m, p)).
Proof.
  intros f. pose proof (free_frame_becomes m p addr Hinv Ha) as Hb.
  unfold PMM_ADDR_TO_FRAME in Hb. fold f in Hb.
  destruct (pmm_free_frame m p addr) as [m' p'] eqn:E. split.
  - eapply becomes_ext; [|exact Hb]. intros g. cbv beta.
    by destruct ((g =? f) && (g <? total_frames p)).
  - intros Hno. rewrite <- E. unfold pmm_free_frame, PMM_ADDR_TO_FRAME. fold f.
    rewrite Z.geb_leb. destruct (Z.leb_spec (total_frames p) f); [done|].
    destruct Hno as [Hno| ->]; [lia|done].
Qed.

(** [pmm_alloc_frames count] (count > 0) is a first-fit search for a run of
    free frames: on success exactly the frames of the lowest such run become
    used, on failure nothing changes and no such run exists. *)
Theorem pmm_alloc_frames_correct (m : memory) (p : pmm) (count : Z)
    (Hinv : pmm_inv m p) (Hc : 0 < count) :
  let '(addr, m', p') := pmm_alloc_frames m p count in
  (exists s, 0 <= s /\ s + count <= total_frames p /\ addr = s * PMM_FRAME_SIZE /\
     (forall g, s <= g < s + count -> bitmap_test m p g = false) /\
     (forall s', 0 <= s' < s -> exists g, s' <= g < s' + count /\ bitmap_test m p g = true) /\
     pmm_becomes m p m' p' (fun g => in_run s count g || bitmap_test m p g)) \/
  (addr = 0 /\ m' = m /\ p' = p /\
   forall s, 0 <= s -> s + count <= total_frames p ->
     exists g, s <= g < s + count /\ bitmap_test m p g = true).
Proof.
  destruct (alloc_frames_cases m p count Hinv Hc) as [(s & H1 & H2 & H3 & H4 & ->)|[Hn ->]].
  - left. exists s. split; [done|]. split; [done|]. split; [done|]. split; [|split].
    + intros g Hg. by apply H3, in_run_true.
    + intros s' Hs'. destruct (H4 s' Hs') as (g & ?%in_run_true & ?). by exists g.
    + pose proof (set_run_becomes (Z.to_nat count) m p s) as Hb. rewrite Z2Nat.id in Hb by lia.
      by apply Hb.
  - right. repeat split; [done..|]. intros s Hs Hs'. destruct (Hn s Hs Hs') as (g & ?%in_run_true & ?).
    by exists g.
Qed.

(** Freeing a frame just obtained puts the allocator back where it was,
    and the next allocation returns the same frame. *)
Theorem pmm_alloc_free_alloc (m : memory) (p : pmm) (Hinv : pmm_inv m p)
    (Hok : (pmm_alloc_frame m p).1.1 <> 0) :
  let '(addr, m1, p1) := pmm_alloc_frame m p in
  let '(m2, p2) := pmm_free_frame m1 p1 addr in
  pmm_becomes m p m2 p2 (bitmap_test m p) /\ p2 = p /\ (pmm_alloc_frame m2 p2).1.1 = addr.
Proof.
  destruct (alloc_frame_cases m p Hinv) as [(f & Hf & Hs & Hl & Ea)|[Hn Ea]];
    rewrite Ea in Hok |- *; [clear Hok|by destruct Hok].
  pose proof (becomes_set m p f Hinv Hf) as Hb1. pose proof (proj1 Hf) as Hrange.
  pose proof (free_frame_becomes _ _ (f * PMM_FRAME_SIZE) (becomes_inv _ _ _ _ _ Hb1)
    ltac:(unfold PMM_FRAME_SIZE; lia)) as Hb2.
  assert (Ef : PMM_ADDR_TO_FRAME (f * PMM_FRAME_SIZE) = f) by (apply Z.div_mul; done).
  rewrite Ef in Hb2.
  destruct (pmm_free_frame _ _ _) as [m2 p2]. simpl in Hb2.
  assert (Hb : pmm_becomes m p m2 p2 (bitmap_test m p)).
  { eapply becomes_ext; [|eapply becomes_trans; [exact Hb1|exact Hb2]].
    intros g. cbv beta. rewrite bitmap_test_set_used, bitmap_test_set. cbn [total_frames set_used].
    destruct Hf as [? Hf]. zcases; subst; simpl; try done; lia. }
  destruct Hb as (Ep & Ht & Ho & [Hi Hu]).
  assert (Ep2 : p2 = p).
  { rewrite Ep, Hu. replace (total_frames p2) with (total_frames p) by (by rewrite Ep).
    rewrite (count_below_ext _ (bitmap_test m p)) by (intros; apply Ht).
    destruct Hinv as [_ Hu0]. rewrite <- Hu0. by destruct p. }
  subst p2. split; [by split|]. split; [done|].
  destruct (alloc_frame_cases m2 p) as [(f' & Hf' & _ & Hl' & ->)|[Hn _]]; [by split| |].
  - simpl. f_equal. apply Z.le_antisymm.
    + apply Hl'. split; [done|]. rewrite Ht. apply Hf.
    + apply Hl. destruct Hf' as [? Hf']. split; [done|]. by rewrite <- Ht.
  - exfalso. specialize (Hn f). assert (frame_free m2 p f) as X by (split; [done|rewrite Ht; apply Hf]).
    specialize (Hn X). lia.
Qed.

(** A 40-frame machine (the frame count is not a multiple of 32) with frames
    0 to 2 used, and the same machine with the first 32 frames used. *)
Definition demo_pmm : pmm := Pmm 0x400000 40 3 0x28000 0x28000.
Definition demo_pmm_ram : memory := store32 (store32 ∅ 0x400000 7) 0x400004 0.
Definition demo_full : pmm := Pmm 0x400000 40 32 0x28000 0x28000.
Definition demo_full_ram : memory := store32 (store32 ∅ 0x400000 0xFFFFFFFF) 0x400004 0.

Lemma demo_pmm_inv : pmm_inv demo_pmm_ram demo_pmm.
Proof. split; [simpl; lia|vm_compute; reflexivity]. Qed.

Lemma demo_full_inv : pmm_inv demo_full_ram demo_full.
Proof. split; [simpl; lia|vm_compute; reflexivity]. Qed.

Lemma pmm_alloc_frame_correct_witness :
  let '(addr, m', p') := pmm_alloc_frame demo_pmm_ram demo_pmm in
  (exists f, frame_free demo_pmm_ram demo_pmm f /\
     (forall g, frame_free demo_pmm_ram demo_pmm g -> f <= g) /\ addr = f * PMM_FRAME_SIZE /\
     pmm_becomes demo_pmm_ram demo_pmm m' p' (fun g => (g =? f) || bitmap_test demo_pmm_ram demo_pmm g)) \/
  (addr = 0 /\ m' = demo_pmm_ram /\ p' = demo_pmm /\
   forall g, frame_free demo_pmm_ram demo_pmm g -> total_frames demo_pmm / 32 * 32 <= g).
Proof. apply (pmm_alloc_frame_correct demo_pmm_ram demo_pmm demo_pmm_inv). Defined.

Lemma pmm_free_frame_correct_witness :
  let '(m', p') := pmm_free_frame demo_pmm_ram demo_pmm 0x2000 in
  pmm_becomes demo_pmm_ram demo_pmm m' p'
    (fun g => if (g =? 2) && (g <? 40) then false else bitmap_test demo_pmm_ram demo_pmm g) /\
  (40 <= 2 \/ bitmap_test demo_pmm_ram demo_pmm 2 = false -> (m', p') = (demo_pmm_ram, demo_pmm)).
Proof. apply (pmm_free_frame_correct demo_pmm_ram demo_pmm 0x2000 demo_pmm_inv); lia. Defined.

Lemma pmm_alloc_frames_correct_witness :
  let '(addr, m', p') := pmm_alloc_frames demo_pmm_ram demo_pmm 4 in
  (exists s, 0 <= s /\ s + 4 <= 40 /\ addr = s * PMM_FRAME_SIZE /\
     (forall g, s <= g < s + 4 -> bitmap_test demo_pmm_ram demo_pmm g = false) /\
     (forall s', 0 <= s' < s ->
        exists g, s' <= g < s' + 4 /\ bitmap_test demo_pmm_ram demo_pmm g = true) /\
     pmm_becomes demo_pmm_ram demo_pmm m' p'
       (fun g => in_run s 4 g || bitmap_test demo_pmm_ram demo_pmm g)) \/
  (addr = 0 /\ m' = demo_pmm_ram /\ p' = demo_pmm /\
   forall s, 0 <= s -> s + 4 <= 40 ->
     exists g, s <= g < s + 4 /\ bitmap_test demo_pmm_ram demo_pmm g = true).
Proof. apply (pmm_alloc_frames_correct demo_pmm_ram demo_pmm 4 demo_pmm_inv); lia. Defined.

Lemma pmm_alloc_free_alloc_witness :
  (pmm_alloc_frame demo_pmm_ram demo_pmm).1.1 <> 0 /\
  let '(addr, m1, p1) := pmm_alloc_frame demo_pmm_ram demo_pmm in
  let '(m2, p2) := pmm_free_frame m1 p1 addr in
  pmm_becomes demo_pmm_ram demo_pmm m2 p2 (bitmap_test demo_pmm_ram demo_pmm) /\
  p2 = demo_pmm /\ (pmm_alloc_frame m2 p2).1.1 = addr.
Proof.
  split; [vm_compute; discriminate|].
  apply (pmm_alloc_free_alloc demo_pmm_ram demo_pmm demo_pmm_inv). vm_compute; discriminate.
Defined.

(** When the frame count is not a multiple of 32, [pmm_alloc_frame] never
    looks at the last, partial bitmap word: it reports out-of-memory although a
    frame there is free, and [pmm_alloc_frames 1] on the same state finds it. *)
Theorem pmm_alloc_frame_misses_tail (m : memory) (p : pmm) (f : Z)
    (Hinv : pmm_inv m p) (Hf : frame_free m p f) (H0 : bitmap_test m p 0 = true)
    (Hfull : forall g, 0 <= g < total_frames p / 32 * 32 -> bitmap_test m p g = true) :
  pmm_alloc_frame m p = (0, m, p) /\ (pmm_alloc_frames m p 1).1.1 <> 0.
Proof.
  destruct (alloc_frame_cases m p Hinv) as [(f' & Hf' & Hs & _)|[_ ->]].
  { destruct Hf' as [? Hb]. rewrite Hfull in Hb by (unfold searched in Hs; lia). done. }
  split; [done|].
  destruct (alloc_frames_cases m p 1 Hinv ltac:(lia)) as [(s & H1 & H2 & H3 & H4 & ->)|[Hn _]].
  - simpl. assert (Hs0 : s <> 0); [|unfold PMM_FRAME_SIZE; lia].
    intros ->. rewrite H3 in H0; [done|]. apply in_run_true; lia.
  - destruct Hf as [? Hb]. destruct (Hn f) as (g & Hg%in_run_true & Hgb); [lia|lia|].
    replace g with f in Hgb by lia. congruence.
Qed.

Lemma pmm_alloc_frame_misses_tail_witness :
  pmm_alloc_frame demo_full_ram demo_full = (0, demo_full_ram, demo_full) /\
  (pmm_alloc_frames demo_full_ram demo_full 1).1.1 <> 0.
Proof.
  apply (pmm_alloc_frame_misses_tail demo_full_ram demo_full 32 demo_full_inv).
  - split; [simpl; lia|vm_compute; reflexivity].
  - vm_compute; reflexivity.
  - intros g Hg. change (total_frames demo_full / 32 * 32) with 32 in Hg.
    apply (proj1 (word_full demo_full_ram demo_full 0 ltac:(lia)) ltac:(vm_compute; reflexivity) g Hg).
Defined.

Lemma entries_addr_nonneg m a stride n e : In e (entries_at m a stride n) -> 0 <= e_addr e.
Proof.
  revert a. induction n as [|n IH]; intros a; cbn [entries_at In]; [done|].
  intros [<-|Hin]; [apply load64_range|by eapply IH].
Qed.

(** ** Sequences of operations *)

Inductive pmm_op :=
  | OpAlloc
  | OpAllocN (count : Z)
  | OpFree (addr : Z)
  | OpFreeN (addr count : Z)
  | OpReserve (addr : Z)
  | OpReserveRegion (start end_ : Z).

Definition pmm_exec (s : memory * pmm) (op : pmm_op) : memory * pmm :=
  let '(m, p) := s in
  match op with
  | OpAlloc => let '(_, m', p') := pmm_alloc_frame m p in (m', p')
  | OpAllocN count => let '(_, m', p') := pmm_alloc_frames m p count in (m', p')
  | OpFree addr => pmm_free_frame m p addr
  | OpFreeN addr count => pmm_free_frames m p addr count
  | OpReserve addr => pmm_reserve_frame m p addr
  | OpReserveRegion start end_ => pmm_reserve_region m p start end_
  end.

(** The arguments are unsigned. *)
Definition pmm_op_ok (op : pmm_op) : Prop :=
  match op with
  | OpAlloc => True
  | OpAllocN count => 0 <= count
  | OpFree addr => 0 <= addr
  | OpFreeN addr count => 0 <= addr
  | OpReserve addr => 0 <= addr
  | OpReserveRegion start end_ => 0 <= start
  end.

Definition pmm_evolves (s s' : memory * pmm) : Prop :=
  exists g, pmm_becomes s.1 s.2 s'.1 s'.2 g.

Lemma evolves_free_frames n m p addr i :
  pmm_inv m p -> pmm_evolves (m, p) (pmm_free_frames_loop n m p addr i).
Proof.
  revert m p i. induction n as [|n IH]; intros m p i Hinv; cbn [pmm_free_frames_loop].
  - eexists. by apply becomes_refl.
  - pose proof (free_frame_becomes m p (addr +₆₄ (i *₃₂ PMM_FRAME_SIZE)) Hinv
      (proj1 (u64_range _))) as Hb.
    destruct (pmm_free_frame m p _) as [m' p']. simpl in Hb.
    destruct (IH m' p' (i + 1) (becomes_inv _ _ _ _ _ Hb)) as [g Hg].
    exists g. by eapply becomes_trans.
Qed.

Lemma pmm_exec_evolves m p op :
  pmm_inv m p -> pmm_op_ok op -> pmm_evolves (m, p) (pmm_exec (m, p) op).
Proof.
  intros Hinv Hok. destruct op as [|count|addr|addr count|addr|start end_]; simpl in *.
  - destruct (alloc_frame_cases m p Hinv) as [(f & Hf & _ & _ & ->)|[_ ->]].
    + eexists. by apply becomes_set.
    + eexists. by apply becomes_refl.
  - destruct (decide (count = 0)) as [->|Hc]; [eexists; by apply becomes_refl|].
    destruct (alloc_frames_cases m p count Hinv ltac:(lia)) as [(s & H1 & H2 & H3 & _ & ->)|[_ ->]].
    + eexists. apply set_run_becomes; [done|done|lia|].
      by rewrite Z2Nat.id by lia.
    + eexists. by apply becomes_refl.
  - eexists. by apply free_frame_becomes.
  - by apply evolves_free_frames.
  - unfold pmm_reserve_frame. rewrite Z.geb_leb.
    destruct (Z.leb_spec (total_frames p) (PMM_ADDR_TO_FRAME addr)).
    + eexists. by apply becomes_refl.
    + pose proof (reserve_frame_becomes m p addr Hinv Hok) as Hb. unfold pmm_reserve_frame in Hb.
      rewrite Z.geb_leb in Hb. destruct (Z.leb_spec (total_frames p) (PMM_ADDR_TO_FRAME addr)); [lia|].
      eexists. by apply Hb.
  - eexists. by apply reserve_region_becomes.
Qed.

(** C7: the frame allocator's invariant (the used counter equals the number
    of set bits) survives every sequence of operations, whatever their
    arguments: no double free, unaligned or out-of-range address breaks it; and
    only the bitmap's bytes of memory ever change. *)
Theorem pmm_inv_invariant (m : memory) (p : pmm) (ops : list pmm_op)
    (Hinv : pmm_inv m p) (Hok : Forall pmm_op_ok ops) :
  let '(m', p') := foldl pmm_exec (m, p) ops in
  pmm_inv m' p' /\ total_frames p' = total_frames p /\
  same_outside (frame_bitmap p) (bitmap_end p) m m'.
Proof.
  assert (H : pmm_evolves (m, p) (foldl pmm_exec (m, p) ops)).
  { revert m p Hinv. induction Hok as [|op ops Hop Hok IH]; intros m p Hinv; simpl.
    - eexists. by apply becomes_refl.
    - destruct (pmm_exec_evolves m p op Hinv Hop) as [g Hg].
      change (match op with OpAlloc => _ | _ => _ end) with (pmm_exec (m, p) op) in *.
      destruct (pmm_exec (m, p) op) as [m1 p1].
      destruct (IH m1 p1 (becomes_inv _ _ _ _ _ Hg)) as [g' Hg'].
      exists g'. by eapply becomes_trans. }
  destruct H as [g Hg]. destruct (foldl pmm_exec (m, p) ops) as [m' p'].
  split; [by eapply becomes_inv|]. split; [by eapply becomes_total|]. apply Hg.
Qed.

Lemma pmm_inv_invariant_witness :
  let '(m', p') := foldl pmm_exec (demo_pmm_ram, demo_pmm)
    [OpAlloc; OpAllocN 4; OpFree 0x3000; OpFree 0x3000; OpFreeN 0x4001 9; OpReserveRegion 0 0x6001] in
  pmm_inv m' p' /\ total_frames p' = 40 /\
  same_outside (frame_bitmap demo_pmm) (bitmap_end demo_pmm) demo_pmm_ram m'.
Proof.
  apply (pmm_inv_invariant demo_pmm_ram demo_pmm _ demo_pmm_inv).
  repeat constructor; simpl; lia.
Defined.

(** What [pmm_init] needs of the memory map: the tag is found, its available regions
    share no frame, and the bitmap, placed at [loc], does not overwrite it. *)
Record memory_map (loc : Z) (fuel : nat) (m : memory) (mbi tag count : Z) (es : list mmap_entry) : Prop := {
  map_mbi : mbi <> 0;
  map_tag : multiboot_get_mmap fuel m mbi = Some tag;
  map_tag0 : tag <> 0;
  map_count : mmap_entry_count m tag = Some count;
  map_entries : es = entries_at m (mmap_entries tag) (mmap_entry_size m tag) (Z.to_nat count);
  map_disjoint : entries_disjoint es;
  map_apart : mmap_entries tag + mmap_entry_size m tag * Z.of_nat (Z.to_nat count) + 20 <= loc \/
    loc + bitmap_bytes (frames_of (foldl measure_entry (0, 0) es).2) <= tag;
  map_loc : 0 <= loc;
}.

(** The bitmap is filled beside the memory map. *)
Lemma fill_keeps_map m loc frames tag count stride :
  0 <= frames -> stride = mmap_entry_size m tag ->
  (tag + 12 <= loc \/ loc + bitmap_bytes frames <= tag + 8) ->
  (mmap_entries tag + stride * Z.of_nat (Z.to_nat count) + 20 <= loc \/ loc + bitmap_bytes frames <= mmap_entries tag) ->
  let m' := fill_bitmap (Z.to_nat (bitmap_bytes frames / 4)) m loc in
  mmap_entry_size m' tag = stride /\
  entries_at m' (mmap_entries tag) stride (Z.to_nat count) = entries_at m (mmap_entries tag) stride (Z.to_nat count).
Proof.
  intros Hf Est H1 H2 m'. assert (Hst : 0 <= stride) by (rewrite Est; apply load32_range).
  pose proof (bitmap_bytes_mod4 frames). pose proof (bitmap_bytes_nonneg frames Hf).
  assert (Ew : 4 * Z.of_nat (Z.to_nat (bitmap_bytes frames / 4)) = bitmap_bytes frames) by dlia. split.
  - rewrite Est. apply load32_ext. intros b Hb. apply fill_bitmap_outside. rewrite Ew. lia.
  - apply entries_at_ext; [done|]. intros b Hb. apply fill_bitmap_outside. rewrite Ew. lia.
Qed.

Lemma entry_frames_nonneg m a stride n e f : In e (entries_at m a stride n) -> entry_frames f e = true -> 0 <= f.
Proof.
  intros Hin He. unfold entry_frames in He. apply andb_prop in He as [He _]. apply andb_prop in He as [_ He%Z.leb_le].
  pose proof (entries_addr_nonneg _ _ _ _ _ Hin). unfold PMM_FRAME_SIZE in He. pose proof (Z.div_pos (e_addr e) 4096). lia.
Qed.

Lemma pmm_init_ok (loc : Z) (fuel : nat) (w : machine) (mbi tag count : Z) (es : list mmap_entry) :
  memory_map loc fuel (ram w) mbi tag count es ->
  let frames := frames_of (foldl measure_entry (0, 0) es).2 in
  exists w' p', pmm_init loc fuel w pmm_boot mbi = Some (w', p') /\
    pmm_inv (ram w') p' /\ con w' = con w /\ frame_bitmap p' = loc /\
    total_frames p' = frames /\ total_memory p' = (foldl measure_entry (0, 0) es).1 /\
    (forall f, frame_free (ram w') p' f <->
       0 <= f < frames /\ existsb (entry_frames f) es = true /\
       last_reserved (loc + bitmap_bytes frames) < f) /\
    (forall f, frame_free (ram w') p' f -> loc + bitmap_bytes frames <= f * PMM_FRAME_SIZE).
Proof.
  intros [Hmbi Htag Htag0 Hcount Ees Hdis Hsep Hloc] frames. unfold pmm_init. destruct (Z.eqb_spec mbi 0); [done|].
  rewrite Htag. simpl mbind. destruct (Z.eqb_spec tag 0); [done|]. rewrite Hcount. simpl mbind.
  rewrite <- Ees.
  change (total_memory pmm_boot, highest_address pmm_boot) with (0, 0).
  pose proof (measure_range es 0 0 ltac:(lia)) as Hr.
  destruct (foldl measure_entry (0, 0) es) as [total highest] eqn:Em. simpl snd in *.
  fold frames in Hsep |- *. pose proof (frames_of_range highest Hr) as Hfr. fold frames in Hfr.
  set (p1 := {| frame_bitmap := loc; total_frames := frames; used_frames := frames;
                total_memory := total; highest_address := highest |}).
  pose proof (filled_inv (ram w) p1 Hfr eq_refl) as [Hinv1 Hall1].
  set (m1 := fill_bitmap (Z.to_nat (bitmap_bytes frames / 4)) (ram w) loc) in *.
  change (fill_bitmap _ (ram w) (frame_bitmap p1)) with m1 in Hinv1, Hall1.
  set (stride := mmap_entry_size (ram w) tag) in *.
  assert (Hst : 0 <= stride) by apply load32_range.
  pose proof (bitmap_bytes_nonneg frames ltac:(lia)) as Hbn.
  assert (Hsn : 0 <= stride * Z.of_nat (Z.to_nat count)) by lia.
  assert (Hsep1 : tag + 12 <= loc \/ loc + bitmap_bytes frames <= tag + 8).
  { unfold mmap_entries, sizeof_tag_mmap in Hsep. lia. }
  assert (Hsep2 : mmap_entries tag + stride * Z.of_nat (Z.to_nat count) + 20 <= loc \/
    loc + bitmap_bytes frames <= mmap_entries tag) by (unfold mmap_entries, sizeof_tag_mmap in *; lia).
  destruct (fill_keeps_map (ram w) loc frames tag count stride ltac:(lia) eq_refl Hsep1 Hsep2) as [Hsz1 Hes].
  fold m1 in Hsz1, Hes. rewrite <- Ees in Hes. symmetry in Hes.
  assert (Hlt : forall e f, In e es -> entry_frames f e = true -> 0 <= f).
  { intros e f. rewrite Ees. apply entry_frames_nonneg. }
  pose proof (free_entries_becomes (Z.to_nat count) m1 p1 (mmap_entries tag) tag stride es
    Hinv1 Hst Hsz1 Hsep1 Hes Hdis Hsep2 (fun e g Hin He Hg => Hall1 g (conj (Hlt e g Hin He) Hg))) as Hb2.
  destruct (free_entries _ m1 p1 _ tag) as [m2 p2]. simpl in Hb2.
  pose proof (reserve_region_becomes m2 p2 0 (loc + bitmap_bytes frames)
    (becomes_inv _ _ _ _ _ Hb2) ltac:(lia)) as Hb3.
  pose proof (becomes_total _ _ _ _ _ Hb2) as Ht2. simpl in Ht2. rewrite Ht2 in Hb3.
  destruct (pmm_reserve_region m2 p2 0 _) as [m3 p3]. simpl in Hb3.
  destruct Hb2 as (Ep2 & Hb2 & _). destruct Hb3 as (Ep3 & Hb3 & _ & Hinv3).
  assert (Efree : forall f, frame_free m3 p3 f <-> 0 <= f < frames /\
    existsb (entry_frames f) es = true /\ last_reserved (loc + bitmap_bytes frames) < f).
  { intros f. unfold frame_free. rewrite Hb3, Hb2.
    replace (total_frames p3) with frames by (rewrite Ep3; done).
    split; intros (Hf & H); (split; [done|]); rewrite Hall1 in * by done;
      change (PMM_ADDR_TO_FRAME 0) with 0 in *; revert H;
      (destruct (existsb (entry_frames f) es)); zcases; simpl; intuition (try lia; try done). }
  exists (set_ram w m3), p3. split; [done|]. split; [done|]. split; [done|].
  split; [by rewrite Ep3, Ep2|]. split; [by rewrite Ep3|]. split; [by rewrite Ep3, Ep2|].
  split; [exact Efree|].
  intros f (_ & _ & Hf)%Efree. unfold last_reserved, PMM_FRAME_SIZE in *.
  revert Hf. generalize (loc + bitmap_bytes frames). intros x.
  destruct (Z.eqb_spec (x mod 4096) 0); simpl; intros; dlia.
Qed.

(** C32: [pmm_init] on a memory map whose available regions share no frame and
    which lies outside the bitmap: it succeeds, the invariant holds, and the
    free frames are exactly those of available regions beyond the last reserved
    frame; so no free frame overlaps the kernel image or the bitmap. *)
Theorem pmm_init_correct (loc : Z) (fuel : nat) (w : machine) (mbi tag count : Z) (es : list mmap_entry)
    (Hmap : memory_map loc fuel (ram w) mbi tag count es) :
  let frames := frames_of (foldl measure_entry (0, 0) es).2 in
  exists w' p', pmm_init loc fuel w pmm_boot mbi = Some (w', p') /\
    pmm_inv (ram w') p' /\ con w' = con w /\ frame_bitmap p' = loc /\
    total_frames p' = frames /\ total_memory p' = (foldl measure_entry (0, 0) es).1 /\
    (forall f, frame_free (ram w') p' f <->
       0 <= f < frames /\ existsb (entry_frames f) es = true /\
       last_reserved (loc + bitmap_bytes frames) < f) /\
    (forall f, frame_free (ram w') p' f -> loc + bitmap_bytes frames <= f * PMM_FRAME_SIZE).
Proof. by apply (pmm_init_ok loc fuel w mbi tag count es). Qed.

Lemma demo_memory_map : memory_map 0x400000 3 demo_mbi 4096 4120 1 [MmapEntry 0x500000 0x1B00000 1].
Proof.
  split; [lia|vm_compute; reflexivity|lia|vm_compute; reflexivity|vm_compute; reflexivity| | |lia].
  - split; [|done]. intros ? ? [].
  - left. vm_compute. discriminate.
Qed.

Lemma pmm_init_correct_witness :
  exists w' p', pmm_init 0x400000 3 (Machine demo_mbi []) pmm_boot 4096 = Some (w', p') /\
    pmm_inv (ram w') p' /\ con w' = [] /\ frame_bitmap p' = 0x400000 /\
    total_frames p' = 8192 /\ total_memory p' = 0x1B00000 /\
    (forall f, frame_free (ram w') p' f <->
       0 <= f < 8192 /\ existsb (entry_frames f) [MmapEntry 0x500000 0x1B00000 1] = true /\ 1025 < f) /\
    (forall f, frame_free (ram w') p' f -> 0x400400 <= f * PMM_FRAME_SIZE).
Proof. apply (pmm_init_correct 0x400000 3 (Machine demo_mbi []) 4096 4120 1 _ demo_memory_map). Defined.

(** What a caller of [pmm_get_stats] reads is [pmm_get_stats] of the counters, and
    only the structure is written. *)
Lemma pmm_get_stats_to_ok m p stats :
  stats <> 0 -> 0 <= total_frames p < 2 ^ 64 -> 0 <= used_frames p < 2 ^ 64 -> 0 <= total_memory p < 2 ^ 64 ->
  stats_at (pmm_get_stats_to m p stats) stats = pmm_get_stats p /\
  same_outside stats (stats + 48) m (pmm_get_stats_to m p stats).
Proof.
  intros Hs Ht Hu Hm. unfold pmm_get_stats_to. destruct (Z.eqb_spec stats 0); [done|]. split.
  - unfold stats_at, pmm_get_stats, load64. repeat first [rewrite load_store_le_eq | rewrite load_store_le_disjoint by lia].
    change (wrap (8 * Z.of_nat 8)) with u64. unwrap. rewrite !(u64_small (u64 _)) by apply u64_range. done.
  - intros x Hx. cbv zeta. rewrite !store_le_outside by lia. done.
Qed.
