(* ===== verification/Alloc.v ===== *)
(** * The kernel's allocator, as its clients see it

    [task.c], [ramfs.c] and [syscall.c] call [kmalloc] and [kfree] and rely on
    nothing but the promise below: payloads are inside the heap, 8-aligned,
    at least as large as requested, apart from each other, and neither routine
    touches the contents of a payload that is live.  Clients are modelled over
    [AllocOps] and proved against [AllocLaws]; [Heap.v] gives the instance for
    [kernel/mm/heap.c]. *)
From stdpp Require Import base numbers list gmap.
From Stdlib Require Import ZArith Lia.
From S2P Require Import Prelude.
From S2P Require Import Machine.

(** The bounds of the memory the allocator manages. *)
Definition HEAP_START : Z := 0x00200000.
Definition HEAP_INITIAL : Z := 0x00100000.
Definition HEAP_END : Z := HEAP_START + HEAP_INITIAL.

(** The payload [ptr, ptr + sz) meets none of the payloads [lv]. *)
Definition apart (lv : list (Z * Z)) (ptr sz : Z) : Prop :=
  forall p n, In (p, n) lv -> p + n <= ptr \/ ptr + sz <= p.

(** The contents of the payloads [lv] are the same in both memories. *)
Definition keeps (lv : list (Z * Z)) (m m' : memory) : Prop :=
  forall p n x, In (p, n) lv -> p <= x < p + n -> load8 m' x = load8 m x.

(** The allocator's entry points, over its state [H]; [None] is a call that
    does not return. *)
Class AllocOps (H : Type) := {
  kmalloc_op : machine -> H -> Z -> option (Z * machine * H);
  kfree_op : machine -> H -> Z -> option (machine * H);
  (** the memory and the state are those of a heap whose live payloads are the list *)
  owns : memory -> H -> list (Z * Z) -> Prop;
}.

Class AllocLaws (H : Type) `{AllocOps H} := {
  kmalloc_zero w h : kmalloc_op w h 0 = Some (0, w, h);
  kmalloc_law w h lv size :
    owns (ram w) h lv -> 0 < size -> size + 7 < 2 ^ 32 ->
    kmalloc_op w h size = Some (0, w, h) \/
    exists ptr sz lv' w' h', kmalloc_op w h size = Some (ptr, w', h') /\ owns (ram w') h' lv' /\
      con w' = con w /\ ptr mod 8 = 0 /\ HEAP_START < ptr /\ size <= sz /\ ptr + sz <= HEAP_END /\
      apart lv ptr sz /\ keeps lv (ram w) (ram w') /\
      same_outside HEAP_START HEAP_END (ram w) (ram w') /\
      (forall p n, In (p, n) lv' <-> In (p, n) lv \/ (p, n) = (ptr, sz));
  kfree_law w h lv ptr sz :
    owns (ram w) h lv -> In (ptr, sz) lv ->
    exists lv' w' h', kfree_op w h ptr = Some (w', h') /\ owns (ram w') h' lv' /\ con w' = con w /\
      keeps lv (ram w) (ram w') /\ same_outside HEAP_START HEAP_END (ram w) (ram w') /\
      (forall p n, In (p, n) lv' <-> In (p, n) lv /\ p <> ptr);
  (** a client may write to its payload *)
  owns_write m m' h lv p n :
    owns m h lv -> In (p, n) lv -> same_outside p (p + n) m m' -> owns m' h lv;
  (** and to memory outside the heap *)
  owns_outside m m' h lv :
    owns m h lv -> (forall x, HEAP_START <= x < HEAP_END -> load8 m' x = load8 m x) -> owns m' h lv;
  owns_apart m h lv p n p' n' :
    owns m h lv -> In (p, n) lv -> In (p', n') lv -> (p, n) = (p', n') \/ p + n <= p' \/ p' + n' <= p;
  owns_unique m h lv p n n' : owns m h lv -> In (p, n) lv -> In (p, n') lv -> n = n';
  owns_bounds m h lv p n :
    owns m h lv -> In (p, n) lv -> HEAP_START < p /\ 0 <= n /\ p + n <= HEAP_END;
}.

Lemma keeps_trans lv m1 m2 m3 : keeps lv m1 m2 -> keeps lv m2 m3 -> keeps lv m1 m3.
Proof. intros H1 H2 p n x Hin Hx. rewrite (H2 p n x), (H1 p n x); done. Qed.

Lemma keeps_incl lv lv' m m' : (forall q, In q lv' -> In q lv) -> keeps lv m m' -> keeps lv' m m'.
Proof. intros Hi Hk p n x Hin Hx. by apply (Hk p n x); [apply Hi|]. Qed.

(** Writes inside one payload keep every payload apart from it. *)
Lemma keeps_apart lv m m' p n : apart lv p n -> same_outside p (p + n) m m' -> keeps lv m m'.
Proof. intros Ha Ho q k x Hin Hx. apply Ho. specialize (Ha q k Hin). lia. Qed.
