(* ===== verification/Heap.v ===== *)
(** * [kernel/mm/heap.c]: the kernel heap

    The heap is a singly linked list of blocks in memory, each a 16-byte header
    ([heap_block_t], 32-bit layout: magic at 0, size at 4, is_free at 8, next at
    12) followed by its payload.  The routines below read and write those
    headers in the byte memory, as the source does.

    The three list walks ([find_free_block], [merge_free_blocks]) are loops
    without a bound; [HEAP_FUEL] iterations are enough for every well-formed
    heap, because 1 MB holds at most 65536 headers, and [None] (a walk that does
    not end) is proved not to happen.

    The abstract heap is a list of (size, free) pairs; [chain] relates it to
    memory.  [alloc_blocks] and [free_blocks] are the specification of
    [kmalloc] and [kfree] on that list. *)
From stdpp Require Import base numbers list gmap strings.
From Stdlib Require Import ZArith Lia.
From S2P Require Import Prelude.
From S2P Require Import Machine.
From S2P Require Import CString.
From S2P Require Import Alloc.

Definition HEAP_MAGIC : Z := 0xDEADBEEF.
Definition sizeof_block : Z := 16.

(** [heap_block_t] fields. *)
Definition b_magic (m : memory) (b : Z) : Z := load32 m b.
Definition b_size (m : memory) (b : Z) : Z := load32 m (b + 4).
Definition b_is_free (m : memory) (b : Z) : bool := negb (load8 m (b + 8) =? 0).
Definition b_next (m : memory) (b : Z) : Z := load32 m (b + 12).

Definition set_magic (m : memory) (b v : Z) : memory := store32 m b v.
Definition set_size (m : memory) (b v : Z) : memory := store32 m (b + 4) v.
Definition set_is_free (m : memory) (b : Z) (v : bool) : memory :=
  store8 m (b + 8) (if v then 1 else 0).
Definition set_next (m : memory) (b v : Z) : memory := store32 m (b + 12) v.

(** The static variables of the file. *)
Record heap := Heap {
  heap_start : Z;
  heap_total : Z;
  heap_used : Z;
}.

Definition set_heap_used (h : heap) (n : Z) : heap :=
  {| heap_start := heap_start h; heap_total := heap_total h; heap_used := n |}.

Definition HEAP_FUEL : nat := S (Z.to_nat 65536).

(** ** The routines *)

(** [heap_init] returns 0 (success) always. *)
Definition heap_init (w : machine) : machine * heap :=
  let w1 := emit w [VgaSetColor VGA_COLOR_YELLOW VGA_COLOR_BLACK; VgaPuts (line "Initializing Kernel Heap...")] in
  let h := {| heap_start := HEAP_START; heap_total := HEAP_INITIAL; heap_used := sizeof_block |} in
  let m1 := set_magic (ram w1) HEAP_START HEAP_MAGIC in
  let m2 := set_size m1 HEAP_START (HEAP_INITIAL - sizeof_block) in
  let m3 := set_is_free m2 HEAP_START true in
  let m4 := set_next m3 HEAP_START 0 in
  (emit (set_ram w1 m4)
     [VgaSetColor VGA_COLOR_LIGHT_GREY VGA_COLOR_BLACK; VgaPuts (line "  Heap Start: 0x00200000");
      VgaPuts (line "  Initial Size: 1 MB"); VgaSetColor VGA_COLOR_LIGHT_GREEN VGA_COLOR_BLACK;
      VgaPuts (line "  [OK] Heap initialized" ++ nl)], h).

Fixpoint find_free_loop (fuel : nat) (w : machine) (current size : Z) : option (Z * machine) :=
  match fuel with
  | O => None
  | S fuel' =>
      if current =? 0 then Some (0, w)
      else if negb (b_magic (ram w) current =? HEAP_MAGIC) then
        Some (0, emit w [VgaSetColor VGA_COLOR_LIGHT_RED VGA_COLOR_BLACK; VgaPuts (line "ERROR: Heap corruption detected!")])
      else if b_is_free (ram w) current && (b_size (ram w) current >=? size) then Some (current, w)
      else find_free_loop fuel' w (b_next (ram w) current) size
  end.

Definition find_free_block (w : machine) (h : heap) (size : Z) : option (Z * machine) :=
  find_free_loop HEAP_FUEL w (heap_start h) size.

Definition split_block (m : memory) (block size : Z) : memory :=
  if b_size m block >=? size +₃₂ sizeof_block +₃₂ 16 then
    let new_block := block + sizeof_block + size in
    let m1 := set_magic m new_block HEAP_MAGIC in
    let m2 := set_size m1 new_block (b_size m1 block -₃₂ size -₃₂ sizeof_block) in
    let m3 := set_is_free m2 new_block true in
    let m4 := set_next m3 new_block (b_next m3 block) in
    let m5 := set_size m4 block size in
    set_next m5 block new_block
  else m.

Fixpoint merge_loop (fuel : nat) (m : memory) (current : Z) : option memory :=
  match fuel with
  | O => None
  | S fuel' =>
      if (current =? 0) || (b_next m current =? 0) then Some m
      else if b_is_free m current && b_is_free m (b_next m current) then
        let m1 := set_size m current
          (b_size m current +₃₂ (sizeof_block + b_size m (b_next m current))) in
        let m2 := set_next m1 current (b_next m1 (b_next m1 current)) in
        merge_loop fuel' m2 current
      else merge_loop fuel' m (b_next m current)
  end.

Definition merge_free_blocks (m : memory) (h : heap) : option memory :=
  merge_loop HEAP_FUEL m (heap_start h).

Definition kmalloc (w : machine) (h : heap) (size : Z) : option (Z * machine * heap) :=
  if size =? 0 then Some (0, w, h)
  else
    let size := align8 size in
    '(block, w1) ← find_free_block w h size;
    if block =? 0 then Some (0, w1, h)
    else
      let m2 := split_block (ram w1) block size in
      let m3 := set_is_free m2 block false in
      let h' := set_heap_used h (heap_used h +₃₂ (sizeof_block + b_size m3 block)) in
      Some (block + sizeof_block, set_ram w1 m3, h').

Definition kzalloc (w : machine) (h : heap) (size : Z) : option (Z * machine * heap) :=
  '(ptr, w1, h1) ← kmalloc w h size;
  if negb (ptr =? 0) then Some (ptr, set_ram w1 (memset (ram w1) ptr 0 (Z.to_nat size)), h1)
  else Some (ptr, w1, h1).

Definition kfree (w : machine) (h : heap) (ptr : Z) : option (machine * heap) :=
  if ptr =? 0 then Some (w, h)
  else
    let block := ptr - sizeof_block in
    if negb (b_magic (ram w) block =? HEAP_MAGIC) then
      Some (emit w [VgaSetColor VGA_COLOR_LIGHT_RED VGA_COLOR_BLACK; VgaPuts (line "ERROR: Invalid free - bad magic!")], h)
    else if b_is_free (ram w) block then
      Some (emit w [VgaSetColor VGA_COLOR_LIGHT_RED VGA_COLOR_BLACK; VgaPuts (line "ERROR: Double free detected!")], h)
    else
      let m1 := set_is_free (ram w) block true in
      let h' := set_heap_used h (heap_used h -₃₂ (sizeof_block + b_size m1 block)) in
      m2 ← merge_free_blocks m1 h';
      Some (set_ram w m2, h').

(** [for (i = 0; i < block->size && i < size; i++) dst[i] = src[i];] *)
Fixpoint realloc_copy (n : nat) (m : memory) (block src dst size i : Z) : memory :=
  match n with
  | O => m
  | S n' =>
      if (i <? b_size m block) && (i <? size)
      then realloc_copy n' (store8 m (dst + i) (load8 m (src + i))) block src dst size (i + 1)
      else m
  end.

Definition krealloc (w : machine) (h : heap) (ptr size : Z) : option (Z * machine * heap) :=
  if ptr =? 0 then kmalloc w h size
  else if size =? 0 then
    '(w1, h1) ← kfree w h ptr;
    Some (0, w1, h1)
  else
    let block := ptr - sizeof_block in
    if b_size (ram w) block >=? size then Some (ptr, w, h)
    else
      '(new_ptr, w1, h1) ← kmalloc w h size;
      if new_ptr =? 0 then Some (0, w1, h1)
      else
        let m2 := realloc_copy (Z.to_nat size) (ram w1) block ptr new_ptr size 0 in
        '(w3, h3) ← kfree (set_ram w1 m2) h1 ptr;
        Some (new_ptr, w3, h3).

(** (total, used, free). *)
Definition heap_get_stats (h : heap) : Z * Z * Z :=
  (heap_total h, heap_used h, heap_total h -₃₂ heap_used h).

(** ** Specification *)

(** A block of the abstract heap: payload size and whether it is free. *)
Abbreviation block := (Z * bool)%type.

(** A block header at [a]. *)
Definition header (m : memory) (a : Z) (b : block) (next : Z) : Prop :=
  b_magic m a = HEAP_MAGIC /\ b_size m a = b.1 /\ b_is_free m a = b.2 /\ b_next m a = next /\
  0 <= b.1 /\ b.1 mod 8 = 0.

(** The bytes the blocks occupy, headers included. *)
Definition extent (bs : list block) : Z :=
  foldr (fun (b : block) acc => sizeof_block + b.1 + acc) 0 bs.

(** The list of blocks from address [a] to the end of the heap: contiguous, and
    linked in address order. *)
Fixpoint chain (m : memory) (a : Z) (bs : list block) : Prop :=
  match bs with
  | [] => a = HEAP_END
  | b :: bs' =>
      header m a b (match bs' with [] => 0 | _ => a + sizeof_block + b.1 end) /\
      chain m (a + sizeof_block + b.1) bs'
  end.

(** The bytes the allocated blocks occupy, headers included. *)
Definition used_extent (bs : list block) : Z :=
  foldr (fun (b : block) acc => (if b.2 then 0 else sizeof_block + b.1) + acc) 0 bs.

(** The heap invariant, for the abstract heap [bs]. *)
Definition heap_inv (m : memory) (h : heap) (bs : list block) : Prop :=
  heap_start h = HEAP_START /\ heap_total h = HEAP_INITIAL /\
  bs <> [] /\ chain m HEAP_START bs /\ heap_used h = sizeof_block + used_extent bs.

(** First fit: the blocks before, the size of the block found, the blocks after. *)
Fixpoint find_fit (size : Z) (bs : list block) : option (list block * Z * list block) :=
  match bs with
  | [] => None
  | b :: bs' =>
      if b.2 && (size <=? b.1) then Some ([], b.1, bs')
      else '(pre, sz, post) ← find_fit size bs'; Some (b :: pre, sz, post)
  end.

(** A free block of [sz] bytes used for a request of [size]: the rest becomes a
    block of its own when it holds a header and 16 bytes. *)
Definition carve (size sz : Z) : list block :=
  if size + sizeof_block + 16 <=? sz then [(size, false); (sz - size - sizeof_block, true)]
  else [(sz, false)].

(** The specification of [kmalloc]: where the payload starts, and the new heap. *)
Definition alloc_blocks (size : Z) (bs : list block) : option (Z * list block) :=
  '(pre, sz, post) ← find_fit size bs;
  Some (HEAP_START + extent pre + sizeof_block, pre ++ carve size sz ++ post).

(** Neighbouring free blocks merged, left to right. *)
Fixpoint coalesce_from (b : block) (bs : list block) : list block :=
  match bs with
  | [] => [b]
  | b' :: bs' =>
      if b.2 && b'.2 then coalesce_from (b.1 + sizeof_block + b'.1, true) bs'
      else b :: coalesce_from b' bs'
  end.

Definition coalesce (bs : list block) : list block :=
  match bs with
  | [] => []
  | b :: bs' => coalesce_from b bs'
  end.

(** The block whose payload starts at [ptr], when the list starts at [a]. *)
Fixpoint find_at (a ptr : Z) (bs : list block) : option (list block * block * list block) :=
  match bs with
  | [] => None
  | b :: bs' =>
      if a + sizeof_block =? ptr then Some ([], b, bs')
      else '(pre, b', post) ← find_at (a + sizeof_block + b.1) ptr bs'; Some (b :: pre, b', post)
  end.

(** The specification of [kfree] on a pointer to an allocated payload. *)
Definition free_blocks (ptr : Z) (bs : list block) : option (list block) :=
  match find_at HEAP_START ptr bs with
  | Some (pre, (sz, false), post) => Some (coalesce (pre ++ (sz, true) :: post))
  | _ => None
  end.

(** The header addresses of the blocks from [a], and the payloads (address and
    size) of the allocated ones. *)
Fixpoint headers (a : Z) (bs : list block) : list Z :=
  match bs with
  | [] => []
  | b :: bs' => a :: headers (a + sizeof_block + b.1) bs'
  end.

Fixpoint live_from (a : Z) (bs : list block) : list (Z * Z) :=
  match bs with
  | [] => []
  | b :: bs' =>
      (if b.2 then [] else [(a + sizeof_block, b.1)]) ++ live_from (a + sizeof_block + b.1) bs'
  end.

Definition live (bs : list block) : list (Z * Z) := live_from HEAP_START bs.

(** Part of a chain: every block links to the next address. *)
Fixpoint seg (m : memory) (a : Z) (bs : list block) : Prop :=
  match bs with
  | [] => True
  | b :: bs' => header m a b (a + sizeof_block + b.1) /\ seg m (a + sizeof_block + b.1) bs'
  end.

Definition sizes_ok (bs : list block) : Prop := Forall (fun b : block => 0 <= b.1 /\ b.1 mod 8 = 0) bs.

(** ** Headers and chains *)

(** Reading a header field through stores to fields. *)
Ltac fields :=
  repeat (unfold b_magic, b_size, b_is_free, b_next, set_magic, set_size, set_is_free, set_next in *);
  repeat first
    [ rewrite load32_store32_same by lia
    | rewrite load32_store32_ne by lia
    | rewrite load32_store8_ne by lia
    | rewrite load8_store32_ne by lia
    | rewrite load8_store8_ne by lia
    | rewrite load8_store8_eq ].

Lemma header_ext m m' a b n :
  (forall x, a <= x < a + sizeof_block -> load8 m' x = load8 m x) ->
  header m a b n -> header m' a b n.
Proof.
  unfold sizeof_block. intros H (H1 & H2 & H3 & H4 & H5).
  unfold header, b_magic, b_size, b_is_free, b_next in *.
  rewrite !(load32_ext m m') by (intros; apply H; lia). rewrite (H (a + 8)) by lia. done.
Qed.

Lemma extent_cons b bs : extent (b :: bs) = sizeof_block + b.1 + extent bs.
Proof. done. Qed.

Lemma extent_app bs1 bs2 : extent (bs1 ++ bs2) = extent bs1 + extent bs2.
Proof. induction bs1 as [|b bs1 IH]; [done|]. cbn [app]. rewrite !extent_cons, IH. lia. Qed.

Lemma extent_nonneg bs : sizes_ok bs -> 0 <= extent bs.
Proof.
  induction 1 as [|b bs [H _] _ IH]; [done|]. rewrite extent_cons. unfold sizeof_block. lia.
Qed.

Lemma extent_ge bs : sizes_ok bs -> 16 * Z.of_nat (length bs) <= extent bs.
Proof.
  induction 1 as [|b bs [H _] _ IH]; [done|]. rewrite extent_cons. cbn [length].
  unfold sizeof_block. lia.
Qed.

Lemma extent_mod8 bs : sizes_ok bs -> extent bs mod 8 = 0.
Proof.
  induction 1 as [|b bs [H H'] _ IH]; [done|]. rewrite extent_cons. unfold sizeof_block. dlia.
Qed.

Lemma chain_sizes m a bs : chain m a bs -> sizes_ok bs.
Proof.
  revert a. induction bs as [|b bs IH]; intros a; [constructor|].
  intros [(_ & _ & _ & _ & H1 & H2) Hc]. constructor; [done|]. by eapply IH.
Qed.

Lemma chain_end m a bs : chain m a bs -> a + extent bs = HEAP_END.
Proof.
  revert a. induction bs as [|b bs IH]; intros a Hc; cbn [chain] in Hc.
  - unfold extent. simpl. lia.
  - rewrite extent_cons. destruct Hc as [_ Hc]. apply IH in Hc. lia.
Qed.

Lemma chain_ext m m' a bs :
  (forall x, a <= x < a + extent bs -> load8 m' x = load8 m x) -> chain m a bs -> chain m' a bs.
Proof.
  intros H Hc. pose proof (chain_sizes _ _ _ Hc) as Hs. revert a H Hc.
  induction Hs as [|b bs [Hb _] Hs IH]; intros a H Hc; [done|].
  rewrite extent_cons in H. pose proof (extent_nonneg _ Hs). cbn [chain] in *.
  destruct Hc as [Hh Hc]. split.
  - eapply header_ext; [|done]. intros; apply H. lia.
  - apply IH; [|done]. unfold sizeof_block in *. intros; apply H; lia.
Qed.

Lemma seg_ext m m' a bs :
  sizes_ok bs -> (forall x, a <= x < a + extent bs -> load8 m' x = load8 m x) ->
  seg m a bs -> seg m' a bs.
Proof.
  intros Hs. revert a. induction Hs as [|b bs [Hb _] Hs IH]; intros a H Hc; [done|].
  rewrite extent_cons in H. pose proof (extent_nonneg _ Hs). cbn [seg] in *.
  destruct Hc as [Hh Hc]. split.
  - eapply header_ext; [|done]. intros; apply H. lia.
  - apply IH; [|done]. unfold sizeof_block in *. intros; apply H; lia.
Qed.

(** A chain through a block splits there. *)
Lemma chain_app m a pre b post :
  chain m a (pre ++ b :: post) <-> seg m a pre /\ chain m (a + extent pre) (b :: post).
Proof.
  revert a. induction pre as [|b0 pre IH]; intros a; cbn [app seg].
  - unfold extent. simpl foldr. rewrite Z.add_0_r. tauto.
  - rewrite extent_cons.
    assert (E : chain m a (b0 :: pre ++ b :: post) <->
      header m a b0 (a + sizeof_block + b0.1) /\ chain m (a + sizeof_block + b0.1) (pre ++ b :: post)).
    { cbn [chain]. by destruct pre. }
    rewrite E, IH, !Z.add_assoc. tauto.
Qed.

Lemma sizes_app bs1 bs2 : sizes_ok (bs1 ++ bs2) <-> sizes_ok bs1 /\ sizes_ok bs2.
Proof. apply Forall_app. Qed.

Lemma used_extent_cons b bs :
  used_extent (b :: bs) = (if b.2 then 0 else sizeof_block + b.1) + used_extent bs.
Proof. done. Qed.

Lemma used_extent_app bs1 bs2 : used_extent (bs1 ++ bs2) = used_extent bs1 + used_extent bs2.
Proof.
  induction bs1 as [|b bs1 IH]; [done|]. unfold used_extent in *. simpl. rewrite IH. lia.
Qed.

Lemma used_extent_le bs : sizes_ok bs -> 0 <= used_extent bs <= extent bs.
Proof.
  induction 1 as [|b bs [H _] _ IH]; [done|]. rewrite extent_cons. unfold used_extent in *. simpl.
  unfold sizeof_block in *. destruct b.2; lia.
Qed.

(** ** First fit *)

Lemma find_fit_spec size bs :
  match find_fit size bs with
  | Some (pre, sz, post) => bs = pre ++ (sz, true) :: post /\ size <= sz /\
      Forall (fun b : block => b.2 = true -> b.1 < size) pre
  | None => Forall (fun b : block => b.2 = true -> b.1 < size) bs
  end.
Proof.
  induction bs as [|[s f] bs IH]; simpl; [constructor|].
  destruct f; simpl; [destruct (Z.leb_spec size s)|].
  - split; [done|]. split; [done|]. constructor.
  - destruct (find_fit size bs) as [[[pre sz] post]|]; simpl.
    + destruct IH as (-> & ? & ?). split; [done|]. split; [done|]. constructor; [by intros|done].
    + constructor; [by intros|done].
  - destruct (find_fit size bs) as [[[pre sz] post]|]; simpl.
    + destruct IH as (-> & ? & ?). split; [done|]. split; [done|]. constructor; [by intros|done].
    + constructor; [by intros|done].
Qed.

(** What a [next] pointer holds. *)
Definition link (a : Z) (bs : list block) : Z := match bs with [] => 0 | _ => a end.

Lemma find_free_loop_ok fuel w a bs size :
  chain (ram w) a bs -> 0 < a -> (length bs < fuel)%nat ->
  find_free_loop fuel w (link a bs) size =
  Some (match find_fit size bs with Some (pre, _, _) => a + extent pre | None => 0 end, w).
Proof.
  revert a fuel. induction bs as [|b bs IH]; intros a fuel Hc Ha Hf;
    (destruct fuel as [|fuel]; [simpl in *; lia|]); cbn [find_free_loop link find_fit].
  { done. }
  destruct (Z.eqb_spec a 0); [lia|]. pose proof (chain_sizes _ _ _ Hc) as Hs.
  destruct Hc as [(Hm & Hz & Hfr & Hn & Hp & _) Hc]. rewrite Hm, Hz, Hfr, Hn. cbn [negb].
  rewrite Z.eqb_refl, Z.geb_leb. simpl negb. cbv iota.
  destruct (b.2 && (size <=? b.1)).
  { do 2 f_equal. unfold extent. simpl. lia. }
  fold (link (a + sizeof_block + b.1) bs). rewrite IH; [|done|unfold sizeof_block; lia|simpl in *; lia].
  destruct (find_fit size bs) as [[[pre sz] post]|]; simpl; [|done].
  do 2 f_equal. unfold extent. simpl. lia.
Qed.

(** ** Splitting *)

Lemma carved m a sz next size :
  header m a (sz, true) next -> 0 <= size <= sz -> size mod 8 = 0 -> sz <= HEAP_INITIAL ->
  0 <= a -> a + sizeof_block + sz <= HEAP_END -> 0 <= next < 2 ^ 32 ->
  let m' := set_is_free (split_block m a size) a false in
  (if size + sizeof_block + 16 <=? sz
   then header m' a (size, false) (a + sizeof_block + size) /\
        header m' (a + sizeof_block + size) (sz - size - sizeof_block, true) next
   else header m' a (sz, false) next) /\
  same_outside a (a + sizeof_block + sz) m m' /\
  b_size m' a = (if size + sizeof_block + 16 <=? sz then size else sz).
Proof.
  intros (Hm & Hz & Hf & Hn & Hp & Hm8) Hsize Hs8 Hmax Ha Hend Hnext m'.
  unfold HEAP_END, HEAP_START, HEAP_INITIAL, sizeof_block in *. cbn [fst snd] in *.
  assert (Eg : (b_size m a >=? size +₃₂ 16 +₃₂ 16) = (size + 16 + 16 <=? sz)).
  { rewrite Hz, Z.geb_leb. unwrap. done. }
  subst m'. unfold split_block, sizeof_block. rewrite Eg.
  destruct (Z.leb_spec (size + 16 + 16) sz) as [Hbig|Hbig].
  - set (m1 := set_magic m (a + 16 + size) HEAP_MAGIC).
    assert (E1 : b_size m1 a = sz) by (subst m1; fields; done).
    rewrite E1. unwrap. set (m3 := set_is_free _ _ true).
    assert (E3 : b_next m3 a = next) by (subst m3 m1; fields; done).
    rewrite E3. subst m3 m1.
    unfold header, HEAP_MAGIC in *. cbn [fst snd].
    split; [|split].
    + repeat split; fields; try done; try lia; dlia.
    + intros x Hx. fields. done.
    + fields. done.
  - unfold header. cbn [fst snd]. split; [|split].
    + repeat split; fields; try done; lia.
    + intros x Hx. fields. done.
    + fields. done.
Qed.

(** ** Merging *)

(** The size and next fields of the headers in [hs]. *)
Definition in_links (hs : list Z) (x : Z) : Prop :=
  exists h, In h hs /\ (h + 4 <= x < h + 8 \/ h + 12 <= x < h + 16).

Lemma headers_ge a bs h : sizes_ok bs -> In h (headers a bs) -> a <= h.
Proof.
  intros Hs. revert a. induction Hs as [|b bs [Hb _] Hs IH]; intros a; cbn [headers In]; [done|].
  intros [->|Hin]; [lia|]. apply IH in Hin. unfold sizeof_block in *. lia.
Qed.

Lemma coalesce_from_nonempty b bs : coalesce_from b bs <> [].
Proof. revert b. induction bs as [|b' bs IH]; intros b; simpl; [done|]. by destruct (_ && _). Qed.

(** A free block absorbs the free block after it. *)
Lemma absorb m a b b' bs :
  chain m a (b :: b' :: bs) -> 0 < a -> b'.2 = true -> b.2 = true ->
  let m1 := set_size m a (b_size m a +₃₂ (sizeof_block + b_size m (b_next m a))) in
  let m2 := set_next m1 a (b_next m1 (b_next m1 a)) in
  chain m2 a ((b.1 + sizeof_block + b'.1, true) :: bs) /\ forall x, ~ in_links [a] x -> load8 m2 x = load8 m x.
Proof.
  intros Hc Ha Eb' Eb. pose proof (chain_sizes _ _ _ Hc) as Hs. pose proof (chain_end _ _ _ Hc) as He.
  destruct Hc as [(Hm & Hz & Hfr & Hn & Hp & H8) [(Hm' & Hz' & Hfr' & Hn' & Hp' & H8') Hc]].
  inversion Hs as [|? ? _ Hs']; subst. inversion Hs' as [|? ? _ Hs'']; subst.
  pose proof (extent_nonneg _ Hs''). rewrite !extent_cons in He.
  rewrite Hn, Hz, Hz'. unfold sizeof_block, HEAP_END, HEAP_START, HEAP_INITIAL in *.
  unwrap. cbv zeta. set (m1 := set_size m a (b.1 + (16 + b'.1))).
  assert (E1 : b_next m1 a = a + 16 + b.1) by (subst m1; fields; done).
  assert (E2 : b_next m1 (a + 16 + b.1) = b_next m (a + 16 + b.1)) by (subst m1; fields; done).
  rewrite E1, E2, Hn'. set (nx := match bs with [] => 0 | _ => _ end).
  assert (Hnx : 0 <= nx < 2 ^ 32) by (subst nx; destruct bs; lia). split.
  - subst m1. cbn [chain fst snd]. split.
    + unfold header. cbn [fst snd]. unfold sizeof_block.
      replace (match bs with [] => 0 | _ :: _ => a + 16 + (b.1 + 16 + b'.1) end) with nx by (subst nx; destruct bs; lia).
      repeat split; fields; try done; try lia; try congruence; dlia.
    + replace (a + sizeof_block + (b.1 + 16 + b'.1)) with (a + 16 + b.1 + 16 + b'.1) by (unfold sizeof_block; lia).
      eapply chain_ext; [|done]. intros x Hx. fields. done.
  - intros x Hx. subst m1. assert (~ (a + 4 <= x < a + 8) /\ ~ (a + 12 <= x < a + 16)).
    { split; intros ?; apply Hx; exists a; (split; [by left|lia]). }
    fields. done.
Qed.

Lemma merge_loop_ok fuel m a b bs :
  chain m a (b :: bs) -> 0 < a -> (length bs < fuel)%nat ->
  exists m', merge_loop fuel m a = Some m' /\ chain m' a (coalesce_from b bs) /\
    (forall x, ~ in_links (headers a (b :: bs)) x -> load8 m' x = load8 m x).
Proof.
  revert m a b fuel. induction bs as [|b' bs IH]; intros m a b fuel Hc Ha Hf;
    (destruct fuel as [|fuel]; [simpl in *; lia|]); cbn [merge_loop coalesce_from].
  - exists m. destruct Hc as [(Hm & Hz & Hfr & Hn & Hp) Hc]. rewrite Hn.
    rewrite Z.eqb_refl, orb_true_r. done.
  - pose proof (chain_sizes _ _ _ Hc) as Hs. inversion Hs as [|? ? [Hb _] Hs']; subst.
    pose proof Hc as [(_ & _ & Hfr & Hn & _) Hc']. pose proof Hc' as [(_ & _ & Hfr' & _) _].
    rewrite Hn, Hfr, Hfr'. destruct (Z.eqb_spec a 0); [lia|]. cbn [orb].
    assert (Hpos : 0 < a + sizeof_block + b.1) by (unfold sizeof_block; lia).
    destruct (Z.eqb_spec (a + sizeof_block + b.1) 0); [lia|]. destruct (b.2 && b'.2) eqn:Eb.
    + apply andb_prop in Eb as [Eb Eb']. destruct (absorb m a b b' bs Hc Ha Eb' Eb) as [Hc2 Hx2]. rewrite Hn in Hc2, Hx2.
      destruct (IH _ a (b.1 + sizeof_block + b'.1, true) fuel Hc2 Ha ltac:(simpl in *; lia)) as (m' & -> & Hc3 & Hx3).
      exists m'. split; [done|]. split; [done|]. intros x Hx. rewrite Hx3; [apply Hx2|]; intros (h0 & Hin & Hr); apply Hx; exists h0;
        (split; [|done]); cbn [headers fst snd] in Hin |- *; destruct Hin as [->|Hin]; [by left|done|by left|]. do 2 right.
      by replace (a + sizeof_block + b.1 + sizeof_block + b'.1) with (a + sizeof_block + (b.1 + sizeof_block + b'.1)) by lia.
    + destruct (IH m (a + sizeof_block + b.1) b' fuel) as (m' & -> & Hc2 & Hfr2); [done|lia|simpl in *; lia|].
      exists m'. split; [done|]. split.
      * pose proof (coalesce_from_nonempty b' bs). cbn [chain].
        destruct (coalesce_from b' bs) as [|c cs] eqn:Ec; [done|]. split; [|done].
        eapply header_ext; [|exact (proj1 Hc)]. intros x Hx. apply Hfr2.
        intros (h0 & Hin & Hr). apply headers_ge in Hin; [|done]. unfold sizeof_block in *. lia.
      * intros x Hx. apply Hfr2. intros (h0 & Hin & Hr). apply Hx. exists h0. split; [|done].
        by right.
Qed.

(** ** Where pointers point *)

Lemma find_at_spec a ptr bs :
  match find_at a ptr bs with
  | Some (pre, b, post) => bs = pre ++ b :: post /\ ptr = a + extent pre + sizeof_block
  | None => True
  end.
Proof.
  revert a. induction bs as [|b bs IH]; intros a; simpl; [done|].
  destruct (Z.eqb_spec (a + sizeof_block) ptr).
  - split; [done|]. unfold extent; simpl. lia.
  - specialize (IH (a + sizeof_block + b.1)).
    destruct (find_at _ ptr bs) as [[[pre b'] post]|]; simpl; [|done].
    destruct IH as [-> ->]. split; [done|]. unfold extent. simpl. lia.
Qed.

Lemma live_from_app a bs1 bs2 :
  live_from a (bs1 ++ bs2) = live_from a bs1 ++ live_from (a + extent bs1) bs2.
Proof.
  revert a. induction bs1 as [|b bs1 IH]; intros a; cbn [app live_from].
  - unfold extent. simpl. by rewrite Z.add_0_r.
  - rewrite IH, extent_cons, <- app_assoc. do 3 f_equal. lia.
Qed.

(** Allocated payloads lie inside the list's extent, after its first header. *)
Lemma live_from_bounds a bs p sz :
  sizes_ok bs -> In (p, sz) (live_from a bs) ->
  a + sizeof_block <= p /\ 0 <= sz /\ p + sz <= a + extent bs /\ sz mod 8 = 0.
Proof.
  intros Hs. revert a. induction Hs as [|b bs [Hb Hb8] Hs IH]; intros a; cbn [live_from]; [done|].
  rewrite extent_cons. pose proof (extent_nonneg _ Hs). unfold sizeof_block in *.
  rewrite in_app_iff. intros [Hin|Hin].
  - destruct b.2; simpl in Hin; [done|]. destruct Hin as [[= <- <-]|[]]. lia.
  - apply IH in Hin. lia.
Qed.

(** No byte of an allocated payload belongs to a header. *)
Lemma live_not_header a bs p sz x h :
  sizes_ok bs -> In (p, sz) (live_from a bs) -> p <= x < p + sz -> In h (headers a bs) ->
  ~ (h <= x < h + sizeof_block).
Proof.
  intros Hs. revert a. induction Hs as [|b bs [Hb _] Hs IH]; intros a; cbn [live_from headers In]; [done|].
  rewrite in_app_iff. intros [Hin|Hin] Hx [<-|Hh].
  - destruct b.2; simpl in Hin; [done|]. destruct Hin as [[= <- <-]|[]]. lia.
  - destruct b.2; simpl in Hin; [done|]. destruct Hin as [[= <- <-]|[]].
    apply headers_ge in Hh; [|done]. unfold sizeof_block in *. lia.
  - apply live_from_bounds in Hin; [|done]. unfold sizeof_block in *. lia.
  - by eapply IH.
Qed.

(** ** [kmalloc] *)

Lemma heap_fuel_enough m bs : chain m HEAP_START bs -> (length bs < HEAP_FUEL)%nat.
Proof.
  intros Hc. pose proof (extent_ge _ (chain_sizes _ _ _ Hc)). pose proof (chain_end _ _ _ Hc).
  unfold HEAP_FUEL, HEAP_END, HEAP_INITIAL in *. lia.
Qed.

Lemma chain_bounds m pre b post :
  chain m HEAP_START (pre ++ b :: post) ->
  HEAP_START <= HEAP_START + extent pre /\ 0 <= b.1 /\ 0 <= extent post /\
  HEAP_START + extent pre + sizeof_block + b.1 + extent post = HEAP_END.
Proof.
  intros Hc. pose proof (chain_sizes _ _ _ Hc) as Hs. apply sizes_app in Hs as [Hs1 Hs2].
  inversion Hs2 as [|? ? [? _] Hs3]; subst. pose proof (extent_nonneg _ Hs1).
  pose proof (extent_nonneg _ Hs3). pose proof (chain_end _ _ _ Hc) as He.
  rewrite extent_app, extent_cons in He. lia.
Qed.

(** Replacing a block by blocks that fill the same extent. *)
Lemma chain_replace m m' pre b mid post :
  chain m HEAP_START (pre ++ b :: post) ->
  same_outside (HEAP_START + extent pre) (HEAP_START + extent pre + sizeof_block + b.1) m m' ->
  mid <> [] -> extent mid = sizeof_block + b.1 ->
  (chain m' (HEAP_START + extent pre + extent mid) post ->
   chain m' (HEAP_START + extent pre) (mid ++ post)) ->
  chain m' HEAP_START (pre ++ mid ++ post).
Proof.
  intros Hc Ho Hne He Hmid. pose proof (chain_bounds _ _ _ _ Hc) as (Hb1 & Hb2 & Hb3 & Hb4).
  pose proof (chain_sizes _ _ _ Hc) as Hs. apply sizes_app in Hs as [Hs1 _].
  apply chain_app in Hc as [Hseg [_ Hpost]].
  destruct mid as [|b1 mid]; [done|]. cbn [app]. apply chain_app. split.
  - eapply seg_ext; [done| |done]. intros x Hx. apply Ho. lia.
  - apply Hmid. rewrite He, Z.add_assoc. eapply chain_ext; [|done]. intros x Hx. apply Ho. lia.
Qed.

Lemma carve_extent size sz : extent (carve size sz) = sizeof_block + sz.
Proof.
  unfold carve. destruct (_ <=? _); unfold extent; simpl; unfold sizeof_block; lia.
Qed.

Lemma carve_used size sz :
  used_extent (carve size sz) = sizeof_block + (if size + sizeof_block + 16 <=? sz then size else sz).
Proof. unfold carve. destruct (_ <=? _); unfold used_extent; simpl; lia. Qed.

Lemma align8_range x : align8 x mod 8 = 0 /\ 0 <= align8 x < 2 ^ 32.
Proof.
  rewrite align8_spec. pose proof (u32_range (x + 7)). split; [apply Z.mod_mul; lia|].
  pose proof (Z.div_mod (u32 (x + 7)) 8). pose proof (Z.mod_pos_bound (u32 (x + 7)) 8). lia.
Qed.

Lemma align8_le x : 0 <= x -> x + 7 < 2 ^ 32 -> x <= align8 x.
Proof. intros. pose proof (align8_bounds x). lia. Qed.

Lemma kmalloc_refines w h bs size :
  heap_inv (ram w) h bs -> 0 < size ->
  match find_fit (align8 size) bs with
  | None => kmalloc w h size = Some (0, w, h)
  | Some (pre, sz, post) =>
      let ptr := HEAP_START + extent pre + sizeof_block in
      exists w' h', kmalloc w h size = Some (ptr, w', h') /\
        heap_inv (ram w') h' (pre ++ carve (align8 size) sz ++ post) /\ con w' = con w /\
        same_outside (ptr - sizeof_block) (ptr + sz) (ram w) (ram w')
  end.
Proof.
  intros (Hstart & Htot & Hne & Hc & Hu) Hsize. destruct (align8_range size) as [H8 Hpos].
  pose proof (find_fit_spec (align8 size) bs) as Hfit. set (sz8 := align8 size) in *.
  assert (Hlk : link HEAP_START bs = HEAP_START) by (by destruct bs).
  pose proof (find_free_loop_ok HEAP_FUEL w HEAP_START bs sz8 Hc ltac:(done)
    (heap_fuel_enough _ _ Hc)) as Hfind.
  rewrite Hlk in Hfind. unfold kmalloc, find_free_block. fold sz8. rewrite Hstart, Hfind.
  destruct (Z.eqb_spec size 0); [lia|]. cbn [mbind option_bind].
  destruct (find_fit sz8 bs) as [[[pre sz] post]|]; [|done].
  destruct Hfit as (Ebs & Hsz & _). subst bs.
  pose proof (chain_bounds _ _ _ _ Hc) as (Hb1 & Hb2 & Hb3 & Hb4). cbn [fst] in *.
  destruct (Z.eqb_spec (HEAP_START + extent pre) 0) as [E|_]; [unfold HEAP_START in *; lia|].
  set (a := HEAP_START + extent pre) in *.
  pose proof Hc as Hc0. apply chain_app in Hc0 as [Hseg [Hh Hpost]]. fold a in Hh, Hpost.
  cbn [fst] in Hh, Hpost.
  set (nx := match post with [] => 0 | _ => _ end) in Hh.
  assert (Hnx : 0 <= nx < 2 ^ 32).
  { subst nx a. unfold HEAP_END, HEAP_START, HEAP_INITIAL, sizeof_block in *. destruct post; lia. }
  destruct (carved (ram w) a sz nx sz8 Hh) as (Hcv & Hout & Hbsz);
    [lia|done|unfold HEAP_END, HEAP_START, HEAP_INITIAL, sizeof_block, a in *; lia
    |unfold HEAP_START, a in *; lia|lia|done|].
  set (m' := set_is_free (split_block (ram w) a sz8) a false) in *.
  eexists (set_ram w m'), _. split; [done|].
  replace (a + sizeof_block - sizeof_block) with a by lia.
  replace (a + sizeof_block + sz) with (a + (sizeof_block + sz)) by lia.
  split; [|split; [done|by replace (a + (sizeof_block + sz)) with (a + sizeof_block + sz) by lia]].
  split; [done|]. split; [done|]. split.
  { unfold carve. destruct pre, (_ <=? _); done. }
  split.
  - apply chain_replace with (ram w) (sz, true); [done|done|by unfold carve; destruct (_ <=? _)
      |apply carve_extent|]. fold a. cbn [ram set_ram]. intros Hp'. rewrite carve_extent in Hp'.
    unfold carve. destruct (sz8 + sizeof_block + 16 <=? sz); cbn [app chain fst snd].
    + destruct Hcv as [Hc1 Hc2]. split; [done|]. split.
      * replace (match post with [] => 0 | _ :: _ => _ end) with nx; [done|].
        subst nx. destruct post; [done|lia].
      * replace (a + sizeof_block + sz8 + sizeof_block + (sz - sz8 - sizeof_block))
          with (a + (sizeof_block + sz)) by lia. done.
    + split; [exact Hcv|]. by replace (a + sizeof_block + sz) with (a + (sizeof_block + sz)) by lia.
  - cbn [ram set_ram set_heap_used heap_used]. rewrite Hbsz, Hu.
    rewrite !used_extent_app, used_extent_cons, carve_used. cbn [snd].
    pose proof (chain_sizes _ _ _ Hc) as Hs. apply sizes_app in Hs as [Hs1 Hs2].
    inversion Hs2 as [|? ? _ Hs3]; subst. pose proof (used_extent_le _ Hs1).
    pose proof (used_extent_le _ Hs3).
    rewrite u32_small; [destruct (_ <=? _); lia|].
    clear Hcv Hout Hbsz Hh. clearbody m' nx. subst a.
    unfold HEAP_END, HEAP_START, HEAP_INITIAL, sizeof_block in *.
    destruct (Z.leb_spec (sz8 + 16 + 16) sz); lia.
Qed.

(** ** What clients rely on *)

Lemma live_carve a size sz :
  live_from a (carve size sz) =
  [(a + sizeof_block, if size + sizeof_block + 16 <=? sz then size else sz)].
Proof. unfold carve. by destruct (_ <=? _). Qed.

(** The payloads in a part of the heap, split at a block. *)
Lemma live_split pre mid post :
  live (pre ++ mid ++ post) =
  live_from HEAP_START pre ++ live_from (HEAP_START + extent pre) mid ++
  live_from (HEAP_START + extent pre + extent mid) post.
Proof. unfold live. by rewrite !live_from_app. Qed.

Lemma live_apart pre b post p n :
  sizes_ok (pre ++ b :: post) ->
  In (p, n) (live_from HEAP_START pre) \/
  In (p, n) (live_from (HEAP_START + extent pre + (sizeof_block + b.1)) post) ->
  p + n <= HEAP_START + extent pre \/ HEAP_START + extent pre + sizeof_block + b.1 <= p.
Proof.
  intros Hs. apply sizes_app in Hs as [Hs1 Hs2]. inversion Hs2; subst.
  intros [Hin|Hin]; apply live_from_bounds in Hin; try done; unfold sizeof_block in *; lia.
Qed.

(** What [kmalloc] promises: on success an 8-aligned payload of at least the
    rounded size inside the heap, apart from every live payload, whose
    contents it does not touch; on failure, nothing changes. *)
Lemma kmalloc_promise w h bs size :
  heap_inv (ram w) h bs -> 0 < size ->
  match alloc_blocks (align8 size) bs with
  | None => kmalloc w h size = Some (0, w, h) /\
      Forall (fun b : block => b.2 = true -> b.1 < align8 size) bs
  | Some (ptr, bs') =>
      exists w' h' sz, kmalloc w h size = Some (ptr, w', h') /\ heap_inv (ram w') h' bs' /\
        con w' = con w /\ ptr mod 8 = 0 /\ HEAP_START < ptr /\ align8 size <= sz /\ ptr + sz <= HEAP_END /\
        apart (live bs) ptr sz /\ keeps (live bs) (ram w) (ram w') /\
        same_outside HEAP_START HEAP_END (ram w) (ram w') /\
        (forall p n, In (p, n) (live bs') <-> In (p, n) (live bs) \/ (p, n) = (ptr, sz))
  end.
Proof.
  intros Hi Hsize. pose proof (kmalloc_refines w h bs size Hi Hsize) as Hk.
  destruct (align8_range size) as [H8 Hpos].
  pose proof (find_fit_spec (align8 size) bs) as Hf. unfold alloc_blocks.
  destruct Hi as (_ & _ & _ & Hc & _). pose proof (chain_sizes _ _ _ Hc) as Hs.
  destruct (find_fit _ bs) as [[[pre sz] post]|]; cbn [mbind option_bind]; [|done].
  destruct Hf as (-> & Hfit & _), Hk as (w' & h' & Hk & Hi' & Hcon & Hout).
  pose proof (chain_bounds _ _ _ _ Hc) as (Hb1 & Hb2 & Hb3 & Hb4). cbn [fst] in *.
  set (got := if align8 size + sizeof_block + 16 <=? sz then align8 size else sz).
  assert (Hgot : align8 size <= got <= sz) by
    (subst got; destruct (Z.leb_spec (align8 size + sizeof_block + 16) sz); lia).
  exists w', h', got. pose proof (live_apart pre (sz, true) post) as Hap. cbn [fst] in Hap.
  assert (Hlv : forall p n, In (p, n) (live (pre ++ (sz, true) :: post)) <->
    In (p, n) (live_from HEAP_START pre) \/
    In (p, n) (live_from (HEAP_START + extent pre + (sizeof_block + sz)) post)).
  { intros p n. change ((sz, true) :: post) with ([(sz, true)] ++ post).
    rewrite live_split, !in_app_iff. unfold extent at 4. cbn. rewrite Z.add_0_r. tauto. }
  assert (Hsp : sizes_ok pre) by (by apply sizes_app in Hs as [? _]).
  assert (Hm8 : (HEAP_START + extent pre + sizeof_block) mod 8 = 0).
  { pose proof (extent_mod8 _ Hsp). unfold HEAP_START, sizeof_block. dlia. }
  split; [done|]. split; [done|]. split; [done|]. split; [done|].
  split; [unfold sizeof_block; lia|]. split; [lia|]. split; [lia|].
  split; [|split; [|split]].
  - intros p n Hin. apply Hlv, (Hap p n Hs) in Hin. unfold sizeof_block in *. lia.
  - intros p n x Hin Hx. apply Hlv, (Hap p n Hs) in Hin. apply Hout. lia.
  - intros x Hx. apply Hout. unfold sizeof_block in *. lia.
  - intros p n. rewrite live_split, carve_extent, live_carve, !in_app_iff, Hlv. cbn [In].
    fold got. intuition congruence.
Qed.

(** ** [kfree] *)

Lemma live_coalesce_from a b bs : live_from a (coalesce_from b bs) = live_from a (b :: bs).
Proof.
  revert a b. induction bs as [|b' bs IH]; intros a b; cbn [coalesce_from]; [done|].
  destruct b as [s f], b' as [s' f']; cbn [fst snd]. destruct f, f'; cbn [andb].
  - rewrite IH. cbn [live_from fst snd app]. f_equal. lia.
  - cbn [live_from fst snd]. by rewrite IH.
  - cbn [live_from fst snd]. by rewrite IH.
  - cbn [live_from fst snd]. by rewrite IH.
Qed.

Lemma used_coalesce_from b bs : used_extent (coalesce_from b bs) = used_extent (b :: bs).
Proof.
  revert b. induction bs as [|b' bs IH]; intros b; cbn [coalesce_from]; [done|].
  destruct b as [s f], b' as [s' f']; cbn [fst snd]. destruct f, f'; cbn [andb];
    [rewrite IH|by rewrite used_extent_cons, IH..]. rewrite !used_extent_cons. cbn [fst snd]. lia.
Qed.

Lemma headers_flag a pre s f f' post :
  headers a (pre ++ (s, f) :: post) = headers a (pre ++ (s, f') :: post).
Proof. revert a. induction pre as [|b pre IH]; intros a; [done|]. cbn [app headers]. by rewrite IH. Qed.

Lemma in_headers a pre b post : In (a + extent pre) (headers a (pre ++ b :: post)).
Proof.
  revert a. induction pre as [|b0 pre IH]; intros a; cbn [app headers].
  - left. unfold extent. simpl. lia.
  - right. rewrite extent_cons, !Z.add_assoc. apply IH.
Qed.

(** Headers do not overlap. *)
Lemma headers_apart a bs h1 h2 :
  sizes_ok bs -> In h1 (headers a bs) -> In h2 (headers a bs) ->
  h1 = h2 \/ h1 + sizeof_block <= h2 \/ h2 + sizeof_block <= h1.
Proof.
  intros Hs. revert a. induction Hs as [|b bs [Hb _] Hs IH]; intros a; cbn [headers In]; [done|].
  intros [<-|H1] [<-|H2].
  - by left.
  - apply headers_ge in H2; [|done]. lia.
  - apply headers_ge in H1; [|done]. lia.
  - by eapply IH.
Qed.

Lemma live_free pre s post p n :
  sizes_ok (pre ++ (s, false) :: post) ->
  let ptr := HEAP_START + extent pre + sizeof_block in
  In (p, n) (live (pre ++ (s, true) :: post)) <->
  In (p, n) (live (pre ++ (s, false) :: post)) /\ p <> ptr.
Proof.
  intros Hs ptr. pose proof (live_apart pre (s, false) post p n Hs) as Hap. cbn [fst] in Hap.
  pose proof Hs as Hs'. apply sizes_app in Hs' as [Hs1 Hs2].
  inversion Hs2 as [|? ? [Hs0 _] Hs3]; subst. cbn [fst] in *.
  unfold live. rewrite !live_from_app, !in_app_iff. cbn [live_from fst snd app In].
  rewrite <- (Z.add_assoc (HEAP_START + _)). split.
  - intros Hin. split; [tauto|]. pose proof (Hap Hin).
    destruct Hin as [Hin|Hin]; apply live_from_bounds in Hin; try done;
      subst ptr; unfold sizeof_block in *; lia.
  - intros [[?|[[= ? ?]|?]] Hne]; [tauto| |tauto]. by subst.
Qed.

Lemma headers_le a bs h : sizes_ok bs -> In h (headers a bs) -> h + sizeof_block <= a + extent bs.
Proof.
  intros Hs. revert a. induction Hs as [|b bs [Hb _] Hs IH]; intros a; cbn [headers In]; [done|].
  rewrite extent_cons. pose proof (extent_nonneg _ Hs).
  intros [<-|Hin]; [lia|]. apply IH in Hin. lia.
Qed.

(** Where merging writes: inside the heap, outside live payloads, and never in
    the magic or the is_free field of a header. *)
Lemma in_links_heap a bs x : sizes_ok bs -> in_links (headers a bs) x -> a <= x < a + extent bs.
Proof.
  intros Hs (h0 & Hh & Hr). pose proof (headers_ge _ _ _ Hs Hh). pose proof (headers_le _ _ _ Hs Hh).
  unfold sizeof_block in *. lia.
Qed.

Lemma in_links_live bs p n x :
  sizes_ok bs -> In (p, n) (live bs) -> p <= x < p + n -> ~ in_links (headers HEAP_START bs) x.
Proof.
  intros Hs Hin Hx (h0 & Hh & Hr). eapply (live_not_header _ _ _ _ x h0 Hs Hin Hx Hh).
  unfold sizeof_block. lia.
Qed.

Lemma in_links_magic a bs h x :
  sizes_ok bs -> In h (headers a bs) -> h <= x < h + 4 \/ x = h + 8 -> ~ in_links (headers a bs) x.
Proof.
  intros Hs Hin Hx (h0 & Hh & Hr). destruct (headers_apart _ _ _ _ Hs Hin Hh) as [?|?];
    unfold sizeof_block in *; lia.
Qed.

(** A heap in which one block's flag was changed. *)
Lemma chain_flag m pre s f f' post :
  chain m HEAP_START (pre ++ (s, f) :: post) ->
  chain (set_is_free m (HEAP_START + extent pre) f') HEAP_START (pre ++ (s, f') :: post).
Proof.
  intros Hc. pose proof (chain_bounds _ _ _ _ Hc) as (_ & Hs & _ & _). cbn [fst] in Hs.
  pose proof Hc as Hc0. apply chain_app in Hc0 as [_ [(Hm & Hz & Hf & Hn & Hp & H8) _]].
  cbn [fst snd] in *. set (a := HEAP_START + extent pre) in *.
  apply (chain_replace m _ pre (s, f) [(s, f')] post Hc); [|done|unfold extent; simpl; lia|].
  - intros x Hx. fold a in Hx. unfold sizeof_block in *. cbn [fst] in Hx. fields. done.
  - unfold extent at 2. simpl foldr. fold a. intros Hp'. cbn [app chain fst snd].
    split; [|by replace (a + sizeof_block + s) with (a + (sizeof_block + s + 0)) by lia].
    unfold header. repeat split; fields; try done. by destruct f'.
Qed.

(** What [kfree] promises for a live payload: the payload is no longer live,
    the other payloads are, with their contents; and the header still reads as
    that of a free block. *)
Lemma kfree_promise w h bs ptr bs' :
  heap_inv (ram w) h bs -> free_blocks ptr bs = Some bs' ->
  exists w' h', kfree w h ptr = Some (w', h') /\ heap_inv (ram w') h' bs' /\ con w' = con w /\
    (forall p n, In (p, n) (live bs') <-> In (p, n) (live bs) /\ p <> ptr) /\
    keeps (live bs) (ram w) (ram w') /\ same_outside HEAP_START HEAP_END (ram w) (ram w') /\
    b_magic (ram w') (ptr - sizeof_block) = HEAP_MAGIC /\
    b_is_free (ram w') (ptr - sizeof_block) = true.
Proof.
  intros (Hst & Htot & Hne & Hc & Hu) Hfb. unfold free_blocks in Hfb.
  pose proof (find_at_spec HEAP_START ptr bs) as Hat.
  destruct (find_at _ ptr bs) as [[[pre [s f]] post]|]; [|done]. destruct f; [done|].
  destruct Hat as [-> ->]. injection Hfb as <-.
  pose proof (chain_bounds _ _ _ _ Hc) as (Hb1 & Hb2 & Hb3 & Hb4). cbn [fst] in *.
  pose proof (chain_sizes _ _ _ Hc) as Hs. pose proof (chain_end _ _ _ Hc) as He.
  pose proof (chain_flag _ pre s false true post Hc) as Hc1.
  apply chain_app in Hc as [_ [(Hm & Hz & Hf & _ & _ & _) _]].
  pose proof (in_headers HEAP_START pre (s, false) post) as Hah.
  set (a := HEAP_START + extent pre) in *. cbn [fst snd] in *.
  unfold kfree. replace (a + sizeof_block - sizeof_block) with a by lia.
  destruct (Z.eqb_spec (a + sizeof_block) 0) as [E|_];
    [unfold HEAP_START, sizeof_block in *; lia|].
  rewrite Hm, Hf, Z.eqb_refl. cbn [negb]. set (m1 := set_is_free (ram w) a true) in *.
  assert (Ez : b_size m1 a = s) by (subst m1; rewrite <- Hz; fields; done). rewrite Ez.
  assert (Em : b_magic m1 a = HEAP_MAGIC) by (subst m1; rewrite <- Hm; fields; done).
  assert (Ef : b_is_free m1 a = true) by (subst m1; fields; done).
  assert (Eo : forall x, x <> a + 8 -> load8 m1 x = load8 (ram w) x) by (intros; subst m1; fields; done).
  clearbody m1.
  unfold merge_free_blocks. cbn [heap_start set_heap_used]. rewrite Hst.
  pose proof (headers_flag HEAP_START pre s true false post) as Hhd.
  pose proof (fun p n => live_free pre s post p n Hs) as Hlv. cbv zeta in Hlv. fold a in Hlv.
  assert (Hue : used_extent (pre ++ (s, true) :: post) + sizeof_block + s =
    used_extent (pre ++ (s, false) :: post)).
  { rewrite !used_extent_app, !used_extent_cons. cbn [fst snd]. lia. }
  destruct (pre ++ (s, true) :: post) as [|b0 rest] eqn:Er; [by destruct pre|].
  pose proof (heap_fuel_enough _ _ Hc1) as Hfuel. cbn [length] in Hfuel.
  destruct (merge_loop_ok HEAP_FUEL m1 HEAP_START b0 rest Hc1 ltac:(done) ltac:(lia))
    as (m2 & -> & Hc2 & Hk). rewrite Hhd in Hk.
  cbn [mbind option_bind]. eexists (set_ram w m2), _. split; [done|]. cbn [coalesce ram set_ram].
  split; [|split; [done|split; [|split; [|split; [|split]]]]].
  - split; [done|]. split; [done|]. split; [apply coalesce_from_nonempty|]. split; [done|].
    cbn [set_heap_used heap_used]. rewrite Hu, used_coalesce_from.
    pose proof (used_extent_le _ Hs). pose proof (used_extent_le _ (chain_sizes _ _ _ Hc1)).
    unfold HEAP_END, HEAP_START, HEAP_INITIAL, sizeof_block in *. unwrap. lia.
  - intros p n. unfold live at 1. rewrite live_coalesce_from. apply Hlv.
  - intros p n x Hin Hx. rewrite Hk by (by eapply in_links_live). apply Eo.
    pose proof (live_not_header _ _ _ _ x a Hs Hin Hx Hah). unfold sizeof_block in *. lia.
  - intros x Hx. rewrite Hk by (intros Hl; apply in_links_heap in Hl; [lia|done]).
    apply Eo. unfold sizeof_block in *. lia.
  - rewrite <- Em. apply load32_ext. intros x Hx. apply Hk. eapply in_links_magic; [done..|lia].
  - rewrite <- Ef. unfold b_is_free. rewrite Hk; [done|]. eapply in_links_magic; [done..|lia].
Qed.

(** ** Writing to payloads *)

Lemma chain_headers_ext m m' a bs :
  (forall h x, In h (headers a bs) -> h <= x < h + sizeof_block -> load8 m' x = load8 m x) ->
  chain m a bs -> chain m' a bs.
Proof.
  revert a. induction bs as [|b bs IH]; intros a H Hc; [done|]. cbn [chain headers In] in *.
  destruct Hc as [Hh Hc]. split.
  - eapply header_ext; [|done]. intros x Hx. eapply H; [by left|done].
  - apply IH; [|done]. intros h x Hin Hx. eapply H; [by right|done].
Qed.

(** A client that writes only to its own payload does not break the heap. *)
Lemma heap_inv_payload m m' h bs p n :
  heap_inv m h bs -> In (p, n) (live bs) -> same_outside p (p + n) m m' -> heap_inv m' h bs.
Proof.
  intros (Hst & Htot & Hne & Hc & Hu) Hin Ho. repeat split; try done.
  eapply chain_headers_ext; [|done]. intros h0 x Hh Hx. apply Ho.
  pose proof (fun Hp => live_not_header _ _ _ _ x h0 (chain_sizes _ _ _ Hc) Hin Hp Hh). lia.
Qed.

Lemma find_at_live a p n bs :
  sizes_ok bs -> In (p, n) (live_from a bs) ->
  exists pre post, find_at a p bs = Some (pre, (n, false), post).
Proof.
  intros Hs. revert a. induction Hs as [|b bs [Hb _] Hs IH]; intros a; cbn [live_from find_at]; [done|].
  rewrite in_app_iff. intros [Hin|Hin].
  - destruct b as [s f]; cbn [fst snd] in *. destruct f; [done|]. destruct Hin as [[= <- <-]|[]].
    rewrite Z.eqb_refl. by eexists _, _.
  - pose proof (live_from_bounds _ _ _ _ Hs Hin). unfold sizeof_block in *.
    destruct (Z.eqb_spec (a + 16) p); [lia|].
    destruct (IH _ Hin) as (pre & post & ->). by eexists _, _.
Qed.

Lemma free_blocks_live m h bs p n :
  heap_inv m h bs -> In (p, n) (live bs) -> exists bs', free_blocks p bs = Some bs'.
Proof.
  intros (_ & _ & _ & Hc & _) Hin.
  destruct (find_at_live _ _ _ _ (chain_sizes _ _ _ Hc) Hin) as (pre & post & E).
  unfold free_blocks. rewrite E. by eexists.
Qed.

Lemma live_size m h bs p n :
  heap_inv m h bs -> In (p, n) (live bs) ->
  b_size m (p - sizeof_block) = n /\ HEAP_START + sizeof_block <= p /\ 0 <= n /\ p + n <= HEAP_END.
Proof.
  intros (_ & _ & _ & Hc & _) Hin. pose proof (chain_sizes _ _ _ Hc) as Hs.
  pose proof (live_from_bounds _ _ _ _ Hs Hin) as Hb. pose proof (chain_end _ _ _ Hc).
  destruct (find_at_live _ _ _ _ Hs Hin) as (pre & post & E).
  pose proof (find_at_spec HEAP_START p bs) as Hat. rewrite E in Hat. destruct Hat as [-> ->].
  apply chain_app in Hc as [_ [(_ & Hz & _) _]]. cbn [fst] in Hz.
  replace (HEAP_START + extent pre + sizeof_block - sizeof_block) with (HEAP_START + extent pre) by lia.
  lia.
Qed.

(** Live payloads have different addresses. *)
Lemma live_unique m h bs p n n' :
  heap_inv m h bs -> In (p, n) (live bs) -> In (p, n') (live bs) -> n = n'.
Proof.
  intros Hi H1 H2. destruct (live_size _ _ _ _ _ Hi H1) as [<- _].
  by destruct (live_size _ _ _ _ _ Hi H2) as [<- _].
Qed.

(** The header in front of a live payload meets no live payload. *)
Lemma live_header_apart m h bs p n q k :
  heap_inv m h bs -> In (p, n) (live bs) -> In (q, k) (live bs) -> 0 < k ->
  p <= q \/ q + k <= p - sizeof_block.
Proof.
  intros (_ & _ & _ & Hc & _) Hp Hq Hk. pose proof (chain_sizes _ _ _ Hc) as Hs.
  destruct (find_at_live _ _ _ _ Hs Hp) as (pre & post & Ef).
  pose proof (find_at_spec HEAP_START p bs) as Hat. rewrite Ef in Hat. destruct Hat as [Eb Ep].
  pose proof (in_headers HEAP_START pre (n, false) post) as Hh. rewrite <- Eb in Hh.
  destruct (Z_le_gt_dec p q); [by left|]. destruct (Z_le_gt_dec (q + k) (p - sizeof_block)); [by right|].
  exfalso. unfold sizeof_block in *.
  refine (live_not_header _ _ _ _ (Z.max q (p - 16)) _ Hs Hq _ Hh _); unfold sizeof_block; lia.
Qed.

Lemma realloc_copy_ok n m blk src dst size i k :
  k = Z.min (b_size m blk) size -> 0 <= i <= k -> k - i <= Z.of_nat n ->
  blk + 8 <= dst \/ dst + size <= blk + 4 -> src + k <= dst \/ dst + size <= src ->
  forall x, load8 (realloc_copy n m blk src dst size i) x =
    if (dst + i <=? x) && (x <? dst + k) then load8 m (src + (x - dst)) else load8 m x.
Proof.
  intros Hk. revert m i Hk. induction n as [|n IH]; intros m i Hk Hi Hn Hd Hs x; cbn [realloc_copy].
  - zcases; try done; lia.
  - destruct (Z.ltb_spec i (b_size m blk)) as [H1|H1]; [destruct (Z.ltb_spec i size) as [H2|H2]|];
      cbn [andb]; [|zcases; try done; lia..].
    assert (Hb : b_size (store8 m (dst + i) (load8 m (src + i))) blk = b_size m blk) by (fields; done).
    rewrite IH by (rewrite ?Hb; lia).
    destruct (Z.eq_dec x (dst + i)) as [->|Hx].
    + zcases; try lia. rewrite load8_store8_eq, u8_small by apply load8_range. do 2 f_equal. lia.
    + zcases; try lia; cbn [andb]; rewrite load8_store8_ne by lia; done.
Qed.

(** ** The heap as an allocator *)

Lemma live_disjoint a bs p n p' n' :
  sizes_ok bs -> In (p, n) (live_from a bs) -> In (p', n') (live_from a bs) ->
  (p, n) = (p', n') \/ p + n <= p' \/ p' + n' <= p.
Proof.
  intros Hs. revert a. induction Hs as [|b bs [Hb _] Hs IH]; intros a; cbn [live_from]; [done|].
  rewrite !in_app_iff. intros [H1|H1] [H2|H2].
  - destruct b.2; [done|]. destruct H1 as [H1|[]], H2 as [H2|[]]. left. congruence.
  - destruct b.2; [done|]. destruct H1 as [[= <- <-]|[]].
    apply live_from_bounds in H2; [|done]. unfold sizeof_block in *. lia.
  - destruct b.2; [done|]. destruct H2 as [[= <- <-]|[]].
    apply live_from_bounds in H1; [|done]. unfold sizeof_block in *. lia.
  - by eapply IH.
Qed.

Lemma heap_inv_outside m m' h bs :
  heap_inv m h bs -> (forall x, HEAP_START <= x < HEAP_END -> load8 m' x = load8 m x) ->
  heap_inv m' h bs.
Proof.
  intros (Hst & Htot & Hne & Hc & Hu) Hx. repeat split; try done.
  eapply chain_ext; [|done]. rewrite (chain_end _ _ _ Hc). done.
Qed.

#[export] Instance heap_alloc_ops : AllocOps heap := {
  kmalloc_op := kmalloc;
  kfree_op := kfree;
  owns m h lv := exists bs, heap_inv m h bs /\ lv = live bs;
}.

#[export] Instance heap_alloc_laws : AllocLaws heap.
Proof.
  split; cbn [kmalloc_op kfree_op owns heap_alloc_ops].
  - done.
  - intros w h lv size (bs & Hi & ->) Hs Hb. pose proof (kmalloc_promise w h bs size Hi Hs) as Hk.
    pose proof (align8_le size). destruct (alloc_blocks _ bs) as [[ptr bs']|]; [right|left; apply Hk].
    destruct Hk as (w' & h' & sz & Hk & Hi' & Hc & H8 & Hp & Hsz & He & Hr).
    exists ptr, sz, (live bs'), w', h'. split; [done|]. split; [by exists bs'|].
    split; [done|]. split; [done|]. split; [done|]. split; [lia|]. done.
  - intros w h lv ptr sz (bs & Hi & ->) Hin.
    destruct (free_blocks_live _ _ _ _ _ Hi Hin) as (bs' & Ef).
    destruct (kfree_promise w h bs ptr bs' Hi Ef) as (w' & h' & Hk & Hi' & Hc & Hl & Hkp & Ho & _).
    exists (live bs'), w', h'. split; [done|]. split; [by exists bs'|]. done.
  - intros m m' h lv p n (bs & Hi & ->) Hin Ho. exists bs. split; [|done]. by eapply heap_inv_payload.
  - intros m m' h lv (bs & Hi & ->) Ho. exists bs. split; [|done]. by eapply heap_inv_outside.
  - intros m h lv p n p' n' (bs & (_ & _ & _ & Hc & _) & ->). apply live_disjoint.
    by eapply chain_sizes.
  - intros m h lv p n n' (bs & Hi & ->). by eapply live_unique.
  - intros m h lv p n (bs & Hi & ->) Hin. pose proof (live_size _ _ _ _ _ Hi Hin).
    unfold sizeof_block in *. lia.
Qed.

(** ** Derived operations *)

Lemma kzalloc_promise w h bs size :
  heap_inv (ram w) h bs -> 0 < size -> size + 7 < 2 ^ 32 ->
  match alloc_blocks (align8 size) bs with
  | None => kzalloc w h size = Some (0, w, h)
  | Some (ptr, bs') =>
      exists w' h', kzalloc w h size = Some (ptr, w', h') /\ heap_inv (ram w') h' bs' /\
        (forall i, 0 <= i < size -> load8 (ram w') (ptr + i) = 0) /\
        keeps (live bs) (ram w) (ram w') /\ con w' = con w /\ same_outside HEAP_START HEAP_END (ram w) (ram w')
  end.
Proof.
  intros Hi Hs Hb. pose proof (kmalloc_promise w h bs size Hi Hs) as Hk.
  pose proof (align8_le size). unfold kzalloc. destruct (alloc_blocks _ bs) as [[ptr bs']|].
  - destruct Hk as (w' & h' & sz & -> & Hi' & Hcon & _ & Hp & Hsz & He & Ha & Hkp & Hout & Hl).
    cbn [mbind option_bind]. destruct (Z.eqb_spec ptr 0) as [E|_]; [unfold HEAP_START in Hp; lia|].
    cbn [negb]. eexists _, _. split; [done|]. cbn [ram set_ram].
    assert (Ho : same_outside ptr (ptr + sz) (ram w') (memset (ram w') ptr 0 (Z.to_nat size))).
    { eapply same_outside_mono; [..|apply memset_same_outside]; lia. }
    split; [|split; [|split; [|split; [done|]]]].
    + eapply heap_inv_payload; [done| |done]. apply Hl. by right.
    + intros i Hi0. rewrite memset_load. zcases; try lia. done.
    + eapply keeps_trans; [done|]. by eapply keeps_apart.
    + eapply same_outside_trans; [done|]. eapply same_outside_mono; [..|exact Ho]; lia.
  - destruct Hk as [-> _]. done.
Qed.

(** Growing a live payload: a larger one with the old contents, and the old one
    is freed; on failure nothing changes. *)
Lemma krealloc_grow w h bs ptr n size :
  heap_inv (ram w) h bs -> In (ptr, n) (live bs) -> n < size -> size + 7 < 2 ^ 32 ->
  match alloc_blocks (align8 size) bs with
  | None => krealloc w h ptr size = Some (0, w, h)
  | Some (new_ptr, bs1) =>
      exists w' h' bs' sz, krealloc w h ptr size = Some (new_ptr, w', h') /\
        free_blocks ptr bs1 = Some bs' /\ heap_inv (ram w') h' bs' /\ size <= sz /\
        (forall i, 0 <= i < n -> load8 (ram w') (new_ptr + i) = load8 (ram w) (ptr + i)) /\
        (forall p k, In (p, k) (live bs') <-> (In (p, k) (live bs) /\ p <> ptr) \/ (p, k) = (new_ptr, sz)) /\
        keeps (live bs) (ram w) (ram w')
  end.
Proof.
  intros Hi Hin Hn Hb. destruct (live_size _ _ _ _ _ Hi Hin) as (Hz & Hlo & Hn0 & Hhi).
  pose proof (kmalloc_promise w h bs size Hi ltac:(lia)) as Hk. pose proof (align8_le size).
  unfold krealloc. destruct (Z.eqb_spec ptr 0) as [E|_]; [unfold HEAP_START, sizeof_block in *; lia|].
  destruct (Z.eqb_spec size 0); [lia|]. rewrite Hz, Z.geb_leb. destruct (Z.leb_spec size n); [lia|].
  destruct (alloc_blocks _ bs) as [[np bs1]|]; [|by destruct Hk as [-> _]].
  destruct Hk as (w1 & h1 & sz & -> & Hi1 & _ & _ & Hp & Hsz & He & Ha & Hkp & _ & Hl).
  cbn [mbind option_bind]. destruct (Z.eqb_spec np 0) as [E|_]; [unfold HEAP_START in *; lia|].
  assert (Hin1 : In (ptr, n) (live bs1)) by (apply Hl; by left).
  assert (Hnew : In (np, sz) (live bs1)) by (apply Hl; by right).
  destruct (live_size _ _ _ _ _ Hi1 Hin1) as (Hz1 & _).
  set (m2 := realloc_copy _ _ _ _ _ _ _).
  assert (Hd : ptr - sizeof_block + 8 <= np \/ np + size <= ptr - sizeof_block + 4).
  { pose proof (live_header_apart _ _ _ _ _ _ _ Hi1 Hin1 Hnew ltac:(lia)). unfold sizeof_block in *. lia. }
  assert (Hcp : forall x, load8 m2 x = if (np + 0 <=? x) && (x <? np + n)
     then load8 (ram w1) (ptr + (x - np)) else load8 (ram w1) x).
  { apply realloc_copy_ok; [lia..|done|]. destruct (Ha _ _ Hin); lia. }
  clearbody m2.
  assert (Ho : same_outside np (np + sz) (ram w1) m2).
  { intros x Hx. rewrite Hcp. zcases; try lia; done. }
  assert (Hi2 : heap_inv m2 h1 bs1) by (eapply heap_inv_payload; done).
  destruct (free_blocks_live _ _ _ _ _ Hi2 Hin1) as (bs2 & Ef).
  destruct (kfree_promise (set_ram w1 m2) h1 bs1 ptr bs2 Hi2 Ef)
    as (w3 & h3 & -> & Hi3 & _ & Hl3 & Hkp3 & _).
  cbn [mbind option_bind ram set_ram] in *. eexists w3, h3, bs2, sz. split; [done|].
  split; [done|]. split; [done|]. split; [lia|]. split; [|split].
  - intros i Hi0. rewrite (Hkp3 np sz), Hcp by (done || lia). zcases; try lia. cbn [andb].
    rewrite <- (Hkp ptr n) by (done || lia). f_equal. lia.
  - intros p k. rewrite Hl3, Hl. split; [tauto|]. intros [[? ?]|[= -> ->]]; [tauto|].
    split; [by right|]. intros ->. pose proof (live_unique _ _ _ _ _ _ Hi1 Hin1 Hnew). lia.
  - eapply keeps_trans; [done|]. eapply keeps_trans; [by eapply keeps_apart|].
    eapply keeps_incl; [|done]. intros [p k] Hq. apply Hl. by left.
Qed.

(** ** Fragmentation *)

(** No two neighbouring blocks are free. *)
Fixpoint coalesced (bs : list block) : Prop :=
  match bs with
  | b :: ((b' :: _) as bs') => b.2 && b'.2 = false /\ coalesced bs'
  | _ => True
  end.

Lemma coalesce_from_head b bs : exists s, hd b (coalesce_from b bs) = (s, b.2).
Proof.
  revert b. induction bs as [|b' bs IH]; intros [s f]; cbn [coalesce_from fst snd].
  - by exists s.
  - destruct (f && b'.2) eqn:E; [|by exists s]. apply andb_prop in E as [-> _].
    destruct (IH (s + sizeof_block + b'.1, true)) as [s' Es]. exists s'.
    pose proof (coalesce_from_nonempty (s + sizeof_block + b'.1, true) bs).
    by destruct (coalesce_from _ bs).
Qed.

Lemma coalesced_coalesce_from b bs : coalesced (coalesce_from b bs).
Proof.
  revert b. induction bs as [|b' bs IH]; intros b; cbn [coalesce_from]; [done|].
  destruct (b.2 && b'.2) eqn:E; [apply IH|]. cbn [coalesced].
  destruct (coalesce_from_head b' bs) as [s Hs]. specialize (IH b').
  destruct (coalesce_from b' bs) as [|c cs]; [done|]. cbn [hd] in Hs. subst c. done.
Qed.

(** A coalesced heap without live payloads is one block. *)
Lemma coalesced_empty m a bs :
  chain m a bs -> bs <> [] -> coalesced bs -> live_from a bs = [] ->
  bs = [(HEAP_END - a - sizeof_block, true)].
Proof.
  intros Hc Hne Hco Hl. pose proof (chain_end _ _ _ Hc) as He.
  destruct bs as [|[s f] bs]; [done|]. cbn [live_from fst snd] in Hl.
  destruct f; [|done]. destruct bs as [|[s' f'] bs].
  - rewrite extent_cons in He. unfold extent in He. cbn in He. do 2 f_equal. lia.
  - cbn [live_from fst snd coalesced] in *. destruct f'; [|done]. by destruct Hco.
Qed.

(** ** Sequences of calls *)

Inductive heap_op :=
  | Kmalloc (size : Z)
  | Kzalloc (size : Z)
  | Kfree (ptr : Z)
  | Krealloc (ptr size : Z).

Definition heap_exec (o : heap_op) (w : machine) (h : heap) : option (Z * machine * heap) :=
  match o with
  | Kmalloc n => kmalloc w h n
  | Kzalloc n => kzalloc w h n
  | Kfree p => '(w', h') ← kfree w h p; Some (0, w', h')
  | Krealloc p n => krealloc w h p n
  end.

(** The calls in order; the pointers they return. *)
Fixpoint heap_run (ops : list heap_op) (w : machine) (h : heap) : option (list Z * machine * heap) :=
  match ops with
  | [] => Some ([], w, h)
  | o :: ops' =>
      '(p, w1, h1) ← heap_exec o w h;
      '(ps, w2, h2) ← heap_run ops' w1 h1;
      Some (p :: ps, w2, h2)
  end.

(** The specification of a call on the list of blocks.  [None]: the caller broke
    the contract (a size that wraps when rounded up to 8, or a pointer that is
    neither null nor that of an allocated payload). *)
Definition size_ok (n : Z) : bool := (0 <=? n) && (n + 7 <? 2 ^ 32).

Definition spec_alloc (n : Z) (bs : list block) : Z * list block :=
  if n =? 0 then (0, bs)
  else match alloc_blocks (align8 n) bs with
       | None => (0, bs)
       | Some (p, bs') => (p, bs')
       end.

Definition spec_exec (o : heap_op) (bs : list block) : option (Z * list block) :=
  match o with
  | Kmalloc n | Kzalloc n => if size_ok n then Some (spec_alloc n bs) else None
  | Kfree p => if p =? 0 then Some (0, bs) else bs' ← free_blocks p bs; Some (0, bs')
  | Krealloc p n =>
      if negb (size_ok n) then None
      else if p =? 0 then Some (spec_alloc n bs)
      else if n =? 0 then bs' ← free_blocks p bs; Some (0, bs')
      else match find_at HEAP_START p bs with
           | Some (_, (k, false), _) =>
               if n <=? k then Some (p, bs)
               else match alloc_blocks (align8 n) bs with
                    | None => Some (0, bs)
                    | Some (np, bs1) => bs2 ← free_blocks p bs1; Some (np, bs2)
                    end
           | _ => None
           end
  end.

Fixpoint spec_run (ops : list heap_op) (bs : list block) : option (list Z * list block) :=
  match ops with
  | [] => Some ([], bs)
  | o :: ops' =>
      '(p, bs1) ← spec_exec o bs;
      '(ps, bs2) ← spec_run ops' bs1;
      Some (p :: ps, bs2)
  end.

(** What every call guarantees besides its result. *)
Definition heap_evolves (w : machine) (h : heap) (bs : list block) (w' : machine) (h' : heap)
    (bs' : list block) : Prop :=
  heap_inv (ram w') h' bs' /\ keeps (live bs) (ram w) (ram w').

Lemma heap_evolves_refl w h bs : heap_inv (ram w) h bs -> heap_evolves w h bs w h bs.
Proof. by split. Qed.

Lemma size_ok_spec n : size_ok n = true -> 0 <= n /\ n + 7 < 2 ^ 32.
Proof. unfold size_ok. intros H. apply andb_prop in H as [H1 H2]. lia. Qed.

Lemma find_at_is_live a p bs pre k post :
  find_at a p bs = Some (pre, (k, false), post) -> In (p, k) (live_from a bs).
Proof.
  intros E. pose proof (find_at_spec a p bs) as Hat. rewrite E in Hat. destruct Hat as [-> ->].
  rewrite live_from_app, in_app_iff. right. by left.
Qed.

Lemma free_blocks_is_live p bs bs' : free_blocks p bs = Some bs' -> exists k, In (p, k) (live bs).
Proof.
  unfold free_blocks. destruct (find_at HEAP_START p bs) as [[[pre [k []]] post]|] eqn:E; try done.
  intros _. exists k. by eapply find_at_is_live.
Qed.

Lemma kmalloc_step w h bs n :
  heap_inv (ram w) h bs -> 0 <= n ->
  exists w' h', kmalloc w h n = Some ((spec_alloc n bs).1, w', h') /\
    heap_evolves w h bs w' h' (spec_alloc n bs).2.
Proof.
  intros Hi Hn. unfold spec_alloc. destruct (Z.eqb_spec n 0) as [->|Hne].
  { exists w, h. split; [done|by apply heap_evolves_refl]. }
  pose proof (kmalloc_promise w h bs n Hi ltac:(lia)) as Hk.
  destruct (alloc_blocks _ bs) as [[ptr bs']|].
  - destruct Hk as (w' & h' & sz & Hk & Hi' & _ & _ & _ & _ & _ & _ & Hkp & _). by exists w', h'.
  - destruct Hk as [Hk _]. exists w, h. split; [done|by apply heap_evolves_refl].
Qed.

Lemma kzalloc_step w h bs n :
  heap_inv (ram w) h bs -> 0 <= n -> n + 7 < 2 ^ 32 ->
  exists w' h', kzalloc w h n = Some ((spec_alloc n bs).1, w', h') /\
    heap_evolves w h bs w' h' (spec_alloc n bs).2.
Proof.
  intros Hi Hn Hn'. unfold spec_alloc. destruct (Z.eqb_spec n 0) as [->|Hne].
  { exists w, h. split; [done|by apply heap_evolves_refl]. }
  pose proof (kzalloc_promise w h bs n Hi ltac:(lia) Hn') as Hk.
  destruct (alloc_blocks _ bs) as [[ptr bs']|].
  - destruct Hk as (w' & h' & Hk & Hi' & _ & Hkp & _). by exists w', h'.
  - exists w, h. split; [done|by apply heap_evolves_refl].
Qed.

Lemma kfree_step w h bs p bs' :
  heap_inv (ram w) h bs -> free_blocks p bs = Some bs' ->
  exists w' h', kfree w h p = Some (w', h') /\ heap_evolves w h bs w' h' bs'.
Proof.
  intros Hi Ef. destruct (kfree_promise w h bs p bs' Hi Ef) as (w' & h' & Hk & Hi' & _ & _ & Hkp & _).
  by exists w', h'.
Qed.

Lemma krealloc_step w h bs p n r :
  heap_inv (ram w) h bs -> spec_exec (Krealloc p n) bs = Some r ->
  exists w' h', krealloc w h p n = Some (r.1, w', h') /\ heap_evolves w h bs w' h' r.2.
Proof.
  intros Hi Hr. cbn [spec_exec] in Hr. destruct (size_ok n) eqn:Hs; [|done]. cbn [negb] in Hr.
  apply size_ok_spec in Hs as [Hn0 Hn]. destruct (Z.eqb_spec p 0) as [->|Hp0].
  { injection Hr as <-. unfold krealloc. cbn [Z.eqb]. by apply kmalloc_step. }
  destruct (Z.eqb_spec n 0) as [->|Hn1].
  { destruct (free_blocks p bs) as [bs'|] eqn:Ef; [|done]. injection Hr as <-.
    destruct (kfree_step w h bs p bs' Hi Ef) as (w' & h' & Hk & He).
    exists w', h'. split; [|done]. unfold krealloc. destruct (Z.eqb_spec p 0); [done|].
    by rewrite Hk. }
  destruct (find_at HEAP_START p bs) as [[[pre [k []]] post]|] eqn:E; try done.
  apply find_at_is_live in E. destruct (live_size _ _ _ _ _ Hi E) as (Hz & _).
  destruct (Z.leb_spec n k) as [Hle|Hgt].
  { injection Hr as <-. exists w, h. split; [|by apply heap_evolves_refl]. unfold krealloc.
    destruct (Z.eqb_spec p 0); [done|]. destruct (Z.eqb_spec n 0); [done|].
    rewrite Hz, Z.geb_leb. by destruct (Z.leb_spec n k); [|lia]. }
  pose proof (krealloc_grow w h bs p k n Hi E ltac:(lia) Hn) as Hg.
  destruct (alloc_blocks _ bs) as [[np bs1]|].
  - destruct Hg as (w' & h' & bs' & sz & Hk & Ef & Hi' & _ & _ & _ & Hkp).
    rewrite Ef in Hr. injection Hr as <-. by exists w', h'.
  - injection Hr as <-. exists w, h. split; [done|by apply heap_evolves_refl].
Qed.

Lemma heap_exec_refines o w h bs r :
  heap_inv (ram w) h bs -> spec_exec o bs = Some r ->
  exists w' h', heap_exec o w h = Some (r.1, w', h') /\ heap_evolves w h bs w' h' r.2.
Proof.
  intros Hi Hr. destruct o as [n|n|p|p n]; [..|by apply krealloc_step]; cbn [spec_exec heap_exec] in *.
  - destruct (size_ok n) eqn:Hs; [|done]. apply size_ok_spec in Hs as [? _]. injection Hr as <-.
    by apply kmalloc_step.
  - destruct (size_ok n) eqn:Hs; [|done]. apply size_ok_spec in Hs as [? ?]. injection Hr as <-.
    by apply kzalloc_step.
  - destruct (Z.eqb_spec p 0) as [->|Hp].
    + injection Hr as <-. exists w, h. split; [done|by apply heap_evolves_refl].
    + destruct (free_blocks p bs) as [bs'|] eqn:Ef; [|done]. injection Hr as <-.
      destruct (kfree_step w h bs p bs' Hi Ef) as (w' & h' & -> & He). by exists w', h'.
Qed.

Lemma heap_init_inv w :
  heap_inv (ram (heap_init w).1) (heap_init w).2 [(HEAP_INITIAL - sizeof_block, true)].
Proof.
  unfold heap_init, heap_inv. cbn [fst snd heap_start heap_total heap_used ram emit set_ram].
  split; [done|]. split; [done|]. split; [done|]. split; [|done]. cbn [chain fst snd]. split; [|done].
  unfold header, HEAP_START, HEAP_INITIAL, HEAP_MAGIC, sizeof_block. cbn [fst snd].
  repeat split; fields; done.
Qed.

(** ** Properties *)

(** C3: every sequence of [kmalloc], [kzalloc], [kfree] and [krealloc] calls
    that keeps the callers' contract, on a heap fresh from [heap_init], returns
    (no list walk runs forever), yields exactly the pointers of the block-list
    specification, and ends in a well-formed heap with the specified blocks. *)
Theorem heap_refines_spec (w : machine) (ops : list heap_op) (ps : list Z) (bs : list block)
  (Hspec : spec_run ops [(HEAP_INITIAL - sizeof_block, true)] = Some (ps, bs)) :
  exists w' h', heap_run ops (heap_init w).1 (heap_init w).2 = Some (ps, w', h') /\
    heap_inv (ram w') h' bs.
Proof.
  pose proof (heap_init_inv w) as Hi. revert Hspec Hi.
  generalize (heap_init w).1 (heap_init w).2 [(HEAP_INITIAL - sizeof_block, true)].
  revert ps. induction ops as [|o ops IH]; intros ps w0 h bs0 Hspec Hi; cbn [spec_run heap_run] in *.
  - injection Hspec as <- <-. by exists w0, h.
  - destruct (spec_exec o bs0) as [[p bs1]|] eqn:E; [|done]. cbn [mbind option_bind] in Hspec.
    destruct (spec_run ops bs1) as [[ps1 bs2]|] eqn:E2; [|done]. injection Hspec as <- <-.
    destruct (heap_exec_refines o w0 h bs0 (p, bs1) Hi E) as (w1 & h1 & -> & Hi1 & _).
    destruct (IH ps1 w1 h1 bs1 E2 Hi1) as (w2 & h2 & Hr & Hi2). exists w2, h2.
    cbn [mbind option_bind fst]. rewrite Hr. done.
Qed.

Lemma heap_refines_spec_witness :
  let ops := [Kmalloc 100; Kmalloc 33; Kfree 2097168; Kzalloc 24; Krealloc 2097288 500] in
  exists w' h', heap_run ops (heap_init (Machine ∅ [])).1 (heap_init (Machine ∅ [])).2 =
    Some ([2097168; 2097288; 0; 2097168; 2097344], w', h') /\
    heap_inv (ram w') h' [(24, false); (120, true); (504, false); (1047864, true)].
Proof. apply heap_refines_spec. vm_compute. reflexivity. Defined.

(** [kmalloc] of a size that does not wrap is first fit: it takes the first
    free block of at least the rounded size, returns an 8-aligned payload inside
    the heap of at least the requested size, apart from every live payload, and
    leaves the contents of all of them; the new live payloads are the old ones
    and this one.  When no free block is large enough it returns NULL and
    changes nothing. *)
Theorem kmalloc_correct (w : machine) (h : heap) (bs : list block) (size : Z)
  (Hinv : heap_inv (ram w) h bs) (Hpos : 0 < size) (Hbound : size + 7 < 2 ^ 32) :
  match alloc_blocks (align8 size) bs with
  | None => kmalloc w h size = Some (0, w, h) /\
      Forall (fun b : block => b.2 = true -> b.1 < align8 size) bs
  | Some (ptr, bs') =>
      exists w' h' sz, kmalloc w h size = Some (ptr, w', h') /\ heap_inv (ram w') h' bs' /\
        ptr mod 8 = 0 /\ HEAP_START < ptr /\ size <= sz /\ ptr + sz <= HEAP_END /\
        apart (live bs) ptr sz /\ keeps (live bs) (ram w) (ram w') /\
        same_outside HEAP_START HEAP_END (ram w) (ram w') /\
        (forall p n, In (p, n) (live bs') <-> In (p, n) (live bs) \/ (p, n) = (ptr, sz))
  end.
Proof.
  pose proof (kmalloc_promise w h bs size Hinv Hpos) as Hk. pose proof (align8_le size).
  destruct (alloc_blocks _ bs) as [[ptr bs']|]; [|done].
  destruct Hk as (w' & h' & sz & Hk & Hi & _ & H8 & Hp & Hsz & He & Hr). exists w', h', sz.
  split; [done|]. split; [done|]. split; [done|]. split; [done|]. split; [lia|]. by split.
Qed.

Lemma kmalloc_correct_witness :
  exists w' h' sz,
    kmalloc (heap_init (Machine ∅ [])).1 (heap_init (Machine ∅ [])).2 100 = Some (2097168, w', h') /\
    2097168 mod 8 = 0 /\ 100 <= sz.
Proof.
  pose proof (kmalloc_correct _ _ _ 100 (heap_init_inv (Machine ∅ [])) ltac:(lia) ltac:(lia)) as H.
  assert (E : alloc_blocks (align8 100) [(HEAP_INITIAL - sizeof_block, true)] =
    Some (2097168, [(104, false); (1048440, true)])) by (vm_compute; reflexivity).
  rewrite E in H. destruct H as (w' & h' & sz & Hk & _ & H8 & _ & Hsz & _). exists w', h', sz.
  exact (conj Hk (conj H8 Hsz)).
Defined.

(** [kfree] of a live payload makes exactly that payload free, keeps the
    contents of all payloads, leaves no two neighbouring free blocks (and one
    single block when nothing is live any more), and a second [kfree] of the
    same pointer is detected: it only prints the double-free error. *)
Theorem kfree_correct (w : machine) (h : heap) (bs : list block) (ptr n : Z)
  (Hinv : heap_inv (ram w) h bs) (Hlive : In (ptr, n) (live bs)) :
  exists w' h' bs', kfree w h ptr = Some (w', h') /\ heap_inv (ram w') h' bs' /\
    (forall p k, In (p, k) (live bs') <-> In (p, k) (live bs) /\ p <> ptr) /\
    keeps (live bs) (ram w) (ram w') /\
    heap_used h' = heap_used h - (sizeof_block + n) /\ coalesced bs' /\
    (live bs' = [] -> bs' = [(HEAP_INITIAL - sizeof_block, true)]) /\
    kfree w' h' ptr =
      Some (emit w' [VgaSetColor VGA_COLOR_LIGHT_RED VGA_COLOR_BLACK; VgaPuts (line "ERROR: Double free detected!")], h').
Proof.
  destruct (free_blocks_live _ _ _ _ _ Hinv Hlive) as (bs' & Ef).
  destruct (live_size _ _ _ _ _ Hinv Hlive) as (_ & Hp & _).
  destruct (kfree_promise w h bs ptr bs' Hinv Ef) as (w' & h' & Hk & Hi' & _ & Hl & Hkp & _ & Hm & Hf).
  exists w', h', bs'. pose proof Hi' as (_ & _ & Hne & Hc & Hu').
  pose proof Hinv as (_ & _ & _ & Hc0 & Hu). pose proof Ef as Ef'. unfold free_blocks in Ef.
  pose proof (find_at_spec HEAP_START ptr bs) as Hat.
  destruct (find_at HEAP_START ptr bs) as [[[pre [k []]] post]|] eqn:E; try done.
  pose proof (find_at_is_live _ _ _ _ _ _ E) as Hk'. injection Ef as Ef. destruct Hat as [Eb _].
  assert (Hcd : coalesced bs' /\ used_extent bs' = used_extent (pre ++ (k, true) :: post)).
  { rewrite <- Ef. destruct (pre ++ (k, true) :: post) as [|b0 r]; cbn [coalesce]; [done|].
    split; [apply coalesced_coalesce_from|apply used_coalesce_from]. }
  destruct Hcd as [Hcd Hue]. pose proof (live_unique _ _ _ _ _ _ Hinv Hk' Hlive) as ->.
  split; [done|]. split; [done|]. split; [done|]. split; [done|]. split; [|split; [done|split]].
  - rewrite Hu, Hu', Hue, Eb, !used_extent_app, !used_extent_cons. cbn [fst snd]. lia.
  - intros Hnil. apply (coalesced_empty _ _ _ Hc Hne Hcd Hnil).
  - unfold kfree. destruct (Z.eqb_spec ptr 0); [unfold HEAP_START, sizeof_block in *; lia|].
    by rewrite Hm, Hf, Z.eqb_refl.
Qed.

(** A heap with one live payload, for the witnesses. *)
Definition demo_heap : machine * heap :=
  match kmalloc (heap_init (Machine ∅ [])).1 (heap_init (Machine ∅ [])).2 100 with
  | Some (_, w, h) => (w, h)
  | None => (Machine ∅ [], Heap 0 0 0)
  end.

Lemma demo_heap_inv : heap_inv (ram demo_heap.1) demo_heap.2 [(104, false); (1048440, true)].
Proof.
  unfold demo_heap.
  destruct (kmalloc_step _ _ _ 100 (heap_init_inv (Machine ∅ [])) ltac:(lia)) as (w' & h' & -> & H & _).
  exact H.
Qed.

Lemma kfree_correct_witness :
  exists w' h' bs', kfree demo_heap.1 demo_heap.2 2097168 = Some (w', h') /\
    heap_inv (ram w') h' bs'.
Proof.
  destruct (kfree_correct demo_heap.1 demo_heap.2 _ 2097168 104 demo_heap_inv) as (w' & h' & bs' & H & Hi & _).
  - left. reflexivity.
  - exists w', h', bs'. exact (conj H Hi).
Defined.

(** Growing a live payload with [krealloc] returns, when first fit finds
    room, a new payload of at least the requested size that starts with the old
    contents, frees the old payload, and keeps all other payloads and their
    contents; otherwise it returns NULL and the old payload stays as it is. *)
Theorem krealloc_correct (w : machine) (h : heap) (bs : list block) (ptr n size : Z)
  (Hinv : heap_inv (ram w) h bs) (Hlive : In (ptr, n) (live bs))
  (Hgrow : n < size) (Hbound : size + 7 < 2 ^ 32) :
  match alloc_blocks (align8 size) bs with
  | None => krealloc w h ptr size = Some (0, w, h)
  | Some (new_ptr, _) =>
      exists w' h' bs' sz, krealloc w h ptr size = Some (new_ptr, w', h') /\
        heap_inv (ram w') h' bs' /\ size <= sz /\
        (forall i, 0 <= i < n -> load8 (ram w') (new_ptr + i) = load8 (ram w) (ptr + i)) /\
        (forall p k, In (p, k) (live bs') <->
           (In (p, k) (live bs) /\ p <> ptr) \/ (p, k) = (new_ptr, sz)) /\
        keeps (live bs) (ram w) (ram w')
  end.
Proof.
  pose proof (krealloc_grow w h bs ptr n size Hinv Hlive Hgrow Hbound) as H.
  destruct (alloc_blocks _ bs) as [[np bs1]|]; [|done].
  destruct H as (w' & h' & bs' & sz & Hk & _ & H). by exists w', h', bs', sz.
Qed.

Lemma krealloc_correct_witness :
  exists w' h' bs' sz, krealloc demo_heap.1 demo_heap.2 2097168 200 = Some (2097288, w', h') /\
    heap_inv (ram w') h' bs' /\ 200 <= sz.
Proof.
  assert (Hl : In (2097168, 104) (live [(104, false); (1048440, true)])) by (left; reflexivity).
  pose proof (krealloc_correct demo_heap.1 demo_heap.2 _ 2097168 104 200 demo_heap_inv Hl
    ltac:(lia) ltac:(lia)) as H.
  assert (E : alloc_blocks (align8 200) [(104, false); (1048440, true)] =
    Some (2097288, [(104, false); (200, false); (1048224, true)])) by (vm_compute; reflexivity).
  rewrite E in H. destruct H as (w' & h' & bs' & sz & Hk & Hi & Hs & _).
  exists w', h', bs', sz. exact (conj Hk (conj Hi Hs)).
Defined.

(** [kzalloc] is [kmalloc] with the requested bytes cleared: same pointer,
    same heap, zero payload, other payloads untouched. *)
Theorem kzalloc_correct (w : machine) (h : heap) (bs : list block) (size : Z)
  (Hinv : heap_inv (ram w) h bs) (Hpos : 0 < size) (Hbound : size + 7 < 2 ^ 32) :
  match alloc_blocks (align8 size) bs with
  | None => kzalloc w h size = Some (0, w, h)
  | Some (ptr, bs') =>
      exists w' h', kzalloc w h size = Some (ptr, w', h') /\ heap_inv (ram w') h' bs' /\
        (forall i, 0 <= i < size -> load8 (ram w') (ptr + i) = 0) /\
        keeps (live bs) (ram w) (ram w')
  end.
Proof.
  pose proof (kzalloc_promise w h bs size Hinv Hpos Hbound) as Hk. destruct (alloc_blocks _ bs) as [[ptr bs']|]; [|done].
  destruct Hk as (w' & h' & E & Hi & Hz & Hkp & _). by exists w', h'.
Qed.

Lemma kzalloc_correct_witness :
  exists w' h', kzalloc demo_heap.1 demo_heap.2 8 = Some (2097288, w', h') /\
    load8 (ram w') 2097295 = 0.
Proof.
  pose proof (kzalloc_correct demo_heap.1 demo_heap.2 _ 8 demo_heap_inv ltac:(lia) ltac:(lia)) as H.
  assert (E : alloc_blocks (align8 8) [(104, false); (1048440, true)] =
    Some (2097288, [(104, false); (8, false); (1048416, true)])) by (vm_compute; reflexivity).
  rewrite E in H. destruct H as (w' & h' & Hk & _ & Hz & _). exists w', h'. split; [exact Hk|].
  apply (Hz 7). lia.
Defined.

(** A request within 7 bytes of 2^32 wraps to zero when it is rounded up,
    so on a fresh heap [kmalloc] succeeds with a payload of zero bytes. *)
Theorem kmalloc_huge_wraps (w : machine) (size : Z) (Hsize : 2 ^ 32 - 7 <= size < 2 ^ 32) :
  exists w' h', kmalloc (heap_init w).1 (heap_init w).2 size =
      Some (HEAP_START + sizeof_block, w', h') /\
    live [(0, false); (HEAP_INITIAL - 2 * sizeof_block, true)] = [(HEAP_START + sizeof_block, 0)] /\
    heap_inv (ram w') h' [(0, false); (HEAP_INITIAL - 2 * sizeof_block, true)].
Proof.
  assert (E : align8 size = 0).
  { rewrite align8_spec. unfold u32, wrap.
    replace (size + 7) with ((size + 7 - 2 ^ 32) + 1 * 2 ^ 32) by lia.
    rewrite Z.mod_add, Z.mod_small by lia. rewrite Z.div_small; lia. }
  destruct (kmalloc_step _ _ _ size (heap_init_inv w) ltac:(lia)) as (w' & h' & Hk & Hi & _).
  unfold spec_alloc in *. destruct (Z.eqb_spec size 0); [lia|]. rewrite E in *. by exists w', h'.
Qed.

Lemma kmalloc_huge_wraps_witness :
  exists w' h', kmalloc (heap_init (Machine ∅ [])).1 (heap_init (Machine ∅ [])).2 4294967295 =
    Some (2097168, w', h').
Proof.
  destruct (kmalloc_huge_wraps (Machine ∅ []) 4294967295 ltac:(lia)) as (w' & h' & H & _).
  exists w', h'. exact H.
Defined.

(** [heap_used] counts the first header twice (once in [heap_init], once
    with its block), so with every block allocated the free count reported by
    [heap_get_stats] is not 0 but 2^32 - 16. *)
Theorem heap_stats_full_underflows (m : memory) (h : heap) (bs : list block)
  (Hinv : heap_inv m h bs) (Hfull : Forall (fun b : block => b.2 = false) bs) :
  heap_get_stats h = (HEAP_INITIAL, HEAP_INITIAL + sizeof_block, 2 ^ 32 - sizeof_block).
Proof.
  destruct Hinv as (_ & Ht & _ & Hc & Hu). pose proof (chain_end _ _ _ Hc) as He.
  assert (E : used_extent bs = extent bs).
  { clear -Hfull. induction Hfull as [|[s f] bs Hb _ IH]; [done|].
    rewrite used_extent_cons, extent_cons, IH. cbn [fst snd] in *. by rewrite Hb. }
  unfold heap_get_stats. rewrite Ht, Hu, E.
  replace (extent bs) with HEAP_INITIAL by (unfold HEAP_END in He; lia). reflexivity.
Qed.

Lemma heap_stats_full_underflows_witness :
  exists w' h', kmalloc (heap_init (Machine ∅ [])).1 (heap_init (Machine ∅ [])).2 1048560 =
      Some (2097168, w', h') /\
    heap_get_stats h' = (HEAP_INITIAL, HEAP_INITIAL + sizeof_block, 2 ^ 32 - sizeof_block).
Proof.
  destruct (kmalloc_step _ _ _ 1048560 (heap_init_inv (Machine ∅ [])) ltac:(lia)) as (w' & h' & Hk & Hi & _).
  exists w', h'. split; [exact Hk|]. apply (heap_stats_full_underflows (ram w') h' [(1048560, false)]).
  - exact Hi.
  - repeat constructor.
Defined.

(** ** Interrupted between the search and the claim *)

(** [kmalloc] after its search has found [block]. *)
Definition kmalloc_claim (w : machine) (h : heap) (block size : Z) : Z * machine * heap :=
  let m2 := split_block (ram w) block size in
  let m3 := set_is_free m2 block false in
  (block + sizeof_block, set_ram w m3, set_heap_used h (heap_used h +₃₂ (sizeof_block + b_size m3 block))).

Lemma kmalloc_phases w h size :
  kmalloc w h size =
    if size =? 0 then Some (0, w, h)
    else '(block, w1) ← find_free_block w h (align8 size);
         if block =? 0 then Some (0, w1, h) else Some (kmalloc_claim w1 h block (align8 size)).
Proof. reflexivity. Qed.

(** Nothing keeps a second task out of the heap.  A task that is preempted after
    its search, while another task obtains a payload from the same free block,
    claims the block although it is no longer free: both are given the same
    address, and the block is counted twice. *)
Theorem kmalloc_race (w : machine) (h : heap) (size other block : Z) (w1 w1' : machine)
  (Hsize : size <> 0) (Hother : other <> 0) (Hblock : block <> 0)
  (Hfind : find_free_block w h (align8 size) = Some (block, w1))
  (Hfind' : find_free_block w h (align8 other) = Some (block, w1')) :
  exists w2 h2 w3 h3, kmalloc w h other = Some (block + sizeof_block, w2, h2) /\
    b_is_free (ram w2) block = false /\
    kmalloc_claim w2 h2 block (align8 size) = (block + sizeof_block, w3, h3) /\
    heap_used h3 = heap_used h2 +₃₂ (sizeof_block + b_size (ram w3) block).
Proof.
  rewrite kmalloc_phases, Hfind'. cbn [mbind option_bind].
  destruct (Z.eqb_spec other 0), (Z.eqb_spec block 0); try done.
  eexists _, _, _, _. split; [reflexivity|]. split; [|split; reflexivity].
  cbn [ram set_ram]. unfold b_is_free, set_is_free. by rewrite load8_store8_eq.
Qed.

Lemma kmalloc_race_witness :
  exists w2 h2, kmalloc demo_heap.1 demo_heap.2 40 = Some (2097288, w2, h2) /\ b_is_free (ram w2) 2097272 = false.
Proof.
  destruct (kmalloc_race demo_heap.1 demo_heap.2 100 40 2097272 demo_heap.1 demo_heap.1) as (w2 & h2 & w3 & h3 & E & F & _);
    [done|done|done|vm_compute; reflexivity..|].
  exists w2, h2. split; [exact E|exact F].
Defined.
