(* ===== verification/Vmm.v ===== *)
(** * [kernel/mm/vmm.c]: two-level paging

    The page directory (a static array) and the page tables are in physical
    memory; every routine reads and writes them there, as the source does.
    The record [vmm] holds the directory's address, the statistics, and the
    part of the processor the file drives: CR0, CR3, the page-fault entry of
    the interrupt table, and the TLB (page number to cached frame number and
    permissions), which the hardware may fill at any time and [invlpg] empties.
    The routines' own accesses to the directory and to the tables are made at
    their physical addresses: they go through paging like any other, and reach
    these addresses as long as the identity map of [vmm_init] covers them.

    [walk] is the page-table entry the hardware finds, [translation] what it
    computes from both levels.  The theorems state every routine on [walk], and
    that the TLB never contradicts [translation]. *)
From stdpp Require Import base numbers list gmap strings.
From Stdlib Require Import ZArith Lia Ascii.
From S2P Require Import Prelude.
From S2P Require Import Machine.
From S2P Require Import CString.
From S2P Require Import Alloc.
From S2P Require Import Heap.
From S2P Require Import Pmm.

Definition PAGE_SIZE : Z := 4096.
Definition PAGES_PER_TABLE : Z := 1024.
Definition TABLES_PER_DIR : Z := 1024.

Definition PTE_PRESENT : Z := 1.
Definition PTE_WRITABLE : Z := 2.
Definition PTE_USER : Z := 4.
Definition PTE_ADDR_MASK : Z := 0xFFFFF000.

Definition VMM_PD_INDEX (va : Z) : Z := Z.land (Z.shiftr va 22) 0x3FF.
Definition VMM_PT_INDEX (va : Z) : Z := Z.land (Z.shiftr va 12) 0x3FF.
Definition VMM_OFFSET (va : Z) : Z := Z.land va 0xFFF.

(** What the TLB keeps of a page: its frame, and whether both levels allow writes
    and accesses from ring 3. *)
Record tlb_entry := TlbEntry {
  te_frame : Z;
  te_writable : bool;
  te_user : bool;
}.

Record vmm := Vmm {
  page_directory : Z;
  (** [vmm_stats_t stats] *)
  mapped_pages : Z;
  page_tables : Z;
  identity_end : Z;
  (** the processor *)
  cr0 : Z;
  cr3 : Z;
  isr14 : bool;
  tlb : gmap Z tlb_entry;
}.

Definition set_mapped (v : vmm) (n : Z) : vmm :=
  {| page_directory := page_directory v; mapped_pages := n; page_tables := page_tables v;
     identity_end := identity_end v; cr0 := cr0 v; cr3 := cr3 v; isr14 := isr14 v; tlb := tlb v |}.
Definition set_tables (v : vmm) (n : Z) : vmm :=
  {| page_directory := page_directory v; mapped_pages := mapped_pages v; page_tables := n;
     identity_end := identity_end v; cr0 := cr0 v; cr3 := cr3 v; isr14 := isr14 v; tlb := tlb v |}.
Definition set_tlb (v : vmm) (t : gmap Z tlb_entry) : vmm :=
  {| page_directory := page_directory v; mapped_pages := mapped_pages v;
     page_tables := page_tables v; identity_end := identity_end v; cr0 := cr0 v; cr3 := cr3 v;
     isr14 := isr14 v; tlb := t |}.

(** ** Printing *)

Definition hex_digits : list ascii := String.list_ascii_of_string "0123456789ABCDEF".
Definition hex_digit (d : Z) : ascii := nth (Z.to_nat d) hex_digits "0"%char.

(** The loop of [print_hex32], [n] digits left, filling the buffer from its end. *)
Fixpoint hex_loop (n : nat) (v : Z) (buf : string) : string :=
  match n with
  | O => buf
  | S n' => hex_loop n' (Z.shiftr v 4) (String (hex_digit (Z.land v 0xF)) buf)
  end.

Definition hex32 (v : Z) : string := hex_loop 8 v "".
Definition print_hex32 (v : Z) : out_call := VgaPuts (hex32 v).

(** What [page_fault_handler] prints before it halts the processor for good. *)
Definition page_fault_handler (fault_addr err_code eip : Z) : list out_call :=
  [VgaSetColor VGA_COLOR_WHITE VGA_COLOR_RED; VgaPuts (nl ++ nl ++ "!!! PAGE FAULT !!!" ++ nl ++ nl); VgaSetColor VGA_COLOR_LIGHT_RED VGA_COLOR_BLACK;
   VgaPuts "Address: 0x"; print_hex32 fault_addr; VgaPutchar 10;
   VgaPuts "Error:   0x"; print_hex32 err_code; VgaPuts "  ["] ++
  (if negb (has_flag err_code 1) then [VgaPuts "not-present "] else []) ++
  (if has_flag err_code 2 then [VgaPuts "write "] else []) ++
  (if has_flag err_code 4 then [VgaPuts "user "] else []) ++
  (if has_flag err_code 8 then [VgaPuts "reserved-bit "] else []) ++
  (if has_flag err_code 16 then [VgaPuts "instruction-fetch"] else []) ++
  [VgaPuts (line "]"); VgaPuts "EIP:     0x"; print_hex32 eip;
   VgaPuts (nl ++ nl ++ line "System halted.")].

(** ** The routines *)

(** [page_directory[i]]. *)
Definition pde (m : memory) (v : vmm) (i : Z) : Z := load32 m (page_directory v + 4 * i).
Definition set_pde (m : memory) (v : vmm) (i e : Z) : memory := store32 m (page_directory v + 4 * i) e.

Definition vmm_flush_tlb (v : vmm) (va : Z) : vmm := set_tlb v (delete (va / PAGE_SIZE) (tlb v)).
Definition vmm_flush_tlb_all (v : vmm) : vmm := set_tlb v ∅.

Definition vmm_map (m : memory) (p : pmm) (v : vmm) (virtual_addr physical_addr flags : Z)
  : Z * memory * pmm * vmm :=
  let pd_idx := VMM_PD_INDEX virtual_addr in
  let pt_idx := VMM_PT_INDEX virtual_addr in
  let '(ok, m2, p2, v2) :=
    if negb (has_flag (pde m v pd_idx) PTE_PRESENT) then
      let '(pt_phys, m1, p1) := pmm_alloc_frame m p in
      if pt_phys =? 0 then (false, m1, p1, v)
      else
        let m2 := memset m1 (u32 pt_phys) 0 (Z.to_nat PAGE_SIZE) in
        let m3 := set_pde m2 v pd_idx (Z.lor (Z.lor (u32 pt_phys) PTE_PRESENT) PTE_WRITABLE) in
        (true, m3, p1, set_tables v (page_tables v +₃₂ 1))
    else (true, m, p, v) in
  if negb ok then (-1, m2, p2, v2)
  else
    let m3 := if has_flag flags PTE_USER
              then set_pde m2 v2 pd_idx (Z.lor (pde m2 v2 pd_idx) PTE_USER) else m2 in
    let pt := Z.land (pde m3 v2 pd_idx) PTE_ADDR_MASK in
    let m4 := store32 m3 (pt + 4 * pt_idx)
                (Z.lor (Z.land physical_addr PTE_ADDR_MASK) (Z.land flags 0xFFF)) in
    let v3 := set_mapped v2 (mapped_pages v2 +₃₂ 1) in
    (0, m4, p2, vmm_flush_tlb v3 virtual_addr).

Definition vmm_unmap (m : memory) (v : vmm) (virtual_addr : Z) : Z * memory * vmm :=
  let pd_idx := VMM_PD_INDEX virtual_addr in
  let pt_idx := VMM_PT_INDEX virtual_addr in
  if negb (has_flag (pde m v pd_idx) PTE_PRESENT) then (-1, m, v)
  else
    let pt := Z.land (pde m v pd_idx) PTE_ADDR_MASK in
    if negb (has_flag (load32 m (pt + 4 * pt_idx)) PTE_PRESENT) then (-1, m, v)
    else
      let m1 := store32 m (pt + 4 * pt_idx) 0 in
      let v1 := if mapped_pages v >? 0 then set_mapped v (mapped_pages v -₃₂ 1) else v in
      (0, m1, vmm_flush_tlb v1 virtual_addr).

Definition vmm_get_physical (m : memory) (v : vmm) (virtual_addr : Z) : Z :=
  let pd_idx := VMM_PD_INDEX virtual_addr in
  let pt_idx := VMM_PT_INDEX virtual_addr in
  if negb (has_flag (pde m v pd_idx) PTE_PRESENT) then 0
  else
    let pt := Z.land (pde m v pd_idx) PTE_ADDR_MASK in
    if negb (has_flag (load32 m (pt + 4 * pt_idx)) PTE_PRESENT) then 0
    else Z.lor (Z.land (load32 m (pt + 4 * pt_idx)) PTE_ADDR_MASK) (VMM_OFFSET virtual_addr).

Definition vmm_is_mapped (m : memory) (v : vmm) (virtual_addr : Z) : bool :=
  let pd_idx := VMM_PD_INDEX virtual_addr in
  let pt_idx := VMM_PT_INDEX virtual_addr in
  if negb (has_flag (pde m v pd_idx) PTE_PRESENT) then false
  else
    let pt := Z.land (pde m v pd_idx) PTE_ADDR_MASK in
    negb (Z.land (load32 m (pt + 4 * pt_idx)) PTE_PRESENT =? 0).

(** (mapped pages, page tables, identity end). *)
Definition vmm_get_stats (v : vmm) : Z * Z * Z := (mapped_pages v, page_tables v, identity_end v).

Definition vmm_set_user (m : memory) (v : vmm) (virtual_addr : Z) : Z * memory * vmm :=
  let pd_idx := VMM_PD_INDEX virtual_addr in
  let pt_idx := VMM_PT_INDEX virtual_addr in
  if negb (has_flag (pde m v pd_idx) PTE_PRESENT) then (-1, m, v)
  else
    let m1 := set_pde m v pd_idx (Z.lor (pde m v pd_idx) PTE_USER) in
    let pt := Z.land (pde m1 v pd_idx) PTE_ADDR_MASK in
    if negb (has_flag (load32 m1 (pt + 4 * pt_idx)) PTE_PRESENT) then (-1, m1, v)
    else
      let m2 := store32 m1 (pt + 4 * pt_idx) (Z.lor (load32 m1 (pt + 4 * pt_idx)) PTE_USER) in
      (0, m2, vmm_flush_tlb v virtual_addr).

(** ** Initialisation *)

(** [for (j = 0; j < PAGES_PER_TABLE; j++) pt[j] = phys | PRESENT | WRITABLE;],
    [n] entries left from [j]. *)
Fixpoint fill_table (n : nat) (m : memory) (pt i j : Z) : memory :=
  match n with
  | O => m
  | S n' =>
      let phys := Z.lor (u32 (Z.shiftl i 22)) (Z.shiftl j 12) in
      fill_table n' (store32 m (pt + 4 * j) (Z.lor (Z.lor phys PTE_PRESENT) PTE_WRITABLE)) pt i (j + 1)
  end.

(** The loop over the directory, [n] entries left from [i]; [false] when the
    frame allocator is out of frames. *)
Fixpoint identity_map (n : nat) (m : memory) (p : pmm) (v : vmm) (i : Z)
  : bool * memory * pmm * vmm :=
  match n with
  | O => (true, m, p, v)
  | S n' =>
      let '(pt_phys, m1, p1) := pmm_alloc_frame m p in
      if pt_phys =? 0 then (false, m1, p1, v)
      else
        let m2 := fill_table (Z.to_nat PAGES_PER_TABLE) m1 (u32 pt_phys) i 0 in
        let m3 := set_pde m2 v i (Z.lor (Z.lor (u32 pt_phys) PTE_PRESENT) PTE_WRITABLE) in
        identity_map n' m3 p1 (set_tables v (page_tables v +₃₂ 1)) (i + 1)
  end.

(** How many directory entries cover [total] bytes of memory. *)
Definition num_pde (total : Z) : Z :=
  let mem_bytes := if total >? 0xFFFFFFFF then 0xFFFFFFFF else u32 total in
  let n := Z.shiftr (mem_bytes +₃₂ 0x3FFFFF) 22 in
  let n := if n >? TABLES_PER_DIR then TABLES_PER_DIR else n in
  if n =? 0 then 1 else n.

Definition vmm_init (w : machine) (p : pmm) (v : vmm) : Z * machine * pmm * vmm :=
  let w0 := emit w [VgaSetColor VGA_COLOR_YELLOW VGA_COLOR_BLACK; VgaPuts (line "Initializing Virtual Memory Manager...");
                    VgaSetColor VGA_COLOR_LIGHT_GREY VGA_COLOR_BLACK] in
  let m1 := memset (ram w0) (page_directory v) 0 (Z.to_nat (4 * TABLES_PER_DIR)) in
  let v1 := {| page_directory := page_directory v; mapped_pages := 0; page_tables := 0;
               identity_end := 0; cr0 := cr0 v; cr3 := cr3 v; isr14 := isr14 v; tlb := tlb v |} in
  let n := num_pde (st_total_memory (pmm_get_stats p)) in
  let w1 := emit w0 [VgaPuts "  Identity-mapping "; print_hex32 (n *₃₂ 4); VgaPuts " MB (";
                     print_hex32 n; VgaPuts (line " page tables)")] in
  let '(ok, m2, p2, v2) := identity_map (Z.to_nat n) m1 p v1 0 in
  if negb ok then
    (-1, emit (set_ram w1 m2) [VgaSetColor VGA_COLOR_LIGHT_RED VGA_COLOR_BLACK;
           VgaPuts (line "  ERROR: PMM out of frames for page tables")], p2, v2)
  else
    let v3 := {| page_directory := page_directory v2; mapped_pages := n *₃₂ PAGES_PER_TABLE;
                 page_tables := page_tables v2; identity_end := u32 (Z.shiftl n 22);
                 cr0 := Z.lor (cr0 v2) 0x80000000; cr3 := page_directory v2; isr14 := true;
                 tlb := ∅ |} in
    (0, emit (set_ram w1 m2)
          [VgaSetColor VGA_COLOR_LIGHT_GREEN VGA_COLOR_BLACK; VgaPuts (line "  [OK] Paging enabled (CR0.PG set)");
           VgaPuts "  [OK] Page directory at 0x"; print_hex32 (page_directory v3); VgaPuts nl;
           VgaPuts "  [OK] "; print_hex32 (mapped_pages v3); VgaPuts " pages mapped, ";
           print_hex32 (page_tables v3); VgaPuts (line " page tables");
           VgaPuts (line "  [OK] Page-fault handler registered (ISR 14)" ++ nl)], p2, v3).

(** ** Specification *)

(** The page table of directory entry [i], as a frame number. *)
Definition table (m : memory) (v : vmm) (i : Z) : Z := pde m v i / PAGE_SIZE.
Definition present (m : memory) (v : vmm) (i : Z) : bool := Z.testbit (pde m v i) 0.

(** The page-table entry of page [pg], when its directory entry is present. *)
Definition pte (m : memory) (v : vmm) (pg : Z) : Z :=
  load32 m (table m v (pg / 1024) * PAGE_SIZE + 4 * (pg mod 1024)).

(** The hardware's walk: the entry of a mapped page. *)
Definition walk (m : memory) (v : vmm) (pg : Z) : option Z :=
  if present m v (pg / 1024) && Z.testbit (pte m v pg) 0 then Some (pte m v pg) else None.

(** Ring 3 may touch the page: the user bit in both levels. *)
Definition user_page (m : memory) (v : vmm) (pg : Z) : bool :=
  match walk m v pg with
  | Some e => Z.testbit e 2 && Z.testbit (pde m v (pg / 1024)) 2
  | None => false
  end.

(** The hardware's translation of a page: each permission is that of both levels. *)
Definition translation (m : memory) (v : vmm) (pg : Z) : option tlb_entry :=
  e ← walk m v pg;
  let d := pde m v (pg / 1024) in
  Some (TlbEntry (e / PAGE_SIZE) (Z.testbit e 1 && Z.testbit d 1) (Z.testbit e 2 && Z.testbit d 2)).

(** A frame that holds part of the frame bitmap, or the page directory. *)
Definition kernel_frame (p : pmm) (v : vmm) (f : Z) : Prop :=
  f * PAGE_SIZE < bitmap_end p /\ frame_bitmap p < (f + 1) * PAGE_SIZE \/
  f = page_directory v / PAGE_SIZE.

(** The invariant: no free frame is frame 0 or holds the bitmap or the
    directory; the tables are distinct frames that are not free and hold neither;
    a user page has a user directory entry, and every table is writable. *)
Record vmm_inv (m : memory) (p : pmm) (v : vmm) : Prop := {
  inv_pmm : pmm_inv m p;
  inv_total : total_frames p <= 2 ^ 20;
  inv_pd_aligned : page_directory v mod PAGE_SIZE = 0;
  inv_pd_range : 0 <= page_directory v;
  inv_free : forall f, frame_free m p f -> 0 < f /\ ~ kernel_frame p v f;
  inv_pd_bitmap : page_directory v + PAGE_SIZE <= frame_bitmap p \/ bitmap_end p <= page_directory v;
  inv_table : forall i, 0 <= i < 1024 -> present m v i = true ->
    0 < table m v i < 2 ^ 20 /\ ~ frame_free m p (table m v i) /\ ~ kernel_frame p v (table m v i);
  inv_inj : forall i j, 0 <= i < 1024 -> 0 <= j < 1024 -> present m v i = true ->
    present m v j = true -> table m v i = table m v j -> i = j;
  inv_user : forall pg e, 0 <= pg < 2 ^ 20 -> walk m v pg = Some e -> Z.testbit e 2 = true ->
    Z.testbit (pde m v (pg / 1024)) 2 = true;
  inv_rw : forall i, 0 <= i < 1024 -> present m v i = true -> Z.testbit (pde m v i) 1 = true;
}.

(** Every cached translation is the one of the tables. *)
Definition tlb_coherent (m : memory) (v : vmm) : Prop :=
  forall pg t, 0 <= pg < 2 ^ 20 -> tlb v !! pg = Some t -> translation m v pg = Some t.

(** ** Entry arithmetic *)

Lemma land_page e : 0 <= e < 2 ^ 32 -> Z.land e PTE_ADDR_MASK = e / PAGE_SIZE * PAGE_SIZE.
Proof. apply (land_clear_low 12 32). lia. Qed.

Lemma land_offset x : Z.land x 0xFFF = x mod PAGE_SIZE.
Proof. change 0xFFF with (Z.ones 12). apply Z.land_ones. lia. Qed.

Lemma land_index x : Z.land x 0x3FF = x mod 1024.
Proof. change 0x3FF with (Z.ones 10). apply Z.land_ones. lia. Qed.

Lemma lor_page f e : 0 <= e < PAGE_SIZE -> Z.lor (f * PAGE_SIZE) e = f * PAGE_SIZE + e.
Proof. apply (lor_low 12). lia. Qed.

Lemma pd_index va : 0 <= va < 2 ^ 32 -> VMM_PD_INDEX va = va / PAGE_SIZE / 1024.
Proof.
  intros. unfold VMM_PD_INDEX, PAGE_SIZE. rewrite land_index, Z.shiftr_div_pow2 by lia. dlia.
Qed.

Lemma pt_index va : 0 <= va -> VMM_PT_INDEX va = va / PAGE_SIZE mod 1024.
Proof. intros. unfold VMM_PT_INDEX, PAGE_SIZE. by rewrite land_index, Z.shiftr_div_pow2 by lia. Qed.

Lemma flag_present e : has_flag e PTE_PRESENT = Z.testbit e 0.
Proof. change PTE_PRESENT with (2 ^ 0). apply has_flag_pow2. lia. Qed.
Lemma flag_user e : has_flag e PTE_USER = Z.testbit e 2.
Proof. change PTE_USER with (2 ^ 2). apply has_flag_pow2. lia. Qed.

(** Setting the user bit keeps the address, the present bit and the range. *)
Lemma lor_user e :
  0 <= e < 2 ^ 32 -> 0 <= Z.lor e PTE_USER < 2 ^ 32 /\ Z.lor e PTE_USER / PAGE_SIZE = e / PAGE_SIZE /\
  Z.testbit (Z.lor e PTE_USER) 0 = Z.testbit e 0 /\ Z.testbit (Z.lor e PTE_USER) 2 = true.
Proof.
  intros He. split; [apply lor_range; unfold PTE_USER; lia|]. split; [|split].
  - unfold PAGE_SIZE. change 4096 with (2 ^ 12). rewrite <- !Z.shiftr_div_pow2 by lia.
    rewrite Z.shiftr_lor. change (Z.shiftr PTE_USER 12) with 0. apply Z.lor_0_r.
  - rewrite Z.lor_spec. apply orb_false_r.
  - rewrite Z.lor_spec. apply orb_true_r.
Qed.

Lemma lor_user_rw e : Z.testbit (Z.lor e PTE_USER) 1 = Z.testbit e 1.
Proof. rewrite Z.lor_spec. apply orb_false_r. Qed.

(** A directory entry for a fresh table. *)
Lemma new_pde f :
  0 <= f < 2 ^ 20 ->
  let e := Z.lor (Z.lor (f * PAGE_SIZE) PTE_PRESENT) PTE_WRITABLE in
  e = f * PAGE_SIZE + 3 /\ 0 <= e < 2 ^ 32 /\ e / PAGE_SIZE = f /\ Z.testbit e 0 = true /\ Z.testbit e 1 = true.
Proof.
  intros Hf e. assert (E : e = f * PAGE_SIZE + 3).
  { unfold e. rewrite <- Z.lor_assoc. change (Z.lor PTE_PRESENT PTE_WRITABLE) with 3.
    apply lor_page. unfold PAGE_SIZE. lia. }
  rewrite E. split; [done|]. unfold PAGE_SIZE. split; [lia|]. split; [dlia|].
  change 4096 with (2 ^ 12). rewrite <- (lor_low 12 f 3) by lia. rewrite !Z.lor_spec, !Z.mul_pow2_bits_low by lia. done.
Qed.

Lemma pde_range m v i : 0 <= pde m v i < 2 ^ 32.
Proof. apply load32_range. Qed.
Lemma pte_range m v pg : 0 <= pte m v pg < 2 ^ 32.
Proof. apply load32_range. Qed.

(** ** The routines on [walk] *)

(** What the routines read is the entry of the walk. *)
Lemma table_addr m v va :
  0 <= va < 2 ^ 32 ->
  load32 m (Z.land (pde m v (VMM_PD_INDEX va)) PTE_ADDR_MASK + 4 * VMM_PT_INDEX va) =
  pte m v (va / PAGE_SIZE) /\
  has_flag (pde m v (VMM_PD_INDEX va)) PTE_PRESENT = present m v (va / PAGE_SIZE / 1024).
Proof.
  intros. rewrite pd_index, pt_index, land_page, flag_present by (lia || apply pde_range). done.
Qed.

Lemma get_physical_walk m v va :
  0 <= va < 2 ^ 32 ->
  vmm_get_physical m v va =
    match walk m v (va / PAGE_SIZE) with
    | Some e => e / PAGE_SIZE * PAGE_SIZE + va mod PAGE_SIZE
    | None => 0
    end.
Proof.
  intros Hva. destruct (table_addr m v va Hva) as [E1 E2]. unfold vmm_get_physical.
  rewrite E2, E1, flag_present. unfold walk.
  destruct (present _ _ _); [|done]. cbn [negb andb]. destruct (Z.testbit _ 0); [|done]. cbn [negb].
  rewrite land_page by apply pte_range. unfold VMM_OFFSET. rewrite land_offset.
  apply lor_page. unfold PAGE_SIZE. dlia.
Qed.

Lemma is_mapped_walk m v va :
  0 <= va < 2 ^ 32 ->
  vmm_is_mapped m v va = match walk m v (va / PAGE_SIZE) with Some _ => true | None => false end.
Proof.
  intros Hva. destruct (table_addr m v va Hva) as [E1 E2]. unfold vmm_is_mapped.
  rewrite E2, E1. change (negb (Z.land ?e PTE_PRESENT =? 0)) with (has_flag e PTE_PRESENT).
  rewrite flag_present. unfold walk.
  destruct (present _ _ _); [|done]. cbn [negb andb]. by destruct (Z.testbit _ 0).
Qed.

(** ** Frames that do not overlap *)

(** Writes in one page frame. *)
Definition in_frame (f : Z) (m m' : memory) : Prop :=
  same_outside (f * PAGE_SIZE) ((f + 1) * PAGE_SIZE) m m'.

Lemma in_frame_load32 f g m m' i :
  in_frame f m m' -> f <> g -> 0 <= i < 1024 ->
  load32 m' (g * PAGE_SIZE + 4 * i) = load32 m (g * PAGE_SIZE + 4 * i).
Proof.
  intros H Hne Hi. apply load32_ext. intros x Hx. apply H. unfold PAGE_SIZE in *. lia.
Qed.

Lemma in_frame_store32 f m i e :
  0 <= i < 1024 -> in_frame f m (store32 m (f * PAGE_SIZE + 4 * i) e).
Proof.
  intros Hi. eapply same_outside_mono; [..|apply same_outside_store32]; unfold PAGE_SIZE; lia.
Qed.

Lemma in_frame_trans f m1 m2 m3 : in_frame f m1 m2 -> in_frame f m2 m3 -> in_frame f m1 m3.
Proof. apply same_outside_trans. Qed.

Lemma pd_frame p v m : vmm_inv m p v -> page_directory v = page_directory v / PAGE_SIZE * PAGE_SIZE.
Proof. intros H. pose proof (inv_pd_aligned _ _ _ H). unfold PAGE_SIZE in *. dlia. Qed.

Lemma free_ext m m' p f :
  (forall x, frame_bitmap p <= x < bitmap_end p -> load8 m' x = load8 m x) ->
  0 <= f < total_frames p -> bitmap_test m' p f = bitmap_test m p f.
Proof.
  intros H Hf. rewrite !bitmap_test_bit. f_equal. apply load32_ext. intros x Hx. apply H.
  pose proof (bitmap_bytes_covers _ _ Hf). unfold word_addr, bitmap_end in *. dlia.
Qed.

(** Writes that miss the bitmap leave the frame allocator as it is. *)
Lemma pmm_ext m m' p :
  (forall x, frame_bitmap p <= x < bitmap_end p -> load8 m' x = load8 m x) -> pmm_inv m p ->
  pmm_inv m' p /\ (forall g, frame_free m' p g <-> frame_free m p g).
Proof.
  intros Ho [Ht Hu].
  assert (E : forall g, 0 <= g < total_frames p -> bitmap_test m' p g = bitmap_test m p g) by (intros g Hg; by apply free_ext).
  split.
  - split; [done|]. rewrite Hu. symmetry. apply count_below_ext. intros g Hg. apply E. lia.
  - intros g. unfold frame_free. split; intros [Hg Hb]; (split; [done|]); rewrite <- Hb;
      [symmetry|]; by apply E.
Qed.

Lemma pmm_frame m m' p f :
  in_frame f m m' -> ~ (f * PAGE_SIZE < bitmap_end p /\ frame_bitmap p < (f + 1) * PAGE_SIZE) ->
  pmm_inv m p -> pmm_inv m' p /\ (forall g, frame_free m' p g <-> frame_free m p g).
Proof. intros Ho Hd. apply pmm_ext. intros x Hx. apply Ho. lia. Qed.

(** ** Elementary writes *)

Section writes.
Context (m : memory) (p : pmm) (v : vmm) (Hinv : vmm_inv m p v).

Lemma pde_frame m' f i :
  in_frame f m m' -> f <> page_directory v / PAGE_SIZE -> 0 <= i < 1024 -> pde m' v i = pde m v i.
Proof.
  intros Ho Hf Hi. unfold pde. rewrite (pd_frame _ _ _ Hinv). by eapply in_frame_load32.
Qed.

Lemma pg_split pg : 0 <= pg < 2 ^ 20 -> 0 <= pg / 1024 < 1024 /\ 0 <= pg mod 1024 < 1024 /\
  pg = 1024 * (pg / 1024) + pg mod 1024.
Proof. intros. dlia. Qed.

(** Writing the page-table entry of page [pg]. *)
Section pte_write.
Context (pg e : Z) (Hpg : 0 <= pg < 2 ^ 20) (Hpres : present m v (pg / 1024) = true)
  (He : 0 <= e < 2 ^ 32).
Let m' := store32 m (table m v (pg / 1024) * PAGE_SIZE + 4 * (pg mod 1024)) e.

Lemma pte_write_in_frame : in_frame (table m v (pg / 1024)) m m'.
Proof. apply in_frame_store32. apply pg_split, Hpg. Qed.

Lemma pte_write_pde i : 0 <= i < 1024 -> pde m' v i = pde m v i.
Proof.
  intros Hi. eapply pde_frame; [apply pte_write_in_frame| |done].
  destruct (inv_table _ _ _ Hinv (pg / 1024)) as (_ & _ & Hk); [apply pg_split, Hpg|done|].
  intros E. apply Hk. by right.
Qed.

Lemma pte_write_pte q :
  0 <= q < 2 ^ 20 -> present m v (q / 1024) = true -> pte m' v q = if q =? pg then e else pte m v q.
Proof.
  intros Hq Hpq. pose proof (pg_split _ Hq) as (Hq1 & Hq2 & Hq3).
  pose proof (pg_split _ Hpg) as (Hp1 & Hp2 & Hp3).
  unfold pte, table. rewrite pte_write_pde by done. fold (table m v (q / 1024)).
  destruct (Z.eqb_spec q pg) as [->|Hne].
  { by apply load32_store32_same. }
  destruct (Z.eq_dec (table m v (q / 1024)) (table m v (pg / 1024))) as [Et|Et].
  - apply (inv_inj _ _ _ Hinv) in Et; [|done..]. unfold m'. rewrite Et.
    apply load32_store32_ne. unfold PAGE_SIZE. lia.
  - eapply in_frame_load32; [apply pte_write_in_frame|congruence|done].
Qed.

Lemma pte_write_walk q :
  0 <= q < 2 ^ 20 ->
  walk m' v q = if q =? pg then (if Z.testbit e 0 then Some e else None) else walk m v q.
Proof.
  intros Hq. unfold walk, present. rewrite pte_write_pde by (apply pg_split, Hq).
  fold (present m v (q / 1024)).
  destruct (present m v (q / 1024)) eqn:Hp; cbn [andb].
  - rewrite pte_write_pte by done. destruct (Z.eqb_spec q pg) as [->|]; done.
  - destruct (Z.eqb_spec q pg) as [->|]; [congruence|done].
Qed.

Lemma pte_write_inv :
  (Z.testbit e 0 = true -> Z.testbit e 2 = true -> Z.testbit (pde m v (pg / 1024)) 2 = true) ->
  vmm_inv m' p v.
Proof.
  intros Hu. destruct (pg_split _ Hpg) as (Hp1 & _).
  destruct (inv_table _ _ _ Hinv _ Hp1 Hpres) as (_ & _ & Hk).
  destruct (pmm_frame m m' p _ pte_write_in_frame) as [Hpi Hfr].
  { intros ?. apply Hk. by left. }
  { apply Hinv. }
  assert (Et : forall i, 0 <= i < 1024 -> table m' v i = table m v i).
  { intros i Hi. unfold table. by rewrite pte_write_pde. }
  assert (Ep : forall i, 0 <= i < 1024 -> present m' v i = present m v i).
  { intros i Hi. unfold present. by rewrite pte_write_pde. }
  split; try apply Hinv.
  - done.
  - intros f Hf. by apply (inv_free _ _ _ Hinv), Hfr.
  - intros i Hi. rewrite Et, Ep, Hfr by done. by apply (inv_table _ _ _ Hinv).
  - intros i j Hi Hj. rewrite !Et, !Ep by done. by apply (inv_inj _ _ _ Hinv).
  - intros q e' Hq. rewrite pte_write_walk, pte_write_pde by (done || apply pg_split, Hq).
    destruct (Z.eqb_spec q pg) as [->|].
    + destruct (Z.testbit e 0) eqn:E0; [|done]. intros [= <-]. by apply Hu.
    + by apply (inv_user _ _ _ Hinv).
  - intros i Hi. rewrite Ep, pte_write_pde by done. by apply (inv_rw _ _ _ Hinv).
Qed.
End pte_write.

(** Setting the user bit of directory entry [i]. *)
Section pde_user.
Context (i : Z) (Hi : 0 <= i < 1024) (Hpres : present m v i = true).
Let m' := set_pde m v i (Z.lor (pde m v i) PTE_USER).

Lemma pde_user_in_frame : in_frame (page_directory v / PAGE_SIZE) m m'.
Proof. unfold m', set_pde. rewrite (pd_frame _ _ _ Hinv) at 2. by apply in_frame_store32. Qed.

Lemma pde_user_pde j :
  0 <= j < 1024 -> pde m' v j = if j =? i then Z.lor (pde m v i) PTE_USER else pde m v j.
Proof.
  intros Hj. unfold m', pde, set_pde. destruct (Z.eqb_spec j i) as [->|].
  - apply load32_store32_same. apply lor_user, pde_range.
  - apply load32_store32_ne. lia.
Qed.

Lemma pde_user_table j : 0 <= j < 1024 -> table m' v j = table m v j /\ present m' v j = present m v j.
Proof.
  intros Hj. unfold table, present. rewrite pde_user_pde by done.
  destruct (Z.eqb_spec j i) as [->|]; [|done].
  destruct (lor_user (pde m v i) (pde_range _ _ _)) as (_ & -> & -> & _). done.
Qed.

Lemma pde_user_pte q : 0 <= q < 2 ^ 20 -> present m v (q / 1024) = true -> pte m' v q = pte m v q.
Proof.
  intros Hq Hp. destruct (pg_split _ Hq) as (Hq1 & Hq2 & _).
  unfold pte. rewrite (proj1 (pde_user_table _ Hq1)).
  eapply in_frame_load32; [apply pde_user_in_frame| |done].
  destruct (inv_table _ _ _ Hinv _ Hq1 Hp) as (_ & _ & Hk). intros E. apply Hk. right. done.
Qed.

Lemma pde_user_walk q : 0 <= q < 2 ^ 20 -> walk m' v q = walk m v q.
Proof.
  intros Hq. destruct (pg_split _ Hq) as (Hq1 & _). unfold walk.
  rewrite (proj2 (pde_user_table _ Hq1)). destruct (present m v (q / 1024)) eqn:Hp; [|done].
  by rewrite pde_user_pte.
Qed.

Lemma pde_user_inv : vmm_inv m' p v.
Proof.
  destruct (pmm_frame m m' p _ pde_user_in_frame) as [Hpi Hfr].
  { pose proof (inv_pd_bitmap _ _ _ Hinv). rewrite Z.mul_add_distr_r, <- (pd_frame _ _ _ Hinv). lia. }
  { apply Hinv. }
  split; try apply Hinv.
  - done.
  - intros f Hf. by apply (inv_free _ _ _ Hinv), Hfr.
  - intros j Hj. destruct (pde_user_table j Hj) as [-> ->]. rewrite Hfr.
    by apply (inv_table _ _ _ Hinv).
  - intros j k Hj Hk. destruct (pde_user_table j Hj) as [-> ->], (pde_user_table k Hk) as [-> ->].
    by apply (inv_inj _ _ _ Hinv).
  - intros q e' Hq. rewrite pde_user_walk, pde_user_pde by (done || apply pg_split, Hq).
    intros Hw Hu. pose proof (inv_user _ _ _ Hinv q e' Hq Hw Hu).
    destruct (Z.eqb_spec (q / 1024) i) as [_|]; [|done]. apply lor_user, pde_range.
  - intros j Hj. rewrite (proj2 (pde_user_table j Hj)), pde_user_pde by done. intros Hp.
    pose proof (inv_rw _ _ _ Hinv j Hj Hp). destruct (Z.eqb_spec j i) as [->|]; [by rewrite lor_user_rw|done].
Qed.
End pde_user.
End writes.

(** Installing a fresh frame [f], filled somehow, as the table of entry [i]. *)
Section new_table.
Context (m : memory) (p : pmm) (v : vmm) (Hinv : vmm_inv m p v).
Context (i f : Z) (Hi : 0 <= i < 1024) (Hnew : present m v i = false) (Hfree : frame_free m p f).
Let m1 := bitmap_set m p f.
Let p1 := set_used p (used_frames p +₆₄ 1).
Context (m2 : memory) (Hfill : in_frame f m1 m2).
Let e := Z.lor (Z.lor (u32 (f * PAGE_SIZE)) PTE_PRESENT) PTE_WRITABLE.
Let m3 := set_pde m2 v i e.

Lemma fresh_range : 0 < f < 2 ^ 20.
Proof.
  pose proof (inv_total _ _ _ Hinv). destruct (inv_free _ _ _ Hinv f Hfree) as [? _].
  destruct Hfree as [? _]. lia.
Qed.

Lemma new_entry : e = f * PAGE_SIZE + 3 /\ 0 <= e < 2 ^ 32 /\ e / PAGE_SIZE = f /\ Z.testbit e 0 = true /\ Z.testbit e 1 = true.
Proof.
  pose proof fresh_range. unfold e. rewrite u32_small by (unfold PAGE_SIZE; lia).
  apply new_pde. lia.
Qed.

Lemma new_in_frame : in_frame (page_directory v / PAGE_SIZE) m2 m3.
Proof. unfold m3, set_pde. rewrite (pd_frame _ _ _ Hinv) at 2. by apply in_frame_store32. Qed.

(** A word outside the bitmap, the fresh frame and the directory is unchanged. *)
Lemma new_other g k :
  0 <= k < 1024 -> g <> f -> ~ kernel_frame p v g ->
  load32 m3 (g * PAGE_SIZE + 4 * k) = load32 m (g * PAGE_SIZE + 4 * k).
Proof.
  intros Hk Hg Hkf. rewrite (in_frame_load32 _ _ _ _ _ new_in_frame);
    [|intros E; apply Hkf; by right|done].
  rewrite (in_frame_load32 _ _ _ _ _ Hfill); [|done|done].
  apply load32_ext. intros x Hx. apply (bitmap_set_frame m p f (proj1 Hfree)).
  intros Hb. apply Hkf. left. unfold PAGE_SIZE in *. lia.
Qed.

Lemma new_table_pde j : 0 <= j < 1024 -> pde m3 v j = if j =? i then e else pde m v j.
Proof.
  intros Hj. unfold m3, pde, set_pde. destruct (Z.eqb_spec j i) as [->|].
  { apply load32_store32_same, new_entry. }
  rewrite load32_store32_ne by lia. destruct (inv_free _ _ _ Hinv f Hfree) as [_ Hk].
  rewrite (pd_frame _ _ _ Hinv). rewrite (in_frame_load32 _ _ _ _ _ Hfill);
    [|intros E; apply Hk; by right|done].
  apply load32_ext. intros x Hx. apply (bitmap_set_frame m p f (proj1 Hfree)).
  rewrite <- (pd_frame _ _ _ Hinv) in Hx. pose proof (inv_pd_bitmap _ _ _ Hinv).
  unfold PAGE_SIZE in *. lia.
Qed.

Lemma new_table_present j : 0 <= j < 1024 -> present m3 v j = (j =? i) || present m v j.
Proof.
  intros Hj. unfold present. rewrite new_table_pde by done. destruct (Z.eqb_spec j i); [|done].
  apply new_entry.
Qed.

Lemma new_table_table j : 0 <= j < 1024 -> table m3 v j = if j =? i then f else table m v j.
Proof.
  intros Hj. unfold table. rewrite new_table_pde by done. destruct (Z.eqb_spec j i); [|done].
  apply new_entry.
Qed.

Lemma new_table_pte q :
  0 <= q < 2 ^ 20 ->
  (q / 1024 = i -> pte m3 v q = load32 m2 (f * PAGE_SIZE + 4 * (q mod 1024))) /\
  (present m v (q / 1024) = true -> pte m3 v q = pte m v q).
Proof.
  intros Hq. destruct (pg_split _ Hq) as (Hq1 & Hq2 & _).
  destruct (inv_free _ _ _ Hinv f Hfree) as [_ Hk]. unfold pte. rewrite new_table_table by done.
  split.
  - intros ->. rewrite Z.eqb_refl. eapply in_frame_load32; [apply new_in_frame| |done].
    intros E. apply Hk. right. done.
  - intros Hp. destruct (Z.eqb_spec (q / 1024) i) as [E|]; [by rewrite E, Hnew in Hp|].
    destruct (inv_table _ _ _ Hinv _ Hq1 Hp) as (_ & Hnf & Hnk). apply new_other; [done| |done].
    intros E. by rewrite E in Hnf.
Qed.

Lemma new_table_walk q :
  0 <= q < 2 ^ 20 ->
  walk m3 v q =
    if q / 1024 =? i then
      let x := load32 m2 (f * PAGE_SIZE + 4 * (q mod 1024)) in
      if Z.testbit x 0 then Some x else None
    else walk m v q.
Proof.
  intros Hq. destruct (pg_split _ Hq) as (Hq1 & _). destruct (new_table_pte q Hq) as [E1 E2].
  unfold walk. rewrite new_table_present by done. destruct (Z.eqb_spec (q / 1024) i) as [E|E].
  - cbn [orb andb]. by rewrite (E1 E).
  - cbn [orb]. destruct (present m v (q / 1024)) eqn:Hp; [|done]. cbn [andb]. by rewrite (E2 eq_refl).
Qed.

Lemma new_table_pmm : pmm_inv m3 p1 /\ (forall g, frame_free m3 p1 g <-> frame_free m p g /\ g <> f).
Proof.
  pose proof (becomes_set m p f (inv_pmm _ _ _ Hinv) Hfree) as (_ & Hb & _ & Hpi).
  destruct (inv_free _ _ _ Hinv f Hfree) as [_ Hk].
  destruct (pmm_frame m1 m2 p1 f Hfill) as [Hp2 Hf2]; [intros ?; apply Hk; by left|done|].
  destruct (pmm_frame m2 m3 p1 _ new_in_frame) as [Hp3 Hf3].
  { pose proof (inv_pd_bitmap _ _ _ Hinv) as Hd. rewrite Z.mul_add_distr_r, <- (pd_frame _ _ _ Hinv).
    change (bitmap_end p1) with (bitmap_end p). change (frame_bitmap p1) with (frame_bitmap p). lia. }
  { done. }
  split; [done|]. intros g. rewrite Hf3, Hf2. unfold frame_free, m1, p1. rewrite Hb.
  cbn [total_frames set_used]. destruct (Z.eqb_spec g f); cbn [orb]; intuition congruence.
Qed.

Lemma new_table_inv :
  (forall k, 0 <= k < 1024 -> let x := load32 m2 (f * PAGE_SIZE + 4 * k) in
     Z.testbit x 0 = true -> Z.testbit x 2 = false) ->
  vmm_inv m3 p1 v.
Proof.
  intros Hu. destruct new_table_pmm as [Hpi Hfr]. pose proof fresh_range.
  destruct (inv_free _ _ _ Hinv f Hfree) as [_ Hk].
  split; try apply Hinv.
  - done.
  - intros g [Hg _]%Hfr. by apply (inv_free _ _ _ Hinv).
  - intros j Hj. rewrite new_table_present, new_table_table, Hfr by done.
    destruct (Z.eqb_spec j i) as [->|]; cbn [orb].
    + intros _. split; [lia|]. split; [|done]. tauto.
    + intros Hp. destruct (inv_table _ _ _ Hinv j Hj Hp) as (? & ? & ?). split; [done|].
      split; [tauto|done].
  - intros j k Hj Hk'. rewrite !new_table_present, !new_table_table by done.
    assert (Hnt : forall l, 0 <= l < 1024 -> present m v l = true -> table m v l <> f).
    { intros l Hl Hp E. destruct (inv_table _ _ _ Hinv l Hl Hp) as (_ & Hnf & _).
      by rewrite E in Hnf. }
    destruct (Z.eqb_spec j i) as [->|], (Z.eqb_spec k i) as [->|]; cbn [orb]; intros Hp1 Hp2 E.
    + done.
    + exfalso. by apply (Hnt k).
    + exfalso. by apply (Hnt j).
    + by apply (inv_inj _ _ _ Hinv).
  - intros q e' Hq. destruct (pg_split _ Hq) as (Hq1 & Hq2 & _).
    rewrite new_table_walk, new_table_pde by done.
    destruct (Z.eqb_spec (q / 1024) i) as [E|E].
    + cbv zeta. specialize (Hu _ Hq2). cbv zeta in Hu.
      destruct (Z.testbit _ 0); [|done]. intros [= <-] Hu2. by rewrite Hu in Hu2.
    + by apply (inv_user _ _ _ Hinv).
  - intros j Hj. rewrite new_table_present, new_table_pde by done.
    destruct (Z.eqb_spec j i) as [->|]; cbn [orb]; [intros _; apply new_entry|by apply (inv_rw _ _ _ Hinv)].
Qed.
End new_table.

(** ** The routines *)

(** The invariant is about the directory, not about the statistics or the TLB. *)
Lemma vmm_inv_pd m p v v' : page_directory v' = page_directory v -> vmm_inv m p v -> vmm_inv m p v'.
Proof.
  destruct v as [pd1 a1 b1 c1 d1 e1 f1 t1], v' as [pd2 a2 b2 c2 d2 e2 f2 t2].
  cbn [page_directory]. intros -> [H1 H2 H3 H4 H5 H6 H7 H8 H9 H10]. split; done.
Qed.

Lemma walk_pd m v v' q : page_directory v' = page_directory v -> walk m v' q = walk m v q.
Proof. intros E. unfold walk, present, pte, table, pde. by rewrite E. Qed.

(** Under the invariant a page's own entry decides whether ring 3 may touch it. *)
Lemma user_page_walk m p v q :
  vmm_inv m p v -> 0 <= q < 2 ^ 20 ->
  user_page m v q = match walk m v q with Some e => Z.testbit e 2 | None => false end.
Proof.
  intros Hinv Hq. unfold user_page. destruct (walk m v q) as [e|] eqn:Hw; [|done].
  destruct (Z.testbit e 2) eqn:Hu; [|done]. by rewrite (inv_user _ _ _ Hinv q e).
Qed.

(** ... and what the hardware makes of it. *)
Lemma translation_walk m p v q :
  vmm_inv m p v -> 0 <= q < 2 ^ 20 ->
  translation m v q = e ← walk m v q; Some (TlbEntry (e / PAGE_SIZE) (Z.testbit e 1) (Z.testbit e 2)).
Proof.
  intros Hinv Hq. unfold translation. destruct (walk m v q) as [e|] eqn:Hw; [|done]. cbn [mbind option_bind].
  assert (Hp : present m v (q / 1024) = true) by (unfold walk in Hw; by destruct (present m v (q / 1024))).
  rewrite (inv_rw _ _ _ Hinv) by (done || dlia). rewrite andb_true_r. do 2 f_equal.
  destruct (Z.testbit e 2) eqn:Hu; [|done]. by rewrite (inv_user _ _ _ Hinv q e).
Qed.

Lemma page_range va : 0 <= va < 2 ^ 32 -> 0 <= va / PAGE_SIZE < 2 ^ 20.
Proof. unfold PAGE_SIZE. intros. dlia. Qed.

(** A table filled with zeros maps nothing. *)
Lemma memset_frame m f : in_frame f m (memset m (f * PAGE_SIZE) 0 (Z.to_nat PAGE_SIZE)).
Proof.
  eapply same_outside_mono; [..|apply memset_same_outside]; unfold PAGE_SIZE; lia.
Qed.

Lemma memset_frame_zero m f k :
  0 <= k < 1024 -> load32 (memset m (f * PAGE_SIZE) 0 (Z.to_nat PAGE_SIZE)) (f * PAGE_SIZE + 4 * k) = 0.
Proof.
  intros Hk. assert (E : forall x, f * PAGE_SIZE + 4 * k <= x < f * PAGE_SIZE + 4 * k + 4 ->
    load8 (memset m (f * PAGE_SIZE) 0 (Z.to_nat PAGE_SIZE)) x = 0).
  { intros x Hx. rewrite memset_load. unfold PAGE_SIZE in *. zcases; try lia; done. }
  unfold load32. cbn [load_le]. rewrite !E by lia. done.
Qed.

(** The first part of [vmm_map]: the directory entry is made present. *)
Lemma ensure_table m p v i :
  vmm_inv m p v -> 0 <= i < 1024 -> present m v i = false ->
  (pmm_alloc_frame m p = (0, m, p) /\ forall g, frame_free m p g -> searched p <= g) \/
  exists f m1 p1, pmm_alloc_frame m p = (f * PAGE_SIZE, m1, p1) /\ f * PAGE_SIZE <> 0 /\
    let m3 := set_pde (memset m1 (u32 (f * PAGE_SIZE)) 0 (Z.to_nat PAGE_SIZE)) v i
      (Z.lor (Z.lor (u32 (f * PAGE_SIZE)) PTE_PRESENT) PTE_WRITABLE) in
    vmm_inv m3 p1 v /\ present m3 v i = true /\ (forall q, 0 <= q < 2 ^ 20 -> walk m3 v q = walk m v q).
Proof.
  intros Hinv Hi Hp. destruct (alloc_frame_cases m p (inv_pmm _ _ _ Hinv)) as
    [(f & Hf & _ & _ & E)|[Hn E]]; [right|by left].
  pose proof (fresh_range _ _ _ Hinv _ Hf). exists f, (bitmap_set m p f), (set_used p (used_frames p +₆₄ 1)).
  split; [exact E|]. split; [unfold PAGE_SIZE; lia|]. cbv zeta.
  assert (Eu : u32 (f * PAGE_SIZE) = f * PAGE_SIZE) by (apply u32_small; unfold PAGE_SIZE; lia).
  pose proof (memset_frame (bitmap_set m p f) f) as Hfill. rewrite <- Eu in Hfill.
  assert (Hz : forall k, 0 <= k < 1024 ->
    load32 (memset (bitmap_set m p f) (u32 (f * PAGE_SIZE)) 0 (Z.to_nat PAGE_SIZE))
      (f * PAGE_SIZE + 4 * k) = 0).
  { intros k Hk. rewrite Eu. by apply memset_frame_zero. }
  split; [|split].
  - apply (new_table_inv m p v Hinv i f Hi Hp Hf _ Hfill). intros k Hk. cbv zeta.
    rewrite Hz by done. done.
  - rewrite (new_table_present m p v Hinv i f Hi Hf _ Hfill i Hi). by rewrite Z.eqb_refl.
  - intros q Hq. rewrite (new_table_walk m p v Hinv i f Hi Hp Hf _ Hfill q Hq).
    destruct (Z.eqb_spec (q / 1024) i) as [E1|]; [|done]. cbv zeta.
    rewrite Hz by (apply pg_split, Hq). cbn [Z.testbit]. unfold walk. by rewrite E1, Hp.
Qed.

(** The entry [vmm_map] writes. *)
Definition map_entry (pa flags : Z) : Z := pa / PAGE_SIZE * PAGE_SIZE + flags mod PAGE_SIZE.

Lemma map_entry_spec pa flags :
  0 <= pa < 2 ^ 32 ->
  Z.lor (Z.land pa PTE_ADDR_MASK) (Z.land flags 0xFFF) = map_entry pa flags /\
  0 <= map_entry pa flags < 2 ^ 32 /\ map_entry pa flags / PAGE_SIZE = pa / PAGE_SIZE /\
  (forall b, 0 <= b < 12 -> Z.testbit (map_entry pa flags) b = Z.testbit flags b).
Proof.
  intros Hpa. assert (E : Z.lor (Z.land pa PTE_ADDR_MASK) (Z.land flags 0xFFF) = map_entry pa flags).
  { rewrite land_page, land_offset by done. apply lor_page. unfold PAGE_SIZE. dlia. }
  split; [done|]. unfold map_entry, PAGE_SIZE in *. split; [dlia|]. split; [dlia|].
  intros b Hb. rewrite <- E, Z.lor_spec, !Z.land_spec.
  replace (Z.testbit PTE_ADDR_MASK b) with false.
  2:{ change PTE_ADDR_MASK with (Z.shiftl (Z.ones 20) 12). rewrite Z.shiftl_spec, Z.testbit_neg_r; [done|lia|lia]. }
  change 0xFFF with (Z.ones 12). rewrite Z.ones_spec_low by lia. by rewrite andb_false_r, andb_true_r.
Qed.

(** The second part of [vmm_map], once the directory entry is present. *)
Lemma map_present m p v va pa flags :
  vmm_inv m p v -> 0 <= va < 2 ^ 32 -> 0 <= pa < 2 ^ 32 ->
  let i := va / PAGE_SIZE / 1024 in
  present m v i = true ->
  let m3 := if Z.testbit flags 2 then set_pde m v i (Z.lor (pde m v i) PTE_USER) else m in
  let m4 := store32 m3 (table m3 v i * PAGE_SIZE + 4 * (va / PAGE_SIZE mod 1024)) (map_entry pa flags) in
  vmm_inv m4 p v /\ (forall q, 0 <= q < 2 ^ 20 ->
    walk m4 v q = if q =? va / PAGE_SIZE
                  then (if Z.testbit flags 0 then Some (map_entry pa flags) else None)
                  else walk m v q).
Proof.
  intros Hinv Hva Hpa i Hp m3 m4. pose proof (page_range va Hva) as Hpg.
  destruct (pg_split _ Hpg) as (Hi & _). fold i in Hi.
  destruct (map_entry_spec pa flags Hpa) as (_ & He & _ & Hbits).
  assert (H3 : vmm_inv m3 p v /\ present m3 v i = true /\
    (forall q, 0 <= q < 2 ^ 20 -> walk m3 v q = walk m v q) /\
    (Z.testbit flags 2 = true -> Z.testbit (pde m3 v i) 2 = true)).
  { subst m3. destruct (Z.testbit flags 2); [|done].
    split; [by apply pde_user_inv|]. split.
    - by rewrite (proj2 (pde_user_table m v i i Hi)).
    - split; [intros; by apply (pde_user_walk m p v)|]. intros _.
      rewrite pde_user_pde, Z.eqb_refl by done. apply lor_user, pde_range. }
  destruct H3 as (Hi3 & Hp3 & Hw3 & Hu3). clearbody m3. subst m4. split.
  - apply pte_write_inv; [done..|]. rewrite !Hbits by lia. auto.
  - intros q Hq. rewrite (pte_write_walk m3 p v Hi3 (va / PAGE_SIZE)) by done.
    rewrite Hbits, Hw3 by (done || lia). done.
Qed.

#[local] Opaque memset load32 store32.

(** What [vmm_map] does: it fails, changing nothing, when a table is needed and
    the allocator finds no frame; otherwise exactly the page's entry changes. *)
Lemma map_cases m p v va pa flags :
  vmm_inv m p v -> 0 <= va < 2 ^ 32 -> 0 <= pa < 2 ^ 32 ->
  (vmm_map m p v va pa flags = (-1, m, p, v) /\ present m v (va / PAGE_SIZE / 1024) = false /\
   forall g, frame_free m p g -> searched p <= g) \/
  exists m' p' v', vmm_map m p v va pa flags = (0, m', p', v') /\ vmm_inv m' p' v' /\
    page_directory v' = page_directory v /\ tlb v' = delete (va / PAGE_SIZE) (tlb v) /\
    mapped_pages v' = mapped_pages v +₃₂ 1 /\
    (forall q, 0 <= q < 2 ^ 20 ->
      walk m' v' q = if q =? va / PAGE_SIZE
                     then (if Z.testbit flags 0 then Some (map_entry pa flags) else None)
                     else walk m v q).
Proof.
  intros Hinv Hva Hpa. pose proof (page_range va Hva) as Hpg. destruct (pg_split _ Hpg) as (Hi & _).
  destruct (map_entry_spec pa flags Hpa) as (Ee & _).
  unfold vmm_map. rewrite flag_user, Ee, pd_index, pt_index, flag_present by lia.
  set (i := va / PAGE_SIZE / 1024) in *. fold (present m v i).
  destruct (present m v i) eqn:Hp; cbn [negb].
  - right. eexists _, _, _. split; [reflexivity|].
    destruct (map_present m p v va pa flags Hinv Hva Hpa Hp) as [Hinv' Hw].
    fold i in Hinv', Hw. rewrite land_page by apply pde_range.
    split; [by eapply vmm_inv_pd; [|exact Hinv']|]. split; [done|]. split; [done|]. split; [done|].
    intros q Hq. rewrite <- (Hw q Hq). by apply walk_pd.
  - destruct (ensure_table m p v i Hinv Hi Hp) as [[E Hn]|(f & m1 & p1 & E & Hf & Hinv3 & Hp3 & Hw3)].
    { left. rewrite E. done. }
    right. rewrite E. set (m3 := set_pde _ v i _) in *. clearbody m3.
    destruct (Z.eqb_spec (f * PAGE_SIZE) 0); [contradiction|]. cbn [negb]. set (v2 := set_tables v _).
    change (set_pde m3 v2) with (set_pde m3 v). change (pde m3 v2) with (pde m3 v).
    set (m4 := if Z.testbit flags 2 then _ else _). change (pde m4 v2) with (pde m4 v).
    eexists _, _, _. split; [reflexivity|].
    destruct (map_present m3 p1 v va pa flags Hinv3 Hva Hpa Hp3) as [Hinv' Hw].
    fold i in Hinv', Hw. rewrite land_page by apply pde_range.
    split; [by eapply vmm_inv_pd; [|exact Hinv']|]. split; [done|]. split; [done|]. split; [done|].
    intros q Hq. rewrite <- (Hw3 q Hq), <- (Hw q Hq). by apply walk_pd.
Qed.

Lemma unmap_cases m p v va :
  vmm_inv m p v -> 0 <= va < 2 ^ 32 ->
  match walk m v (va / PAGE_SIZE) with
  | None => vmm_unmap m v va = (-1, m, v)
  | Some _ =>
      exists m' v', vmm_unmap m v va = (0, m', v') /\ vmm_inv m' p v' /\
        page_directory v' = page_directory v /\ tlb v' = delete (va / PAGE_SIZE) (tlb v) /\
        mapped_pages v' = (if mapped_pages v >? 0 then mapped_pages v -₃₂ 1 else mapped_pages v) /\
        (forall q, 0 <= q < 2 ^ 20 ->
          walk m' v' q = if q =? va / PAGE_SIZE then None else walk m v q)
  end.
Proof.
  intros Hinv Hva. pose proof (page_range va Hva) as Hpg.
  destruct (table_addr m v va Hva) as [E1 E2]. unfold vmm_unmap. rewrite E2, E1, flag_present.
  unfold walk at 1. destruct (present _ _ _) eqn:Hp; [|done]. cbn [negb andb].
  destruct (Z.testbit _ 0); [|done]. cbn [negb].
  rewrite pd_index, pt_index, land_page by (lia || apply pde_range).
  fold (table m v (va / PAGE_SIZE / 1024)).
  eexists _, _. split; [reflexivity|]. set (v1 := if mapped_pages v >? 0 then _ else _).
  assert (Epd : page_directory v1 = page_directory v /\ tlb v1 = tlb v) by (subst v1; by destruct (_ >? _)).
  destruct Epd as [Epd Et].
  split; [|split; [done|split; [cbn [vmm_flush_tlb set_tlb tlb]; by rewrite Et|split]]].
  - apply vmm_inv_pd with v; [done|]. by apply pte_write_inv.
  - subst v1. by destruct (_ >? _).
  - intros q Hq. rewrite (walk_pd _ v) by done.
    by rewrite (pte_write_walk m p v Hinv (va / PAGE_SIZE)).
Qed.

(** [vmm_set_user]: on a mapped page, its user bit is set; otherwise it fails,
    and no page becomes accessible. *)
Lemma set_user_cases m p v va :
  vmm_inv m p v -> 0 <= va < 2 ^ 32 ->
  exists m' v', vmm_set_user m v va =
      (match walk m v (va / PAGE_SIZE) with Some _ => 0 | None => -1 end, m', v') /\
    vmm_inv m' p v' /\ page_directory v' = page_directory v /\
    tlb v' = match walk m v (va / PAGE_SIZE) with Some _ => delete (va / PAGE_SIZE) (tlb v) | None => tlb v end /\
    (forall q, 0 <= q < 2 ^ 20 ->
      walk m' v' q = if q =? va / PAGE_SIZE
                     then (e ← walk m v q; Some (Z.lor e PTE_USER)) else walk m v q).
Proof.
  intros Hinv Hva. pose proof (page_range va Hva) as Hpg. destruct (pg_split _ Hpg) as (Hi & _).
  destruct (table_addr m v va Hva) as [_ E2]. unfold vmm_set_user. rewrite E2.
  rewrite pd_index, pt_index by lia. set (i := va / PAGE_SIZE / 1024) in *.
  assert (Hnone : forall m0, (forall q, 0 <= q < 2 ^ 20 -> walk m0 v q = walk m v q) ->
    walk m v (va / PAGE_SIZE) = None -> forall q, 0 <= q < 2 ^ 20 ->
    walk m0 v q = if q =? va / PAGE_SIZE then (e ← walk m v q; Some (Z.lor e PTE_USER)) else walk m v q).
  { intros m0 H0 Hw q Hq. rewrite H0 by done. destruct (Z.eqb_spec q (va / PAGE_SIZE)) as [->|]; [|done].
    by rewrite Hw. }
  destruct (present m v i) eqn:Hp; cbn [negb].
  2:{ assert (Hw : walk m v (va / PAGE_SIZE) = None) by (unfold walk; fold i; by rewrite Hp).
      exists m, v. rewrite Hw. split; [done|]. split; [done|]. split; [done|]. split; [done|].
      by apply Hnone. }
  pose proof (pde_user_inv m p v Hinv i Hi) as Hinv1.
  pose proof (pde_user_walk m p v Hinv i Hi) as Hw1.
  destruct (pde_user_table m v i i Hi) as [_ Hp1]. rewrite Hp in Hp1.
  pose proof (pde_user_pde m v i i Hi) as Hpd. rewrite Z.eqb_refl in Hpd.
  set (m1 := set_pde m v i _) in *. clearbody m1.
  assert (Hu1 : Z.testbit (pde m1 v i) 2 = true) by (rewrite Hpd; apply lor_user, pde_range).
  rewrite land_page by apply pde_range. fold (table m1 v i).
  change (load32 m1 (table m1 v i * PAGE_SIZE + 4 * (va / PAGE_SIZE mod 1024)))
    with (pte m1 v (va / PAGE_SIZE)).
  rewrite flag_present. pose proof (Hw1 _ Hpg) as Hw. unfold walk at 1 in Hw. fold i in Hw.
  rewrite Hp1 in Hw. cbn [andb] in Hw.
  destruct (lor_user (pte m1 v (va / PAGE_SIZE)) (pte_range _ _ _)) as (Hr & _ & Hb0 & _).
  destruct (Z.testbit (pte m1 v (va / PAGE_SIZE)) 0) eqn:Hb; cbn [negb]; rewrite <- Hw.
  - eexists _, _. split; [reflexivity|]. split; [|split; [done|split; [done|]]].
    + apply vmm_inv_pd with v; [done|]. apply (pte_write_inv m1 p v Hinv1 (va / PAGE_SIZE)); done.
    + intros q Hq. rewrite (walk_pd _ v) by done.
      rewrite (pte_write_walk m1 p v Hinv1 (va / PAGE_SIZE)) by done. rewrite Hb0, Hw1 by done.
      destruct (Z.eqb_spec q (va / PAGE_SIZE)) as [->|]; [|done]. by rewrite <- Hw.
  - exists m1, v. split; [done|]. split; [done|]. split; [done|]. split; [done|]. by apply Hnone.
Qed.

(** ** The TLB *)

(** Pages whose entry does not change keep their translation. *)
Lemma coherent_step m p v m' p' v' (gone : Z -> Prop) :
  tlb_coherent m v -> vmm_inv m p v -> vmm_inv m' p' v' ->
  (forall q t, tlb v' !! q = Some t -> tlb v !! q = Some t /\ ~ gone q) ->
  (forall q, 0 <= q < 2 ^ 20 -> ~ gone q -> walk m' v' q = walk m v q) -> tlb_coherent m' v'.
Proof.
  intros Hc Hi Hi' Ht Hw q t Hq Hl. destruct (Ht q t Hl) as [Hl' Hg].
  rewrite (translation_walk m' p'), Hw, <- (translation_walk m p) by done. by apply Hc.
Qed.

Lemma coherent_delete m p v m' p' v' pg :
  tlb_coherent m v -> vmm_inv m p v -> vmm_inv m' p' v' -> tlb v' = delete pg (tlb v) ->
  (forall q, 0 <= q < 2 ^ 20 -> q <> pg -> walk m' v' q = walk m v q) -> tlb_coherent m' v'.
Proof.
  intros Hc Hi Hi' Ht Hw. apply (coherent_step m p v m' p' v' (eq pg)); [done..| |].
  - intros q t. rewrite Ht. intros [Hne Hl]%lookup_delete_Some. done.
  - intros q Hq Hne. apply Hw; [done|congruence].
Qed.

(** One step of the paging machine: a kernel call, or the hardware caching the
    translation of a mapped page. *)
Inductive vmm_step : memory * pmm * vmm -> memory * pmm * vmm -> Prop :=
  | step_map m p v va pa flags rc m' p' v' :
      0 <= va < 2 ^ 32 -> 0 <= pa < 2 ^ 32 ->
      vmm_map m p v va pa flags = (rc, m', p', v') -> vmm_step (m, p, v) (m', p', v')
  | step_unmap m p v va rc m' v' :
      0 <= va < 2 ^ 32 -> vmm_unmap m v va = (rc, m', v') -> vmm_step (m, p, v) (m', p, v')
  | step_set_user m p v va rc m' v' :
      0 <= va < 2 ^ 32 -> vmm_set_user m v va = (rc, m', v') -> vmm_step (m, p, v) (m', p, v')
  | step_flush m p v va : vmm_step (m, p, v) (m, p, vmm_flush_tlb v va)
  | step_flush_all m p v : vmm_step (m, p, v) (m, p, vmm_flush_tlb_all v)
  | step_fill m p v pg t :
      0 <= pg < 2 ^ 20 -> translation m v pg = Some t ->
      vmm_step (m, p, v) (m, p, set_tlb v (<[pg := t]> (tlb v))).

Definition paging_ok (s : memory * pmm * vmm) : Prop :=
  let '(m, p, v) := s in vmm_inv m p v /\ tlb_coherent m v.

Lemma step_paging_ok s s' : vmm_step s s' -> paging_ok s -> paging_ok s'.
Proof.
  intros Hs Hok. destruct Hs as [m p v va pa flags rc m' p' v' Hva Hpa E|m p v va rc m' v' Hva E
    |m p v va rc m' v' Hva E|m p v va|m p v|m p v pg t Hpg Hw]; destruct Hok as [Hinv Hc].
  - destruct (map_cases m p v va pa flags Hinv Hva Hpa) as [(E' & _)|(m1 & p1 & v1 & E' & Hi & _ & Ht & _ & Hw)];
      rewrite E in E'; injection E' as -> -> -> ->; [done|]. split; [done|].
    eapply coherent_delete; [done..|]. intros q Hq Hne. rewrite Hw by done.
    by destruct (Z.eqb_spec q (va / PAGE_SIZE)).
  - pose proof (unmap_cases m p v va Hinv Hva) as Hu. destruct (walk m v (va / PAGE_SIZE)).
    + destruct Hu as (m1 & v1 & E' & Hi & _ & Ht & _ & Hw).
      rewrite E in E'; injection E' as -> -> ->. split; [done|].
      eapply coherent_delete; [done..|]. intros q Hq Hne. rewrite Hw by done.
      by destruct (Z.eqb_spec q (va / PAGE_SIZE)).
    + rewrite E in Hu. injection Hu as -> -> ->. done.
  - destruct (set_user_cases m p v va Hinv Hva) as (m1 & v1 & E' & Hi & _ & Ht & Hw).
    rewrite E in E'. injection E' as -> -> ->. split; [done|].
    destruct (walk m v (va / PAGE_SIZE)) eqn:Hva'.
    + eapply coherent_delete; [done..|]. intros q Hq Hne. rewrite Hw by done.
      by destruct (Z.eqb_spec q (va / PAGE_SIZE)).
    + apply (coherent_step m p v _ p v1 (fun _ => False)); [done..|by rewrite Ht; auto|].
      intros q Hq _. rewrite Hw by done. destruct (Z.eqb_spec q (va / PAGE_SIZE)) as [->|]; [|done]. by rewrite Hva'.
  - assert (Hi' : vmm_inv m p (vmm_flush_tlb v va)) by (by apply vmm_inv_pd with v). split; [done|].
    by eapply coherent_delete.
  - split; [by apply vmm_inv_pd with v|]. intros q f _ Hl. cbn in Hl. by rewrite lookup_empty in Hl.
  - split; [by apply vmm_inv_pd with v|]. intros q t' Hq Hl. cbn [tlb set_tlb] in Hl.
    change (translation m v q = Some t'). apply lookup_insert_Some in Hl as [[<- <-]|[_ Hl]]; [done|by apply Hc].
Qed.

(** ** Initialisation *)

(** The entry that maps page [q] to itself. *)
Definition identity_entry (q : Z) : Z := q * PAGE_SIZE + 3.

Lemma identity_entry_spec i j :
  0 <= i < 1024 -> 0 <= j < 1024 ->
  Z.lor (Z.lor (Z.lor (u32 (Z.shiftl i 22)) (Z.shiftl j 12)) PTE_PRESENT) PTE_WRITABLE =
  identity_entry (1024 * i + j).
Proof.
  intros Hi Hj. rewrite !Z.shiftl_mul_pow2 by lia. rewrite u32_small by lia.
  rewrite (lor_low 22 i) by lia. rewrite <- Z.lor_assoc. change (Z.lor PTE_PRESENT PTE_WRITABLE) with 3.
  replace (i * 2 ^ 22 + j * 2 ^ 12) with ((1024 * i + j) * PAGE_SIZE) by (unfold PAGE_SIZE; lia).
  apply lor_page. unfold PAGE_SIZE. lia.
Qed.

Lemma identity_entry_bits q : Z.testbit (identity_entry q) 0 = true /\ Z.testbit (identity_entry q) 2 = false.
Proof.
  unfold identity_entry. change PAGE_SIZE with (2 ^ 12). rewrite <- (lor_low 12 q 3) by lia.
  rewrite !Z.lor_spec. rewrite !Z.mul_pow2_bits_low by lia. done.
Qed.

Lemma fill_table_ok n m f i j :
  0 <= i < 1024 -> 0 <= j -> j + Z.of_nat n <= 1024 ->
  in_frame f m (fill_table n m (f * PAGE_SIZE) i j) /\
  (forall k, 0 <= k < 1024 -> load32 (fill_table n m (f * PAGE_SIZE) i j) (f * PAGE_SIZE + 4 * k) =
     if (j <=? k) && (k <? j + Z.of_nat n) then identity_entry (1024 * i + k)
     else load32 m (f * PAGE_SIZE + 4 * k)).
Proof.
  intros Hi. revert m j. induction n as [|n IH]; intros m j Hj Hn; cbn [fill_table].
  { split; [apply same_outside_refl|]. intros k Hk. zcases; try lia; done. }
  rewrite identity_entry_spec by lia.
  destruct (IH (store32 m (f * PAGE_SIZE + 4 * j) (identity_entry (1024 * i + j))) (j + 1)) as [H1 H2];
    [lia..|]. split.
  - eapply in_frame_trans; [|exact H1]. apply in_frame_store32. lia.
  - intros k Hk. rewrite H2 by done. destruct (Z.eq_dec k j) as [->|].
    + rewrite load32_store32_same by (unfold identity_entry, PAGE_SIZE; lia). zcases; try lia; done.
    + rewrite load32_store32_ne by lia. zcases; try lia; done.
Qed.

(** The loop maps its pages to themselves, or stops when the allocator is out of
    frames. *)
Lemma identity_map_ok n m p v i :
  vmm_inv m p v -> 0 <= i -> i + Z.of_nat n <= 1024 -> page_tables v = i ->
  (forall j, i <= j < 1024 -> present m v j = false) ->
  let '(ok, m', p', v') := identity_map n m p v i in
  vmm_inv m' p' v /\ page_directory v' = page_directory v /\ cr0 v' = cr0 v /\
  if ok then
    page_tables v' = i + Z.of_nat n /\
    (forall j, 0 <= j < 1024 -> present m' v j = (i <=? j) && (j <? i + Z.of_nat n) || present m v j) /\
    forall q, 0 <= q < 2 ^ 20 ->
      walk m' v q = if (i <=? q / 1024) && (q / 1024 <? i + Z.of_nat n)
                    then Some (identity_entry q) else walk m v q
  else forall g, frame_free m' p' g -> searched p' <= g.
Proof.
  revert m p v i. induction n as [|n IH]; intros m p v i Hinv Hi Hn Hpt Hnp; cbn [identity_map].
  { split; [done|]. split; [done|]. split; [done|]. split; [lia|].
    split; intros q Hq; zcases; try lia; done. }
  destruct (alloc_frame_cases m p (inv_pmm _ _ _ Hinv)) as [(f & Hf & _ & _ & E)|[Hx E]];
    rewrite E; [|done].
  pose proof (fresh_range _ _ _ Hinv _ Hf) as Hfr. change PMM_FRAME_SIZE with PAGE_SIZE.
  destruct (Z.eqb_spec (f * PAGE_SIZE) 0) as [E0|_]; [unfold PAGE_SIZE in E0; lia|].
  assert (Eu : u32 (f * PAGE_SIZE) = f * PAGE_SIZE) by (apply u32_small; unfold PAGE_SIZE; lia).
  destruct (fill_table_ok (Z.to_nat PAGES_PER_TABLE) (bitmap_set m p f) f i 0) as [Hfill Hent];
    [lia|lia|done|]. rewrite Eu.
  set (m2 := fill_table _ _ _ _ _) in *. clearbody m2.
  assert (Hid : forall k, 0 <= k < 1024 -> load32 m2 (f * PAGE_SIZE + 4 * k) = identity_entry (1024 * i + k)).
  { intros k Hk. rewrite Hent by done. change (Z.of_nat (Z.to_nat PAGES_PER_TABLE)) with 1024.
    zcases; try lia; done. }
  assert (Hi' : 0 <= i < 1024) by lia. assert (Hnpi : present m v i = false) by (apply Hnp; lia).
  pose proof (new_table_inv m p v Hinv i f Hi' Hnpi Hf m2 Hfill) as Hinv3.
  pose proof (new_table_walk m p v Hinv i f Hi' Hnpi Hf m2 Hfill) as Hw3.
  pose proof (new_table_present m p v Hinv i f Hi' Hf m2 Hfill) as Hp3.
  cbv zeta in Hinv3, Hw3, Hp3. rewrite Eu in Hinv3, Hw3, Hp3.
  set (m3 := set_pde m2 v i _) in *. clearbody m3. set (p3 := set_used p _) in *. clearbody p3.
  specialize (IH m3 p3 (set_tables v (page_tables v +₃₂ 1)) (i + 1)).
  destruct (identity_map n m3 p3 _ (i + 1)) as [[[ok m'] p'] v'].
  destruct IH as (I1 & I2 & I3 & I4).
  - apply vmm_inv_pd with v; [done|]. apply Hinv3. intros k Hk. rewrite Hid by done. intros _.
    apply identity_entry_bits.
  - lia.
  - lia.
  - cbn [page_tables set_tables]. unwrap. lia.
  - intros j Hj. change (present m3 v j = false). rewrite Hp3 by lia.
    destruct (Z.eqb_spec j i); [lia|]. apply Hnp. lia.
  - split; [by eapply vmm_inv_pd; [|exact I1]|]. split; [done|]. split; [done|]. destruct ok; [|done].
    destruct I4 as (I4 & I6 & I5). split; [lia|]. split.
    { intros j Hj. change (present m' v j) with (present m' (set_tables v (page_tables v +₃₂ 1)) j).
      rewrite I6 by done. change (present m3 (set_tables v (page_tables v +₃₂ 1)) j) with (present m3 v j).
      rewrite Hp3 by done. clear. zcases; try lia; done. }
    intros q Hq. destruct (pg_split _ Hq) as (Hq1 & Hq2 & Hq3).
    rewrite (walk_pd m' (set_tables v (page_tables v +₃₂ 1)) v) by done.
    rewrite I5, (walk_pd m3 v), Hw3 by done. cbv zeta.
    destruct (Z.eqb_spec (q / 1024) i) as [Eq|Eq].
    + rewrite Hid by done. rewrite (proj1 (identity_entry_bits _)). rewrite <- Eq.
      replace (1024 * (q / 1024) + q mod 1024) with q by lia. zcases; try lia; done.
    + zcases; try lia; done.
Qed.

(** Without tables: what [vmm_init] starts from, and its first [memset]. *)
Record vmm_ready (m : memory) (p : pmm) (v : vmm) : Prop := {
  ready_pmm : pmm_inv m p;
  ready_total : total_frames p <= 2 ^ 20;
  ready_aligned : page_directory v mod PAGE_SIZE = 0;
  ready_range : 0 <= page_directory v;
  ready_free : forall f, frame_free m p f -> 0 < f /\ ~ kernel_frame p v f;
  ready_bitmap : page_directory v + PAGE_SIZE <= frame_bitmap p \/ bitmap_end p <= page_directory v;
}.

Lemma no_tables_inv m p v :
  vmm_ready m p v -> (forall i, 0 <= i < 1024 -> pde m v i = 0) -> vmm_inv m p v.
Proof.
  intros [H1 H2 H3 H4 H5 H6] Hz.
  assert (Hnp : forall i, 0 <= i < 1024 -> present m v i = false).
  { intros i Hi. unfold present. by rewrite Hz. }
  split; try done.
  - intros i Hi Hp. by rewrite Hnp in Hp.
  - intros i j Hi _ Hp. by rewrite Hnp in Hp.
  - intros q e Hq Hw. unfold walk in Hw. destruct (pg_split _ Hq) as (Hq1 & _). by rewrite Hnp in Hw.
  - intros i Hi Hp. by rewrite Hnp in Hp.
Qed.

Lemma clear_directory m p v :
  vmm_ready m p v ->
  let m' := memset m (page_directory v) 0 (Z.to_nat (4 * TABLES_PER_DIR)) in
  vmm_inv m' p v /\ (forall i, 0 <= i < 1024 -> pde m' v i = 0).
Proof.
  intros [H1 H2 H3 H4 H5 H6] m'.
  assert (Epd : page_directory v = page_directory v / PAGE_SIZE * PAGE_SIZE) by (unfold PAGE_SIZE in *; dlia).
  assert (Hz : forall i, 0 <= i < 1024 -> pde m' v i = 0).
  { intros i Hi. unfold pde, m'. rewrite Epd. by apply memset_frame_zero. }
  split; [|done]. apply no_tables_inv; [|done].
  assert (Ho : in_frame (page_directory v / PAGE_SIZE) m m').
  { unfold m'. rewrite Epd at 2. apply memset_frame. }
  destruct (pmm_frame m m' p _ Ho) as [Hpi Hfr]; [rewrite Z.mul_add_distr_r, <- Epd; lia|done|].
  split; try done. intros f Hf. by apply H5, Hfr.
Qed.

Lemma num_pde_spec total :
  0 <= total -> 1 <= num_pde total <= 1023 /\
  (total <= 0xFFC00000 -> num_pde total = Z.max 1 ((total + 0x3FFFFF) / 2 ^ 22)) /\
  (0xFFC00000 < total -> num_pde total = 1).
Proof.
  intros Ht. unfold num_pde, TABLES_PER_DIR. rewrite !Z.gtb_ltb.
  set (mem := if 0xFFFFFFFF <? total then _ else _).
  assert (Hm : mem = Z.min total 0xFFFFFFFF).
  { subst mem. destruct (Z.ltb_spec 0xFFFFFFFF total); [lia|]. rewrite u32_small; lia. }
  rewrite Hm, Z.shiftr_div_pow2 by lia. clear mem Hm.
  destruct (Z.leb_spec total 0xFFC00000).
  - rewrite Z.min_l, u32_small by lia. set (n := (total + 0x3FFFFF) / 2 ^ 22).
    assert (0 <= n <= 1023) by (subst n; dlia). destruct (Z.ltb_spec 1024 n); [lia|].
    destruct (Z.eqb_spec n 0); lia.
  - assert (E : (u32 (Z.min total 0xFFFFFFFF + 0x3FFFFF)) / 2 ^ 22 = 0).
    { unfold u32, wrap. apply Z.div_small.
      replace (Z.min total 0xFFFFFFFF + 0x3FFFFF)
        with ((Z.min total 0xFFFFFFFF - 0xFFC00001) + 1 * 2 ^ 32) by lia.
      rewrite Z.mod_add, Z.mod_small; lia. }
    rewrite E. simpl. lia.
Qed.

(** [vmm_init]: on success exactly the pages below [num_pde] * 4 MB are mapped,
    each to itself, and the processor pages with this directory. *)
Lemma vmm_init_cases w p v :
  vmm_ready (ram w) p v -> 0 <= total_memory p ->
  let n := num_pde (total_memory p) in
  let '(rc, w', p', v') := vmm_init w p v in
  vmm_inv (ram w') p' v' /\ page_directory v' = page_directory v /\
  ((rc = 0 /\ cr3 v' = page_directory v /\ cr0 v' = Z.lor (cr0 v) 0x80000000 /\ isr14 v' = true /\
    tlb v' = ∅ /\ vmm_get_stats v' = (1024 * n, n, n * 2 ^ 22) /\
    (forall i, 0 <= i < 1024 -> present (ram w') v' i = (i <? n)) /\
    forall q, 0 <= q < 2 ^ 20 ->
      walk (ram w') v' q = if q <? 1024 * n then Some (identity_entry q) else None) \/
   (rc = -1 /\ forall g, frame_free (ram w') p' g -> searched p' <= g)).
Proof.
  intros Hr Ht n. unfold vmm_init. cbn [st_total_memory pmm_get_stats]. fold n.
  destruct (num_pde_spec (total_memory p) Ht) as (Hn & _). fold n in Hn.
  destruct (clear_directory (ram w) p v Hr) as [Hinv Hz]. cbn [ram emit].
  set (m1 := memset _ _ _ _) in *. clearbody m1.
  set (v1 := {| page_directory := page_directory v; mapped_pages := 0 |}).
  pose proof (identity_map_ok (Z.to_nat n) m1 p v1 0) as Hid.
  destruct (identity_map (Z.to_nat n) m1 p v1 0) as [[[ok m2] p2] v2].
  destruct Hid as (I1 & I2 & I3 & I4).
  - by apply vmm_inv_pd with v.
  - lia.
  - lia.
  - done.
  - intros j Hj. unfold present. change (pde m1 v1 j) with (pde m1 v j). by rewrite Hz by lia.
  - destruct ok; cbn [negb]; cbn [ram emit set_ram].
    + destruct I4 as (I4 & I6 & I5). split; [by apply vmm_inv_pd with v1|]. split; [exact I2|]. left.
      split; [done|]. split; [exact I2|]. split; [cbn [cr0]; by rewrite I3|]. split; [done|].
      split; [done|]. split.
      * unfold vmm_get_stats. cbn [mapped_pages page_tables identity_end].
        rewrite I4, Z.shiftl_mul_pow2 by lia. unfold PAGES_PER_TABLE. unwrap.
        do 2 f_equal; lia.
      * split.
        { intros i Hi. transitivity (present m2 v1 i); [unfold present, pde; cbn [page_directory]; by rewrite I2|].
          rewrite I6 by done. unfold present.
          change (pde m1 v1 i) with (pde m1 v i). rewrite Hz by done. zcases; try lia; done. }
        intros q Hq. rewrite (walk_pd m2 v1) by exact I2. rewrite I5 by done.
        assert (Hw : walk m1 v1 q = None).
        { unfold walk, present. change (pde m1 v1 (q / 1024)) with (pde m1 v (q / 1024)).
          rewrite Hz by (apply pg_split, Hq). done. }
        assert (0 <= q / 1024 /\ (q / 1024 < n <-> q < 1024 * n)) by (clear -Hq; dlia).
        rewrite Hw, Z2Nat.id by lia. zcases; try lia; done.
    + split; [by apply vmm_inv_pd with v1|]. split; [exact I2|]. right. split; [done|].
      exact I4.
Qed.

(** ** Paging beside the rest of memory *)

(** The paging structures and the frame bitmap lie outside [lo, hi). *)
Record off_range (lo hi : Z) (m : memory) (p : pmm) (v : vmm) : Prop := {
  off_pd : page_directory v + PAGE_SIZE <= lo \/ hi <= page_directory v;
  off_bitmap : bitmap_end p <= lo \/ hi <= frame_bitmap p;
  off_table : forall i, 0 <= i < 1024 -> present m v i = true ->
    (table m v i + 1) * PAGE_SIZE <= lo \/ hi <= table m v i * PAGE_SIZE;
}.

(** In particular outside the heap. *)
Abbreviation off_heap := (off_range HEAP_START HEAP_END).

(** The bytes of the bitmap, the directory and the tables. *)
Definition paging_byte (m : memory) (p : pmm) (v : vmm) (x : Z) : Prop :=
  frame_bitmap p <= x < bitmap_end p \/ page_directory v <= x < page_directory v + PAGE_SIZE \/
  exists i, 0 <= i < 1024 /\ present m v i = true /\
    table m v i * PAGE_SIZE <= x < (table m v i + 1) * PAGE_SIZE.

Lemma off_range_byte lo hi m p v x : off_range lo hi m p v -> lo <= x < hi -> ~ paging_byte m p v x.
Proof. intros [O1 O2 O3] Hx [?|[?|(i & Hi & Hp & ?)]]; [lia|lia|]. pose proof (O3 i Hi Hp). lia. Qed.

(** Writes elsewhere do not affect paging. *)
Lemma vmm_inv_ext m m' p v :
  vmm_inv m p v -> (forall x, paging_byte m p v x -> load8 m' x = load8 m x) ->
  vmm_inv m' p v /\ (forall lo hi, off_range lo hi m p v -> off_range lo hi m' p v) /\
  (forall q, 0 <= q < 2 ^ 20 -> walk m' v q = walk m v q).
Proof.
  intros Hinv Ho. pose proof Hinv as [H1 H2 H3 H4 H5 H6 H7 H8 H9 H10].
  assert (Epd : forall i, 0 <= i < 1024 -> pde m' v i = pde m v i).
  { intros i Hi. apply load32_ext. intros x Hx. apply Ho. right; left. unfold PAGE_SIZE in *. lia. }
  assert (Et : forall i, 0 <= i < 1024 -> table m' v i = table m v i /\ present m' v i = present m v i).
  { intros i Hi. unfold table, present. by rewrite Epd. }
  assert (Ew : forall q, 0 <= q < 2 ^ 20 -> walk m' v q = walk m v q).
  { intros q Hq. destruct (pg_split _ Hq) as (Hq1 & Hq2 & _). unfold walk, pte.
    destruct (Et _ Hq1) as [-> ->]. destruct (present m v (q / 1024)) eqn:Hp; [|done]. cbn [andb].
    rewrite (load32_ext m m'); [done|]. intros x Hx. apply Ho. right; right. exists (q / 1024).
    split; [done|]. split; [done|]. unfold PAGE_SIZE in *. lia. }
  destruct (pmm_ext m m' p) as [Hp' Ef]; [intros x Hx; apply Ho; by left|done|].
  split; [|split; [|done]].
  - split; try done.
    + intros f Hf. by apply H5, Ef.
    + intros i Hi. destruct (Et i Hi) as [-> ->]. rewrite Ef. by apply H7.
    + intros i j Hi Hj. destruct (Et i Hi) as [-> ->], (Et j Hj) as [-> ->]. by apply H8.
    + intros q e Hq. rewrite Ew, Epd by (done || apply pg_split, Hq). by apply H9.
    + intros i Hi. rewrite (proj2 (Et i Hi)), Epd by done. by apply H10.
  - intros lo hi [O1 O2 O3]. split; [done..|]. intros i Hi. destruct (Et i Hi) as [-> ->]. by apply O3.
Qed.

Lemma vmm_inv_outside lo hi m m' p v :
  vmm_inv m p v -> off_range lo hi m p v -> same_outside lo hi m m' ->
  vmm_inv m' p v /\ (forall lo hi, off_range lo hi m p v -> off_range lo hi m' p v) /\
  (forall q, 0 <= q < 2 ^ 20 -> walk m' v q = walk m v q).
Proof.
  intros Hinv Hoff Ho. apply vmm_inv_ext; [done|]. intros x Hx. apply Ho. intros Hr. by eapply off_range_byte.
Qed.

(** Writes to the heap do not affect paging. *)
Lemma vmm_inv_heap m m' p v :
  vmm_inv m p v -> off_heap m p v -> same_outside HEAP_START HEAP_END m m' ->
  vmm_inv m' p v /\ off_heap m' p v /\ (forall q, 0 <= q < 2 ^ 20 -> walk m' v q = walk m v q).
Proof.
  intros Hinv Hoff Ho. destruct (vmm_inv_outside _ _ _ _ _ _ Hinv Hoff Ho) as (H1 & H2 & H3). auto.
Qed.

(** [vmm_set_user] writes to the paging structures only, and moves none of them. *)
Lemma set_user_range lo hi m p v va :
  vmm_inv m p v -> off_range lo hi m p v -> 0 <= va < 2 ^ 32 ->
  let '(rc, m', v') := vmm_set_user m v va in
  same_inside lo hi m m' /\ off_range lo hi m' p v'.
Proof.
  intros Hinv Hoff Hva. pose proof (page_range va Hva) as Hpg. destruct (pg_split _ Hpg) as (Hi & _).
  pose proof Hoff as [O1 O2 O3]. pose proof (pd_frame _ _ _ Hinv) as Epd.
  destruct (table_addr m v va Hva) as [_ E2]. unfold vmm_set_user. rewrite E2.
  rewrite pd_index, pt_index by lia. set (i := va / PAGE_SIZE / 1024) in *.
  destruct (present m v i) eqn:Hp; cbn [negb]; [|by split; [intros x|]].
  pose proof (pde_user_inv m p v Hinv i Hi) as Hinv1. pose proof (pde_user_in_frame m p v Hinv i Hi) as Ho1.
  set (m1 := set_pde m v i _) in *.
  assert (Et1 : forall j, 0 <= j < 1024 -> table m1 v j = table m v j /\ present m1 v j = present m v j).
  { intros j Hj. apply (pde_user_table m v i j Hj). }
  clearbody m1.
  assert (Hs1 : same_inside lo hi m m1).
  { intros x Hx. apply Ho1. rewrite Z.mul_add_distr_r, <- Epd. lia. }
  assert (Hoff1 : off_range lo hi m1 p v).
  { split; [done..|]. intros j Hj. destruct (Et1 j Hj) as [-> ->]. by apply O3. }
  rewrite land_page by apply pde_range. fold (table m1 v i).
  destruct (has_flag (load32 m1 _) PTE_PRESENT) eqn:Hfl; rewrite ?Hfl; cbn [negb]; [|done].
  assert (Hp1 : present m1 v i = true) by (by rewrite (proj2 (Et1 i Hi))).
  set (e := Z.lor _ PTE_USER).
  pose proof (pte_write_in_frame m1 v (va / PAGE_SIZE) e Hpg) as Ho2. fold i in Ho2.
  pose proof (pte_write_pde m1 p v Hinv1 (va / PAGE_SIZE) e Hpg Hp1) as Ep2. fold i in Ep2.
  set (m2 := store32 m1 _ e) in *. clearbody m2. split.
  - intros x Hx. rewrite Ho2; [by apply Hs1|]. pose proof (off_table _ _ _ _ _ Hoff1 i Hi Hp1). lia.
  - split; [done..|]. intros j Hj. change (present m2 (vmm_flush_tlb v va) j) with (present m2 v j).
    change (table m2 (vmm_flush_tlb v va) j) with (table m2 v j).
    unfold present, table. rewrite Ep2 by done. by apply (off_table _ _ _ _ _ Hoff1).
Qed.

(** ** The heap's frames *)

(** A first word of zeros, or a first block of no bytes without a successor, is
    no heap. *)
Lemma zero_words_no_heap m h bs idx :
  (forall k, 0 <= k < 1024 -> k <> idx -> load32 m (HEAP_START + 4 * k) = 0) -> ~ heap_inv m h bs.
Proof.
  intros Hz (_ & _ & Hne & Hc & _). destruct bs as [|b bs]; [done|].
  destruct Hc as [(Hm & Hs & _ & Hn & _) Hc]. unfold b_magic, b_size, b_next in *.
  destruct (Z.eq_dec idx 0) as [->|Hi].
  - change (HEAP_START + 4) with (HEAP_START + 4 * 1) in Hs.
    change (HEAP_START + 12) with (HEAP_START + 4 * 3) in Hn.
    rewrite (Hz 1) in Hs by lia. rewrite (Hz 3) in Hn by lia. rewrite <- Hs in *.
    destruct bs; [discriminate Hc|]. discriminate Hn.
  - specialize (Hz 0 ltac:(lia) ltac:(lia)). rewrite Z.mul_0_r, Z.add_0_r in Hz.
    rewrite Hz in Hm. discriminate Hm.
Qed.

(** When the table of a page comes from frame [f], the frame holds zeros but for
    one word. *)
Lemma map_fills_frame m p v va pa flags f :
  vmm_inv m p v -> 0 <= va < 2 ^ 32 -> 0 <= pa < 2 ^ 32 ->
  present m v (va / PAGE_SIZE / 1024) = false -> frame_free m p f -> f < searched p -> (forall g, frame_free m p g -> f <= g) ->
  exists m' p' v', vmm_map m p v va pa flags = (0, m', p', v') /\
    forall k, 0 <= k < 1024 -> k <> va / PAGE_SIZE mod 1024 -> load32 m' (f * PAGE_SIZE + 4 * k) = 0.
Proof.
  intros Hinv Hva Hpa Hp Hf Hfs Hmin. pose proof (page_range va Hva) as Hpg.
  destruct (pg_split _ Hpg) as (Hi & Hj & _).
  destruct (alloc_frame_cases m p (inv_pmm _ _ _ Hinv)) as [(g & Hg & _ & Hgmin & E)|[Hn _]].
  2:{ specialize (Hn f Hf). lia. }
  assert (g = f) by (pose proof (Hmin _ Hg); pose proof (Hgmin _ Hf); lia). subst g. clear Hgmin.
  pose proof (fresh_range _ _ _ Hinv _ Hf) as Hfr. destruct (inv_free _ _ _ Hinv f Hf) as [_ Hk].
  assert (Hpd : page_directory v / PAGE_SIZE <> f) by (intros E0; apply Hk; right; done).
  assert (Eu : u32 (f * PAGE_SIZE) = f * PAGE_SIZE) by (apply u32_small; unfold PAGE_SIZE; lia).
  pose proof (memset_frame_zero (bitmap_set m p f) f) as Hz.
  pose proof (memset_frame (bitmap_set m p f) f) as Hfill.
  unfold vmm_map. rewrite pd_index, pt_index, flag_present by lia.
  set (i := va / PAGE_SIZE / 1024) in *. fold (present m v i). rewrite Hp. cbn [negb]. rewrite E.
  change PMM_FRAME_SIZE with PAGE_SIZE. rewrite Eu.
  set (m2 := memset _ _ _ _) in *. clearbody m2.
  destruct (Z.eqb_spec (f * PAGE_SIZE) 0) as [E0|_]; [unfold PAGE_SIZE in E0; lia|]. cbn [negb].
  pose proof (new_table_table m p v Hinv i f Hi Hf m2 Hfill i Hi) as Ht.
  cbv zeta in Ht. rewrite Eu, Z.eqb_refl in Ht.
  assert (Ho : in_frame (page_directory v / PAGE_SIZE) m2
    (set_pde m2 v i (Z.lor (Z.lor (f * PAGE_SIZE) PTE_PRESENT) PTE_WRITABLE))).
  { unfold set_pde. rewrite (pd_frame _ _ _ Hinv) at 2. by apply in_frame_store32. }
  set (m3 := set_pde m2 v i _) in *. clearbody m3. set (v2 := set_tables v _).
  change (set_pde m3 v2) with (set_pde m3 v). change (pde m3 v2) with (pde m3 v).
  eexists _, _, _. split; [reflexivity|].
  set (m4 := if has_flag flags PTE_USER then _ else _). change (pde m4 v2) with (pde m4 v).
  assert (H4 : in_frame (page_directory v / PAGE_SIZE) m3 m4 /\ table m4 v i = f).
  { subst m4. destruct (has_flag flags PTE_USER); [|by split; [apply same_outside_refl|]]. split.
    - unfold set_pde. rewrite (pd_frame _ _ _ Hinv) at 2. by apply in_frame_store32.
    - rewrite (proj1 (pde_user_table m3 v i i Hi)). done. }
  destruct H4 as [Ho4 Ht4]. clearbody m4. rewrite land_page by apply pde_range.
  fold (table m4 v i). rewrite Ht4. intros k Hkr Hne.
  rewrite load32_store32_ne by lia.
  rewrite (in_frame_load32 _ _ _ _ _ Ho4), (in_frame_load32 _ _ _ _ _ Ho) by done.
  by apply Hz.
Qed.

#[local] Transparent memset load32 store32.

(** ** A concrete machine for the witnesses

    4 MB of RAM: frames 0 to 511 are used (the bitmap is at 1 MB, the page
    directory in frame 511), the other 512 are free. *)

Definition demo_vmm : vmm := Vmm 0x1FF000 0 0 0 0x11 0 false ∅.
Definition demo_vmm_pmm : pmm := Pmm 0x100000 1024 512 0x400000 0x400000.
Definition demo_vmm_ram : memory := fill_bitmap 16 ∅ 0x100000.

Lemma demo_vmm_used f : 0 <= f < 512 -> bitmap_test demo_vmm_ram demo_vmm_pmm f = true.
Proof.
  assert (H : forallb (fun k => bitmap_test demo_vmm_ram demo_vmm_pmm (Z.of_nat k)) (seq 0 512) = true)
    by (vm_compute; reflexivity).
  intros Hf. rewrite forallb_forall in H. specialize (H (Z.to_nat f)).
  rewrite Z2Nat.id in H by lia. apply H, in_seq. lia.
Qed.

Lemma demo_vmm_ready : vmm_ready demo_vmm_ram demo_vmm_pmm demo_vmm.
Proof.
  assert (Hlow : forall f, frame_free demo_vmm_ram demo_vmm_pmm f -> 512 <= f).
  { intros f [Hf Hb]. destruct (Z_le_gt_dec 512 f); [done|]. rewrite demo_vmm_used in Hb; [done|lia]. }
  split.
  - split; [done|]. vm_compute. reflexivity.
  - done.
  - done.
  - done.
  - intros f Hf. specialize (Hlow f Hf). split; [lia|]. unfold kernel_frame, bitmap_end, PAGE_SIZE.
    change (bitmap_bytes (total_frames demo_vmm_pmm)) with 128. cbn [frame_bitmap page_directory demo_vmm_pmm demo_vmm].
    change (0x1FF000 / 4096) with 511. lia.
  - right. vm_compute. discriminate.
Qed.

Lemma demo_vmm_inv : vmm_inv demo_vmm_ram demo_vmm_pmm demo_vmm.
Proof.
  apply no_tables_inv; [apply demo_vmm_ready|]. intros i Hi. unfold pde.
  assert (E : forall x, 0x1FF000 <= x < 0x200000 -> load8 demo_vmm_ram x = 0).
  { intros x Hx. unfold demo_vmm_ram. rewrite (fill_bitmap_outside 16 ∅ 0x100000); [done|lia]. }
  cbn [page_directory demo_vmm]. unfold load32. cbn [load_le]. by rewrite !E by lia.
Qed.

(** The same machine after [heap_init]. *)
Definition demo_boot : machine * heap := heap_init (Machine demo_vmm_ram []).

Lemma demo_boot_paging :
  vmm_inv (ram demo_boot.1) demo_vmm_pmm demo_vmm /\ off_heap (ram demo_boot.1) demo_vmm_pmm demo_vmm /\
  (forall i, 0 <= i < 1024 -> present (ram demo_boot.1) demo_vmm i = false) /\
  (forall g, frame_free (ram demo_boot.1) demo_vmm_pmm g <-> frame_free demo_vmm_ram demo_vmm_pmm g).
Proof.
  assert (Ho : same_outside HEAP_START (HEAP_START + 4096) demo_vmm_ram (ram demo_boot.1)).
  { intros x Hx. unfold demo_boot, heap_init. cbn [fst ram emit set_ram].
    unfold HEAP_START in *. fields. done. }
  set (m := ram demo_boot.1) in *. clearbody m.
  destruct (pmm_frame demo_vmm_ram m demo_vmm_pmm 512 Ho) as [Hp Hfree];
    [change (bitmap_end demo_vmm_pmm) with 0x100080; unfold PAGE_SIZE; lia|apply demo_vmm_ready|].
  assert (Hpd : forall i, 0 <= i < 1024 -> pde m demo_vmm i = 0).
  { intros i Hi. assert (E : forall x, 0x1FF000 <= x < 0x200000 -> load8 m x = 0).
    { intros x Hx. rewrite (Ho x) by (unfold HEAP_START; lia). unfold demo_vmm_ram.
      rewrite (fill_bitmap_outside 16 ∅ 0x100000); [done|lia]. }
    unfold pde, load32. cbn [page_directory demo_vmm load_le]. by rewrite !E by lia. }
  assert (Hnp : forall i, 0 <= i < 1024 -> present m demo_vmm i = false).
  { intros i Hi. unfold present. by rewrite Hpd. }
  split; [|split; [|done]].
  - apply no_tables_inv; [|done]. destruct demo_vmm_ready as [H1 H2 H3 H4 H5 H6].
    split; [done|exact H2|exact H3|exact H4| |exact H6]. intros f Hf. by apply H5, Hfree.
  - split; [left; vm_compute; discriminate|left; vm_compute; discriminate|].
    intros i Hi Hpr. by rewrite Hnp in Hpr.
Qed.

(** ** Properties *)

(** C29: [vmm_map] either fails, changing nothing, because the page's table is
    missing and the allocator finds no frame (so with the table there it
    succeeds, however few frames are left), or maps exactly the requested
    page: every address of it translates to the same offset of the requested
    frame when the flags say present (and to nothing otherwise), every other
    address translates as before, only the requested page can become accessible
    to ring 3, and the paging invariant is kept. *)
Theorem vmm_map_correct (m : memory) (p : pmm) (v : vmm) (va pa flags : Z)
  (Hinv : vmm_inv m p v) (Hva : 0 <= va < 2 ^ 32) (Hpa : 0 <= pa < 2 ^ 32) :
  (vmm_map m p v va pa flags = (-1, m, p, v) /\ present m v (va / PAGE_SIZE / 1024) = false /\
   forall g, frame_free m p g -> searched p <= g) \/
  exists m' p' v', vmm_map m p v va pa flags = (0, m', p', v') /\ vmm_inv m' p' v' /\
    (forall a, 0 <= a < 2 ^ 32 ->
       vmm_get_physical m' v' a =
         (if a / PAGE_SIZE =? va / PAGE_SIZE
          then if Z.testbit flags 0 then pa / PAGE_SIZE * PAGE_SIZE + a mod PAGE_SIZE else 0
          else vmm_get_physical m v a) /\
       vmm_is_mapped m' v' a =
         (if a / PAGE_SIZE =? va / PAGE_SIZE then Z.testbit flags 0 else vmm_is_mapped m v a) /\
       user_page m' v' (a / PAGE_SIZE) =
         (if a / PAGE_SIZE =? va / PAGE_SIZE then Z.testbit flags 0 && Z.testbit flags 2
          else user_page m v (a / PAGE_SIZE))).
Proof.
  destruct (map_cases m p v va pa flags Hinv Hva Hpa) as
    [H|(m' & p' & v' & E & Hinv' & _ & _ & _ & Hw)]; [by left|right].
  destruct (map_entry_spec pa flags Hpa) as (_ & _ & Hpage & Hb).
  exists m', p', v'. split; [done|]. split; [done|]. intros a Ha. pose proof (page_range a Ha) as Hq.
  rewrite !get_physical_walk, !is_mapped_walk, (user_page_walk _ _ _ _ Hinv' Hq),
    (user_page_walk _ _ _ _ Hinv Hq), (Hw _ Hq) by done.
  destruct (Z.eqb_spec (a / PAGE_SIZE) (va / PAGE_SIZE)) as [Ea|]; [|done].
  destruct (Z.testbit flags 0); [|done]. rewrite Hpage, Hb by lia. done.
Qed.

Lemma vmm_map_correct_witness :
  exists m' p' v', vmm_map demo_vmm_ram demo_vmm_pmm demo_vmm 0xC0001000 0x5000 3 = (0, m', p', v') /\
    vmm_get_physical m' v' 0xC0001234 = 0x5234.
Proof.
  destruct (vmm_map_correct _ _ _ 0xC0001000 0x5000 3 demo_vmm_inv ltac:(lia) ltac:(lia))
    as [[E _]|(m' & p' & v' & E & _ & H)].
  - exfalso. assert (Hrc : (vmm_map demo_vmm_ram demo_vmm_pmm demo_vmm 0xC0001000 0x5000 3).1.1.1 = 0)
      by (vm_compute; reflexivity). rewrite E in Hrc. discriminate Hrc.
  - exists m', p', v'. split; [exact E|]. exact (proj1 (H 0xC0001234 ltac:(lia))).
Defined.

(** [vmm_unmap] removes the translation of a mapped page and of no other,
    and reports failure, changing nothing, exactly when the page is not mapped. *)
Theorem vmm_unmap_correct (m : memory) (p : pmm) (v : vmm) (va : Z)
  (Hinv : vmm_inv m p v) (Hva : 0 <= va < 2 ^ 32) :
  if vmm_is_mapped m v va then
    exists m' v', vmm_unmap m v va = (0, m', v') /\ vmm_inv m' p v' /\
      (forall a, 0 <= a < 2 ^ 32 ->
         vmm_is_mapped m' v' a =
           (if a / PAGE_SIZE =? va / PAGE_SIZE then false else vmm_is_mapped m v a) /\
         vmm_get_physical m' v' a =
           (if a / PAGE_SIZE =? va / PAGE_SIZE then 0 else vmm_get_physical m v a))
  else vmm_unmap m v va = (-1, m, v).
Proof.
  pose proof (unmap_cases m p v va Hinv Hva) as Hu. rewrite (is_mapped_walk m v va Hva).
  destruct (walk m v (va / PAGE_SIZE)) as [e|]; [|done].
  destruct Hu as (m' & v' & E & Hinv' & _ & _ & _ & Hw). exists m', v'. split; [done|].
  split; [done|]. intros a Ha. pose proof (page_range a Ha) as Hq.
  rewrite !get_physical_walk, !is_mapped_walk, (Hw _ Hq) by done.
  by destruct (Z.eqb_spec (a / PAGE_SIZE) (va / PAGE_SIZE)).
Qed.

Lemma vmm_unmap_correct_witness :
  vmm_is_mapped demo_vmm_ram demo_vmm 0x1000 = false /\
  vmm_unmap demo_vmm_ram demo_vmm 0x1000 = (-1, demo_vmm_ram, demo_vmm).
Proof.
  assert (E : vmm_is_mapped demo_vmm_ram demo_vmm 0x1000 = false) by (vm_compute; reflexivity).
  split; [exact E|].
  pose proof (vmm_unmap_correct _ _ _ 0x1000 demo_vmm_inv ltac:(lia)) as H. rewrite E in H. exact H.
Defined.

(** [vmm_set_user] opens to ring 3 the requested page, if it is mapped, and
    no other page, and changes no translation. *)
Theorem vmm_set_user_correct (m : memory) (p : pmm) (v : vmm) (va : Z)
  (Hinv : vmm_inv m p v) (Hva : 0 <= va < 2 ^ 32) :
  exists m' v', vmm_set_user m v va = (if vmm_is_mapped m v va then 0 else -1, m', v') /\
    vmm_inv m' p v' /\
    (forall a, 0 <= a < 2 ^ 32 ->
       vmm_get_physical m' v' a = vmm_get_physical m v a /\
       user_page m' v' (a / PAGE_SIZE) =
         (if a / PAGE_SIZE =? va / PAGE_SIZE then vmm_is_mapped m v va
          else user_page m v (a / PAGE_SIZE))).
Proof.
  destruct (set_user_cases m p v va Hinv Hva) as (m' & v' & E & Hinv' & _ & _ & Hw).
  exists m', v'. rewrite !is_mapped_walk by done. split; [by destruct (walk m v _)|]. split; [done|].
  intros a Ha. pose proof (page_range a Ha) as Hq.
  rewrite !get_physical_walk, (user_page_walk _ _ _ _ Hinv' Hq),
    (user_page_walk _ _ _ _ Hinv Hq), (Hw _ Hq) by done.
  destruct (Z.eqb_spec (a / PAGE_SIZE) (va / PAGE_SIZE)) as [->|]; [|done].
  destruct (walk m v (va / PAGE_SIZE)) as [e|] eqn:He; [|done]. cbn [mbind option_bind].
  assert (Hr : 0 <= e < 2 ^ 32).
  { unfold walk in He. destruct (_ && _); [|done]. injection He as <-. apply pte_range. }
  destruct (lor_user e Hr) as (_ & -> & _ & ->). done.
Qed.

Lemma vmm_set_user_correct_witness :
  exists m' v', vmm_set_user demo_vmm_ram demo_vmm 0x1000 = (-1, m', v') /\
    user_page m' v' 1 = false.
Proof.
  destruct (vmm_set_user_correct _ _ _ 0x1000 demo_vmm_inv ltac:(lia)) as (m' & v' & E & _ & H).
  exists m', v'. split; [exact E|]. exact (proj2 (H 0x1000 ltac:(lia))).
Defined.

(** C6: the TLB never contradicts the page tables: after any sequence of maps,
    unmaps, permission changes, flushes and hardware fills, in any order, every
    cached translation, the frame as well as the write and ring-3 permissions, is
    the one a walk of both levels of the tables gives: no stale mapping survives an
    unmap or a remap, no stale permission a [vmm_set_user].  The paging invariant
    holds throughout. *)
Theorem vmm_tlb_coherent (s s' : memory * pmm * vmm)
  (Hok : paging_ok s) (Hsteps : rtc vmm_step s s') : paging_ok s'.
Proof. induction Hsteps as [|s s1 s' Hstep _ IH]; [done|]. by eapply IH, step_paging_ok. Qed.

(** A page is mapped, cached, and then opened to ring 3. *)
Definition demo_tlb_mapped : memory * pmm * vmm :=
  let '(_, m, p, v) := vmm_map demo_vmm_ram demo_vmm_pmm demo_vmm 0xC0001000 0x5000 3 in (m, p, v).
Definition demo_tlb_cached : vmm :=
  set_tlb demo_tlb_mapped.2 (<[0xC0001 := TlbEntry 5 true false]> (tlb demo_tlb_mapped.2)).
Definition demo_tlb_opened : memory * vmm :=
  let '(_, m, v) := vmm_set_user demo_tlb_mapped.1.1 demo_tlb_cached 0xC0001000 in (m, v).

Lemma vmm_tlb_coherent_witness :
  tlb demo_tlb_cached !! 0xC0001 = Some (TlbEntry 5 true false) /\
  translation demo_tlb_opened.1 demo_tlb_opened.2 0xC0001 = Some (TlbEntry 5 true true) /\
  paging_ok (demo_tlb_opened.1, demo_tlb_mapped.1.2, demo_tlb_opened.2).
Proof.
  split; [by vm_compute|]. split; [by vm_compute|].
  apply (vmm_tlb_coherent (demo_vmm_ram, demo_vmm_pmm, demo_vmm) (demo_tlb_opened.1, demo_tlb_mapped.1.2, demo_tlb_opened.2)).
  - split; [apply demo_vmm_inv|]. intros q f _ H. cbn in H. by rewrite lookup_empty in H.
  - apply rtc_l with demo_tlb_mapped; [|apply rtc_l with (demo_tlb_mapped.1.1, demo_tlb_mapped.1.2, demo_tlb_cached); [|apply rtc_once]].
    + unfold demo_tlb_mapped. destruct (vmm_map _ _ _ _ _ _) as [[[rc m] p] v] eqn:E. eapply step_map; [..|exact E]; lia.
    + assert (Ht : translation demo_tlb_mapped.1.1 demo_tlb_mapped.2 0xC0001 = Some (TlbEntry 5 true false)) by (by vm_compute).
      unfold demo_tlb_cached. destruct demo_tlb_mapped as [[m p] v]. cbn [fst snd] in *. by apply step_fill.
    + unfold demo_tlb_opened. destruct (vmm_set_user _ _ _) as [[rc m] v] eqn:E. eapply step_set_user; [|exact E]. lia.
Defined.

(** C30: [vmm_init] with at most 0xFFC00000 bytes of memory.  When it succeeds, it
    has built exactly as many tables as the memory has 4 MB pieces, a last partial one
    included (one at least); every address below that rounding is mapped to itself,
    no address beyond it is mapped, no page is open to ring 3, and the
    statistics say so; CR3 holds the page directory, paging is on and the
    page-fault handler is registered.  It fails only when the allocator finds no
    frame. *)
Theorem vmm_init_correct (w : machine) (p : pmm) (v : vmm)
  (Hready : vmm_ready (ram w) p v) (Hmem : 0 <= total_memory p <= 0xFFC00000) :
  let n := Z.max 1 ((total_memory p + 0x3FFFFF) / 2 ^ 22) in
  let '(rc, w', p', v') := vmm_init w p v in
  vmm_inv (ram w') p' v' /\
  (rc = 0 -> cr3 v' = page_directory v /\ Z.testbit (cr0 v') 31 = true /\ isr14 v' = true /\
     vmm_get_stats v' = (1024 * n, n, n * 2 ^ 22) /\
     (forall i, 0 <= i < 1024 -> present (ram w') v' i = (i <? n)) /\
     forall a, 0 <= a < 2 ^ 32 ->
       vmm_is_mapped (ram w') v' a = (a <? n * 2 ^ 22) /\
       vmm_get_physical (ram w') v' a = (if a <? n * 2 ^ 22 then a else 0) /\
       user_page (ram w') v' (a / PAGE_SIZE) = false) /\
  (rc <> 0 -> rc = -1 /\ forall g, frame_free (ram w') p' g -> searched p' <= g).
Proof.
  intros n. pose proof (vmm_init_cases w p v Hready ltac:(lia)) as H.
  destruct (num_pde_spec (total_memory p) ltac:(lia)) as (Hn & Hle & _). rewrite (Hle ltac:(lia)) in Hn, H.
  fold n in Hn, H. clearbody n. cbv zeta in H.
  destruct (vmm_init w p v) as [[[rc w'] p'] v']. destruct H as (Hinv & _ & H). split; [done|].
  destruct H as [(-> & Hcr3 & Hcr0 & Hisr & _ & Hst & Hp & Hw)|[-> Hx]]; [|done]. split; [|done]. intros _.
  split; [done|]. split; [rewrite Hcr0, Z.lor_spec; apply orb_true_r|]. split; [done|].
  split; [done|]. split; [done|]. intros a Ha. pose proof (page_range a Ha) as Hq.
  rewrite is_mapped_walk, get_physical_walk, (user_page_walk _ _ _ _ Hinv Hq), (Hw _ Hq) by done.
  assert (E : (a / PAGE_SIZE <? 1024 * n) = (a <? n * 2 ^ 22)).
  { clear -Ha. unfold PAGE_SIZE. zcases; try done; dlia. }
  rewrite E. destruct (Z.ltb_spec a (n * 2 ^ 22)) as [Hlt|Hge]; [|done].
  split; [done|]. split; [|apply identity_entry_bits]. unfold identity_entry, PAGE_SIZE. clear -Ha. dlia.
Qed.

Lemma vmm_init_correct_witness :
  let '(rc, w', p', v') := vmm_init (Machine demo_vmm_ram []) demo_vmm_pmm demo_vmm in
  rc = 0 /\ vmm_get_physical (ram w') v' 0x3ABCDE = 0x3ABCDE /\ vmm_is_mapped (ram w') v' 0x400000 = false.
Proof.
  pose proof (vmm_init_correct (Machine demo_vmm_ram []) demo_vmm_pmm demo_vmm demo_vmm_ready) as H.
  specialize (H ltac:(cbn [total_memory demo_vmm_pmm]; lia)). cbv zeta in H.
  assert (Hrc : (vmm_init (Machine demo_vmm_ram []) demo_vmm_pmm demo_vmm).1.1.1 = 0) by (vm_compute; reflexivity).
  destruct (vmm_init (Machine demo_vmm_ram []) demo_vmm_pmm demo_vmm) as [[[rc w'] p'] v']. cbn [fst] in Hrc.
  destruct H as (_ & H & _). destruct (H Hrc) as (_ & _ & _ & _ & _ & Ha). split; [exact Hrc|]. split.
  - exact (proj1 (proj2 (Ha 0x3ABCDE ltac:(lia)))).
  - exact (proj1 (Ha 0x400000 ltac:(lia))).
Defined.

(** With more than 0xFFC00000 bytes of memory the rounding in [vmm_init]
    wraps around, and a successful initialisation maps only the first 4 MB. *)
Theorem vmm_init_large_memory_wraps (w : machine) (p : pmm) (v : vmm)
  (Hready : vmm_ready (ram w) p v) (Hmem : 0xFFC00000 < total_memory p) :
  let '(rc, w', p', v') := vmm_init w p v in
  rc = 0 -> forall a, 0 <= a < 2 ^ 32 -> vmm_is_mapped (ram w') v' a = (a <? 0x400000).
Proof.
  pose proof (vmm_init_cases w p v Hready ltac:(lia)) as H.
  destruct (num_pde_spec (total_memory p) ltac:(lia)) as (_ & _ & E). rewrite (E Hmem) in H.
  cbv zeta in H. destruct (vmm_init w p v) as [[[rc w'] p'] v']. destruct H as (_ & _ & H).
  intros -> a Ha. pose proof (page_range a Ha) as Hq.
  destruct H as [(_ & _ & _ & _ & _ & _ & _ & Hw)|[? _]]; [|done].
  rewrite is_mapped_walk, (Hw _ Hq) by done. unfold PAGE_SIZE.
  clear -Ha. destruct (Z.ltb_spec (a / 4096) (1024 * 1)), (Z.ltb_spec a 0x400000); try done; dlia.
Qed.

Definition demo_large_pmm : pmm := Pmm 0x100000 1024 512 0x100000000 0x400000.

Lemma vmm_init_large_memory_wraps_witness :
  let '(rc, w', p', v') := vmm_init (Machine demo_vmm_ram []) demo_large_pmm demo_vmm in
  rc = 0 -> vmm_is_mapped (ram w') v' 0x500000 = false.
Proof.
  assert (Hr : vmm_ready demo_vmm_ram demo_large_pmm demo_vmm).
  { destruct demo_vmm_ready as [H1 H2 H3 H4 H5 H6]. split; [exact H1|exact H2|exact H3|exact H4|exact H5|exact H6]. }
  pose proof (vmm_init_large_memory_wraps (Machine demo_vmm_ram []) demo_large_pmm demo_vmm Hr) as H.
  specialize (H ltac:(cbn [total_memory demo_large_pmm]; lia)).
  destruct (vmm_init (Machine demo_vmm_ram []) demo_large_pmm demo_vmm) as [[[rc w'] p'] v'].
  intros Hrc. exact (H Hrc 0x500000 ltac:(lia)).
Defined.

(** The frame allocator does not know about the heap.  When the heap's first frame
    is the lowest free one, the next table [vmm_map] needs is that frame: the call
    succeeds, and what is left is no heap any more. *)
Lemma map_clobbers (m : memory) (p : pmm) (v : vmm) (va pa flags : Z) :
  vmm_inv m p v -> 0 <= va < 2 ^ 32 -> 0 <= pa < 2 ^ 32 ->
  present m v (va / PAGE_SIZE / 1024) = false ->
  frame_free m p (HEAP_START / PAGE_SIZE) -> HEAP_START / PAGE_SIZE < searched p ->
  (forall g, frame_free m p g -> HEAP_START / PAGE_SIZE <= g) ->
  exists m' p' v', vmm_map m p v va pa flags = (0, m', p', v') /\
    forall h' bs', ~ heap_inv m' h' bs'.
Proof.
  intros Hinv Hva Hpa Hnotable Hfree Hsearched Hlow.
  destruct (map_fills_frame m p v va pa flags _ Hinv Hva Hpa Hnotable Hfree Hsearched Hlow)
    as (m' & p' & v' & E & Hz).
  exists m', p', v'. split; [done|]. intros h' bs'. by eapply zero_words_no_heap.
Qed.
