(* ===== verification/PageAlloc.v ===== *)
(** * Where page tables come from

    [vmm_init] and [vmm_map] take the frames of page tables from the frame
    allocator, which gives out the lowest free frame, whatever it holds: the heap's
    frames are free in the bitmap.  Here it is shown when this does not matter: while
    enough frames are free below a bound [B], every new table is below [B], and
    memory that the free frames below [B] do not reach, the heap's above all, is
    neither written to nor made into a table.  And here is what happens when they
    are used up: the allocator goes on to the frames from [B] on, which are free
    as long as nobody took them. *)
From stdpp Require Import base numbers list gmap.
From Stdlib Require Import ZArith Lia.
From S2P Require Import Prelude.
From S2P Require Import Machine.
From S2P Require Import CString.
From S2P Require Import Pmm.
From S2P Require Import Vmm.

(** [n] frames below [B] are free. *)
Definition spare (B : Z) (n : nat) (m : memory) (p : pmm) : Prop :=
  exists l, NoDup l /\ (n <= length l)%nat /\ Forall (fun f => frame_free m p f /\ f < B) l.

(** No free frame below [B] meets [lo, hi). *)
Definition clear_of (lo hi B : Z) (m : memory) (p : pmm) : Prop :=
  forall f, frame_free m p f -> f < B -> (f + 1) * PAGE_SIZE <= lo \/ hi <= f * PAGE_SIZE.

(** Tables are added, out of free frames below [B]. *)
Record grows (B : Z) (m : memory) (p : pmm) (v : vmm) (m' : memory) (p' : pmm) (v' : vmm) : Prop := {
  gr_inv : vmm_inv m' p' v';
  gr_pd : page_directory v' = page_directory v;
  gr_pmm : frame_bitmap p' = frame_bitmap p /\ total_frames p' = total_frames p;
  gr_free : forall f, frame_free m' p' f -> frame_free m p f;
  gr_above : forall f, B <= f -> frame_free m p f -> frame_free m' p' f;
  gr_present : forall i, 0 <= i < 1024 -> present m v i = true -> present m' v' i = true;
  gr_range : forall lo hi, off_range lo hi m p v -> clear_of lo hi B m p ->
    off_range lo hi m' p' v' /\ same_inside lo hi m m';
}.

Lemma grows_refl B m p v : vmm_inv m p v -> grows B m p v m p v.
Proof. intros Hi. split; try done. Qed.

Lemma grows_trans B m1 p1 v1 m2 p2 v2 m3 p3 v3 :
  grows B m1 p1 v1 m2 p2 v2 -> grows B m2 p2 v2 m3 p3 v3 -> grows B m1 p1 v1 m3 p3 v3.
Proof.
  intros [A1 A2 [A3 A4] A5 A8 A6 A7] [B1 B2 [B3 B4] B5 B8 B6 B7]. split; [done|congruence|split; congruence|auto..|].
  intros lo hi Hoff Hcl. destruct (A7 lo hi Hoff Hcl) as [H1 H2]. destruct (B7 lo hi H1) as [H3 H4].
  { intros f Hf. by apply Hcl, A5. }
  split; [done|]. intros x Hx. by rewrite H4, H2.
Qed.

Lemma spare_le B n k m p : (k <= n)%nat -> spare B n m p -> spare B k m p.
Proof. intros Hk (l & Hnd & Hl & Hf). exists l. split; [done|]. split; [lia|done]. Qed.

Lemma length_filter_ne (f : Z) l : NoDup l -> (length l <= S (length (filter (fun g => g <> f) l)))%nat.
Proof.
  induction 1 as [|x l Hx Hnd IH]; [cbn; lia|]. destruct (decide (x = f)) as [->|Hne].
  - rewrite filter_cons_False by naive_solver. cbn [length]. clear IH.
    assert (E : filter (fun g => g <> f) l = l).
    { clear Hnd. induction l as [|y l IH]; [done|]. apply not_elem_of_cons in Hx as [Hy Hl].
      rewrite filter_cons_True by congruence. by rewrite IH. }
    rewrite E. lia.
  - rewrite filter_cons_True by done. cbn [length]. lia.
Qed.

(** A frame is taken. *)
Lemma spare_take B n m p m' p' f :
  spare B (S n) m p -> (forall g, frame_free m' p' g <-> frame_free m p g /\ g <> f) -> spare B n m' p'.
Proof.
  intros (l & Hnd & Hl & Hf) Hfr. exists (filter (fun g => g <> f) l). split; [by apply list_relations.list.NoDup_filter|]. split.
  - pose proof (length_filter_ne f l Hnd). lia.
  - apply Forall_forall. intros g Hg%list_elem_of_In. apply list_elem_of_filter in Hg as [Hne Hg%list_elem_of_In].
    rewrite Forall_forall in Hf. destruct (Hf g Hg) as [H1 H2].
    split; [by apply Hfr|done].
Qed.

(** The frame the allocator gives out. *)
Lemma spare_alloc B n m p :
  pmm_inv m p -> B <= searched p -> spare B (S n) m p ->
  exists f, frame_free m p f /\ f < B /\
    pmm_alloc_frame m p = (f * PMM_FRAME_SIZE, bitmap_set m p f, set_used p (used_frames p +₆₄ 1)).
Proof.
  intros Hp HB (l & _ & Hl & Hf). destruct l as [|g l]; [cbn in Hl; lia|].
  inversion Hf as [|? ? [Hg HgB] _]; subst.
  destruct (alloc_frame_cases m p Hp) as [(f & Hff & _ & Hlow & E)|[Hn _]].
  - exists f. split; [done|]. specialize (Hlow g Hg). split; [lia|done].
  - specialize (Hn g Hg). lia.
Qed.

(** A new table. *)
Lemma new_table_grows B m p v i f m2 :
  vmm_inv m p v -> 0 <= i < 1024 -> present m v i = false -> frame_free m p f -> f < B ->
  in_frame f (bitmap_set m p f) m2 ->
  (forall k, 0 <= k < 1024 -> let x := load32 m2 (f * PAGE_SIZE + 4 * k) in
     Z.testbit x 0 = true -> Z.testbit x 2 = false) ->
  let m3 := set_pde m2 v i (Z.lor (Z.lor (u32 (f * PAGE_SIZE)) PTE_PRESENT) PTE_WRITABLE) in
  let p3 := set_used p (used_frames p +₆₄ 1) in
  grows B m p v m3 p3 v /\ (forall g, frame_free m3 p3 g <-> frame_free m p g /\ g <> f) /\ present m3 v i = true.
Proof.
  intros Hinv Hi Hnp Hf HB Hfill Hu m3 p3.
  pose proof (new_table_inv m p v Hinv i f Hi Hnp Hf m2 Hfill Hu) as Hinv3.
  destruct (new_table_pmm m p v Hinv i f Hi Hf m2 Hfill) as [_ Hfr].
  pose proof (new_table_present m p v Hinv i f Hi Hf m2 Hfill) as Hpr.
  pose proof (new_table_table m p v Hinv i f Hi Hf m2 Hfill) as Htb.
  pose proof (new_in_frame m p v Hinv i f Hi m2) as Hpd. cbv zeta in *. fold m3 in Hinv3, Hfr, Hpr, Htb, Hpd. fold p3 in Hinv3, Hfr.
  split; [|split; [done|by rewrite Hpr, Z.eqb_refl by done]].
  split; [done|done|done| | | |].
  - intros g Hg. by apply Hfr in Hg as [? _].
  - intros g Hg Hgf. apply Hfr. split; [done|lia].
  - intros j Hj Hp. rewrite Hpr, Hp by done. apply orb_true_r.
  - intros lo hi [O1 O2 O3] Hcl. pose proof (Hcl f Hf HB) as Hfo. split.
    + split; [done|done|]. intros j Hj. rewrite Hpr, Htb by done. destruct (Z.eqb_spec j i) as [->|]; [by intros _|].
      cbn [orb]. by apply O3.
    + intros x Hx. rewrite Hpd.
      2:{ rewrite Z.mul_add_distr_r, <- (pd_frame _ _ _ Hinv). unfold PAGE_SIZE in *. lia. }
      rewrite Hfill by lia. apply (bitmap_set_frame m p f (proj1 Hf)). lia.
Qed.

(** The statistics and the TLB do not matter. *)
Lemma grows_pd B m p v m' p' v' w w' :
  page_directory w = page_directory v -> page_directory w' = page_directory v' ->
  grows B m p v m' p' v' -> grows B m p w m' p' w'.
Proof.
  intros E E' [G1 G2 G3 G4 G7 G5 G6].
  assert (Ew : forall m i, present m w i = present m v i /\ table m w i = table m v i).
  { intros m0 i. unfold present, table, pde. by rewrite E. }
  assert (Ew' : forall m i, present m w' i = present m v' i /\ table m w' i = table m v' i).
  { intros m0 i. unfold present, table, pde. by rewrite E'. }
  split; [by eapply vmm_inv_pd|congruence|done|done|done| |].
  - intros i Hi. rewrite (proj1 (Ew m i)), (proj1 (Ew' m' i)). by apply G5.
  - intros lo hi [O1 O2 O3] Hcl. destruct (G6 lo hi) as [[P1 P2 P3] H2]; [|done|].
    + split; [by rewrite <- E|done|]. intros i Hi. rewrite <- (proj1 (Ew m i)), <- (proj2 (Ew m i)). by apply O3.
    + split; [|done]. split; [by rewrite E'|done|]. intros i Hi. rewrite (proj1 (Ew' m' i)), (proj2 (Ew' m' i)). by apply P3.
Qed.

#[local] Opaque memset load32 store32.

(** The loop of [vmm_init]. *)
Lemma identity_grows B n k m p v i :
  vmm_inv m p v -> 0 <= i -> i + Z.of_nat n <= 1024 -> (forall j, i <= j < 1024 -> present m v j = false) ->
  B <= searched p -> spare B (n + k) m p ->
  let '(ok, m', p', v') := identity_map n m p v i in
  ok = true /\ grows B m p v m' p' v /\ spare B k m' p' /\ page_directory v' = page_directory v.
Proof.
  revert m p v i. induction n as [|n IH]; intros m p v i Hinv Hi Hn Hnp HB Hsp; cbn [identity_map].
  { split; [done|]. split; [by apply grows_refl|done]. }
  destruct (spare_alloc B (n + k) m p (inv_pmm _ _ _ Hinv) HB Hsp) as (f & Hf & HfB & ->).
  pose proof (fresh_range _ _ _ Hinv _ Hf) as Hfr. change PMM_FRAME_SIZE with PAGE_SIZE.
  destruct (Z.eqb_spec (f * PAGE_SIZE) 0) as [E0|_]; [unfold PAGE_SIZE in E0; lia|].
  assert (Eu : u32 (f * PAGE_SIZE) = f * PAGE_SIZE) by (apply u32_small; unfold PAGE_SIZE; lia).
  destruct (fill_table_ok (Z.to_nat PAGES_PER_TABLE) (bitmap_set m p f) f i 0) as [Hfill Hent]; [lia|lia|done|].
  rewrite Eu. set (m2 := fill_table _ _ _ _ _) in *. clearbody m2.
  destruct (new_table_grows B m p v i f m2) as (G & Hfree & Hpr); [done|lia|apply Hnp; lia|done|done|done| |].
  { intros j Hj. cbv zeta. rewrite Hent by done. change (Z.of_nat (Z.to_nat PAGES_PER_TABLE)) with 1024.
    zcases; try lia. intros _. apply identity_entry_bits. }
  pose proof (new_table_present m p v Hinv i f ltac:(lia) Hf m2 Hfill) as Hp3.
  cbv zeta in G, Hfree, Hpr, Hp3. rewrite Eu in G, Hfree, Hpr, Hp3.
  set (m3 := set_pde m2 v i _) in *. clearbody m3. set (p3 := set_used p _) in *.
  specialize (IH m3 p3 (set_tables v (page_tables v +₃₂ 1)) (i + 1)).
  destruct (identity_map n m3 p3 _ (i + 1)) as [[[ok m'] p'] v']. destruct IH as (I1 & I2 & I3 & I4).
  - eapply vmm_inv_pd; [|apply G]. done.
  - lia.
  - lia.
  - intros j Hj. change (present m3 v j = false). rewrite Hp3 by lia. destruct (Z.eqb_spec j i); [lia|]. apply Hnp. lia.
  - done.
  - by eapply spare_take.
  - split; [done|]. split; [|done]. eapply grows_trans; [exact G|]. by eapply grows_pd; [| |exact I2].
Qed.

Lemma spare_ext B n m m' p p' : (forall f, frame_free m' p' f <-> frame_free m p f) -> spare B n m p -> spare B n m' p'.
Proof.
  intros Hf (l & Hnd & Hl & Ha). exists l. split; [done|]. split; [done|]. eapply Forall_impl; [|exact Ha].
  intros f [H1 H2]. split; [by apply Hf|done].
Qed.

(** [vmm_init] with enough frames below [B]: the processor pages, the tables are
    below [B], and what is neither the directory nor within reach of those frames is
    untouched. *)
Lemma init_grows B k w p v :
  vmm_ready (ram w) p v -> 0 <= total_memory p -> B <= searched p ->
  spare B (Z.to_nat (num_pde (total_memory p)) + k) (ram w) p ->
  let '(rc, w', p', v') := vmm_init w p v in
  rc = 0 /\ vmm_inv (ram w') p' v' /\ spare B k (ram w') p' /\ isr14 v' = true /\
  page_directory v' = page_directory v /\ (frame_bitmap p' = frame_bitmap p /\ total_frames p' = total_frames p) /\
  (forall f, frame_free (ram w') p' f -> frame_free (ram w) p f) /\
  (forall f, B <= f -> frame_free (ram w) p f -> frame_free (ram w') p' f) /\
  (forall lo hi, page_directory v + PAGE_SIZE <= lo \/ hi <= page_directory v -> bitmap_end p <= lo \/ hi <= frame_bitmap p ->
     clear_of lo hi B (ram w) p -> off_range lo hi (ram w') p' v' /\ same_inside lo hi (ram w) (ram w')).
Proof.
  intros Hr Ht HB Hsp. unfold vmm_init. cbn [st_total_memory pmm_get_stats].
  destruct (num_pde_spec (total_memory p) Ht) as (Hn & _). set (n := num_pde (total_memory p)) in *.
  destruct (clear_directory (ram w) p v Hr) as [Hinv Hz]. cbn [ram emit].
  pose proof (memset_same_outside (ram w) (page_directory v) 0 (Z.to_nat (4 * TABLES_PER_DIR))) as Ho.
  rewrite Z2Nat.id in Ho by (unfold TABLES_PER_DIR; lia).
  destruct (pmm_ext (ram w) (memset (ram w) (page_directory v) 0 (Z.to_nat (4 * TABLES_PER_DIR))) p) as [_ Hfr].
  { intros x Hx. apply Ho. pose proof (ready_bitmap _ _ _ Hr). unfold PAGE_SIZE, TABLES_PER_DIR in *. lia. }
  { apply Hr. }
  set (m1 := memset _ _ _ _) in *. clearbody m1. set (v1 := {| page_directory := page_directory v; mapped_pages := 0 |}).
  pose proof (identity_grows B (Z.to_nat n) k m1 p v1 0) as Hid.
  destruct (identity_map (Z.to_nat n) m1 p v1 0) as [[[ok m2] p2] v2]. destruct Hid as (-> & G & Hsp2 & Epd).
  - by apply vmm_inv_pd with v.
  - lia.
  - lia.
  - intros j Hj. unfold present. change (pde m1 v1 j) with (pde m1 v j). by rewrite Hz by lia.
  - done.
  - by eapply spare_ext.
  - cbn [negb ram emit set_ram]. set (v3 := {| page_directory := page_directory v2 |}).
    assert (G3 : grows B m1 p v m2 p2 v3) by (by eapply grows_pd; [| |exact G]).
    destruct G3 as [G1 G2 G3 G4 G7 G5 G6]. split; [done|]. split; [done|]. split; [done|]. split; [done|].
    split; [done|]. split; [done|]. split; [intros f Hf; by apply Hfr, G4|].
    split; [intros f HBf Hf; by apply G7, Hfr|]. intros lo hi O1 O2 Hcl.
    destruct (G6 lo hi) as [H1 H2].
    + split; [done|done|]. intros i Hi Hp. unfold present in Hp. rewrite Hz in Hp by done. done.
    + intros f Hf. by apply Hcl, Hfr.
    + split; [done|]. intros x Hx. rewrite H2 by done. apply Ho. unfold PAGE_SIZE, TABLES_PER_DIR in *. lia.
Qed.

(** An entry of a table that is there. *)
Lemma pte_grows B m p v pg e :
  vmm_inv m p v -> 0 <= pg < 2 ^ 20 -> present m v (pg / 1024) = true -> 0 <= e < 2 ^ 32 -> Z.testbit e 2 = false ->
  let m' := store32 m (table m v (pg / 1024) * PAGE_SIZE + 4 * (pg mod 1024)) e in
  grows B m p v m' p v /\ (forall g, frame_free m' p g <-> frame_free m p g).
Proof.
  intros Hinv Hpg Hp He Hu m'. destruct (pg_split _ Hpg) as (Hi & _).
  pose proof (pte_write_in_frame m v pg e Hpg) as Ho. pose proof (pte_write_pde m p v Hinv pg e Hpg Hp) as Epd.
  fold m' in Ho, Epd. destruct (inv_table _ _ _ Hinv _ Hi Hp) as (_ & _ & Hk).
  destruct (pmm_frame m m' p _ Ho) as [_ Hfr]; [intros ?; apply Hk; by left|apply Hinv|].
  split; [|done]. split; [|done|done| | | |].
  - apply pte_write_inv; [done..|]. intros _. congruence.
  - intros f Hf. by apply Hfr.
  - intros f _ Hf. by apply Hfr.
  - intros i Hi'. unfold present. by rewrite Epd.
  - intros lo hi [O1 O2 O3] _. split.
    + split; [done|done|]. intros j Hj. unfold present, table. rewrite Epd by done. by apply O3.
    + intros x Hx. apply Ho. pose proof (O3 _ Hi Hp). lia.
Qed.

(** [vmm_map] of a kernel page, whose table is there or can be taken from below [B]. *)
Lemma map_grows B k m p v va pa flags :
  vmm_inv m p v -> 0 <= va < 2 ^ 32 -> 0 <= pa < 2 ^ 32 -> B <= searched p -> Z.testbit flags 2 = false ->
  let i := va / PAGE_SIZE / 1024 in
  (if present m v i then spare B k m p else spare B (S k) m p) ->
  exists m' p' v', vmm_map m p v va pa flags = (0, m', p', v') /\ grows B m p v m' p' v' /\
    spare B k m' p' /\ present m' v' i = true.
Proof.
  intros Hinv Hva Hpa HB Hfl i Hsp. pose proof (page_range va Hva) as Hpg. destruct (pg_split _ Hpg) as (Hi & _).
  fold i in Hi. destruct (map_entry_spec pa flags Hpa) as (Ee & He & _ & Hbits).
  assert (Hu : Z.testbit (map_entry pa flags) 2 = false) by (rewrite Hbits by lia; done).
  unfold vmm_map. rewrite flag_user, Ee, pd_index, pt_index, flag_present, Hfl by lia. fold i. fold (present m v i).
  destruct (present m v i) eqn:Hp; cbn [negb].
  - destruct (pte_grows B m p v (va / PAGE_SIZE) (map_entry pa flags) Hinv Hpg Hp He Hu) as [G Hfr].
    fold i in G, Hfr. rewrite land_page by apply pde_range. fold (table m v i).
    eexists _, _, _. split; [reflexivity|]. split; [by eapply grows_pd; [| |exact G]|].
    split; [by eapply spare_ext|]. change (present ?m (vmm_flush_tlb _ va) i) with (present m v i). by apply (gr_present _ _ _ _ _ _ _ G).
  - destruct (spare_alloc B k m p (inv_pmm _ _ _ Hinv) HB Hsp) as (f & Hf & HfB & ->).
    pose proof (fresh_range _ _ _ Hinv _ Hf) as Hfr. change PMM_FRAME_SIZE with PAGE_SIZE.
    destruct (Z.eqb_spec (f * PAGE_SIZE) 0) as [E0|_]; [unfold PAGE_SIZE in E0; lia|]. cbn [negb].
    assert (Eu : u32 (f * PAGE_SIZE) = f * PAGE_SIZE) by (apply u32_small; unfold PAGE_SIZE; lia).
    pose proof (memset_frame (bitmap_set m p f) f) as Hfill. rewrite <- Eu in Hfill.
    destruct (new_table_grows B m p v i f _ Hinv Hi Hp Hf HfB Hfill) as (G & Hfree & Hpr).
    { intros j Hj. cbv zeta. rewrite Eu, memset_frame_zero by done. done. }
    cbv zeta in G, Hfree, Hpr. set (m3 := set_pde _ v i _) in *. clearbody m3. set (p3 := set_used p _) in *.
    destruct (pte_grows B m3 p3 v (va / PAGE_SIZE) (map_entry pa flags) (gr_inv _ _ _ _ _ _ _ G) Hpg Hpr He Hu) as [G2 Hfr2].
    fold i in G2, Hfr2. set (v2 := set_tables v _). change (pde m3 v2 i) with (pde m3 v i).
    rewrite land_page by apply pde_range. fold (table m3 v i).
    eexists _, _, _. split; [reflexivity|]. split; [|split].
    + eapply grows_trans; [exact G|]. by eapply grows_pd; [| |exact G2].
    + eapply spare_ext; [exact Hfr2|]. by eapply spare_take.
    + change (present ?m (vmm_flush_tlb _ va) i) with (present m v i). by apply (gr_present _ _ _ _ _ _ _ G2).
Qed.

(** ** Using up the frames below a bound *)

(** The allocator alone: the tables stay, one frame is gone. *)
Lemma alloc_keeps m p v f :
  vmm_inv m p v -> frame_free m p f ->
  let m1 := bitmap_set m p f in let p1 := set_used p (used_frames p +₆₄ 1) in
  vmm_inv m1 p1 v /\ (forall g, frame_free m1 p1 g <-> frame_free m p g /\ g <> f) /\
  (forall i, 0 <= i < 1024 -> present m1 v i = present m v i).
Proof.
  intros Hinv Hf m1 p1. pose proof (becomes_set m p f (inv_pmm _ _ _ Hinv) Hf) as (_ & Hb & _ & Hpi).
  pose proof (bitmap_set_frame m p f (proj1 Hf)) as Ho. fold m1 in Hpi, Hb, Ho. fold p1 in Hpi, Hb.
  assert (Hfr : forall g, frame_free m1 p1 g <-> frame_free m p g /\ g <> f).
  { intros g. unfold frame_free. rewrite Hb. cbn [total_frames set_used p1].
    destruct (Z.eqb_spec g f); cbn [orb]; intuition congruence. }
  assert (Epd : forall i, 0 <= i < 1024 -> pde m1 v i = pde m v i).
  { intros i Hi. apply load32_ext. intros x Hx. apply Ho. pose proof (inv_pd_bitmap _ _ _ Hinv).
    unfold bitmap_end, PAGE_SIZE in *. lia. }
  assert (Et : forall i, 0 <= i < 1024 -> table m1 v i = table m v i /\ present m1 v i = present m v i).
  { intros i Hi. unfold table, present. by rewrite Epd. }
  assert (Ew : forall q, 0 <= q < 2 ^ 20 -> walk m1 v q = walk m v q).
  { intros q Hq. destruct (pg_split _ Hq) as (Hq1 & Hq2 & _). unfold walk, pte.
    destruct (Et _ Hq1) as [-> ->]. destruct (present m v (q / 1024)) eqn:Hp; [|done]. cbn [andb].
    rewrite (load32_ext m m1); [done|]. intros x Hx. apply Ho. intros Hbx.
    destruct (inv_table _ _ _ Hinv _ Hq1 Hp) as (_ & _ & Hk). apply Hk. left. unfold PAGE_SIZE in *. lia. }
  split; [|split; [done|by intros i Hi; apply Et]]. pose proof Hinv as [H1 H2 H3 H4 H5 H6 H7 H8 H9 H10]. split; try done.
  - intros g [Hg _]%Hfr. by apply H5.
  - intros i Hi. destruct (Et i Hi) as [-> ->]. rewrite Hfr. intros Hp. destruct (H7 i Hi Hp) as (? & ? & ?). tauto.
  - intros i j Hi Hj. destruct (Et i Hi) as [-> ->], (Et j Hj) as [-> ->]. by apply H8.
  - intros q e Hq. rewrite Ew, Epd by (done || apply pg_split, Hq). by apply H9.
  - intros i Hi. rewrite (proj2 (Et i Hi)), Epd by done. by apply H10.
Qed.

(** [k] calls of [pmm_alloc_frame], the frames kept by the callers. *)
Definition use_frames (k : nat) (m : memory) (p : pmm) : memory * pmm :=
  Nat.iter k (fun s => let '(_, m1, p1) := pmm_alloc_frame s.1 s.2 in (m1, p1)) (m, p).

Lemma use_frames_S k m p :
  use_frames (S k) m p = use_frames k (pmm_alloc_frame m p).1.2 (pmm_alloc_frame m p).2.
Proof.
  unfold use_frames. rewrite Nat.iter_succ_r. cbn [fst snd]. by destruct (pmm_alloc_frame m p) as [[a m1] p1].
Qed.

(** Some number of allocations uses up the frames below [B] and takes no other. *)
Lemma use_up B m p v (l : list Z) :
  vmm_inv m p v -> B <= searched p -> (forall f, frame_free m p f -> f < B -> f ∈ l) ->
  exists k, let '(m', p') := use_frames k m p in
    vmm_inv m' p' v /\ (frame_bitmap p' = frame_bitmap p /\ total_frames p' = total_frames p) /\
    (forall f, frame_free m' p' f <-> frame_free m p f /\ B <= f) /\
    (forall i, 0 <= i < 1024 -> present m' v i = present m v i) /\
    (forall x, ~ frame_bitmap p <= x < bitmap_end p -> load8 m' x = load8 m x).
Proof.
  intros Hinv HB Hl. assert (Hlen : exists n, (length l <= n)%nat) by (by eexists). destruct Hlen as [n Hlen].
  revert m p l Hinv HB Hl Hlen. induction n as [|n IH]; intros m p l Hinv HB Hl Hlen.
  { exists 0%nat. cbn. destruct l; [|cbn in Hlen; lia]. split; [done|]. split; [done|]. split; [|done].
    intros f. split; [|tauto]. intros Hf. split; [done|]. destruct (Z_le_gt_dec B f); [done|].
    specialize (Hl f Hf ltac:(lia)). by apply elem_of_nil in Hl. }
  assert (Hstop : (forall g, frame_free m p g -> B <= g) -> exists k, let '(m', p') := use_frames k m p in
    vmm_inv m' p' v /\ (frame_bitmap p' = frame_bitmap p /\ total_frames p' = total_frames p) /\
    (forall f, frame_free m' p' f <-> frame_free m p f /\ B <= f) /\
    (forall i, 0 <= i < 1024 -> present m' v i = present m v i) /\
    (forall x, ~ frame_bitmap p <= x < bitmap_end p -> load8 m' x = load8 m x)).
  { intros Hno. exists 0%nat. cbn. split; [done|]. split; [done|]. split; [|done]. intros f. split; [|tauto]. auto. }
  destruct (alloc_frame_cases m p (inv_pmm _ _ _ Hinv)) as [(f & Hf & _ & Hlow & E)|[Hn _]];
    [|apply Hstop; intros g Hg; specialize (Hn g Hg); lia].
  destruct (Z_le_gt_dec B f) as [Hfb|Hfb]; [apply Hstop; intros g Hg; specialize (Hlow g Hg); lia|].
  destruct (alloc_keeps m p v f Hinv Hf) as (Hi1 & Hfr1 & Hp1).
  destruct (IH (bitmap_set m p f) (set_used p (used_frames p +₆₄ 1)) (filter (fun g => g <> f) l)) as (k & Hk).
  - done.
  - done.
  - intros g [Hg Hne]%Hfr1 Hgb. apply list_elem_of_filter. split; [done|]. by apply Hl.
  - assert (length (filter (fun g => g <> f) l) < length l)%nat; [|lia].
    apply (length_filter_lt _ _ f); [by apply Hl; [|lia]|]. by intros ?.
  - exists (S k). rewrite use_frames_S, E. cbn [fst snd]. destruct (use_frames k _ _) as [m' p'].
    destruct Hk as (K1 & K2 & K3 & K4 & K5). split; [done|]. split; [done|]. split; [|split].
    + intros g. rewrite K3, Hfr1. split; [tauto|]. intros [? ?]. split; [split; [done|lia]|done].
    + intros i Hi. by rewrite K4, Hp1.
    + intros x Hx. rewrite K5 by done. by apply (bitmap_set_frame m p f (proj1 Hf)).
Qed.

#[local] Transparent memset load32 store32.
