(* ===== verification/E1000.v ===== *)
(** * [kernel/drivers/e1000.c]: the Ethernet driver

    The driver talks to the card through memory-mapped registers and through two
    rings of 16-byte descriptors in memory, which the card reads and writes on
    its own.  [mmio] is the driver's view of the registers: the accesses made,
    oldest first, and the values its next reads will see.  A write is recorded with
    the memory the card finds at that moment, so that what the driver stores
    before and after it is told apart.  [rx_descs], [tx_descs]
    and [rx_buffers] are the addresses of the static arrays.

    What the card does to memory while [e1000_send] polls is the list [polls] of
    memory changes.  For reception, [rx_step] interleaves the driver with the
    card as the 8254x manual describes it: the card owns the descriptors from
    head to tail, fills the buffer the head descriptor points to, sets its
    length and its done bit, and advances head; it drops frames when head has
    reached tail. *)
From stdpp Require Import base numbers list gmap strings relations.
From Stdlib Require Import ZArith Lia.
From S2P Require Import Prelude.
From S2P Require Import Machine.
From S2P Require Import CString.
From S2P Require Import Pci.
From S2P Require Import Pmm.
From S2P Require Import Vmm.

Definition E1000_VENDOR : Z := 0x8086.
Definition E1000_DEVICE : Z := 0x100E.
Definition E1000_NUM_RX_DESC : Z := 32.
Definition E1000_NUM_TX_DESC : Z := 8.
Definition E1000_RX_BUF_SIZE : Z := 2048.

Definition REG_CTRL : Z := 0x0000.
Definition REG_STATUS : Z := 0x0008.
Definition REG_EEPROM : Z := 0x0014.
Definition REG_ICR : Z := 0x00C0.
Definition REG_IMC : Z := 0x00D8.
Definition REG_RCTL : Z := 0x0100.
Definition REG_TCTL : Z := 0x0400.
Definition REG_RDBAL : Z := 0x2800.
Definition REG_RDBAH : Z := 0x2804.
Definition REG_RDLEN : Z := 0x2808.
Definition REG_RDH : Z := 0x2810.
Definition REG_RDT : Z := 0x2818.
Definition REG_TDBAL : Z := 0x3800.
Definition REG_TDBAH : Z := 0x3804.
Definition REG_TDLEN : Z := 0x3808.
Definition REG_TDH : Z := 0x3810.
Definition REG_TDT : Z := 0x3818.
Definition REG_RAL0 : Z := 0x5400.
Definition REG_RAH0 : Z := 0x5404.
Definition REG_MTA : Z := 0x5200.

Definition CTRL_SLU : Z := Z.shiftl 1 6.
Definition CTRL_RST : Z := Z.shiftl 1 26.
Definition RCTL_EN : Z := Z.shiftl 1 1.
Definition RCTL_BAM : Z := Z.shiftl 1 15.
Definition RCTL_BSIZE_2048 : Z := Z.shiftl 0 16.
Definition RCTL_SECRC : Z := Z.shiftl 1 26.
Definition TCTL_EN : Z := Z.shiftl 1 1.
Definition TCTL_PSP : Z := Z.shiftl 1 3.
Definition TCTL_CT_SHIFT : Z := 4.
Definition TCTL_COLD_SHIFT : Z := 12.
Definition TDESC_CMD_EOP : Z := Z.shiftl 1 0.
Definition TDESC_CMD_IFCS : Z := Z.shiftl 1 1.
Definition TDESC_CMD_RS : Z := Z.shiftl 1 3.
Definition TDESC_STA_DD : Z := Z.shiftl 1 0.
Definition RDESC_STA_DD : Z := Z.shiftl 1 0.
Definition PTE_CACHE_DISABLE : Z := Z.shiftl 1 4.

(** The fields of a receive and of a transmit descriptor, by their addresses. *)
Definition sizeof_desc : Z := 16.
Definition desc_addr_lo (d : Z) : Z := d.
Definition desc_addr_hi (d : Z) : Z := d + 4.
Definition desc_length (d : Z) : Z := d + 8.
Definition rx_status (d : Z) : Z := d + 12.
Definition tx_cmd (d : Z) : Z := d + 11.
Definition tx_status (d : Z) : Z := d + 12.

(** ** Registers *)

(** A read and its value; a write, and memory when the card sees it. *)
Inductive mm_op :=
  | MmRead (reg v : Z)
  | MmWrite (reg v : Z) (m : memory).

Record mmio := Mmio {
  mm_log : list mm_op;
  mm_in : list Z;
}.

Record e1000 := E1000 {
  mmio_base : Z;
  mac_addr : list Z;
  initialised : bool;
  rx_cur : Z;
  tx_cur : Z;
  stat_rx : Z;
  stat_tx : Z;
  regs : mmio;
}.

Definition with_regs (e : e1000) (r : mmio) : e1000 :=
  {| mmio_base := mmio_base e; mac_addr := mac_addr e; initialised := initialised e; rx_cur := rx_cur e;
     tx_cur := tx_cur e; stat_rx := stat_rx e; stat_tx := stat_tx e; regs := r |}.
Definition with_mac (e : e1000) (mac : list Z) : e1000 :=
  {| mmio_base := mmio_base e; mac_addr := mac; initialised := initialised e; rx_cur := rx_cur e;
     tx_cur := tx_cur e; stat_rx := stat_rx e; stat_tx := stat_tx e; regs := regs e |}.
Definition with_rx_cur (e : e1000) (i : Z) : e1000 :=
  {| mmio_base := mmio_base e; mac_addr := mac_addr e; initialised := initialised e; rx_cur := i;
     tx_cur := tx_cur e; stat_rx := stat_rx e; stat_tx := stat_tx e; regs := regs e |}.
Definition with_tx_cur (e : e1000) (i : Z) : e1000 :=
  {| mmio_base := mmio_base e; mac_addr := mac_addr e; initialised := initialised e; rx_cur := rx_cur e;
     tx_cur := i; stat_rx := stat_rx e; stat_tx := stat_tx e; regs := regs e |}.
Definition with_stats (e : e1000) (rx tx : Z) : e1000 :=
  {| mmio_base := mmio_base e; mac_addr := mac_addr e; initialised := initialised e; rx_cur := rx_cur e;
     tx_cur := tx_cur e; stat_rx := rx; stat_tx := tx; regs := regs e |}.
Definition with_base (e : e1000) (base : Z) (init : bool) : e1000 :=
  {| mmio_base := base; mac_addr := mac_addr e; initialised := init; rx_cur := rx_cur e;
     tx_cur := tx_cur e; stat_rx := stat_rx e; stat_tx := stat_tx e; regs := regs e |}.

Definition e1000_read (e : e1000) (reg : Z) : Z * e1000 :=
  let v := u32 (hd 0 (mm_in (regs e))) in
  (v, with_regs e {| mm_log := mm_log (regs e) ++ [MmRead reg v]; mm_in := tl (mm_in (regs e)) |}).

Definition e1000_write (m : memory) (e : e1000) (reg val : Z) : e1000 :=
  with_regs e {| mm_log := mm_log (regs e) ++ [MmWrite reg (u32 val) m]; mm_in := mm_in (regs e) |}.

(** ** The hardware address *)

(** [do val = read; while (!(val & 0x10) && --timeout > 0)], [n] reads left; [None]
    when the time is out. *)
Fixpoint eeprom_wait (n : nat) (e : e1000) : option Z * e1000 :=
  match n with
  | O => (None, e)
  | S n' =>
      let '(val, e1) := e1000_read e REG_EEPROM in
      if negb (Z.land val (Z.shiftl 1 4) =? 0) then (Some val, e1) else eeprom_wait n' e1
  end.

(** [for (i = ...; i < 3; i++)], [n] words left. *)
Fixpoint read_mac_loop (n : nat) (m : memory) (e : e1000) (i : Z) : bool * e1000 :=
  match n with
  | O => (true, e)
  | S n' =>
      let e1 := e1000_write m e REG_EEPROM (Z.lor 1 (Z.shiftl i 8)) in
      match eeprom_wait (Z.to_nat 10000) e1 with
      | (None, e2) => (false, e2)
      | (Some val, e2) =>
          let mac1 := <[Z.to_nat (i * 2) := u8 (Z.shiftr val 16)]> (mac_addr e2) in
          let mac2 := <[Z.to_nat (i * 2 + 1) := u8 (Z.shiftr val 24)]> mac1 in
          read_mac_loop n' m (with_mac e2 mac2) (i + 1)
      end
  end.
Definition read_mac_eeprom (m : memory) (e : e1000) : bool * e1000 := read_mac_loop 3 m e 0.

Definition read_mac_ral (e : e1000) : e1000 :=
  let '(lo, e1) := e1000_read e REG_RAL0 in
  let '(hi, e2) := e1000_read e1 REG_RAH0 in
  with_mac e2 [u8 lo; u8 (Z.shiftr lo 8); u8 (Z.shiftr lo 16); u8 (Z.shiftr lo 24); u8 hi; u8 (Z.shiftr hi 8)].

Section driver.
Context (rx_descs tx_descs rx_buffers : Z).

Definition rx_desc (i : Z) : Z := rx_descs + sizeof_desc * i.
Definition tx_desc (i : Z) : Z := tx_descs + sizeof_desc * i.
Definition rx_buffer (i : Z) : Z := rx_buffers + E1000_RX_BUF_SIZE * i.

(** ** Ring setup *)

Fixpoint init_rx_loop (n : nat) (m : memory) (i : Z) : memory :=
  match n with
  | O => m
  | S n' =>
      let m1 := store32 m (desc_addr_lo (rx_desc i)) (rx_buffer i) in
      let m2 := store32 m1 (desc_addr_hi (rx_desc i)) 0 in
      let m3 := store8 m2 (rx_status (rx_desc i)) 0 in
      init_rx_loop n' m3 (i + 1)
  end.

Definition init_rx (m : memory) (e : e1000) : memory * e1000 :=
  let m1 := init_rx_loop (Z.to_nat E1000_NUM_RX_DESC) m 0 in
  let e1 := e1000_write m1 (e1000_write m1 (e1000_write m1 e REG_RDBAL rx_descs) REG_RDBAH 0)
              REG_RDLEN (E1000_NUM_RX_DESC * sizeof_desc) in
  let e2 := e1000_write m1 (e1000_write m1 e1 REG_RDH 0) REG_RDT (E1000_NUM_RX_DESC - 1) in
  let e3 := with_rx_cur e2 0 in
  (m1, e1000_write m1 e3 REG_RCTL (Z.lor (Z.lor (Z.lor RCTL_EN RCTL_BAM) RCTL_BSIZE_2048) RCTL_SECRC)).

Definition init_tx (m : memory) (e : e1000) : memory * e1000 :=
  let m1 := memset m tx_descs 0 (Z.to_nat (E1000_NUM_TX_DESC * sizeof_desc)) in
  let e1 := e1000_write m1 (e1000_write m1 (e1000_write m1 e REG_TDBAL tx_descs) REG_TDBAH 0)
              REG_TDLEN (E1000_NUM_TX_DESC * sizeof_desc) in
  let e2 := with_tx_cur (e1000_write m1 (e1000_write m1 e1 REG_TDH 0) REG_TDT 0) 0 in
  (m1, e1000_write m1 e2 REG_TCTL
    (Z.lor (Z.lor (Z.lor TCTL_EN TCTL_PSP) (Z.shiftl 15 TCTL_CT_SHIFT)) (Z.shiftl 64 TCTL_COLD_SHIFT))).

(** ** Initialisation *)

(** The character of a hexadecimal digit. *)
Definition hex_digit (d : Z) : Z := if d <? 10 then 48 + d else 55 + d.
(** [n] digits of [v], most significant first. *)
Fixpoint hex_chars (n : nat) (v : Z) : list Z :=
  match n with
  | O => []
  | S n' => hex_digit (Z.land (Z.shiftr v (4 * Z.of_nat n')) 0xF) :: hex_chars n' v
  end.

(** [for (off = ...; off < 0x20000; off += PAGE_SIZE) vmm_map(...)], [n] pages left. *)
Fixpoint map_mmio (n : nat) (m : memory) (p : pmm) (v : vmm) (bar0 off : Z) : memory * pmm * vmm :=
  match n with
  | O => (m, p, v)
  | S n' =>
      let '(_, m1, p1, v1) := vmm_map m p v (bar0 +₃₂ off) (bar0 +₃₂ off)
        (Z.lor (Z.lor PTE_PRESENT PTE_WRITABLE) PTE_CACHE_DISABLE) in
      map_mmio n' m1 p1 v1 bar0 (off + PAGE_SIZE)
  end.

(** [for (i = ...; i < 128; i++) e1000_write(REG_MTA + i * 4, 0);] *)
Fixpoint clear_mta (n : nat) (m : memory) (e : e1000) (i : Z) : e1000 :=
  match n with
  | O => e
  | S n' => clear_mta n' m (e1000_write m e (REG_MTA + i * 4) 0) (i + 1)
  end.

(** The digits of the interrupt line. *)
Definition irq_chars (n : Z) : list Z := if n >=? 10 then [48 + n / 10; 48 + n mod 10] else [48 + n mod 10].

(** The hardware address on the console. *)
Fixpoint put_mac (n : nat) (mac : list Z) (i : Z) : list out_call :=
  match n with
  | O => []
  | S n' =>
      let b := mac !!! Z.to_nat i in
      [VgaPutchar (hex_digit (Z.shiftr b 4)); VgaPutchar (hex_digit (Z.land b 0xF))] ++
      (if i <? 5 then [VgaPutchar 58] else []) ++ put_mac n' mac (i + 1)
  end.

(** Everything [e1000_init] does once the card is known. *)
Definition e1000_setup {S : Type} `{Ports S} (w : machine) (s : S) (p : pmm) (v : vmm) (e : e1000) (dev : pci_device)
  : Z * machine * S * pmm * vmm * e1000 :=
  let '(cmd, s1) := pci_read16 s (d_bus dev) (d_slot dev) (d_func dev) PCI_COMMAND in
  let s2 := pci_write16 s1 (d_bus dev) (d_slot dev) (d_func dev) PCI_COMMAND
              (Z.lor cmd (Z.lor PCI_CMD_MEMORY PCI_CMD_MASTER)) in
  let e0 := with_base e (d_bar0 dev) (initialised e) in
  let '(m1, p1, v1) := map_mmio 32 (ram w) p v (d_bar0 dev) 0 in
  let '(ctrl, e1) := e1000_read e0 REG_CTRL in
  let e2 := e1000_write m1 (e1000_write m1 e1 REG_CTRL (Z.lor ctrl CTRL_RST)) REG_IMC 0xFFFFFFFF in
  let '(_, e3) := e1000_read e2 REG_ICR in
  let '(ok, e4) := read_mac_eeprom m1 e3 in
  let e5 := if negb ok then read_mac_ral e4 else e4 in
  let e6 := clear_mta 128 m1 e5 0 in
  let '(m2, e7) := init_rx m1 e6 in
  let '(m3, e8) := init_tx m2 e7 in
  let '(ctrl2, e9) := e1000_read e8 REG_CTRL in
  let e10 := with_stats (with_base (e1000_write m3 e9 REG_CTRL (Z.lor ctrl2 CTRL_SLU)) (d_bar0 dev) true) 0 0 in
  let w1 := emit (set_ram w m3)
    ([VgaSetColor VGA_COLOR_LIGHT_GREEN VGA_COLOR_BLACK; VgaPuts "  [OK] e1000 at BAR0=0x"; VgaPuts (string_of (hex_chars 8 (d_bar0 dev)));
      VgaPuts ", IRQ "; VgaPuts (string_of (irq_chars (d_irq_line dev))); VgaPutchar 10;
      VgaPuts "  [OK] MAC "] ++ put_mac 6 (mac_addr e10) 0 ++ [VgaPutchar 10]) in
  let '(status, e11) := e1000_read e10 REG_STATUS in
  let w2 := emit w1
    (if negb (Z.land status 0x02 =? 0) then [VgaPuts ("  [OK] Link UP" ++ nl ++ nl); Klog "e1000: link up"]
     else [VgaPuts ("  [--] Link DOWN" ++ nl ++ nl); Klog "e1000: link down"]) in
  (0, w2, s2, p1, v1, e11).

Definition e1000_init {S : Type} `{Ports S} (w : machine) (s : S) (p : pmm) (v : vmm) (e : e1000)
  : Z * machine * S * pmm * vmm * e1000 :=
  let w0 := emit w [VgaSetColor VGA_COLOR_YELLOW VGA_COLOR_BLACK; VgaPuts (line "Initializing e1000 network driver..."); VgaSetColor VGA_COLOR_LIGHT_GREY VGA_COLOR_BLACK] in
  match pci_find_device s E1000_VENDOR E1000_DEVICE with
  | (None, s1) =>
      (-1, emit w0 [VgaPuts ("  e1000 NIC not found on PCI bus" ++ nl ++ nl); Klog "e1000: NIC not found"],
       s1, p, v, e)
  | (Some dev, s1) => e1000_setup (emit w0 [Klog "e1000: found on PCI bus"]) s1 p v e dev
  end.

(** ** Queries *)

Definition e1000_get_mac (m : memory) (e : e1000) (out : Z) : memory := store_bytes m out (mac_addr e).

Definition e1000_link_up (e : e1000) : bool * e1000 :=
  if negb (initialised e) then (false, e)
  else let '(v, e1) := e1000_read e REG_STATUS in (negb (Z.land v 0x02 =? 0), e1).

Definition e1000_packets_rx (e : e1000) : Z := stat_rx e.
Definition e1000_packets_tx (e : e1000) : Z := stat_tx e.

(** ** Sending *)

(** The descriptor is filled in, then the tail register moves past it. *)
Definition tx_post (m : memory) (e : e1000) (data len : Z) : memory * e1000 :=
  let d := tx_desc (tx_cur e) in
  let m1 := store32 m (desc_addr_lo d) data in
  let m2 := store32 m1 (desc_addr_hi d) 0 in
  let m3 := store16 m2 (desc_length d) len in
  let m4 := store8 m3 (tx_cmd d) (Z.lor (Z.lor TDESC_CMD_EOP TDESC_CMD_IFCS) TDESC_CMD_RS) in
  let m5 := store8 m4 (tx_status d) 0 in
  let next := (tx_cur e +₃₂ 1) mod E1000_NUM_TX_DESC in
  (m5, e1000_write m5 (with_tx_cur e next) REG_TDT next).

(** [while (!(tx_descs[old].status & DD) && --timeout > 0);], [n] reads left; the card
    makes the next change of [polls] before each. *)
Fixpoint tx_wait (n : nat) (polls : list (memory -> memory)) (m : memory) (old : Z) : bool * memory :=
  match n with
  | O => (false, m)
  | S n' =>
      let m1 := match polls with [] => m | f :: _ => f m end in
      if negb (Z.land (load8 m1 (tx_status (tx_desc old))) TDESC_STA_DD =? 0) then (true, m1)
      else tx_wait n' (tl polls) m1 old
  end.

Definition TX_TIMEOUT : Z := 100000.

Definition e1000_send (polls : list (memory -> memory)) (m : memory) (e : e1000) (data len : Z)
  : Z * memory * e1000 :=
  if negb (initialised e) || (len >? 1518) then (-1, m, e)
  else
    let '(m1, e1) := tx_post m e data len in
    let '(ok, m2) := tx_wait (Z.to_nat TX_TIMEOUT) polls m1 (tx_cur e) in
    if negb ok then (-1, m2, e1) else (len, m2, with_stats e1 (stat_rx e1) (stat_tx e1 +₃₂ 1)).

(** ** Receiving *)

Definition e1000_receive (m : memory) (e : e1000) (buf buf_size : Z) : Z * memory * e1000 :=
  if negb (initialised e) then (-1, m, e)
  else
    let d := rx_desc (rx_cur e) in
    if Z.land (load8 m (rx_status d)) RDESC_STA_DD =? 0 then (0, m, e)
    else
      let length := load16 m (desc_length d) in
      let len := if length >? buf_size then buf_size else length in
      let m1 := memcpy m buf (rx_buffer (rx_cur e)) (Z.to_nat len) in
      let m2 := store8 m1 (rx_status d) 0 in
      let old := rx_cur e in
      let e1 := e1000_write m2 (with_rx_cur e ((old +₃₂ 1) mod E1000_NUM_RX_DESC)) REG_RDT old in
      (len, m2, with_stats e1 (stat_rx e1 +₃₂ 1) (stat_tx e1)).
End driver.

(** ** Specification *)

(** The value a register was last set to. *)
Definition reg_written (log : list mm_op) (reg : Z) : Z :=
  fold_left (fun acc o => match o with MmWrite r v _ => if r =? reg then v else acc | MmRead _ _ => acc end) log 0.

Lemma reg_written_read log reg r v : reg_written (log ++ [MmRead r v]) reg = reg_written log reg.
Proof. unfold reg_written. by rewrite fold_left_app. Qed.

Lemma reg_written_write log reg r v m :
  reg_written (log ++ [MmWrite r v m]) reg = if r =? reg then v else reg_written log reg.
Proof. unfold reg_written. by rewrite fold_left_app. Qed.

(** The [j]-th descriptor of the receive ring from [c] on. *)
Definition slot (c j : Z) : Z := (c + j) mod E1000_NUM_RX_DESC.

Lemma slot_range c j : 0 <= slot c j < E1000_NUM_RX_DESC.
Proof. by apply Z.mod_pos_bound. Qed.

Lemma slot_inj c j k : 0 <= j < E1000_NUM_RX_DESC -> 0 <= k < E1000_NUM_RX_DESC -> slot c j = slot c k -> j = k.
Proof. unfold slot, E1000_NUM_RX_DESC. intros. dlia. Qed.

Lemma slot_next c j : slot (slot c 1) j = slot c (1 + j).
Proof. unfold slot, E1000_NUM_RX_DESC. rewrite Z.add_mod_idemp_l by done. f_equal. lia. Qed.

Lemma slot_succ c j : slot (slot c j) 1 = slot c (j + 1).
Proof. unfold slot, E1000_NUM_RX_DESC. rewrite Z.add_mod_idemp_l by done. f_equal. lia. Qed.

Section ring.
Context (rx_descs rx_buffers buf size : Z).

(** The arrays of the driver and the caller's buffer do not overlap. *)
Record rx_layout : Prop := {
  lay_low : 0 <= rx_descs /\ 0 <= rx_buffers;
  lay_high : rx_descs + sizeof_desc * E1000_NUM_RX_DESC <= 2 ^ 32 /\
    rx_buffers + E1000_RX_BUF_SIZE * E1000_NUM_RX_DESC <= 2 ^ 32;
  lay_rings : rx_descs + sizeof_desc * E1000_NUM_RX_DESC <= rx_buffers \/
    rx_buffers + E1000_RX_BUF_SIZE * E1000_NUM_RX_DESC <= rx_descs;
  lay_buf_descs : buf + size <= rx_descs \/ rx_descs + sizeof_desc * E1000_NUM_RX_DESC <= buf;
  lay_buf_buffers : buf + size <= rx_buffers \/ rx_buffers + E1000_RX_BUF_SIZE * E1000_NUM_RX_DESC <= buf;
  lay_size : E1000_RX_BUF_SIZE <= size;
}.

Abbreviation rx_desc := (rx_desc rx_descs).
Abbreviation rx_buffer := (rx_buffer rx_buffers).

Record rx_world := RxWorld {
  rw_m : memory;
  rw_e : e1000;
  (** the card's head register *)
  rw_head : Z;
  (** the frames the card has put in the ring, and those the driver has returned *)
  rw_accepted : list (list Z);
  rw_delivered : list (list Z);
}.

Definition rx_tail (e : e1000) : Z := reg_written (mm_log (regs e)) REG_RDT.

(** Descriptor [i] holds the received frame [f]; descriptor [i] is not done. *)
Definition filled (m : memory) (i : Z) (f : list Z) : Prop :=
  load16 m (desc_length (rx_desc i)) = Z.of_nat (length f) /\
  Z.testbit (load8 m (rx_status (rx_desc i))) 0 = true /\ bytes_at m (rx_buffer i) (length f) = f.
Definition not_done (m : memory) (i : Z) : Prop := Z.testbit (load8 m (rx_status (rx_desc i))) 0 = false.

(** A frame the card accepts into one buffer. *)
Definition fits (f : list Z) : Prop := 0 < Z.of_nat (length f) <= E1000_RX_BUF_SIZE.

Inductive rx_step : rx_world -> rx_world -> Prop :=
  (** the card receives a frame *)
  | rx_arrive m m' e h acc del f :
      h <> rx_tail e -> fits f ->
      load16 m' (desc_length (rx_desc h)) = Z.of_nat (length f) ->
      Z.testbit (load8 m' (rx_status (rx_desc h))) 0 = true ->
      bytes_at m' (load32 m (desc_addr_lo (rx_desc h))) (length f) = f ->
      (forall a, ~ (rx_desc h + 8 <= a < rx_desc h + 16) ->
         ~ (load32 m (desc_addr_lo (rx_desc h)) <= a < load32 m (desc_addr_lo (rx_desc h)) + Z.of_nat (length f)) ->
         load8 m' a = load8 m a) ->
      rx_step (RxWorld m e h acc del) (RxWorld m' e (slot h 1) (acc ++ [f]) del)
  (** the driver polls *)
  | rx_poll m e h acc del n m' e' :
      e1000_receive rx_descs rx_buffers m e buf size = (n, m', e') ->
      rx_step (RxWorld m e h acc del)
        (RxWorld m' e' h acc (if 0 <? n then del ++ [bytes_at m' buf (Z.to_nat n)] else del))
  (** the rest of the kernel writes elsewhere *)
  | rx_other m m' e h acc del :
      (forall i a, 0 <= i < E1000_NUM_RX_DESC ->
         rx_desc i <= a < rx_desc i + sizeof_desc \/ rx_buffer i <= a < rx_buffer i + E1000_RX_BUF_SIZE ->
         load8 m' a = load8 m a) ->
      rx_step (RxWorld m e h acc del) (RxWorld m' e h acc del).

(** [q] are the frames waiting in the ring. *)
Record rx_inv (w : rx_world) (q : list (list Z)) : Prop := {
  ri_init : initialised (rw_e w) = true;
  ri_cur : 0 <= rx_cur (rw_e w) < E1000_NUM_RX_DESC;
  ri_len : Z.of_nat (length q) < E1000_NUM_RX_DESC;
  ri_head : rw_head w = slot (rx_cur (rw_e w)) (Z.of_nat (length q));
  ri_tail : rx_tail (rw_e w) = slot (rx_cur (rw_e w)) (E1000_NUM_RX_DESC - 1);
  ri_addr : forall i, 0 <= i < E1000_NUM_RX_DESC -> load32 (rw_m w) (desc_addr_lo (rx_desc i)) = rx_buffer i;
  ri_full : forall j f, q !! j = Some f -> fits f /\ filled (rw_m w) (slot (rx_cur (rw_e w)) (Z.of_nat j)) f;
  ri_empty : forall j, Z.of_nat (length q) <= j < E1000_NUM_RX_DESC -> not_done (rw_m w) (slot (rx_cur (rw_e w)) j);
  ri_order : rw_accepted w = rw_delivered w ++ q;
}.

(** ** The ring in memory *)

(** Descriptor [i] and its buffer are the same in both memories. *)
Definition agree (m m' : memory) (i : Z) : Prop :=
  forall a, rx_desc i <= a < rx_desc i + sizeof_desc \/ rx_buffer i <= a < rx_buffer i + E1000_RX_BUF_SIZE ->
    load8 m' a = load8 m a.

Lemma agree_addr m m' i : agree m m' i -> load32 m' (desc_addr_lo (rx_desc i)) = load32 m (desc_addr_lo (rx_desc i)).
Proof. intros Ha. apply load_le_ext. intros b Hb. apply Ha. unfold desc_addr_lo, sizeof_desc in *. lia. Qed.

Lemma agree_done m m' i : agree m m' i -> load8 m' (rx_status (rx_desc i)) = load8 m (rx_status (rx_desc i)).
Proof. intros Ha. apply Ha. unfold rx_status, sizeof_desc. lia. Qed.

Lemma agree_filled m m' i f : agree m m' i -> fits f -> filled m i f -> filled m' i f.
Proof.
  intros Ha Hf (Hl & Hd & Hb). unfold filled. rewrite (agree_done m m' i Ha). split; [|split; [done|]].
  - rewrite <- Hl. apply load_le_ext. intros b Hbb. apply Ha. unfold desc_length, sizeof_desc in *. lia.
  - rewrite <- Hb at 2. apply bytes_at_ext. intros b Hbb. apply Ha. unfold fits in Hf. lia.
Qed.

Lemma agree_not_done m m' i : agree m m' i -> not_done m i -> not_done m' i.
Proof. intros Ha. unfold not_done. by rewrite (agree_done m m' i Ha). Qed.

(** Only descriptors whose memory changed change in the invariant. *)
Lemma rx_inv_agree m m' e h acc del q :
  (forall i, 0 <= i < E1000_NUM_RX_DESC -> agree m m' i) ->
  rx_inv (RxWorld m e h acc del) q -> rx_inv (RxWorld m' e h acc del) q.
Proof.
  intros Ha [Hi Hc Hl Hh Ht Had Hfu Hem Ho]. cbn [rw_m rw_e rw_head rw_accepted rw_delivered] in *.
  split; cbn [rw_m rw_e rw_head rw_accepted rw_delivered]; try done.
  - intros i Hir. rewrite (agree_addr m m' i) by auto. auto.
  - intros j f Hj. destruct (Hfu j f Hj) as [Hft Hfd]. split; [done|].
    apply (agree_filled m m'); [apply Ha, slot_range|done|done].
  - intros j Hj. apply (agree_not_done m m'); [apply Ha, slot_range|auto].
Qed.

Context (Hlay : rx_layout).

Lemma desc_apart i k a :
  0 <= i < E1000_NUM_RX_DESC -> 0 <= k < E1000_NUM_RX_DESC -> i <> k ->
  rx_desc i <= a < rx_desc i + sizeof_desc \/ rx_buffer i <= a < rx_buffer i + E1000_RX_BUF_SIZE ->
  ~ (rx_desc k <= a < rx_desc k + sizeof_desc) /\ ~ (rx_buffer k <= a < rx_buffer k + E1000_RX_BUF_SIZE).
Proof.
  destruct Hlay as [_ _ Hr _ _ _]. unfold E1000.rx_desc, E1000.rx_buffer, sizeof_desc, E1000_RX_BUF_SIZE, E1000_NUM_RX_DESC in *.
  lia.
Qed.

(** ** Steps keep the invariant *)

Lemma rx_arrive_inv m m' e h acc del f q :
  rx_inv (RxWorld m e h acc del) q -> h <> rx_tail e -> fits f ->
  load16 m' (desc_length (rx_desc h)) = Z.of_nat (length f) ->
  Z.testbit (load8 m' (rx_status (rx_desc h))) 0 = true ->
  bytes_at m' (load32 m (desc_addr_lo (rx_desc h))) (length f) = f ->
  (forall a, ~ (rx_desc h + 8 <= a < rx_desc h + 16) ->
     ~ (load32 m (desc_addr_lo (rx_desc h)) <= a < load32 m (desc_addr_lo (rx_desc h)) + Z.of_nat (length f)) ->
     load8 m' a = load8 m a) ->
  rx_inv (RxWorld m' e (slot h 1) (acc ++ [f]) del) (q ++ [f]).
Proof.
  intros [Hi Hc Hl Hh Ht Had Hfu Hem Ho] Hne Hf Hlen Hdd Hb Hout.
  cbn [rw_m rw_e rw_head rw_accepted rw_delivered] in *.
  assert (Hhr : 0 <= h < E1000_NUM_RX_DESC) by (rewrite Hh; apply slot_range).
  rewrite (Had h Hhr) in Hb, Hout.
  assert (Hroom : Z.of_nat (length q) < E1000_NUM_RX_DESC - 1).
  { destruct (Z.eq_dec (Z.of_nat (length q)) (E1000_NUM_RX_DESC - 1)) as [E|]; [|lia].
    exfalso. apply Hne. by rewrite Hh, Ht, E. }
  assert (Hag : forall i, 0 <= i < E1000_NUM_RX_DESC -> i <> h -> agree m m' i).
  { intros i Hir Hih a Ha. destruct (desc_apart i h a Hir Hhr Hih Ha) as [N1 N2].
    unfold fits, sizeof_desc in *. apply Hout; lia. }
  assert (Hsl : forall j, 0 <= j < E1000_NUM_RX_DESC -> j <> Z.of_nat (length q) -> slot (rx_cur e) j <> h).
  { intros j Hj Hjq E. rewrite Hh in E. apply slot_inj in E; lia. }
  split; cbn [rw_m rw_e rw_head rw_accepted rw_delivered]; try done.
  - rewrite length_app. cbn [length]. lia.
  - rewrite length_app, Hh, slot_succ. cbn [length]. f_equal. lia.
  - intros i Hir. destruct (Z.eq_dec i h) as [->|Hih].
    + rewrite <- (Had h Hhr). apply load_le_ext. intros b Hbb. destruct Hlay as [_ _ Hr _ _ _].
      unfold desc_addr_lo, E1000.rx_desc, E1000.rx_buffer, fits, sizeof_desc, E1000_RX_BUF_SIZE, E1000_NUM_RX_DESC in *.
      apply Hout; lia.
    + rewrite (agree_addr m m' i) by auto. auto.
  - intros j g Hj. apply lookup_app_Some in Hj as [Hj|[Hge Hj]].
    + pose proof (lookup_lt_Some _ _ _ Hj). destruct (Hfu j g Hj) as [Hg Hfd]. split; [done|].
      apply (agree_filled m m'); [|done|done]. apply Hag; [apply slot_range|apply Hsl; lia].
    + apply list_lookup_singleton_Some in Hj as [Hj ->]. split; [done|].
      replace (Z.of_nat j) with (Z.of_nat (length q)) by lia. rewrite <- Hh. by split.
  - intros j Hj. rewrite length_app in Hj. cbn [length] in Hj. apply (agree_not_done m m').
    + apply Hag; [apply slot_range|apply Hsl; lia].
    + apply Hem. lia.
  - by rewrite Ho, app_assoc.
Qed.

(** Polling an empty ring does nothing. *)
Lemma receive_empty m e :
  initialised e = true -> not_done m (rx_cur e) ->
  e1000_receive rx_descs rx_buffers m e buf size = (0, m, e).
Proof.
  intros Hi Hn. unfold e1000_receive. rewrite Hi. cbn [negb].
  unfold RDESC_STA_DD. rewrite land_shiftl_1 by lia. by rewrite Hn.
Qed.

(** Polling takes the frame of the current descriptor. *)
Lemma receive_frame m e f :
  initialised e = true -> 0 <= rx_cur e < E1000_NUM_RX_DESC -> fits f -> filled m (rx_cur e) f ->
  exists m' e', e1000_receive rx_descs rx_buffers m e buf size = (Z.of_nat (length f), m', e') /\
    bytes_at m' buf (length f) = f /\ not_done m' (rx_cur e) /\
    (forall a, ~ (buf <= a < buf + Z.of_nat (length f)) -> a <> rx_status (rx_desc (rx_cur e)) ->
       load8 m' a = load8 m a) /\
    rx_cur e' = slot (rx_cur e) 1 /\ rx_tail e' = rx_cur e /\ initialised e' = true /\
    stat_rx e' = stat_rx e +₃₂ 1.
Proof.
  intros Hi Hc Hf (Hl & Hd & Hb). unfold e1000_receive. rewrite Hi. cbn [negb].
  unfold RDESC_STA_DD. rewrite land_shiftl_1, Hd, Hl by lia. cbn [negb].
  pose proof Hlay as [_ _ _ Hbd Hbb Hs]. unfold fits in Hf. rewrite Z.gtb_ltb.
  destruct (Z.ltb_spec size (Z.of_nat (length f))) as [|_]; [lia|]. rewrite Nat2Z.id.
  set (m1 := memcpy m buf (rx_buffer (rx_cur e)) (length f)).
  assert (Hm1 : forall a, load8 m1 a = if (buf <=? a) && (a <? buf + Z.of_nat (length f))
    then load8 m (rx_buffer (rx_cur e) + (a - buf)) else load8 m a).
  { intros a. apply memcpy_load. unfold E1000.rx_buffer, E1000_RX_BUF_SIZE, E1000_NUM_RX_DESC in *. lia. }
  eexists _, _. split; [done|]. unfold not_done, rx_tail.
  cbn [rx_cur initialised stat_rx regs mm_log with_stats e1000_write with_regs with_rx_cur]. split; [|split; [|split]].
  - rewrite <- Hb at 2. apply bytes_at_ext2. intros i Hir.
    unfold rx_status, E1000.rx_desc, sizeof_desc, E1000_RX_BUF_SIZE, E1000_NUM_RX_DESC in *.
    rewrite load8_store8_ne, Hm1 by lia. zcases; cbn [andb]; try lia. f_equal. lia.
  - by rewrite load8_store8_eq.
  - intros a Ha Hne. rewrite load8_store8_ne, Hm1 by done. zcases; cbn [andb]; try done; lia.
  - unfold slot, E1000_NUM_RX_DESC in *. unwrap. split; [done|]. split; [|done].
    by rewrite reg_written_write.
Qed.

Lemma rx_poll_inv m e h acc del q n m' e' :
  rx_inv (RxWorld m e h acc del) q ->
  e1000_receive rx_descs rx_buffers m e buf size = (n, m', e') ->
  exists q', rx_inv (RxWorld m' e' h acc (if 0 <? n then del ++ [bytes_at m' buf (Z.to_nat n)] else del)) q'.
Proof.
  intros Hinv E. pose proof Hinv as [Hi Hc Hl Hh Ht Had Hfu Hem Ho].
  cbn [rw_m rw_e rw_head rw_accepted rw_delivered] in *.
  assert (H0 : slot (rx_cur e) 0 = rx_cur e) by (unfold slot; rewrite Z.add_0_r; by apply Z.mod_small).
  destruct q as [|f q].
  { rewrite receive_empty in E; [|done|rewrite <- H0; apply Hem; cbn; unfold E1000_NUM_RX_DESC; lia].
    injection E as <- <- <-. by exists []. }
  destruct (Hfu 0%nat f eq_refl) as [Hf Hfd]. change (Z.of_nat 0) with 0 in Hfd. rewrite H0 in Hfd.
  destruct (receive_frame m e f Hi Hc Hf Hfd) as (m2 & e2 & E2 & Hb & Hnd & Hout & Hc2 & Ht2 & Hi2 & _).
  rewrite E2 in E. injection E as <- <- <-. exists q. cbn [length] in *.
  destruct (Z.ltb_spec 0 (Z.of_nat (length f))) as [_|]; [|unfold fits in Hf; lia]. rewrite Nat2Z.id, Hb.
  pose proof Hlay as [_ _ Hr Hbd Hbb Hs].
  assert (Hag : forall i, 0 <= i < E1000_NUM_RX_DESC -> i <> rx_cur e -> agree m m2 i).
  { intros i Hir Hne a Ha. destruct (desc_apart i (rx_cur e) a Hir Hc Hne Ha) as [N1 N2].
    unfold E1000.rx_desc, E1000.rx_buffer, rx_status, fits, sizeof_desc, E1000_RX_BUF_SIZE, E1000_NUM_RX_DESC in *.
    apply Hout; lia. }
  assert (Hne : forall j, 0 < j < E1000_NUM_RX_DESC -> slot (rx_cur e) j <> rx_cur e).
  { intros j Hj E. rewrite <- H0 in E at 2. apply slot_inj in E; lia. }
  split; cbn [rw_m rw_e rw_head rw_accepted rw_delivered]; rewrite ?Hc2.
  - done.
  - apply slot_range.
  - lia.
  - rewrite slot_next, Hh. f_equal. lia.
  - rewrite Ht2, slot_next. change (1 + (E1000_NUM_RX_DESC - 1)) with E1000_NUM_RX_DESC.
    unfold slot, E1000_NUM_RX_DESC in *. dlia.
  - intros i Hir. destruct (Z.eq_dec i (rx_cur e)) as [->|Hii].
    + rewrite <- (Had (rx_cur e) Hc). apply load_le_ext. intros b Hbr.
      unfold desc_addr_lo, E1000.rx_desc, E1000.rx_buffer, rx_status, fits, sizeof_desc, E1000_RX_BUF_SIZE,
        E1000_NUM_RX_DESC in *. apply Hout; lia.
    + rewrite (agree_addr m m2 i) by auto. auto.
  - intros j g Hj. pose proof (lookup_lt_Some _ _ _ Hj). destruct (Hfu (S j) g Hj) as [Hg Hgd]. split; [done|].
    rewrite slot_next. replace (1 + Z.of_nat j) with (Z.of_nat (S j)) by lia.
    apply (agree_filled m m2); [|done|done]. apply Hag; [apply slot_range|apply Hne; lia].
  - intros j Hj. rewrite slot_next. destruct (Z.eq_dec j (E1000_NUM_RX_DESC - 1)) as [->|Hjn].
    + replace (slot (rx_cur e) (1 + (E1000_NUM_RX_DESC - 1))) with (rx_cur e); [done|].
      unfold slot, E1000_NUM_RX_DESC in *. dlia.
    + apply (agree_not_done m m2); [apply Hag; [apply slot_range|apply Hne; lia]|]. apply Hem. lia.
  - rewrite Ho, <- app_assoc. done.
Qed.

Lemma rx_step_inv w w' q : rx_inv w q -> rx_step w w' -> exists q', rx_inv w' q'.
Proof.
  intros Hinv Hst. destruct Hst as [m m' e h acc del f Hne Hf Hl Hd Hb Ho|m e h acc del n m' e' E|m m' e h acc del Ha].
  - exists (q ++ [f]). by apply (rx_arrive_inv m m').
  - by apply (rx_poll_inv m e h acc del q n m' e').
  - exists q. apply (rx_inv_agree m m'); [|done]. intros i Hi a. by apply Ha.
Qed.

(** ** Initialisation *)

Lemma init_rx_loop_ok n m i :
  0 <= i -> i + Z.of_nat n <= E1000_NUM_RX_DESC ->
  let m' := init_rx_loop rx_descs rx_buffers n m i in
  (forall k, i <= k < i + Z.of_nat n ->
     load32 m' (desc_addr_lo (rx_desc k)) = rx_buffer k /\ load8 m' (rx_status (rx_desc k)) = 0) /\
  same_outside (rx_desc i) (rx_desc (i + Z.of_nat n)) m m'.
Proof.
  destruct Hlay as [Hlow Hhigh _ _ _ _].
  revert m i. induction n as [|n IH]; intros m i Hi Hn; cbn [init_rx_loop]; cbv zeta.
  { split; [lia|]. apply same_outside_refl. }
  set (m3 := store8 _ (rx_status (rx_desc i)) 0).
  destruct (IH m3 (i + 1) ltac:(lia) ltac:(lia)) as [Hk Ho].
  set (m' := init_rx_loop rx_descs rx_buffers n m3 (i + 1)) in *. clearbody m'.
  unfold desc_addr_lo, desc_addr_hi, rx_status, E1000.rx_desc, E1000.rx_buffer, sizeof_desc, E1000_RX_BUF_SIZE,
    E1000_NUM_RX_DESC in *.
  split.
  - intros k Hkr. destruct (Z.eq_dec k i) as [->|]; [|apply Hk; lia]. split.
    + transitivity (load32 m3 (rx_descs + 16 * i)); [apply load_le_ext; intros b Hb; apply Ho; lia|].
      unfold m3. rewrite load32_store8_ne, load32_store32_ne by lia. apply load32_store32_same. lia.
    + rewrite Ho by lia. unfold m3. by rewrite load8_store8_eq.
  - intros a Ha. rewrite Ho by lia. unfold m3.
    rewrite load8_store8_ne, !load8_store32_ne by lia. done.
Qed.

Lemma init_rx_inv m m' e e' :
  init_rx rx_descs rx_buffers m e = (m', e') ->
  forall m2 e2, (forall i, 0 <= i < E1000_NUM_RX_DESC -> agree m' m2 i) ->
  initialised e2 = true -> rx_cur e2 = 0 -> rx_tail e2 = E1000_NUM_RX_DESC - 1 ->
  rx_inv (RxWorld m2 e2 0 [] []) [].
Proof.
  intros E m2 e2 Ha Hi Hc Ht. unfold init_rx in E. apply (f_equal fst) in E. cbn [fst] in E. subst m'.
  destruct (init_rx_loop_ok (Z.to_nat E1000_NUM_RX_DESC) m 0 ltac:(lia) ltac:(unfold E1000_NUM_RX_DESC; lia)) as [Hk _].
  change (0 + Z.of_nat (Z.to_nat E1000_NUM_RX_DESC)) with E1000_NUM_RX_DESC in Hk.
  set (m1 := init_rx_loop _ _ _ m 0) in *. clearbody m1.
  split; cbn [rw_m rw_e rw_head rw_accepted rw_delivered]; rewrite ?Hc; try done.
  - intros i Hir. rewrite (agree_addr m1 m2 i) by auto. by apply Hk.
  - intros j Hj. apply (agree_not_done m1 m2); [apply Ha, slot_range|]. unfold not_done.
    by rewrite (proj2 (Hk _ (slot_range 0 j))).
Qed.
End ring.

(** ** Sending *)

Section send.
Context (tx_descs : Z).
Abbreviation tx_desc := (tx_desc tx_descs).

(** Memory after the card has made [k] of its changes. *)
Fixpoint after (polls : list (memory -> memory)) (k : nat) (m : memory) : memory :=
  match k with
  | O => m
  | S k' => after (tl polls) k' (match polls with [] => m | f :: _ => f m end)
  end.

Definition tx_done (m : memory) (i : Z) : Prop := Z.testbit (load8 m (tx_status (tx_desc i))) 0 = true.

(** Descriptor [i] asks for the [len] bytes at [data] to be sent as one frame,
    with a report when it is done. *)
Definition tx_ready (m : memory) (i data len : Z) : Prop :=
  let d := tx_desc i in
  load32 m (desc_addr_lo d) = data /\ load32 m (desc_addr_hi d) = 0 /\ load16 m (desc_length d) = len /\
  load8 m (tx_cmd d) = 2 ^ 0 + 2 ^ 1 + 2 ^ 3 /\ load8 m (tx_status d) = 0.

Lemma tx_post_ok m e data len :
  0 <= data < 2 ^ 32 -> 0 <= len < 2 ^ 16 ->
  let '(m1, e1) := tx_post tx_descs m e data len in
  tx_ready m1 (tx_cur e) data len /\ same_outside (tx_desc (tx_cur e)) (tx_desc (tx_cur e) + sizeof_desc) m m1.
Proof.
  intros Hd Hl. unfold tx_post, tx_ready. set (d := tx_desc (tx_cur e)). cbv zeta.
  unfold desc_addr_lo, desc_addr_hi, desc_length, tx_cmd, tx_status, sizeof_desc, store32, store16, load32, load16.
  split; [repeat split|].
  - rewrite !(load_le_ext _ _ (store8 _ _ _)) by (intros b Hb; apply load8_store8_ne; lia).
    rewrite !load_store_le_disjoint, load_store_le_eq by lia. by apply u32_small.
  - rewrite !(load_le_ext _ _ (store8 _ _ _)) by (intros b Hb; apply load8_store8_ne; lia).
    rewrite load_store_le_disjoint, load_store_le_eq by lia. done.
  - rewrite !(load_le_ext _ _ (store8 _ _ _)) by (intros b Hb; apply load8_store8_ne; lia).
    rewrite load_store_le_eq. by apply u16_small.
  - rewrite load8_store8_ne, load8_store8_eq by lia. done.
  - by rewrite load8_store8_eq.
  - intros a Ha. rewrite !load8_store8_ne, !store_le_outside by lia. done.
Qed.

Lemma tx_wait_ok n polls m i :
  (exists k, (k < n)%nat /\ tx_done (after polls (S k) m) i /\
     (forall j, (j < k)%nat -> ~ tx_done (after polls (S j) m) i) /\
     tx_wait tx_descs n polls m i = (true, after polls (S k) m)) \/
  ((forall k, (k < n)%nat -> ~ tx_done (after polls (S k) m) i) /\
   tx_wait tx_descs n polls m i = (false, after polls n m)).
Proof.
  revert polls m. induction n as [|n IH]; intros polls m; cbn [tx_wait].
  { right. split; [lia|done]. }
  set (m1 := match polls with [] => m | f :: _ => f m end).
  assert (Ha : forall k, after polls (S k) m = after (tl polls) k m1) by done.
  unfold TDESC_STA_DD. rewrite land_shiftl_1 by lia. rewrite negb_involutive.
  destruct (Z.testbit (load8 m1 (tx_status (tx_desc i))) 0) eqn:Hd.
  - left. exists O. split; [lia|]. split; [done|]. split; [lia|done].
  - assert (H0 : ~ tx_done (after polls 1 m) i) by (unfold tx_done; rewrite Ha; cbn [after]; congruence).
    destruct (IH (tl polls) m1) as [(k & Hk & Hdk & Hn & E)|[Hn E]].
    + left. exists (S k). split; [lia|]. split; [by rewrite Ha|]. split; [|by rewrite Ha].
      intros [|j] Hj; [done|]. rewrite Ha. apply Hn. lia.
    + right. split; [|by rewrite Ha]. intros [|k] Hk; [done|]. rewrite Ha. apply Hn. lia.
Qed.

(** What the card leaves alone stays. *)
Lemma after_keeps (g : memory -> Z) polls k m :
  Forall (fun f => forall m, g (f m) = g m) polls -> g (after polls k m) = g m.
Proof.
  revert polls m. induction k as [|k IH]; intros polls m Hp; cbn [after]; [done|].
  destruct Hp as [|f polls Hf Hp]; cbn [tl]; rewrite IH by done; [done|apply Hf].
Qed.

(** What sending does.  [m1] is memory when the card is told. *)
Definition send_result (polls : list (memory -> memory)) (m : memory) (e : e1000) (data len : Z)
  (res : Z * memory * e1000) : Prop :=
  let '(r, m', e') := res in
  if negb (initialised e) || (1518 <? len) then r = -1 /\ m' = m /\ e' = e
  else
    let next := (tx_cur e + 1) mod E1000_NUM_TX_DESC in
    let d := tx_desc (tx_cur e) in
    exists m1, tx_ready m1 (tx_cur e) data len /\ same_outside d (d + sizeof_desc) m m1 /\
      mm_log (regs e') = mm_log (regs e) ++ [MmWrite REG_TDT next m1] /\ tx_cur e' = next /\
      ((exists k, (k < Z.to_nat TX_TIMEOUT)%nat /\ tx_done (after polls (S k) m1) (tx_cur e) /\
          (forall j, (j < k)%nat -> ~ tx_done (after polls (S j) m1) (tx_cur e)) /\
          r = len /\ m' = after polls (S k) m1 /\ stat_tx e' = stat_tx e +₃₂ 1) \/
       ((forall k, (k < Z.to_nat TX_TIMEOUT)%nat -> ~ tx_done (after polls (S k) m1) (tx_cur e)) /\
        r = -1 /\ m' = after polls (Z.to_nat TX_TIMEOUT) m1 /\ stat_tx e' = stat_tx e /\
        (Forall (fun f => forall m, load32 (f m) (desc_addr_lo d) = load32 m (desc_addr_lo d)) polls ->
         load32 m' (desc_addr_lo d) = data))).

Lemma e1000_send_ok polls m e data len :
  0 <= data < 2 ^ 32 -> 0 <= len < 2 ^ 16 -> 0 <= tx_cur e < E1000_NUM_TX_DESC ->
  send_result polls m e data len (e1000_send tx_descs polls m e data len).
Proof.
  intros Hd Hl Hc. unfold send_result, e1000_send. rewrite Z.gtb_ltb. generalize (Z.to_nat TX_TIMEOUT). intros timeout.
  destruct (negb (initialised e) || (1518 <? len)) eqn:Hg; [done|].
  pose proof (tx_post_ok m e data len Hd Hl) as Hp.
  assert (He : exists m1, tx_post tx_descs m e data len =
    (m1, e1000_write m1 (with_tx_cur e ((tx_cur e + 1) mod E1000_NUM_TX_DESC)) REG_TDT
           ((tx_cur e + 1) mod E1000_NUM_TX_DESC))).
  { eexists. unfold tx_post. rewrite (u32_small (tx_cur e + 1)) by (unfold E1000_NUM_TX_DESC in Hc; lia). done. }
  destruct He as [m1 E1]. rewrite E1 in Hp |- *. destruct Hp as [Hr Ho].
  assert (Hnext : u32 ((tx_cur e + 1) mod E1000_NUM_TX_DESC) = (tx_cur e + 1) mod E1000_NUM_TX_DESC).
  { apply u32_small. unfold E1000_NUM_TX_DESC. clear. dlia. }
  destruct (tx_wait_ok timeout polls m1 (tx_cur e)) as [(k & Hk & Hdk & Hn & E)|[Hn E]];
    rewrite E; cbn [negb]; exists m1; (split; [done|]); (split; [done|]);
    cbn [regs mm_log tx_cur stat_tx with_stats e1000_write with_regs with_tx_cur]; rewrite Hnext; (split; [done|]);
    (split; [done|]).
  - left. exists k. done.
  - right. do 4 (split; [done|]). intros Hk. rewrite <- (proj1 Hr).
    apply (after_keeps (fun m => load32 m (desc_addr_lo (tx_desc (tx_cur e))))), Hk.
Qed.

(** C23: [e1000_send].  A card that is not initialised or a frame over 1518 bytes
    gives -1 and changes nothing.  Otherwise the only access to the card is one
    write that moves the tail register past the current descriptor, to the next
    of the eight, and in memory as the card finds it at that write the descriptor is
    completely filled in.  The call returns the length, and counts the
    frame, as soon as a poll finds the descriptor done.  After 100000 polls
    without that it returns -1, and unless the card itself has changed the
    address in the descriptor, it still points to the caller's data. *)
Theorem e1000_send_correct polls m e data len :
  0 <= data < 2 ^ 32 -> 0 <= len < 2 ^ 16 -> 0 <= tx_cur e < E1000_NUM_TX_DESC ->
  let '(r, m', e') := e1000_send tx_descs polls m e data len in
  if negb (initialised e) || (1518 <? len) then r = -1 /\ m' = m /\ e' = e
  else
    let next := (tx_cur e + 1) mod E1000_NUM_TX_DESC in
    let d := tx_desc (tx_cur e) in
    exists m1, tx_ready m1 (tx_cur e) data len /\ same_outside d (d + sizeof_desc) m m1 /\
      mm_log (regs e') = mm_log (regs e) ++ [MmWrite REG_TDT next m1] /\ tx_cur e' = next /\
      ((exists k, (k < Z.to_nat TX_TIMEOUT)%nat /\ tx_done (after polls (S k) m1) (tx_cur e) /\
          (forall j, (j < k)%nat -> ~ tx_done (after polls (S j) m1) (tx_cur e)) /\
          r = len /\ m' = after polls (S k) m1 /\ stat_tx e' = stat_tx e +₃₂ 1) \/
       ((forall k, (k < Z.to_nat TX_TIMEOUT)%nat -> ~ tx_done (after polls (S k) m1) (tx_cur e)) /\
        r = -1 /\ m' = after polls (Z.to_nat TX_TIMEOUT) m1 /\ stat_tx e' = stat_tx e /\
        (Forall (fun f => forall m, load32 (f m) (desc_addr_lo d) = load32 m (desc_addr_lo d)) polls ->
         load32 m' (desc_addr_lo d) = data))).
Proof. apply e1000_send_ok. Qed.
End send.

(** ** Properties *)

(** The card's ring registers are set up for empty rings, both directions are
    enabled and the link is up. *)
Definition rings_programmed (rx_descs tx_descs : Z) (e : e1000) : Prop :=
  let reg := reg_written (mm_log (regs e)) in
  reg REG_RDBAL = rx_descs /\ reg REG_RDBAH = 0 /\ reg REG_RDLEN = sizeof_desc * E1000_NUM_RX_DESC /\
  reg REG_RDH = 0 /\ reg REG_RDT = E1000_NUM_RX_DESC - 1 /\ Z.testbit (reg REG_RCTL) 1 = true /\
  reg REG_TDBAL = tx_descs /\ reg REG_TDBAH = 0 /\ reg REG_TDLEN = sizeof_desc * E1000_NUM_TX_DESC /\
  reg REG_TDH = 0 /\ reg REG_TDT = 0 /\ Z.testbit (reg REG_TCTL) 1 = true /\ Z.testbit (reg REG_CTRL) 6 = true.

Lemma link_bit x : Z.testbit (u32 (Z.lor x CTRL_SLU)) 6 = true.
Proof. unfold u32, wrap. rewrite Z.mod_pow2_bits_low, Z.lor_spec by lia. apply orb_true_r. Qed.

(** Simplify the registers written by a sequence of accesses. *)
Ltac regs_simpl :=
  cbn [regs mm_log mm_in rx_cur tx_cur initialised mmio_base mac_addr stat_rx stat_tx with_regs with_stats with_base
       with_rx_cur with_tx_cur with_mac e1000_write e1000_read fst snd];
  repeat first [rewrite reg_written_write | rewrite reg_written_read];
  cbn [REG_CTRL REG_STATUS REG_RCTL REG_TCTL REG_RDBAL REG_RDBAH REG_RDLEN REG_RDH REG_RDT REG_TDBAL REG_TDBAH
       REG_TDLEN REG_TDH REG_TDT Z.eqb Pos.eqb].

Section init.
Context (rx_descs tx_descs rx_buffers buf size : Z).
Context (Hlay : rx_layout rx_descs rx_buffers buf size).
Context (Htx : 0 <= tx_descs /\ tx_descs + sizeof_desc * E1000_NUM_TX_DESC <= 2 ^ 32).
(** The transmit ring is apart from the receive ring. *)
Context (Hap1 : tx_descs + sizeof_desc * E1000_NUM_TX_DESC <= rx_descs \/
  rx_descs + sizeof_desc * E1000_NUM_RX_DESC <= tx_descs).
Context (Hap2 : tx_descs + sizeof_desc * E1000_NUM_TX_DESC <= rx_buffers \/
  rx_buffers + E1000_RX_BUF_SIZE * E1000_NUM_RX_DESC <= tx_descs).

(** Ring setup, from any state of the registers. *)
Lemma init_rings m e v1 in1 :
  let '(m2, e7) := init_rx rx_descs rx_buffers m e in
  let '(m3, e8) := init_tx tx_descs m2 e7 in
  let '(ctrl, e9) := e1000_read e8 REG_CTRL in
  let e10 := with_stats (with_base (e1000_write m3 e9 REG_CTRL (Z.lor ctrl CTRL_SLU)) v1 true) 0 0 in
  let e11 := with_regs e10 {| mm_log := mm_log (regs e10) ++ [MmRead REG_STATUS in1]; mm_in := tl (mm_in (regs e10)) |} in
  rings_programmed rx_descs tx_descs e11 /\ mmio_base e11 = v1 /\ initialised e11 = true /\ tx_cur e11 = 0 /\
  rx_inv rx_descs rx_buffers (RxWorld m3 e11 0 [] []) [].
Proof.
  destruct (init_rx rx_descs rx_buffers m e) as [m2 e7] eqn:Erx.
  pose proof (init_rx_inv rx_descs rx_buffers buf size Hlay m m2 e e7 Erx) as Hinv.
  unfold init_rx in Erx. apply (f_equal snd) in Erx. cbn [snd] in Erx. subst e7.
  unfold init_tx. cbv zeta. set (m3 := memset m2 tx_descs 0 _).
  assert (Hm3 : forall i, 0 <= i < E1000_NUM_RX_DESC -> agree rx_descs rx_buffers m2 m3 i).
  { intros i Hi a Ha. unfold m3. rewrite memset_load. destruct Hlay as [_ _ _ _ _ _].
    unfold rx_desc, rx_buffer, sizeof_desc, E1000_RX_BUF_SIZE, E1000_NUM_RX_DESC, E1000_NUM_TX_DESC in *.
    zcases; cbn [andb]; try done. lia. }
  clearbody m3. destruct Hlay as [Hlow Hhigh _ _ _ _].
  unfold e1000_read. cbv zeta. split.
  { unfold rings_programmed. regs_simpl. unfold sizeof_desc, E1000_NUM_RX_DESC, E1000_NUM_TX_DESC in *.
    rewrite (u32_small rx_descs), (u32_small tx_descs) by lia. do 12 (split; [done|]). apply link_bit. }
  split; [done|]. split; [done|]. split; [done|]. apply Hinv; [done|done|done|].
  unfold rx_tail. regs_simpl. done.
Qed.

(** The command register after the two enable bits are written. *)
Lemma enable_bits {S : Type} `{PciBus S} (s : S) bus slot i :
  0 <= bus < 256 -> 0 <= slot < 32 -> rw (reg_addr bus slot 0 4) = true -> i = 1 \/ i = 2 ->
  let '(cmd, s1) := pci_read16 s bus slot 0 PCI_COMMAND in
  Z.testbit (config (pci_write16 s1 bus slot 0 PCI_COMMAND (Z.lor cmd (Z.lor PCI_CMD_MEMORY PCI_CMD_MASTER)))
    (reg_addr bus slot 0 4)) i = true.
Proof.
  intros Hb Hs Hrw Hi. destruct (pci_read16_spec bus slot 0 Hb Hs ltac:(lia) s PCI_COMMAND ltac:(done)) as [E _].
  destruct (pci_read16 s bus slot 0 PCI_COMMAND) as [cmd s1]. cbn [fst] in E.
  assert (Hc : 0 <= cmd < 2 ^ 16) by (rewrite E; by apply Z.mod_pos_bound).
  assert (Hv : 0 <= Z.lor cmd (Z.lor PCI_CMD_MEMORY PCI_CMD_MASTER) < 2 ^ 16) by (by apply lor_range).
  rewrite (pci_write16_spec bus slot 0 Hb Hs ltac:(lia) s1 PCI_COMMAND _ ltac:(done) Hv Hrw).
  change (PCI_COMMAND / 4 * 4) with 4. rewrite Z.eqb_refl. unfold replace_half.
  change (PCI_COMMAND / 2 mod 2 =? 0) with true. cbn iota. rewrite <- lor_low by lia.
  rewrite Z.lor_spec, Z.mul_pow2_bits_low by lia. rewrite Z.lor_spec. cbn [orb].
  destruct Hi as [-> | ->]; apply orb_true_r.
Qed.

(** What [e1000_init] leaves, in both cases. *)
Definition init_result {S : Type} `{PciBus S} (w : machine) (s : S) (p : pmm) (v : vmm) (e : e1000)
  (res : Z * machine * S * pmm * vmm * e1000) : Prop :=
  let '(r, w', s', p', v', e') := res in
  (r = -1 /\ (forall b i, 0 <= b < 256 -> 0 <= i < 32 -> ~ identifies s E1000_VENDOR E1000_DEVICE b i) /\
   e' = e /\ p' = p /\ v' = v /\ ram w' = ram w) \/
  (r = 0 /\ exists d, describes s E1000_VENDOR E1000_DEVICE d /\ mmio_base e' = d_bar0 d /\ initialised e' = true /\
   (rw (reg_addr (d_bus d) (d_slot d) 0 4) = true -> forall i, i = 1 \/ i = 2 ->
      Z.testbit (config s' (reg_addr (d_bus d) (d_slot d) 0 4)) i = true) /\
   rings_programmed rx_descs tx_descs e' /\ tx_cur e' = 0 /\
   rx_inv rx_descs rx_buffers (RxWorld (ram w') e' 0 [] []) []).

Lemma e1000_init_holds {S : Type} `{PciBus S} (w : machine) (s : S) (p : pmm) (v : vmm) (e : e1000) :
  init_result w s p v e (e1000_init rx_descs tx_descs rx_buffers w s p v e).
Proof.
  unfold init_result, e1000_init. pose proof (pci_find_device_spec s E1000_VENDOR E1000_DEVICE ltac:(done) ltac:(done)) as Hf.
  destruct (pci_find_device s E1000_VENDOR E1000_DEVICE) as [[d|] s1]; destruct Hf as [K Hf]; cbn [fst snd] in *.
  2:{ left. split; [done|]. split; [|done]. intros b i Hb Hi. by apply Hf. }
  destruct Hf as (D & _). pose proof D as (Hb & Hsl & Hfn & _).
  unfold e1000_setup. rewrite Hfn. pose proof (fun i => enable_bits s1 (d_bus d) (d_slot d) i Hb Hsl) as Hbits.
  destruct (pci_read16 s1 (d_bus d) (d_slot d) 0 PCI_COMMAND) as [cmd s2].
  destruct (map_mmio 32 _ p v (d_bar0 d) 0) as [[m1 p1] v1].
  unfold e1000_read at 1 2. destruct (read_mac_eeprom _ _) as [ok e4].
  set (e6 := clear_mta 128 _ _ 0). clearbody e6.
  pose proof (init_rings m1 e6 (d_bar0 d)) as Hr. destruct (init_rx rx_descs rx_buffers m1 e6) as [m2 e7].
  destruct (init_tx tx_descs m2 e7) as [m3 e8]. destruct (e1000_read e8 REG_CTRL) as [ctrl e9]. cbv zeta in Hr |- *.
  set (e10 := with_stats _ 0 0) in *. unfold e1000_read. cbv zeta.
  specialize (Hr (u32 (hd 0 (mm_in (regs e10))))). destruct Hr as (R1 & R2 & R3 & R4 & R5).
  right. split; [done|]. exists d. split; [done|]. split; [done|]. split; [done|]. split; [|split; [done|split; [done|]]].
  - intros Hrw i Hi. by apply Hbits.
  - destruct (negb _); exact R5.
Qed.

#[local] Opaque e1000_init.

(** C24: [e1000_init].  Without a card on the bus it returns -1 and leaves the
    driver, paging and memory as they were.  With one it returns 0; the base
    address is the card's, the card may use memory and the bus, both rings are
    programmed and empty, the receive descriptors point to the receive buffers,
    and the invariant of reception holds. *)
Theorem e1000_init_correct {S : Type} `{PciBus S} (w : machine) (s : S) (p : pmm) (v : vmm) (e : e1000) :
  let '(r, w', s', p', v', e') := e1000_init rx_descs tx_descs rx_buffers w s p v e in
  (r = -1 /\ (forall b i, 0 <= b < 256 -> 0 <= i < 32 -> ~ identifies s E1000_VENDOR E1000_DEVICE b i) /\
   e' = e /\ p' = p /\ v' = v /\ ram w' = ram w) \/
  (r = 0 /\ exists d, describes s E1000_VENDOR E1000_DEVICE d /\ mmio_base e' = d_bar0 d /\ initialised e' = true /\
   (rw (reg_addr (d_bus d) (d_slot d) 0 4) = true -> forall i, i = 1 \/ i = 2 ->
      Z.testbit (config s' (reg_addr (d_bus d) (d_slot d) 0 4)) i = true) /\
   rings_programmed rx_descs tx_descs e' /\ tx_cur e' = 0 /\
   rx_inv rx_descs rx_buffers (RxWorld (ram w') e' 0 [] []) []).
Proof.
  pose proof (e1000_init_holds w s p v e) as R. unfold init_result in R.
  destruct (e1000_init rx_descs tx_descs rx_buffers w s p v e) as [[[[[r w'] s'] p'] v'] e']. exact R.
Qed.

(** C16: reception loses and reorders nothing.  From the state [e1000_init]
    leaves, under every interleaving of frames the card puts in the ring, polls of
    the driver, and writes of the rest of the kernel elsewhere, the frames
    returned by [e1000_receive] are, byte for byte and in order, the first of
    those the card accepted; at most 31 wait in the ring. *)
Theorem e1000_rx_fifo {S : Type} `{PciBus S} (w : machine) (s : S) (p : pmm) (v : vmm) (e : e1000)
  (w' : machine) (s' : S) (p' : pmm) (v' : vmm) (e' : e1000) (x : rx_world) :
  e1000_init rx_descs tx_descs rx_buffers w s p v e = (0, w', s', p', v', e') ->
  rtc (rx_step rx_descs rx_buffers buf size) (RxWorld (ram w') e' 0 [] []) x ->
  exists q, rw_accepted x = rw_delivered x ++ q /\ Z.of_nat (length q) < E1000_NUM_RX_DESC.
Proof.
  intros E Hsteps. pose proof (e1000_init_holds w s p v e) as Hi. rewrite E in Hi. unfold init_result in Hi.
  destruct Hi as [(F & _)|(_ & d & _ & _ & _ & _ & _ & _ & Hinv)]; [done|].
  assert (Hx : exists q, rx_inv rx_descs rx_buffers x q).
  { clear E. revert Hinv. generalize (@nil (list Z)) at 3. intros q Hinv. revert q Hinv.
    induction Hsteps as [x|x y z Hst _ IH]; intros q Hinv; [by exists q|].
    destruct (rx_step_inv _ _ _ _ Hlay x y q Hinv Hst) as [q' Hq']. by apply (IH q'). }
  destruct Hx as [q Hq]. exists q. split; [apply Hq|]. apply (ri_len _ _ _ _ Hq).
Qed.
End init.

(** ** Instances *)

Lemma demo_layout : rx_layout 0x10000 0x20000 0x40000 2048.
Proof. unfold E1000_RX_BUF_SIZE, E1000_NUM_RX_DESC, sizeof_desc. split; unfold E1000_RX_BUF_SIZE, E1000_NUM_RX_DESC, sizeof_desc; lia. Qed.

(** The card answers the EEPROM reads at once. *)
Definition demo_e1000 : e1000 := E1000 0 [0; 0; 0; 0; 0; 0] false 0 0 0 0 (Mmio [] [0; 0; 0x54520010; 0x12000010; 0x56340010]).

Abbreviation demo_init :=
  (e1000_init 0x10000 0x10200 0x20000 (Machine ∅ []) demo_bus (Pmm 0 0 0 0 0) (Vmm 0x1000 0 0 0 0 0 false ∅) demo_e1000).

Lemma e1000_init_correct_witness :
  let '(r, w', s', p', v', e') := demo_init in
  r = 0 /\ rx_inv 0x10000 0x20000 (RxWorld (ram w') e' 0 [] []) [].
Proof.
  pose proof (e1000_init_correct 0x10000 0x10200 0x20000 0x40000 2048 demo_layout ltac:(cbv; split; discriminate)
    ltac:(right; cbv; discriminate) ltac:(left; cbv; discriminate) (Machine ∅ []) demo_bus (Pmm 0 0 0 0 0)
    (Vmm 0x1000 0 0 0 0 0 false ∅) demo_e1000) as R.
  assert (E : demo_init.1.1.1.1.1 = 0) by (vm_compute; reflexivity).
  destruct demo_init as [[[[[r w'] s'] p'] v'] e']. cbn [fst] in E. subst r.
  destruct R as [(F & _)|(_ & d & _ & _ & _ & _ & _ & _ & Hinv)]; [discriminate F|]. exact (conj eq_refl Hinv).
Defined.

(** A frame arrives at descriptor [h]. *)
Definition demo_arrive (h : Z) (f : list Z) (m : memory) : memory :=
  store8 (store16 (store_bytes m (rx_buffer 0x20000 h) f) (desc_length (rx_desc 0x10000 h)) (Z.of_nat (length f)))
    (rx_status (rx_desc 0x10000 h)) 3.

Lemma demo_arrival m e h acc del q f :
  rx_inv 0x10000 0x20000 (RxWorld m e h acc del) q -> (length q < 31)%nat ->
  fits f -> Forall (fun b => 0 <= b < 256) f ->
  rx_step 0x10000 0x20000 0x40000 2048 (RxWorld m e h acc del) (RxWorld (demo_arrive h f m) e (slot h 1) (acc ++ [f]) del).
Proof.
  intros Hinv Hq Hfit Hf. pose proof (ri_head _ _ _ _ Hinv) as Hh. pose proof (ri_tail _ _ _ _ Hinv) as Ht.
  cbn [rw_e rw_head] in Hh, Ht. assert (Hr : 0 <= h < E1000_NUM_RX_DESC) by (rewrite Hh; apply slot_range).
  pose proof (ri_addr _ _ _ _ Hinv h Hr) as Ha. cbn [rw_m] in Ha. unfold fits, E1000_RX_BUF_SIZE in Hfit.
  unfold E1000_NUM_RX_DESC in Hr.
  apply (rx_arrive _ _ _ _ m _ e h acc del f).
  - intros F. rewrite Ht, Hh in F. clear -F Hq. apply slot_inj in F; unfold E1000_NUM_RX_DESC in *; lia.
  - done.
  - unfold demo_arrive, rx_desc, desc_length, rx_status, sizeof_desc. unfold load16.
    rewrite (load_le_ext _ _ (store8 _ _ _)) by (intros b Hb; apply load8_store8_ne; lia).
    unfold store16. rewrite load_store_le_eq. apply u16_small. lia.
  - unfold demo_arrive. by rewrite load8_store8_eq.
  - rewrite Ha. unfold demo_arrive, desc_length, rx_status, rx_desc, rx_buffer, sizeof_desc, E1000_RX_BUF_SIZE.
    rewrite (bytes_at_ext (store_bytes m (0x20000 + 2048 * h) f)).
    + by apply bytes_at_store_bytes.
    + intros b Hb. unfold store16. by rewrite load8_store8_ne, store_le_outside by lia.
  - rewrite Ha. unfold demo_arrive, rx_desc, desc_length, rx_status, rx_buffer, sizeof_desc, E1000_RX_BUF_SIZE, store16.
    intros a H1 H2. rewrite load8_store8_ne, store_le_outside, store_bytes_outside by lia. done.
Qed.

Lemma demo_ready :
  exists w' s' p' v' e', demo_init = (0, w', s', p', v', e') /\
    rx_inv 0x10000 0x20000 (RxWorld (ram w') e' 0 [] []) [] /\ tx_cur e' = 0.
Proof.
  assert (Er : demo_init.1.1.1.1.1 = 0) by (vm_compute; reflexivity).
  assert (Et : tx_cur demo_init.2 = 0) by (vm_compute; reflexivity).
  pose proof (e1000_init_holds 0x10000 0x10200 0x20000 0x40000 2048 demo_layout ltac:(cbv; split; discriminate)
    ltac:(right; cbv; discriminate) ltac:(left; cbv; discriminate) (Machine ∅ []) demo_bus (Pmm 0 0 0 0 0)
    (Vmm 0x1000 0 0 0 0 0 false ∅) demo_e1000) as Hi.
  destruct demo_init as [[[[[r w'] s'] p'] v'] e']. cbn [fst] in Er. cbn [snd] in Et. subst r.
  destruct Hi as [(F & _)|(_ & d & _ & _ & _ & _ & _ & _ & Hinv)]; [done|]. by exists w', s', p', v', e'.
Qed.

Lemma e1000_rx_fifo_witness :
  exists w' s' p' v' e' m' q, demo_init = (0, w', s', p', v', e') /\
    rtc (rx_step 0x10000 0x20000 0x40000 2048) (RxWorld (ram w') e' 0 [] [])
      (RxWorld m' e' 1 [[1; 2; 3]] []) /\ [[1; 2; 3]] = [] ++ q.
Proof.
  destruct demo_ready as (w' & s' & p' & v' & e' & E & Hinv & _).
  pose proof (demo_arrival (ram w') e' 0 [] [] [] [1; 2; 3] Hinv ltac:(cbn; lia) ltac:(unfold fits, E1000_RX_BUF_SIZE; cbn [length]; lia)
    ltac:(repeat constructor; lia)) as Hstep. set (m' := demo_arrive 0 [1; 2; 3] (ram w')) in *.
  destruct (e1000_rx_fifo 0x10000 0x10200 0x20000 0x40000 2048 demo_layout ltac:(cbv; split; discriminate)
    ltac:(right; cbv; discriminate) ltac:(left; cbv; discriminate) (Machine ∅ []) demo_bus (Pmm 0 0 0 0 0)
    (Vmm 0x1000 0 0 0 0 0 false ∅) demo_e1000 w' s' p' v' e' _ E (rtc_once _ _ Hstep)) as (q & Hq & _).
  exists w', s', p', v', e', m', q. split; [exact E|]. split; [exact (rtc_once _ _ Hstep)|exact Hq].
Defined.

(** The card reports the frame done at the second poll. *)
Lemma e1000_send_correct_witness :
  let e := with_base demo_e1000 0xFEBC0000 true in
  (e1000_send 0x10200 [fun m => m; fun m => store8 m (0x10200 + 12) 1] ∅ e 0x40000 60).1.1 = 60.
Proof.
  intros e. set (polls := [fun m : memory => m; fun m => store8 m (0x10200 + 12) 1]).
  pose proof (e1000_send_correct 0x10200 polls ∅ e 0x40000 60 ltac:(lia) ltac:(lia) ltac:(cbv; split; [discriminate|reflexivity])) as R.
  destruct (e1000_send 0x10200 polls ∅ e 0x40000 60) as [[r m'] e']. cbn [fst]. cbv zeta in R.
  change (negb (initialised e) || (1518 <? 60)) with false in R. cbv iota in R.
  destruct R as (m1 & _ & _ & _ & _ & [(k & _ & _ & _ & Er & _)|[Hn _]]); [exact Er|]. exfalso.
  apply (Hn 1%nat).
  - unfold TX_TIMEOUT. lia.
  - cbn [after polls tl]. unfold tx_done, tx_desc, tx_status, sizeof_desc. cbn [tx_cur e with_base demo_e1000].
    rewrite Z.mul_0_r, Z.add_0_r, load8_store8_eq. reflexivity.
Defined.
