(* ===== verification/NetStack.v ===== *)
(** * The network path: [net_poll] over the Ethernet driver

    [Net] models the protocol handlers over a frame in memory and lists the
    frames they hand to [e1000_send]; [E1000] models the driver.  [net_round] is
    the composition, one call of [net_poll]: [e1000_receive] into the static
    buffer, the handler, and the [e1000_send] that is the last call of
    [handle_arp] and of [handle_icmp].  The ARP reply is a local array, at
    [arp_reply] on the stack of the task that polls; the ICMP reply is the static
    array [reply].

    Whatever bytes arrive, a round returns and writes only to the arrays of the
    driver and of the stack ([net_round_moves]); and an ARP or echo request that
    waits in the receive ring is answered by the frame that the next transmit
    descriptor points to when the tail register is written ([net_round_answer]).
    While [e1000_send] waits, the card works on both rings ([card_runs]): it marks
    transmit descriptors done and puts further frames into the receive ring. *)
From stdpp Require Import base numbers list gmap strings.
From Stdlib Require Import ZArith Lia.
From S2P Require Import Prelude.
From S2P Require Import Machine.
From S2P Require Import CString.
From S2P Require Import Net.
From S2P Require Import E1000.

Section stack.
(** the static arrays of the driver, [buf] of [net_poll], [reply] of [handle_icmp]
    and the local [reply] of [handle_arp] *)
Context (rx_descs tx_descs rx_buffers buf reply arp_reply : Z).

Definition NET_BUF_SIZE : Z := 2048.

(** The answer goes out: from [arp_reply], where [handle_arp] built it, or from
    [reply]. *)
Definition send_answer (polls : list (memory -> memory)) (m : memory) (e : e1000) (arp : bool) (f : list Z)
  : memory * e1000 :=
  let '(m1, data) := if arp then (store_bytes m arp_reply f, arp_reply) else (m, reply) in
  let '(_, m2, e2) := e1000_send tx_descs polls m1 e data (Z.of_nat (length f)) in
  (m2, e2).

Definition net_round (polls : list (memory -> memory)) (w : machine) (e : e1000) (n : net)
  : option (machine * e1000 * net) :=
  let '(len, m1, e1) := e1000_receive rx_descs rx_buffers (ram w) e buf NET_BUF_SIZE in
  let arp := ntohs (load16 m1 (eth_ethertype buf)) =? ETH_TYPE_ARP in
  '(w2, n2) ← net_poll (set_ram w m1) n reply buf len;
  match drop (length (net_tx n)) (net_tx n2) with
  | [] => Some (w2, e1, n2)
  | f :: _ => let '(m3, e3) := send_answer polls (ram w2) e1 arp f in Some (set_ram w2 m3, e3, n2)
  end.

(** ** Confinement *)

(** The arrays a round may write to: those the card writes to as well, and those
    of the stack. *)
Definition card_ranges : list (Z * Z) :=
  [(rx_descs, sizeof_desc * E1000_NUM_RX_DESC); (tx_descs, sizeof_desc * E1000_NUM_TX_DESC);
   (rx_buffers, E1000_RX_BUF_SIZE * E1000_NUM_RX_DESC)].
Definition net_ranges : list (Z * Z) := card_ranges ++ [(buf, NET_BUF_SIZE); (reply, 1518); (arp_reply, 42)].

(** The card writes to its rings and buffers only. *)
Definition card_ok (polls : list (memory -> memory)) : Prop := Forall (fun f => forall m, same_except card_ranges m (f m)) polls.

(** The ring positions are in range. *)
Definition cursors_ok (e : e1000) : Prop := 0 <= rx_cur e < E1000_NUM_RX_DESC /\ 0 <= tx_cur e < E1000_NUM_TX_DESC.

Lemma after_same rs polls k m :
  Forall (fun f => forall m, same_except rs m (f m)) polls -> same_except rs m (after polls k m).
Proof.
  revert polls m. induction k as [|k IH]; intros polls m Hp; cbn [after]; [reflexivity|].
  destruct Hp as [|f polls Hf Hp]; cbn [tl]; [by apply IH|]. etransitivity; [apply Hf|by apply IH].
Qed.

(** Receiving writes to the buffer and to the current descriptor. *)
Lemma receive_moves m e n m' e' :
  0 <= rx_cur e < E1000_NUM_RX_DESC -> e1000_receive rx_descs rx_buffers m e buf NET_BUF_SIZE = (n, m', e') ->
  same_except net_ranges m m' /\ 0 <= rx_cur e' < E1000_NUM_RX_DESC /\ tx_cur e' = tx_cur e /\
  initialised e' = initialised e.
Proof.
  intros Hc. unfold e1000_receive. destruct (initialised e) eqn:Hi; cbn [negb]; [|by intros [= <- <- <-]].
  destruct (Z.eqb _ 0); [by intros [= <- <- <-]|]. intros [= <- <- <-].
  cbn [rx_cur tx_cur initialised with_stats e1000_write with_regs with_rx_cur]. split; [|split; [|done]].
  2:{ apply Z.mod_pos_bound. unfold E1000_NUM_RX_DESC. lia. }
  intros x Hx. pose proof (Hx (buf, NET_BUF_SIZE)) as H1.
  pose proof (Hx (rx_descs, sizeof_desc * E1000_NUM_RX_DESC)) as H2.
  unfold within in H1, H2. cbn [fst snd] in *. pose proof (H1 ltac:(cbn; tauto)). pose proof (H2 ltac:(cbn; tauto)).
  unfold rx_status, rx_desc, sizeof_desc, E1000_NUM_RX_DESC, NET_BUF_SIZE in *.
  rewrite load8_store8_ne by lia. apply memcpy_same_outside.
  pose proof (load_le_range 2 m (desc_length (rx_descs + 16 * rx_cur e))) as Hl. fold load16 in Hl.
  destruct (Z.gtb_spec (load16 m (desc_length (rx_descs + 16 * rx_cur e))) 2048); lia.
Qed.

Lemma send_moves polls m e data len r m' e' :
  card_ok polls -> 0 <= data < 2 ^ 32 -> 0 <= len < 2 ^ 16 -> cursors_ok e ->
  e1000_send tx_descs polls m e data len = (r, m', e') -> same_except card_ranges m m' /\ cursors_ok e'.
Proof.
  intros Hp Hd Hl [Hc1 Hc2] E. pose proof (e1000_send_ok tx_descs polls m e data len Hd Hl Hc2) as Hs. rewrite E in Hs. unfold send_result in Hs.
  destruct (_ || _); [by destruct Hs as (_ & -> & ->)|]. cbv zeta in Hs.
  destruct Hs as (m1 & _ & Ho & _ & Ht & Hcase).
  assert (H1 : same_except card_ranges m m1).
  { apply (same_except_in _ tx_descs (sizeof_desc * E1000_NUM_TX_DESC)); [cbn; tauto|].
    eapply same_outside_mono; [..|exact Ho]; unfold tx_desc, sizeof_desc, E1000_NUM_TX_DESC in *; lia. }
  assert (Hrx : rx_cur e' = rx_cur e).
  { apply (f_equal snd) in E. cbn [snd] in E. rewrite <- E. unfold e1000_send, tx_post. destruct (_ || _); [done|].
    destruct (tx_wait _ _ _ _ _) as [ok m2]. by destruct ok. }
  split.
  - destruct Hcase as [(k & _ & _ & _ & _ & -> & _)|(_ & _ & -> & _)]; (etransitivity; [exact H1|by apply after_same]).
  - split; [by rewrite Hrx|]. rewrite Ht. apply Z.mod_pos_bound. unfold E1000_NUM_TX_DESC. lia.
Qed.

Lemma answer_moves polls m e (arp : bool) f m' e' :
  card_ok polls -> 0 <= reply < 2 ^ 32 -> 0 <= arp_reply < 2 ^ 32 -> cursors_ok e ->
  Z.of_nat (length f) <= (if arp then 42 else 1518) -> send_answer polls m e arp f = (m', e') ->
  same_except net_ranges m m' /\ cursors_ok e'.
Proof.
  intros Hp Hr Ha Hc Hl. unfold send_answer.
  assert (Hinc : incl card_ranges net_ranges) by (intros r Hin; apply in_or_app; by left).
  destruct arp.
  - destruct (e1000_send _ _ _ _ _ _) as [[r m2] e2] eqn:E. intros [= <- <-].
    destruct (send_moves polls _ e arp_reply (Z.of_nat (length f)) r m2 e2 Hp Ha ltac:(lia) Hc E) as [H1 H2]. split; [|done].
    transitivity (store_bytes m arp_reply f); [|by eapply same_except_incl].
    apply (same_except_in _ arp_reply 42); [cbn; tauto|]. eapply same_outside_mono; [..|apply store_bytes_outside]; lia.
  - destruct (e1000_send _ _ _ _ _ _) as [[r m2] e2] eqn:E. intros [= <- <-].
    destruct (send_moves polls m e reply (Z.of_nat (length f)) r m2 e2 Hp Hr ltac:(lia) Hc E) as [H1 H2].
    split; [by eapply same_except_incl|done].
Qed.

(** A frame that is sent as ARP fits in its array. *)
Lemma net_poll_sent w n len w' n' :
  net_ok n -> net_poll w n reply buf len = Some (w', n') ->
  net_moves reply w n w' n' /\
  forall f r, drop (length (net_tx n)) (net_tx n') = f :: r ->
    Z.of_nat (length f) <= (if ntohs (load16 (ram w) (eth_ethertype buf)) =? ETH_TYPE_ARP then 42 else 1518).
Proof.
  intros Hn E. destruct (net_poll_moves w n reply buf len Hn) as (w1 & n1 & E1 & M). rewrite E1 in E.
  injection E as <- <-. split; [done|]. intros f r Hd. destruct (Z.eqb_spec (ntohs (load16 (ram w) (eth_ethertype buf))) ETH_TYPE_ARP) as [Ea|Ea].
  - unfold net_poll in E1. cbv zeta in E1. rewrite Ea in E1. cbn [Z.eqb Pos.eqb ETH_TYPE_ARP] in E1.
    assert (Hno : drop (length (net_tx n)) (net_tx n) = []) by (by apply drop_ge).
    destruct (len <=? 0); [by injection E1 as _ <-; rewrite Hno in Hd|].
    destruct (u16 len <? sizeof_eth); [by injection E1 as _ <-; rewrite Hno in Hd|]. injection E1 as E1.
    destruct (handle_arp_cases w n buf (u16 len) Hn) as [Ec|(cs & g & Ec & Hg)]; rewrite Ec in E1; injection E1 as _ <-.
    + by rewrite Hno in Hd.
    + cbn [net_tx net_send] in Hd. rewrite drop_app_length in Hd. injection Hd as <- _. lia.
  - destruct (nm_tx _ _ _ _ _ M) as [Et|(g & Et & Hg)]; rewrite Et in Hd.
    + rewrite drop_ge in Hd by done. done.
    + rewrite drop_app_length in Hd. by injection Hd as <- _.
Qed.

(** Whatever arrives, a round returns, and writes to the arrays of the network only. *)
Lemma net_round_moves polls w e n :
  card_ok polls -> 0 <= reply < 2 ^ 32 -> 0 <= arp_reply < 2 ^ 32 -> cursors_ok e -> net_ok n ->
  exists w' e' n', net_round polls w e n = Some (w', e', n') /\ same_except net_ranges (ram w) (ram w') /\
    cursors_ok e' /\ net_ok n' /\ our_ip n' = our_ip n.
Proof.
  intros Hp Hr Ha [Hc1 Hc2] Hn. unfold net_round.
  destruct (e1000_receive _ _ _ _ _ _) as [[len m1] e1] eqn:E1.
  destruct (receive_moves _ _ _ _ _ Hc1 E1) as (S1 & Hc1' & Et & _).
  destruct (net_poll_moves (set_ram w m1) n reply buf len Hn) as (w2 & n2 & E2 & M).
  destruct (net_poll_sent _ _ _ _ _ Hn E2) as [_ Hf]. rewrite E2. cbn [mbind option_bind].
  assert (S2 : same_except net_ranges (ram w) (ram w2)).
  { etransitivity; [exact S1|]. apply (same_except_in _ reply 1518); [cbn; tauto|apply M]. }
  assert (Hn2 : net_ok n2) by (destruct M, Hn; split; congruence).
  assert (Hc : cursors_ok e1) by (split; [done|congruence]).
  destruct (drop (length (net_tx n)) (net_tx n2)) as [|f r] eqn:Ed.
  - exists w2, e1, n2. split; [done|]. split; [done|]. split; [done|]. split; [done|apply M].
  - specialize (Hf f r eq_refl). cbn [ram set_ram] in Hf.
    destruct (send_answer _ _ _ _ _) as [m3 e3] eqn:E3.
    destruct (answer_moves _ _ _ _ _ _ _ Hp Hr Ha Hc Hf E3) as [S3 Hc3].
    eexists _, _, _. split; [done|]. split; [etransitivity; [exact S2|exact S3]|]. split; [done|]. split; [done|apply M].
Qed.

(** ** Answers *)

(** The arrays do not overlap. *)
Record net_layout : Prop := {
  nl_rx : rx_layout rx_descs rx_buffers buf NET_BUF_SIZE;
  nl_apart : forall i j r s, net_ranges !! i = Some r -> net_ranges !! j = Some s -> i <> j ->
    r.1 + r.2 <= s.1 \/ s.1 + s.2 <= r.1;
  nl_low : 0 <= reply < 2 ^ 32 /\ 0 <= arp_reply < 2 ^ 32;
}.

(** What the card does while the driver waits for the transmission: it changes the
    transmit ring, or it receives a frame, as [rx_step] has it. *)
Inductive card_runs (e : e1000) : list (memory -> memory) -> rx_world -> Prop :=
  | runs_end x : card_runs e [] x
  | runs_tx f polls m h acc del :
      same_except [(tx_descs, sizeof_desc * E1000_NUM_TX_DESC)] m (f m) ->
      card_runs e polls (RxWorld (f m) e h acc del) -> card_runs e (f :: polls) (RxWorld m e h acc del)
  | runs_rx f polls m h h' acc del F :
      rx_step rx_descs rx_buffers buf NET_BUF_SIZE (RxWorld m e h acc del) (RxWorld (f m) e h' (acc ++ [F]) del) ->
      card_runs e polls (RxWorld (f m) e h' (acc ++ [F]) del) -> card_runs e (f :: polls) (RxWorld m e h acc del).

(** It does so from the state in which the frame [F] has been received, whatever the
    handlers write outside the receive ring. *)
Definition card_behaves (polls : list (memory -> memory)) (m : memory) (e : e1000) (h : Z) (acc del : list (list Z))
  (F : list Z) : Prop :=
  forall len m1 e1 m2, e1000_receive rx_descs rx_buffers m e buf NET_BUF_SIZE = (len, m1, e1) ->
    (forall i, 0 <= i < E1000_NUM_RX_DESC -> agree rx_descs rx_buffers m1 m2 i) ->
    card_runs e1 polls (RxWorld m2 e1 h acc (del ++ [F])).

Context (Hlay : net_layout).

(** The receive ring is not touched by writes to the other arrays. *)
Lemma other_arrays_agree m m' i :
  same_except [(tx_descs, sizeof_desc * E1000_NUM_TX_DESC); (reply, 1518); (arp_reply, 42)] m m' ->
  0 <= i < E1000_NUM_RX_DESC -> agree rx_descs rx_buffers m m' i.
Proof.
  intros Ho Hr a Ha. apply Ho. intros r Hin Hw. destruct Hlay as [_ Hap _].
  assert (Hd : forall k s, k = 0%nat \/ k = 2%nat -> net_ranges !! k = Some s -> r.1 + r.2 <= s.1 \/ s.1 + s.2 <= r.1).
  { intros k s Hk Hs. cbn [In] in Hin. destruct Hin as [<-|[<-|[<-|[]]]];
      [apply (Hap 1%nat k)|apply (Hap 4%nat k)|apply (Hap 5%nat k)]; (done || (destruct Hk; lia)). }
  pose proof (Hd 0%nat _ (or_introl eq_refl) eq_refl). pose proof (Hd 2%nat _ (or_intror eq_refl) eq_refl).
  unfold within in Hw. cbn [fst snd] in *.
  unfold rx_desc, rx_buffer, sizeof_desc, E1000_NUM_RX_DESC, E1000_RX_BUF_SIZE in *. lia.
Qed.

(** The driver's transmit side does not matter to reception. *)
Lemma rx_inv_driver m e e' h acc del q :
  rx_cur e' = rx_cur e -> initialised e' = initialised e -> rx_tail e' = rx_tail e ->
  rx_inv rx_descs rx_buffers (RxWorld m e h acc del) q -> rx_inv rx_descs rx_buffers (RxWorld m e' h acc del) q.
Proof.
  intros H1 H2 H3 [I1 I2 I3 I4 I5 I6 I7 I8 I9]. cbn [rw_m rw_e rw_head rw_accepted rw_delivered] in *.
  split; cbn [rw_m rw_e rw_head rw_accepted rw_delivered]; rewrite ?H1, ?H2, ?H3; done.
Qed.

(** While the card runs, the frames in the ring stay and others queue behind them. *)
Lemma card_runs_inv e polls x q k :
  card_runs e polls x -> rw_e x = e -> rx_inv rx_descs rx_buffers x q ->
  exists h' new, rx_inv rx_descs rx_buffers
    (RxWorld (after polls k (rw_m x)) e h' (rw_accepted x ++ new) (rw_delivered x)) (q ++ new).
Proof.
  intros Hr. revert q k. induction Hr as [[m e0 h acc del]|f polls m h acc del Ho Hr IH|f polls m h h' acc del F Hst Hr IH];
    intros q k He Hi; cbn [rw_m rw_e rw_accepted rw_delivered] in *.
  - subst e0. exists h, []. rewrite !app_nil_r. assert (Ha : forall j, after [] j m = m) by (intros j; by induction j).
    by rewrite Ha.
  - destruct k as [|k]; [exists h, []; cbn [after]; by rewrite !app_nil_r|]. cbn [after tl]. apply IH; [done|].
    apply (rx_inv_agree rx_descs rx_buffers m); [|done]. intros i Hir. apply other_arrays_agree; [|done].
    eapply same_except_incl; [|exact Ho]. intros r [<-|[]]. by left.
  - destruct k as [|k]; [exists h, []; cbn [after]; by rewrite !app_nil_r|]. cbn [after tl].
    destruct (rx_step_inv _ _ _ _ (nl_rx Hlay) _ _ _ Hi Hst) as [q' Hq'].
    assert (Eq : q' = q ++ [F]).
    { pose proof (ri_order _ _ _ _ Hi) as O1. pose proof (ri_order _ _ _ _ Hq') as O2.
      cbn [rw_accepted rw_delivered] in O1, O2. rewrite O1, <- app_assoc in O2. by apply app_inv_head in O2. }
    subst q'. destruct (IH (q ++ [F]) k eq_refl Hq') as (h2 & new & Hn). exists h2, (F :: new).
    by rewrite <- !app_assoc in Hn.
Qed.

(** The frame at the head of the queue, taken. *)
Lemma receive_next m e h acc del F q :
  rx_inv rx_descs rx_buffers (RxWorld m e h acc del) (F :: q) ->
  exists m1 e1, e1000_receive rx_descs rx_buffers m e buf NET_BUF_SIZE = (Z.of_nat (length F), m1, e1) /\
    fits F /\ bytes_at m1 buf (length F) = F /\ tx_cur e1 = tx_cur e /\
    rx_inv rx_descs rx_buffers (RxWorld m1 e1 h acc (del ++ [F])) q.
Proof.
  intros Hi. pose proof Hi as [I1 I2 _ _ _ _ I7 _ I9]. cbn [rw_m rw_e rw_head rw_accepted rw_delivered] in *.
  destruct (I7 0%nat F eq_refl) as [Hf Hfd]. change (Z.of_nat 0) with 0 in Hfd. unfold slot in Hfd.
  rewrite Z.add_0_r, Z.mod_small in Hfd by done.
  destruct (receive_frame _ _ _ _ (nl_rx Hlay) m e F I1 I2 Hf Hfd) as (m1 & e1 & E & Hb & _).
  destruct (rx_poll_inv _ _ _ _ (nl_rx Hlay) _ _ _ _ _ _ _ _ _ Hi E) as [q' Hq].
  destruct (receive_moves _ _ _ _ _ I2 E) as (_ & _ & Ht & _).
  exists m1, e1. split; [done|]. split; [done|]. split; [done|]. split; [done|].
  destruct (Z.ltb_spec 0 (Z.of_nat (length F))) as [_|]; [|unfold fits in Hf; lia]. rewrite Nat2Z.id, Hb in Hq.
  pose proof (ri_order _ _ _ _ Hq) as Ho. cbn [rw_accepted rw_delivered] in Ho. rewrite I9, <- app_assoc in Ho.
  apply app_inv_head in Ho. injection Ho as <-. done.
Qed.

(** The last thing the card was told is that the transmit descriptor that was
    current in [e] is ready; and it was, in memory as the card found it: it asks for
    the bytes [f] at [data].  Then the card worked on. *)
Definition posted (polls : list (memory -> memory)) (e : e1000) (data : Z) (f : list Z) (m' : memory) (e' : e1000) : Prop :=
  exists log m1 k, mm_log (regs e') = log ++ [MmWrite REG_TDT (tx_cur e') m1] /\
    tx_cur e' = (tx_cur e + 1) mod E1000_NUM_TX_DESC /\
    tx_ready tx_descs m1 (tx_cur e) data (Z.of_nat (length f)) /\ bytes_at m1 data (length f) = f /\
    m' = after polls k m1.

Lemma send_posted polls m e data f r m' e' :
  initialised e = true -> 0 <= tx_cur e < E1000_NUM_TX_DESC -> 0 <= data < 2 ^ 32 ->
  Z.of_nat (length f) <= 1518 -> bytes_at m data (length f) = f ->
  (tx_descs + sizeof_desc * E1000_NUM_TX_DESC <= data \/ data + Z.of_nat (length f) <= tx_descs) ->
  e1000_send tx_descs polls m e data (Z.of_nat (length f)) = (r, m', e') ->
  posted polls e data f m' e' /\
  (exists m1 k, m' = after polls k m1 /\ same_except [(tx_descs, sizeof_desc * E1000_NUM_TX_DESC)] m m1) /\
  rx_cur e' = rx_cur e /\ initialised e' = initialised e /\ rx_tail e' = rx_tail e.
Proof.
  intros Hi Hc Hd Hl Hb Hap E. pose proof (e1000_send_ok tx_descs polls m e data (Z.of_nat (length f)) Hd ltac:(lia) Hc) as Hs.
  rewrite E in Hs. unfold send_result in Hs. rewrite Hi in Hs. cbn [negb orb] in Hs.
  destruct (Z.ltb_spec 1518 (Z.of_nat (length f))); [lia|]. cbv zeta in Hs.
  destruct Hs as (m1 & Hr & Ho & Hlog & Ht & Hcase).
  assert (Ho1 : same_outside tx_descs (tx_descs + sizeof_desc * E1000_NUM_TX_DESC) m m1).
  { eapply same_outside_mono; [..|exact Ho]; unfold tx_desc, sizeof_desc, E1000_NUM_TX_DESC in *; lia. }
  assert (Hk : exists k, m' = after polls k m1).
  { revert Hcase. generalize (Z.to_nat TX_TIMEOUT). intros t Hcase.
    destruct Hcase as [(k & _ & _ & _ & _ & Hm & _)|(_ & _ & Hm & _)]; rewrite Hm; by eexists. }
  destruct Hk as [k Hk].
  assert (He : rx_cur e' = rx_cur e /\ initialised e' = initialised e).
  { apply (f_equal snd) in E. cbn [snd] in E. rewrite <- E. unfold e1000_send, tx_post. destruct (_ || _); [done|].
    destruct (tx_wait _ _ _ _ _) as [ok m2]. by destruct ok. }
  destruct He as [He1 He2]. split; [|split; [|split; [done|split; [done|]]]].
  - exists (mm_log (regs e)), m1, k. split; [by rewrite Ht|]. split; [done|]. split; [done|]. split; [|done].
    rewrite <- Hb at 2. apply bytes_at_ext. intros b Hbr. apply Ho1. lia.
  - exists m1, k. split; [done|]. by eapply same_except_in; [left|].
  - unfold rx_tail. by rewrite Hlog, reg_written_write.
Qed.

(** What the handlers do with the frame [F], wherever the rest of memory is: they
    send one frame, in the array of its protocol. *)
Definition answers (w : machine) (n : net) (F : list Z) (arp : bool) (Q : list Z -> Prop) : Prop :=
  forall m1, bytes_at m1 buf (length F) = F ->
  (ntohs (load16 m1 (eth_ethertype buf)) =? ETH_TYPE_ARP) = arp /\
  exists w2 f, net_poll (set_ram w m1) n reply buf (Z.of_nat (length F)) = Some (w2, net_send n f) /\ Q f /\
    Forall (fun b => 0 <= b < 256) f /\ same_outside reply (reply + 1518) m1 (ram w2) /\
    if arp then length f = 42%nat else Z.of_nat (length f) <= 1518 /\ bytes_at (ram w2) reply (length f) = f.

(** The wait at the end of a round, after a frame was taken and answered. *)
Lemma answer_sent polls m m1 m2 e e1 h acc del F q data f len :
  card_behaves polls m e h acc del F ->
  e1000_receive rx_descs rx_buffers m e buf NET_BUF_SIZE = (len, m1, e1) ->
  rx_inv rx_descs rx_buffers (RxWorld m1 e1 h acc (del ++ [F])) q ->
  same_except [(tx_descs, sizeof_desc * E1000_NUM_TX_DESC); (reply, 1518); (arp_reply, 42)] m1 m2 ->
  0 <= tx_cur e1 < E1000_NUM_TX_DESC -> 0 <= data < 2 ^ 32 ->
  Z.of_nat (length f) <= 1518 -> bytes_at m2 data (length f) = f ->
  (tx_descs + sizeof_desc * E1000_NUM_TX_DESC <= data \/ data + Z.of_nat (length f) <= tx_descs) ->
  exists rc m3 e3 h' new, e1000_send tx_descs polls m2 e1 data (Z.of_nat (length f)) = (rc, m3, e3) /\
    posted polls e1 data f m3 e3 /\
    rx_inv rx_descs rx_buffers (RxWorld m3 e3 h' (acc ++ new) (del ++ [F])) (q ++ new).
Proof.
  intros Hp E1 Hi Ho Hc Hd Hl Hb Hap. pose proof (ri_init _ _ _ _ Hi) as Hinit. cbn [rw_e] in Hinit.
  destruct (e1000_send _ _ _ _ _ _) as [[rc m3] e3] eqn:E3.
  destruct (send_posted polls m2 e1 data f rc m3 e3) as (Hpost & (ms & k & Hk & Hms) & H1 & H2 & H3); try done.
  assert (Hag : forall i, 0 <= i < E1000_NUM_RX_DESC -> agree rx_descs rx_buffers m1 ms i).
  { intros i Hir. apply other_arrays_agree; [|done]. etransitivity; [exact Ho|]. eapply same_except_incl; [|exact Hms].
    intros r [<-|[]]. by left. }
  destruct (card_runs_inv e1 polls (RxWorld ms e1 h acc (del ++ [F])) q k) as (h' & new & Hn);
    [by apply (Hp len m1)|done|by apply (rx_inv_agree rx_descs rx_buffers m1)|].
  cbn [rw_m rw_accepted rw_delivered] in Hn. rewrite <- Hk in Hn.
  exists rc, m3, e3, h', new. split; [done|]. split; [done|]. by eapply rx_inv_driver.
Qed.

(** One round with the frame at the head of the receive ring. *)
Lemma net_round_answer polls w e n h acc del F q arp Q :
  card_behaves polls (ram w) e h acc del F -> 0 <= tx_cur e < E1000_NUM_TX_DESC -> answers w n F arp Q ->
  rx_inv rx_descs rx_buffers (RxWorld (ram w) e h acc del) (F :: q) ->
  exists w' e' f h' new, net_round polls w e n = Some (w', e', net_send n f) /\ Q f /\
    posted polls e (if arp then arp_reply else reply) f (ram w') e' /\
    rx_inv rx_descs rx_buffers (RxWorld (ram w') e' h' (acc ++ new) (del ++ [F])) (q ++ new).
Proof.
  intros Hp Hc Ha Hi. destruct (receive_next _ _ _ _ _ _ _ Hi) as (m1 & e1 & E1 & Hfit & Hb & Ht & Hi1).
  destruct (Ha m1 Hb) as (Harp & w2 & f & E2 & Hq & Hby & Ho & Hf). unfold net_round. rewrite E1, E2. cbn [mbind option_bind].
  cbn [net_tx net_send]. rewrite drop_app_length, Harp. unfold send_answer. pose proof Hlay as [Hrx Hap [Hl1 Hl2]].
  rewrite <- Ht in Hc.
  assert (Hr : same_except [(tx_descs, sizeof_desc * E1000_NUM_TX_DESC); (reply, 1518); (arp_reply, 42)] m1 (ram w2)).
  { apply (same_except_in _ reply 1518); [cbn; tauto|done]. }
  destruct arp.
  - set (m2 := store_bytes (ram w2) arp_reply f).
    pose proof (Hap 1%nat 5%nat _ _ eq_refl eq_refl ltac:(done)) as Hd. cbn [fst snd] in Hd.
    destruct (answer_sent polls (ram w) m1 m2 e e1 h acc del F q arp_reply f _ Hp E1 Hi1) as (rc & m3 & e3 & h' & new & E3 & Hpost & Hn);
      try done; try (rewrite Hf; lia).
    { etransitivity; [exact Hr|]. apply (same_except_in _ arp_reply 42); [cbn; tauto|].
      eapply same_outside_mono; [..|apply store_bytes_outside]; lia. }
    { by apply bytes_at_store_bytes. }
    rewrite E3. exists (set_ram w2 m3), e3, f, h', new. unfold posted in *. by rewrite Ht in Hpost.
  - destruct Hf as [Hf Hbr]. pose proof (Hap 1%nat 4%nat _ _ eq_refl eq_refl ltac:(done)) as Hd. cbn [fst snd] in Hd.
    destruct (answer_sent polls (ram w) m1 (ram w2) e e1 h acc del F q reply f _ Hp E1 Hi1) as (rc & m3 & e3 & h' & new & E3 & Hpost & Hn);
      try done; [lia|].
    rewrite E3. exists (set_ram w2 m3), e3, f, h', new. unfold posted in *. by rewrite Ht in Hpost.
Qed.

(** *** Echo requests *)

Definition byte (F : list Z) (i : Z) : Z := default 0 (F !! Z.to_nat i).

Lemma byte_load m a F i : bytes_at m a (length F) = F -> 0 <= i < Z.of_nat (length F) -> load8 m (a + i) = byte F i.
Proof.
  intros Hb Hi. unfold byte. rewrite <- Hb. rewrite lookup_bytes_at by lia. by rewrite Z2Nat.id by lia.
Qed.

(** An Ethernet frame with an ICMP echo request to [ip]: an IP header of [hdr] bytes
    in a packet of [total] bytes, all of them received. *)
Record echo_frame (F : list Z) (ip : list Z) (hdr total : Z) : Prop := {
  ef_type : byte F 12 = 0x08 /\ byte F 13 = 0x00;
  ef_version : byte F 14 = 0x40 + hdr / 4;
  ef_header : 20 <= hdr <= 60 /\ hdr mod 4 = 0;
  ef_total : 256 * byte F 16 + byte F 17 = total;
  ef_protocol : byte F 23 = IP_PROTO_ICMP;
  ef_dst : take 4 (drop 30 F) = ip;
  ef_icmp : byte F (14 + hdr) = ICMP_ECHO_REQUEST;
  ef_bounds : hdr + 8 <= total /\ 14 + total <= Z.of_nat (length F) /\ 14 + total <= 1518;
}.

(** The reply to it. *)
Definition echo_reply (F : list Z) (n : net) (hdr total : Z) (f : list Z) : Prop :=
  Z.of_nat (length f) = 14 + total /\
  (forall i, 0 <= i < 14 + total -> ~ In i [24; 25; 14 + hdr + 2; 14 + hdr + 3] ->
     f !! Z.to_nat i = Some (echo_byte (byte F) (our_mac n) (our_ip n) hdr i)) /\
  cksum_ok (take (Z.to_nat hdr) (drop 14 f)) /\ cksum_ok (drop (14 + Z.to_nat hdr) f).

Lemma ethertype_load m F :
  bytes_at m buf (length F) = F -> 14 <= Z.of_nat (length F) ->
  ntohs (load16 m (eth_ethertype buf)) = 256 * byte F 12 + byte F 13.
Proof.
  intros Hb Hl. unfold ntohs, eth_ethertype. rewrite load16_bytes, htons_swap by apply load8_range.
  rewrite <- Z.add_assoc, !(byte_load _ _ _ _ Hb) by lia. change (12 + 1) with 13. lia.
Qed.

Lemma echo_byte_ext f g mac ip hdr i : (forall j, 0 <= j <= Z.max i 11 -> f j = g j) -> 0 <= i ->
  echo_byte f mac ip hdr i = echo_byte g mac ip hdr i.
Proof. intros He Hi. unfold echo_byte. zcases; cbn [andb]; try done; apply He; lia. Qed.

Lemma answers_echo w n F hdr total :
  net_ok n -> fits F -> echo_frame F (our_ip n) hdr total -> answers w n F false (echo_reply F n hdr total).
Proof.
  intros Hn Hfit [[T1 T2] Hv [Hh1 Hh2] Ht Hpr Hdst Hic (B1 & B2 & B3)] m1 Hb.
  unfold fits, E1000_RX_BUF_SIZE in Hfit. set (L := Z.of_nat (length F)) in *.
  assert (Hld : forall i, 0 <= i < L -> load8 m1 (buf + i) = byte F i) by (intros i Hi; by apply byte_load).
  assert (Het : ntohs (load16 m1 (eth_ethertype buf)) = ETH_TYPE_IP).
  { rewrite (ethertype_load _ _ Hb) by lia. by rewrite T1, T2. }
  rewrite Het. split; [done|].
  assert (Hreq : echo_request (ram (set_ram w m1)) buf (u16 L) hdr total).
  { rewrite (u16_small L) by lia. split; cbn [ram set_ram].
    - rewrite Hld, Hv by lia. change 0x0F with (Z.ones 4). rewrite Z.land_ones by lia. change (2 ^ 4) with 16. dlia.
    - by rewrite !Hld by lia.
    - rewrite <- Z.add_assoc, Hld by lia. done.
    - lia. }
  assert (Hap : reply + 1518 <= buf \/ buf + 1518 <= reply).
  { pose proof (nl_apart Hlay 3%nat 4%nat _ _ eq_refl eq_refl ltac:(done)) as Hd. cbn [fst snd] in Hd.
    unfold NET_BUF_SIZE in Hd. lia. }
  destruct (handle_icmp_reply (set_ram w m1) n reply buf (u16 L) hdr total Hn Hreq Hap) as (w' & f & E & Ef & Hl & Hf & Hk1 & Hk2).
  destruct (handle_icmp_moves (set_ram w m1) n reply buf (u16 L) Hn) as (w'' & n'' & E' & M). rewrite E in E'. injection E' as <- <-.
  exists w', f. split; [|split; [|split; [|split]]].
  - rewrite <- E. unfold net_poll. cbn [ram set_ram]. rewrite Het. rewrite (u16_small L) by lia. unfold sizeof_eth.
    destruct (Z.leb_spec L 0); [lia|]. destruct (Z.ltb_spec L 14); [lia|]. change (ETH_TYPE_IP =? ETH_TYPE_ARP) with false.
    rewrite Z.eqb_refl. unfold handle_ip, sizeof_eth, sizeof_ip, ip_ver_ihl, ip_dst, ip_protocol.
    destruct (Z.ltb_spec L (14 + 20)); [lia|]. cbn [ram set_ram]. rewrite <- !Z.add_assoc, !Hld by lia. rewrite Hv.
    rewrite Z.shiftr_div_pow2 by lia. change (2 ^ 4) with 16. replace ((0x40 + hdr / 4) / 16) with 4 by dlia.
    change (14 + 16) with 30. change (14 + 9) with 23. rewrite Hpr, Z.eqb_refl. cbn [negb].
    rewrite bool_decide_eq_true_2; [done|]. rewrite <- Hdst, <- Hb. by rewrite <- (bytes_at_sub m1 buf (length F) 30 4) by lia.
  - split; [done|]. split; [|done]. intros i Hi Hnot. rewrite Hf by done. f_equal. apply echo_byte_ext; [|lia].
    intros j Hj. cbn [ram set_ram]. apply Hld. lia.
  - rewrite Ef. apply bytes_at_Forall.
  - apply M.
  - split; [lia|]. rewrite Ef at 2. f_equal. lia.
Qed.

(** *** ARP requests *)

Record arp_frame (F : list Z) (ip : list Z) : Prop := {
  af_type : byte F 12 = 0x08 /\ byte F 13 = 0x06;
  af_len : 42 <= Z.of_nat (length F);
  af_op : take 2 (drop 20 F) = [0; 1];
  af_target : take 4 (drop 38 F) = ip;
}.

(** The reply that binds our address to our MAC. *)
Definition arp_answer (F : list Z) (n : net) : list Z :=
  let asker := take 6 (drop 22 F) in
  asker ++ our_mac n ++ [0x08; 0x06] ++ [0; 1; 0x08; 0x00; 6; 4; 0; 2] ++
  our_mac n ++ our_ip n ++ asker ++ take 4 (drop 28 F).

Lemma answers_arp w n F :
  net_ok n -> fits F -> arp_frame F (our_ip n) -> answers w n F true (eq (arp_answer F n)).
Proof.
  intros Hn Hfit [[T1 T2] Hl Hop Htg] m1 Hb. unfold fits, E1000_RX_BUF_SIZE in Hfit.
  assert (Het : ntohs (load16 m1 (eth_ethertype buf)) = ETH_TYPE_ARP).
  { rewrite (ethertype_load _ _ Hb) by lia. by rewrite T1, T2. }
  rewrite Het. split; [done|].
  assert (Hsub : forall k j, (k + j <= length F)%nat -> bytes_at m1 (buf + Z.of_nat k) j = take j (drop k F)).
  { intros k j Hk. rewrite <- Hb at 1. by apply bytes_at_sub. }
  pose proof (Hsub 20%nat 2%nat ltac:(lia) : bytes_at m1 (buf + 20) 2 = _) as S20.
  pose proof (Hsub 22%nat 6%nat ltac:(lia) : bytes_at m1 (buf + 22) 6 = _) as S22.
  pose proof (Hsub 28%nat 4%nat ltac:(lia) : bytes_at m1 (buf + 28) 4 = _) as S28.
  pose proof (Hsub 38%nat 4%nat ltac:(lia) : bytes_at m1 (buf + 38) 4 = _) as S38.
  pose proof (handle_arp_correct (set_ram w m1) n buf (Z.of_nat (length F))) as Hc.
  pose proof (handle_arp_cases (set_ram w m1) n buf (Z.of_nat (length F)) Hn) as Hcase.
  assert (Hreq : arp_request m1 buf (Z.of_nat (length F)) (our_ip n) = true).
  { unfold arp_request. rewrite S20, S38, Hop, Htg.
    rewrite !bool_decide_eq_true_2 by done. destruct (Z.leb_spec 42 (Z.of_nat (length F))); [done|lia]. }
  destruct (handle_arp _ _ _ _) as [w2 n2] eqn:Eh. cbn [ram set_ram] in Hc. rewrite Hreq in Hc.
  destruct Hc as (_ & _ & Hram & Htx). cbv zeta in Htx.
  rewrite S22, S28 in Htx. fold (arp_answer F n) in Htx.
  destruct Hcase as [E|(cs & f & E & Hf)]; injection E as -> ->.
  { apply (f_equal length) in Htx. rewrite length_app in Htx. cbn in Htx. lia. }
  cbn [net_tx net_send] in Htx. apply app_inv_head in Htx. injection Htx as Ef.
  exists (emit (set_ram w m1) cs), f. split; [|split; [done|split; [|split; [|done]]]].
  - rewrite <- Eh. unfold net_poll, sizeof_eth. cbn [ram set_ram]. rewrite Het, u16_small by lia.
    destruct (Z.leb_spec (Z.of_nat (length F)) 0); [lia|]. destruct (Z.ltb_spec (Z.of_nat (length F)) 14); [lia|].
    by rewrite Z.eqb_refl.
  - rewrite Ef. destruct Hn as [_ O2 _ O4]. unfold arp_answer.
    rewrite <- S22, <- S28.
    repeat (apply Forall_app; split); try apply bytes_at_Forall; try done; repeat constructor; lia.
  - apply same_outside_refl.
Qed.

(** C4: the network answers.  An ICMP echo request or an ARP request for our address
    that is the oldest frame of the receive ring is answered by one call of
    [net_poll]: the call takes exactly that frame from the ring, and the last write
    to the card moves the transmit tail past the descriptor that was next, which in
    memory as the card finds it at that write is complete and points to the whole
    reply.  While the driver then waits, the card may change the transmit ring and
    may receive further frames, as the card of [rx_step] does; the frames that were
    behind the request still wait, in order, and those behind them. *)
Theorem net_poll_answers polls w e n h acc del F q :
  card_behaves polls (ram w) e h acc del F -> 0 <= tx_cur e < E1000_NUM_TX_DESC -> net_ok n ->
  rx_inv rx_descs rx_buffers (RxWorld (ram w) e h acc del) (F :: q) ->
  (forall hdr total, echo_frame F (our_ip n) hdr total ->
     exists w' e' f h' new, net_round polls w e n = Some (w', e', net_send n f) /\ echo_reply F n hdr total f /\
       posted polls e reply f (ram w') e' /\
       rx_inv rx_descs rx_buffers (RxWorld (ram w') e' h' (acc ++ new) (del ++ [F])) (q ++ new)) /\
  (arp_frame F (our_ip n) ->
     exists w' e' h' new, net_round polls w e n = Some (w', e', net_send n (arp_answer F n)) /\
       posted polls e arp_reply (arp_answer F n) (ram w') e' /\
       rx_inv rx_descs rx_buffers (RxWorld (ram w') e' h' (acc ++ new) (del ++ [F])) (q ++ new)).
Proof.
  intros Hp Hc Hn Hi. assert (Hfit : fits F) by (by destruct (ri_full _ _ _ _ Hi 0%nat F eq_refl)). split.
  - intros hdr total He. by apply (net_round_answer polls w e n h acc del F q false (echo_reply F n hdr total) Hp Hc (answers_echo w n F hdr total Hn Hfit He)).
  - intros Ha. destruct (net_round_answer polls w e n h acc del F q true _ Hp Hc (answers_arp w n F Hn Hfit Ha) Hi)
      as (w' & e' & f & h' & new & E & <- & Hpost & Hi'). by exists w', e', h', new.
Qed.
End stack.

(** ** Instance: a ping arrives after start-up *)

Definition demo_ping : list Z :=
  [1; 1; 1; 1; 1; 1; 2; 2; 2; 2; 2; 2; 8; 0] ++
  [0x45; 0; 0; 28; 0; 0; 0; 0; 64; 1; 0; 0; 10; 0; 2; 2; 10; 0; 2; 15] ++ [8; 0; 0; 0; 1; 2; 3; 4].

Lemma demo_net_layout : net_layout 0x10000 0x10200 0x20000 0x40000 0x41000 0x42000.
Proof.
  split.
  - apply demo_layout.
  - intros i j r s Hi Hj Hne.
    assert (Hall : forallb (fun i => forallb (fun j => (i =? j)%nat ||
      match net_ranges 0x10000 0x10200 0x20000 0x40000 0x41000 0x42000 !! i,
            net_ranges 0x10000 0x10200 0x20000 0x40000 0x41000 0x42000 !! j with
      | Some r, Some s => (r.1 + r.2 <=? s.1) || (s.1 + s.2 <=? r.1)
      | _, _ => true end) (seq 0 6)) (seq 0 6) = true) by (vm_compute; reflexivity).
    rewrite forallb_forall in Hall. assert (Hli : In i (seq 0 6)) by (apply in_seq; apply lookup_lt_Some in Hi; cbn in Hi; lia).
    assert (Hlj : In j (seq 0 6)) by (apply in_seq; apply lookup_lt_Some in Hj; cbn in Hj; lia).
    specialize (Hall i Hli). cbv beta in Hall. rewrite forallb_forall in Hall.
    specialize (Hall j Hlj). cbv beta in Hall. rewrite Hi, Hj in Hall.
    destruct (Nat.eqb_spec i j); [done|]. cbn [orb] in Hall. apply orb_true_iff in Hall as [H|H]; apply Z.leb_le in H; [by left|by right].
  - split; lia.
Qed.

(** The ping is in the ring that [e1000_init] set up. *)
Lemma demo_waiting :
  exists m e, rx_inv 0x10000 0x20000 (RxWorld m e 1 [demo_ping] []) [demo_ping] /\ tx_cur e = 0.
Proof.
  destruct demo_ready as (w' & s' & p' & v' & e' & _ & Hinv & Ht).
  pose proof (demo_arrival (ram w') e' 0 [] [] [] demo_ping Hinv ltac:(cbn; lia)
    ltac:(unfold fits, E1000_RX_BUF_SIZE; cbn [length demo_ping app]; lia) ltac:(repeat constructor; lia)) as Hstep.
  destruct (rx_step_inv _ _ _ _ demo_layout _ _ _ Hinv Hstep) as [q Hq].
  pose proof (ri_order _ _ _ _ Hq) as Ho. cbn [rw_accepted rw_delivered app] in Ho. subst q. by eexists _, e'.
Qed.

(** While the driver waits, a second ping arrives; then the card marks the transmit
    descriptor done. *)
Definition demo_polls : list (memory -> memory) := [demo_arrive 1 demo_ping; fun m => store8 m (0x10200 + 12) 1].

Abbreviation demo_behaves := (card_behaves 0x10000 0x10200 0x20000 0x40000).

Lemma demo_card_behaves m e :
  rx_inv 0x10000 0x20000 (RxWorld m e 1 [demo_ping] []) [demo_ping] ->
  demo_behaves demo_polls m e 1 [demo_ping] [] demo_ping.
Proof.
  intros Hinv len m1 e1 m2 E Hag.
  destruct (receive_next 0x10000 0x10200 0x20000 0x40000 0x41000 0x42000 demo_net_layout m e 1 [demo_ping] [] demo_ping [] Hinv)
    as (m1' & e1' & E' & _ & _ & _ & Hi). rewrite E in E'. injection E' as _ <- <-.
  apply (rx_inv_agree 0x10000 0x20000 m1 m2) in Hi; [|done].
  eapply runs_rx.
  - apply (demo_arrival m2 e1 1 [demo_ping] [demo_ping] [] demo_ping Hi); [cbn; lia| |repeat constructor; lia].
    unfold fits, E1000_RX_BUF_SIZE. cbn [length demo_ping app]. lia.
  - apply runs_tx; [|apply runs_end]. intros x Hx. apply load8_store8_ne. intros <-.
    apply (Hx (0x10200, sizeof_desc * E1000_NUM_TX_DESC)); [by left|]. unfold within, sizeof_desc, E1000_NUM_TX_DESC.
    cbn [fst snd]. lia.
Qed.

Lemma net_poll_answers_witness :
  exists m e w' e' f,
    rx_inv 0x10000 0x20000 (RxWorld m e 1 [demo_ping] []) [demo_ping] /\
    net_round 0x10000 0x10200 0x20000 0x40000 0x41000 0x42000 demo_polls (Machine m []) e demo_net =
      Some (w', e', net_send demo_net f) /\ length f = 42%nat /\ tx_cur e' = 1.
Proof.
  destruct demo_waiting as (m & e & Hinv & Ht). exists m, e.
  destruct (net_poll_answers 0x10000 0x10200 0x20000 0x40000 0x41000 0x42000 demo_net_layout
    demo_polls (Machine m []) e demo_net 1 [demo_ping] [] demo_ping []) as [R _].
  - apply demo_card_behaves, Hinv.
  - rewrite Ht. unfold E1000_NUM_TX_DESC. lia.
  - exact demo_net_ok.
  - exact Hinv.
  - destruct (R 20 28) as (w' & e' & f & h' & new & E & [Hl _] & (log & m1 & k & _ & Hc & _) & _).
    + split; [split; reflexivity|reflexivity|split; [lia|reflexivity]|reflexivity..|]. cbn [length demo_ping app]. lia.
    + exists w', e', f. split; [exact Hinv|]. split; [exact E|]. split; [lia|]. rewrite Hc, Ht. reflexivity.
Defined.
