(* ===== verification/Gdt.v ===== *)
(** * [kernel/arch/x86_64/gdt.c]: segment descriptors and the TSS

    The descriptor table is a list of six descriptors with the fields of
    [gdt_entry_t].  [base_of], [limit_of] and [dpl_of] are how the processor
    reads a descriptor; the theorem says what each selector of [gdt.h] selects
    after [gdt_init]. *)
From stdpp Require Import base numbers list strings.
From Stdlib Require Import ZArith Lia.
From S2P Require Import Prelude.
From S2P Require Import Machine.

Definition GDT_ENTRIES : nat := 6.
Definition GDT_KERNEL_CODE_SEL : Z := 0x08.
Definition GDT_KERNEL_DATA_SEL : Z := 0x10.
Definition GDT_USER_CODE_SEL : Z := 0x1B.
Definition GDT_USER_DATA_SEL : Z := 0x23.
Definition GDT_TSS_SEL : Z := 0x28.

Record gdt_entry := GdtEntry {
  limit_low : Z;
  base_low : Z;
  base_middle : Z;
  access : Z;
  granularity : Z;
  base_high : Z;
}.

Definition null_entry : gdt_entry := GdtEntry 0 0 0 0 0 0.

(** The fields of [tss_entry_t] the code writes; the others stay zero. *)
Record tss_entry := TssEntry {
  esp0 : Z;
  ss0 : Z;
  iomap_base : Z;
}.

Definition sizeof_tss : Z := 104.

(** The static variables, and what GDTR and TR hold. *)
Record gdt_state := GdtState {
  gdt : list gdt_entry;
  tss : tss_entry;
  gdtr_limit : Z;
  gdtr_base : Z;
  tr : Z;
}.

Definition gdt_boot : gdt_state :=
  GdtState (replicate GDT_ENTRIES null_entry) (TssEntry 0 0 0) 0 0 0.

Definition set_gdt (s : gdt_state) (g : list gdt_entry) : gdt_state :=
  {| gdt := g; tss := tss s; gdtr_limit := gdtr_limit s; gdtr_base := gdtr_base s; tr := tr s |}.
Definition set_tss (s : gdt_state) (t : tss_entry) : gdt_state :=
  {| gdt := gdt s; tss := t; gdtr_limit := gdtr_limit s; gdtr_base := gdtr_base s; tr := tr s |}.

Definition gdt_gate (base limit access gran : Z) : gdt_entry :=
  {| limit_low := Z.land limit 0xFFFF;
     base_low := Z.land base 0xFFFF;
     base_middle := Z.land (Z.shiftr base 16) 0xFF;
     access := access;
     granularity := Z.lor (Z.land (Z.shiftr limit 16) 0x0F) (Z.land gran 0xF0);
     base_high := Z.land (Z.shiftr base 24) 0xFF |}.

Definition gdt_set_gate (s : gdt_state) (num : nat) (base limit access gran : Z) : gdt_state :=
  set_gdt s (<[num := gdt_gate base limit access gran]> (gdt s)).

Section addresses.
(** The link addresses of [gdt] and [tss]. *)
Context (gdt_addr tss_addr : Z).

Definition write_tss (s : gdt_state) (num : nat) : gdt_state :=
  let s1 := set_tss s {| esp0 := 0; ss0 := GDT_KERNEL_DATA_SEL; iomap_base := sizeof_tss |} in
  gdt_set_gate s1 num tss_addr (sizeof_tss - 1) 0x89 0x00.

Definition gdt_init (w : machine) (s : gdt_state) : machine * gdt_state :=
  let w1 := emit w [VgaSetColor VGA_COLOR_YELLOW VGA_COLOR_BLACK; VgaPuts (line "Initializing GDT...")] in
  let s0 := {| gdt := gdt s; tss := tss s; gdtr_limit := 8 * Z.of_nat GDT_ENTRIES - 1;
               gdtr_base := gdt_addr; tr := tr s |} in
  let s1 := gdt_set_gate s0 0 0 0 0 0 in
  let s2 := gdt_set_gate s1 1 0 0xFFFFF 0x9A 0xCF in
  let s3 := gdt_set_gate s2 2 0 0xFFFFF 0x92 0xCF in
  let s4 := gdt_set_gate s3 3 0 0xFFFFF 0xFA 0xCF in
  let s5 := gdt_set_gate s4 4 0 0xFFFFF 0xF2 0xCF in
  let s6 := write_tss s5 5 in
  (** [tss_flush] loads the task register *)
  let s7 := {| gdt := gdt s6; tss := tss s6; gdtr_limit := gdtr_limit s6;
               gdtr_base := gdtr_base s6; tr := GDT_TSS_SEL |} in
  (emit w1 [VgaSetColor VGA_COLOR_LIGHT_GREEN VGA_COLOR_BLACK;
     VgaPuts (line "  [OK] GDT loaded (6 entries: null, kcode, kdata, ucode, udata, TSS)");
     VgaPuts (line "  [OK] TSS loaded" ++ nl)], s7).
End addresses.

Definition tss_set_esp0 (s : gdt_state) (e : Z) : gdt_state :=
  set_tss s {| esp0 := e; ss0 := ss0 (tss s); iomap_base := iomap_base (tss s) |}.

(** ** How the processor reads a descriptor *)

Definition base_of (e : gdt_entry) : Z :=
  base_low e + 2 ^ 16 * base_middle e + 2 ^ 24 * base_high e.
Definition limit_of (e : gdt_entry) : Z := limit_low e + 2 ^ 16 * Z.land (granularity e) 0x0F.
(** The last addressable offset: the limit counts 4 KB units when bit 7 is set. *)
Definition last_offset (e : gdt_entry) : Z :=
  if Z.testbit (granularity e) 7 then limit_of e * 4096 + 4095 else limit_of e.
Definition dpl_of (e : gdt_entry) : Z := Z.land (Z.shiftr (access e) 5) 3.
Definition is_present (e : gdt_entry) : bool := Z.testbit (access e) 7.
Definition is_code (e : gdt_entry) : bool := Z.testbit (access e) 4 && Z.testbit (access e) 3.
Definition is_data (e : gdt_entry) : bool := Z.testbit (access e) 4 && negb (Z.testbit (access e) 3).

(** The descriptor a selector selects, and its requested privilege level. *)
Definition select (s : gdt_state) (sel : Z) : option gdt_entry := gdt s !! Z.to_nat (sel / 8).
Definition rpl (sel : Z) : Z := Z.land sel 3.

(** A flat 4 GB segment of privilege [d]. *)
Definition flat (e : gdt_entry) (d : Z) : Prop :=
  is_present e = true /\ base_of e = 0 /\ last_offset e = 2 ^ 32 - 1 /\ dpl_of e = d.

(** A descriptor holds the base and the limit it was given. *)
Lemma gate_decode base limit acc gran :
  0 <= base < 2 ^ 32 -> 0 <= limit < 2 ^ 20 ->
  base_of (gdt_gate base limit acc gran) = base /\ limit_of (gdt_gate base limit acc gran) = limit.
Proof.
  intros Hb Hl. unfold base_of, limit_of, gdt_gate. cbn [base_low base_middle base_high limit_low granularity].
  change 0xFFFF with (Z.ones 16). change 0xFF with (Z.ones 8).
  assert (E : Z.land (Z.lor (Z.land (Z.shiftr limit 16) 0x0F) (Z.land gran 0xF0)) 0x0F =
    Z.land (Z.shiftr limit 16) (Z.ones 4)).
  { rewrite Z.land_lor_distr_l, <- !Z.land_assoc. change (Z.land 0xF0 0x0F) with 0.
    rewrite Z.land_0_r, Z.lor_0_r. done. }
  rewrite E, !Z.land_ones, !Z.shiftr_div_pow2 by lia. split; dlia.
Qed.

(** After [gdt_init] every selector of [gdt.h] selects what its name says:
    present flat 4 GB code and data segments whose privilege is the selector's
    RPL (0 for the kernel, 3 for user mode), and the TSS descriptor covers
    exactly the TSS, which switches to the kernel data segment. *)
Theorem gdt_init_correct (gdt_addr tss_addr : Z) (w : machine) (Htss : 0 <= tss_addr < 2 ^ 32) :
  let s := (gdt_init gdt_addr tss_addr w gdt_boot).2 in
  (exists kc kd uc ud t,
    select s GDT_KERNEL_CODE_SEL = Some kc /\ flat kc (rpl GDT_KERNEL_CODE_SEL) /\ is_code kc = true /\
    select s GDT_KERNEL_DATA_SEL = Some kd /\ flat kd (rpl GDT_KERNEL_DATA_SEL) /\ is_data kd = true /\
    select s GDT_USER_CODE_SEL = Some uc /\ flat uc (rpl GDT_USER_CODE_SEL) /\ is_code uc = true /\
    select s GDT_USER_DATA_SEL = Some ud /\ flat ud (rpl GDT_USER_DATA_SEL) /\ is_data ud = true /\
    dpl_of kc = 0 /\ dpl_of uc = 3 /\
    select s (tr s) = Some t /\ is_present t = true /\ base_of t = tss_addr /\
    last_offset t = sizeof_tss - 1) /\
  ss0 (tss s) = GDT_KERNEL_DATA_SEL /\ gdtr_base s = gdt_addr /\ gdtr_limit s + 1 = 8 * Z.of_nat (length (gdt s)).
Proof.
  cbv zeta. split; [|done]. eexists _, _, _, _, _.
  do 14 (split; [done|]).
  split; [reflexivity|]. split; [done|].
  destruct (gate_decode tss_addr (sizeof_tss - 1) 0x89 0 Htss ltac:(unfold sizeof_tss; lia)) as [E1 E2].
  split; [exact E1|]. unfold last_offset. rewrite E2. done.
Qed.

Lemma gdt_init_correct_witness :
  ss0 (tss (gdt_init 0x105000 0x106000 (Machine ∅ []) gdt_boot).2) = GDT_KERNEL_DATA_SEL.
Proof. exact (proj1 (proj2 (gdt_init_correct 0x105000 0x106000 (Machine ∅ []) ltac:(lia)))). Defined.
