(* ===== verification/Task.v ===== *)
(** * [kernel/proc/task.c]: the preemptive round-robin scheduler

    The task table is a list of 64 entries; the static variables are the record
    [sched].  Stacks come from the heap (through [AllocOps]), and the frames
    [task_create] and [task_create_user] build on them are words in memory, read
    back as [interrupt_frame_t] by the interrupt return path.

    A context switch is the value [task_schedule_if_needed] returns: the stack
    pointer the interrupt stub returns through.  The scheduler's behaviour under
    timer interrupts, yields and exits is a run over a list of [event]s. *)
From stdpp Require Import base numbers list gmap strings.
From Stdlib Require Import ZArith Lia.
From S2P Require Import Prelude.
From S2P Require Import Machine.
From S2P Require Import Alloc.
From S2P Require Import Heap.
From S2P Require Import Pmm.
From S2P Require Import Vmm.
From S2P Require Import Gdt.

Definition MAX_TASKS : Z := 64.
Definition TASK_STACK_SIZE : Z := 4096.

Inductive task_state := TASK_READY | TASK_RUNNING | TASK_TERMINATED.

#[global] Instance task_state_eq_dec : EqDecision task_state.
Proof. solve_decision. Defined.

Record task := Task {
  t_id : Z;
  t_esp : Z;
  stack_base : Z;
  user_stack_base : Z;
  kernel_stack_top : Z;
  t_state : task_state;
  t_name : string;
  is_user : bool;
}.

(** What [memset] leaves: note that 0 is [TASK_READY]. *)
Definition zero_task : task := Task 0 0 0 0 0 TASK_READY "" false.
#[global] Instance task_inhabited : Inhabited task := populate zero_task.

Record sched := Sched {
  tasks : list task;
  current : Z;
  count : Z;
  scheduler_ready : bool;
  need_reschedule : bool;
}.

Definition get_task (s : sched) (i : Z) : task := tasks s !!! Z.to_nat i.
Definition put_task (s : sched) (i : Z) (t : task) : sched :=
  {| tasks := <[Z.to_nat i := t]> (tasks s); current := current s; count := count s;
     scheduler_ready := scheduler_ready s; need_reschedule := need_reschedule s |}.
Definition set_current (s : sched) (i : Z) : sched :=
  {| tasks := tasks s; current := i; count := count s;
     scheduler_ready := scheduler_ready s; need_reschedule := need_reschedule s |}.
Definition set_count (s : sched) (n : Z) : sched :=
  {| tasks := tasks s; current := current s; count := n;
     scheduler_ready := scheduler_ready s; need_reschedule := need_reschedule s |}.
Definition set_need (s : sched) (b : bool) : sched :=
  {| tasks := tasks s; current := current s; count := count s;
     scheduler_ready := scheduler_ready s; need_reschedule := b |}.

Definition with_state (t : task) (st : task_state) : task :=
  {| t_id := t_id t; t_esp := t_esp t; stack_base := stack_base t;
     user_stack_base := user_stack_base t; kernel_stack_top := kernel_stack_top t;
     t_state := st; t_name := t_name t; is_user := is_user t |}.
Definition with_esp (t : task) (e : Z) : task :=
  {| t_id := t_id t; t_esp := e; stack_base := stack_base t;
     user_stack_base := user_stack_base t; kernel_stack_top := kernel_stack_top t;
     t_state := t_state t; t_name := t_name t; is_user := is_user t |}.

(** ** Scheduling *)

(** [state == TASK_READY || state == TASK_RUNNING] *)
Definition runnable (t : task) : bool :=
  bool_decide (t_state t = TASK_READY) || bool_decide (t_state t = TASK_RUNNING).

Fixpoint find_next_loop (n : nat) (s : sched) (id : Z) : Z :=
  match n with
  | O => current s
  | S n' =>
      if negb (id =? current s) && runnable (get_task s id) then id
      else find_next_loop n' s ((id +₃₂ 1) mod count s)
  end.

Definition find_next_ready (s : sched) : Z :=
  find_next_loop (Z.to_nat (count s)) s ((current s +₃₂ 1) mod count s).

Definition yield_isr_handler (s : sched) : sched := set_need s true.
Definition task_request_reschedule (s : sched) : sched := set_need s true.

(** Saving the current task's stack pointer and making [next] the running task. *)
Definition switch_to (s : sched) (esp next : Z) : sched :=
  let s2 := put_task s (current s) (with_esp (get_task s (current s)) esp) in
  let s3 := if bool_decide (t_state (get_task s2 (current s2)) = TASK_RUNNING)
            then put_task s2 (current s2) (with_state (get_task s2 (current s2)) TASK_READY)
            else s2 in
  let s4 := set_current s3 next in
  put_task s4 (current s4) (with_state (get_task s4 (current s4)) TASK_RUNNING).

(** The scheduler, with the TSS it updates. *)
Definition task_schedule_if_needed (s : sched) (g : gdt_state) (esp : Z) : Z * sched * gdt_state :=
  if negb (scheduler_ready s) || negb (need_reschedule s) then (esp, s, g)
  else
    let s1 := set_need s false in
    let next := find_next_ready s1 in
    if next =? current s1 then (esp, s1, g)
    else
      let s5 := switch_to s1 esp next in
      let g' := if negb (kernel_stack_top (get_task s5 (current s5)) =? 0)
                then tss_set_esp0 g (kernel_stack_top (get_task s5 (current s5))) else g in
      (t_esp (get_task s5 (current s5)), s5, g').

(** [task_exit] up to the yield it makes; the loop after it only runs when no
    other task is ready. *)
Definition task_exit_mark (s : sched) : sched :=
  put_task s (current s) (with_state (get_task s (current s)) TASK_TERMINATED).

(** What an interrupt does to the scheduler, [esp] being the frame the stub
    pushed: the timer handler or INT 0x81 requests a reschedule, any other
    interrupt does not; then [isr_handler] calls the scheduler. *)
Inductive event :=
  | EvTimer (esp : Z)
  | EvYield (esp : Z)
  | EvExit (esp : Z)
  | EvOther (esp : Z).

Definition interrupt (s : sched) (g : gdt_state) (e : event) : Z * sched * gdt_state :=
  match e with
  | EvTimer esp => task_schedule_if_needed (task_request_reschedule s) g esp
  | EvYield esp => task_schedule_if_needed (yield_isr_handler s) g esp
  | EvExit esp => task_schedule_if_needed (yield_isr_handler (task_exit_mark s)) g esp
  | EvOther esp => task_schedule_if_needed s g esp
  end.

(** A run: the stack pointers returned, and the final state. *)
Fixpoint run (s : sched) (g : gdt_state) (es : list event) : list Z * sched * gdt_state :=
  match es with
  | [] => ([], s, g)
  | e :: es' =>
      let '(esp, s1, g1) := interrupt s g e in
      let '(esps, s2, g2) := run s1 g1 es' in
      (esp :: esps, s2, g2)
  end.

(** ** Creating tasks *)

Definition task_init (w : machine) (s : sched) : machine * sched :=
  let t0 := {| t_id := 0; t_esp := 0; stack_base := 0; user_stack_base := 0;
               kernel_stack_top := 0; t_state := TASK_RUNNING; t_name := "kernel";
               is_user := false |} in
  (emit w [VgaSetColor VGA_COLOR_LIGHT_GREEN VGA_COLOR_BLACK; VgaPuts (line "  [OK] Task scheduler initialized (preemptive)")],
   {| tasks := <[0%nat := t0]> (replicate (Z.to_nat MAX_TASKS) zero_task);
      current := 0; count := 1; scheduler_ready := true; need_reschedule := false |}).

(** [*(--sp) = v] for each word of the list. *)
Fixpoint push_all (m : memory) (sp : Z) (vs : list Z) : memory * Z :=
  match vs with
  | [] => (m, sp)
  | v :: vs' => push_all (store32 m (sp - 4) v) (sp - 4) vs'
  end.

(** [id = count++] *)
Definition take_slot (s : sched) : Z * sched := (count s, set_count s (count s +₃₂ 1)).

Section create.
Context {H : Type} `{AllocOps H}.
(** The address of [task_exit]. *)
Context (task_exit : Z).

(** The words of the ring-0 frame, in the order they are pushed. *)
Definition kernel_frame_words (entry : Z) : list Z :=
  [task_exit; 0x202; GDT_KERNEL_CODE_SEL; entry; 0; 0; 0; 0; 0; 0; 0; 0; 0; 0; GDT_KERNEL_DATA_SEL].

Definition task_create (w : machine) (h : H) (s : sched) (entry : Z) (name : string)
  : option (Z * machine * H * sched) :=
  if count s >=? MAX_TASKS then Some (u32 (-1), w, h, s)
  else
    let '(id, s1) := take_slot s in
    '(stack, w1, h1) ← kmalloc_op w h TASK_STACK_SIZE;
    if stack =? 0 then Some (u32 (-1), w1, h1, set_count s1 (count s1 -₃₂ 1))
    else
      let '(m2, sp) := push_all (ram w1) (stack + TASK_STACK_SIZE) (kernel_frame_words entry) in
      let t := {| t_id := id; t_esp := sp; stack_base := stack; user_stack_base := 0;
                  kernel_stack_top := stack + TASK_STACK_SIZE; t_state := TASK_READY;
                  t_name := name; is_user := false |} in
      Some (id, set_ram w1 m2, h1, put_task s1 id t).

(** The words of the ring-3 frame. *)
Definition user_frame_words (entry ustack : Z) : list Z :=
  [GDT_USER_DATA_SEL; ustack + TASK_STACK_SIZE; 0x202; GDT_USER_CODE_SEL; entry;
   0; 0; 0; 0; 0; 0; 0; 0; 0; 0; GDT_USER_DATA_SEL].

(** [for (off = 0; off < TASK_STACK_SIZE; off += PAGE_SIZE) vmm_set_user(...)] *)
Fixpoint set_user_pages (n : nat) (m : memory) (v : vmm) (base off : Z) : memory * vmm :=
  match n with
  | O => (m, v)
  | S n' =>
      if off <? TASK_STACK_SIZE then
        let '(_, m1, v1) := vmm_set_user m v (base + off) in
        set_user_pages n' m1 v1 base (off + PAGE_SIZE)
      else (m, v)
  end.

Definition PAGE_ALIGN_DOWN (a : Z) : Z := Z.land a (u32 (Z.lnot (PAGE_SIZE - 1))).

Definition task_create_user (w : machine) (h : H) (v : vmm) (s : sched) (entry : Z) (name : string)
  : option (Z * machine * H * vmm * sched) :=
  if count s >=? MAX_TASKS then Some (u32 (-1), w, h, v, s)
  else
    let '(id, s1) := take_slot s in
    '(kstack, w1, h1) ← kmalloc_op w h TASK_STACK_SIZE;
    '(ustack, w2, h2) ← kmalloc_op w1 h1 TASK_STACK_SIZE;
    if (kstack =? 0) || (ustack =? 0) then
      '(w3, h3) ← (if negb (kstack =? 0) then kfree_op w2 h2 kstack else Some (w2, h2));
      '(w4, h4) ← (if negb (ustack =? 0) then kfree_op w3 h3 ustack else Some (w3, h3));
      Some (u32 (-1), w4, h4, v, set_count s1 (count s1 -₃₂ 1))
    else
      let '(m3, v3) := set_user_pages (Z.to_nat TASK_STACK_SIZE) (ram w2) v ustack 0 in
      let '(_, m4, v4) := vmm_set_user m3 v3 (PAGE_ALIGN_DOWN entry) in
      let '(_, m5, v5) := vmm_set_user m4 v4 (PAGE_ALIGN_DOWN entry +₃₂ PAGE_SIZE) in
      let '(m6, sp) := push_all m5 (kstack + TASK_STACK_SIZE) (user_frame_words entry ustack) in
      let t := {| t_id := id; t_esp := sp; stack_base := kstack; user_stack_base := ustack;
                  kernel_stack_top := kstack + TASK_STACK_SIZE; t_state := TASK_READY;
                  t_name := name; is_user := true |} in
      Some (id, emit (set_ram w2 m6) [Klog "task: created user-mode task"], h2, v5, put_task s1 id t).
End create.

(** ** Queries *)

Definition task_count (s : sched) : Z := count s.
Definition task_current_id (s : sched) : Z := current s.
Definition task_get_info (s : sched) (index : Z) : option (Z * string * task_state) :=
  if index >=? count s then None
  else let t := get_task s index in Some (t_id t, t_name t, t_state t).

(** ** The interrupt frame ([interrupt_frame_t] of idt.h) at a stack pointer *)

Record frame := Frame {
  f_ds : Z; f_edi : Z; f_esi : Z; f_ebp : Z; f_esp : Z; f_ebx : Z; f_edx : Z; f_ecx : Z; f_eax : Z;
  f_int_no : Z; f_err_code : Z; f_eip : Z; f_cs : Z; f_eflags : Z; f_useresp : Z; f_ss : Z;
}.

Definition frame_at (m : memory) (a : Z) : frame :=
  {| f_ds := load32 m a; f_edi := load32 m (a + 4); f_esi := load32 m (a + 8);
     f_ebp := load32 m (a + 12); f_esp := load32 m (a + 16); f_ebx := load32 m (a + 20);
     f_edx := load32 m (a + 24); f_ecx := load32 m (a + 28); f_eax := load32 m (a + 32);
     f_int_no := load32 m (a + 36); f_err_code := load32 m (a + 40); f_eip := load32 m (a + 44);
     f_cs := load32 m (a + 48); f_eflags := load32 m (a + 52); f_useresp := load32 m (a + 56);
     f_ss := load32 m (a + 60) |}.

(** ** Specification *)

(** The scheduler's invariant: the current task is running (or has exited and
    not been switched away from yet) and is the only one running. *)
Record sched_inv (s : sched) : Prop := {
  inv_length : length (tasks s) = Z.to_nat MAX_TASKS;
  inv_count : 1 <= count s <= MAX_TASKS;
  inv_current : 0 <= current s < count s;
  inv_running : t_state (get_task s (current s)) <> TASK_READY;
  inv_others : forall i, 0 <= i < count s -> i <> current s ->
    t_state (get_task s i) <> TASK_RUNNING;
  inv_ids : forall i, 0 <= i < count s -> t_id (get_task s i) = i;
}.

(** The [k]-th task after the current one, round robin. *)
Definition nth_after (s : sched) (k : Z) : Z := (current s + k) mod count s.

(** How many steps after the current task [i] is. *)
Definition distance (s : sched) (i : Z) : Z := (i - current s) mod count s.

(** The events that ask for a reschedule. *)
Definition reschedules (e : event) : bool :=
  match e with EvOther _ => false | _ => true end.

(** ** The task table *)

Lemma get_put s i j t :
  length (tasks s) = Z.to_nat MAX_TASKS -> 0 <= i < MAX_TASKS -> 0 <= j < MAX_TASKS ->
  get_task (put_task s i t) j = if j =? i then t else get_task s j.
Proof.
  unfold MAX_TASKS. intros Hl Hi Hj. unfold get_task, put_task. cbn [tasks].
  destruct (Z.eqb_spec j i) as [->|Hne].
  - apply list_lookup_total_insert_eq. lia.
  - apply list_lookup_total_insert_ne. lia.
Qed.

Lemma put_length s i t : length (tasks (put_task s i t)) = length (tasks s).
Proof. apply length_insert. Qed.

(** ** Finding the next task *)

Lemma nth_after_range s k : 0 < count s -> 0 <= nth_after s k < count s.
Proof. intros. apply Z.mod_pos_bound. lia. Qed.

Lemma nth_after_succ s k :
  0 < count s <= MAX_TASKS -> (nth_after s k +₃₂ 1) mod count s = nth_after s (k + 1).
Proof.
  unfold MAX_TASKS. intros Hc. pose proof (nth_after_range s k ltac:(lia)). unwrap.
  unfold nth_after. rewrite Z.add_mod_idemp_l by lia. f_equal. lia.
Qed.

Lemma nth_after_current s k :
  0 <= current s < count s -> 1 <= k < count s -> nth_after s k <> current s.
Proof.
  intros Hc Hk. unfold nth_after. destruct (Z_lt_ge_dec (current s + k) (count s)).
  - rewrite Z.mod_small; lia.
  - replace (current s + k) with ((current s + k - count s) + 1 * count s) by lia.
    rewrite Z.mod_add, Z.mod_small; lia.
Qed.

Lemma find_next_loop_spec n s k :
  1 <= count s <= MAX_TASKS -> 0 <= current s < count s -> 1 <= k ->
  k + Z.of_nat n = count s + 1 ->
  (find_next_loop n s (nth_after s k) = current s /\
   forall j, k <= j < count s -> runnable (get_task s (nth_after s j)) = false) \/
  exists j, k <= j < count s /\ find_next_loop n s (nth_after s k) = nth_after s j /\
    runnable (get_task s (nth_after s j)) = true /\
    forall i, k <= i < j -> runnable (get_task s (nth_after s i)) = false.
Proof.
  intros Hc Hcur. revert k. induction n as [|n IH]; intros k Hk Hn; cbn [find_next_loop].
  { left. split; [done|]. lia. }
  rewrite nth_after_succ by lia. destruct (Z_lt_ge_dec k (count s)) as [Hlt|Hge].
  - destruct (Z.eqb_spec (nth_after s k) (current s)) as [E|_]; [by apply nth_after_current in E|].
    cbn [negb andb]. destruct (runnable (get_task s (nth_after s k))) eqn:Hr.
    + right. exists k. split; [lia|]. split; [done|]. split; [done|]. lia.
    + destruct (IH (k + 1) ltac:(lia) ltac:(lia)) as [[E Hall]|(j & Hj & E & Hrj & Hbt)].
      * left. split; [done|]. intros j Hj. destruct (Z.eq_dec j k) as [->|]; [done|]. apply Hall. lia.
      * right. exists j. split; [lia|]. split; [done|]. split; [done|].
        intros i Hi. destruct (Z.eq_dec i k) as [->|]; [done|]. apply Hbt. lia.
  - assert (k = count s) as -> by lia. assert (n = O) as -> by lia.
    replace (nth_after s (count s)) with (current s).
    2:{ unfold nth_after. replace (current s + count s) with (current s + 1 * count s) by lia.
        rewrite Z.mod_add, Z.mod_small; lia. }
    rewrite Z.eqb_refl. cbn [negb andb find_next_loop]. left. split; [done|]. lia.
Qed.

(** Round robin: the first runnable task after the current one. *)
Lemma find_next_ready_spec s :
  1 <= count s <= MAX_TASKS -> 0 <= current s < count s ->
  (find_next_ready s = current s /\
   forall j, 1 <= j < count s -> runnable (get_task s (nth_after s j)) = false) \/
  exists j, 1 <= j < count s /\ find_next_ready s = nth_after s j /\
    runnable (get_task s (nth_after s j)) = true /\
    forall i, 1 <= i < j -> runnable (get_task s (nth_after s i)) = false.
Proof.
  intros Hc Hcur. unfold find_next_ready.
  replace ((current s +₃₂ 1) mod count s) with (nth_after s 1)
    by (unfold nth_after, MAX_TASKS in *; unwrap; done).
  apply find_next_loop_spec; lia.
Qed.

Lemma distance_nth s i :
  0 <= current s < count s -> 0 <= i < count s -> nth_after s (distance s i) = i /\
  0 <= distance s i < count s /\ (i <> current s -> 1 <= distance s i).
Proof.
  intros Hc Hi. unfold nth_after, distance. rewrite Z.add_mod_idemp_r by lia.
  replace (current s + (i - current s)) with i by lia. rewrite (Z.mod_small i) by lia.
  pose proof (Z.mod_pos_bound (i - current s) (count s) ltac:(lia)). split; [done|]. split; [done|].
  intros Hne. destruct (Z.eq_dec ((i - current s) mod count s) 0) as [E|]; [|lia].
  exfalso. apply Hne. destruct (Z_le_gt_dec (current s) i).
  - rewrite Z.mod_small in E; lia.
  - replace (i - current s) with ((i - current s + count s) + (-1) * count s) in E by lia.
    rewrite Z.mod_add, Z.mod_small in E; lia.
Qed.

Lemma distance_of_nth s k :
  0 <= current s < count s -> 0 <= k < count s -> distance s (nth_after s k) = k.
Proof.
  intros Hc Hk. unfold distance, nth_after. rewrite Zminus_mod_idemp_l.
  replace (current s + k - current s) with k by lia. apply Z.mod_small. lia.
Qed.

(** ** One call of the scheduler *)

Lemma runnable_ready t : t_state t = TASK_READY -> runnable t = true.
Proof. unfold runnable. intros ->. done. Qed.

Lemma runnable_not_running t :
  t_state t <> TASK_RUNNING -> runnable t = bool_decide (t_state t = TASK_READY).
Proof.
  intros Hne. unfold runnable. rewrite (bool_decide_eq_false_2 (t_state t = TASK_RUNNING)) by done.
  apply orb_false_r.
Qed.

(** The state after a switch from the current task to [next]. *)
Definition switched (s : sched) (esp next : Z) (s' : sched) : Prop :=
  sched_inv s' /\ current s' = next /\ count s' = count s /\ need_reschedule s' = false /\
  scheduler_ready s' = scheduler_ready s /\
  get_task s' next = with_state (get_task s next) TASK_RUNNING /\
  t_esp (get_task s' (current s)) = esp /\
  t_state (get_task s' (current s)) =
    (if bool_decide (t_state (get_task s (current s)) = TASK_RUNNING) then TASK_READY
     else t_state (get_task s (current s))) /\
  (forall i, 0 <= i < MAX_TASKS -> i <> current s -> i <> next -> get_task s' i = get_task s i).

Section switch.
Context (s : sched) (esp next : Z).
Context (Hl : length (tasks s) = Z.to_nat MAX_TASKS) (Hc : 1 <= count s <= MAX_TASKS)
  (Hcur : 0 <= current s < count s).
Context (Hnext : 0 <= next < count s) (Hne : next <> current s).
Let cur := current s.
Let st := if bool_decide (t_state (get_task s cur) = TASK_RUNNING) then TASK_READY
          else t_state (get_task s cur).

(** The task table after the switch. *)
Lemma switch_to_tasks j :
  0 <= j < MAX_TASKS ->
  get_task (switch_to s esp next) j =
    if j =? next then with_state (get_task s next) TASK_RUNNING
    else if j =? cur then with_state (with_esp (get_task s cur) esp) st else get_task s j.
Proof.
  intros Hj. unfold switch_to. fold cur. fold cur in Hcur, Hne.
  set (s2 := put_task s cur (with_esp (get_task s cur) esp)). change (current s2) with cur.
  assert (H2 : forall i, 0 <= i < MAX_TASKS ->
    get_task s2 i = if i =? cur then with_esp (get_task s cur) esp else get_task s i).
  { intros i Hi. subst s2. by rewrite get_put by (done || lia). }
  assert (L2 : length (tasks s2) = Z.to_nat MAX_TASKS) by (subst s2; by rewrite put_length).
  rewrite (H2 cur), Z.eqb_refl by lia. cbn [t_state with_esp].
  set (s3 := if bool_decide _ then _ else s2).
  assert (H3 : length (tasks s3) = Z.to_nat MAX_TASKS /\ forall i, 0 <= i < MAX_TASKS ->
    get_task s3 i = if i =? cur then with_state (with_esp (get_task s cur) esp) st else get_task s i).
  { subst s3. unfold st. destruct (bool_decide (t_state (get_task s cur) = TASK_RUNNING)).
    - split; [by rewrite put_length|]. intros i Hi. rewrite get_put by (done || lia).
      destruct (Z.eqb_spec i cur); [done|]. rewrite H2 by done. by destruct (Z.eqb_spec i cur).
    - split; [done|]. intros i Hi. rewrite H2 by done.
      destruct (Z.eqb_spec i cur); [|done]. by destruct (get_task s cur). }
  destruct H3 as [L3 H3]. clearbody s3. cbn [current set_current].
  rewrite get_put by (done || lia). change (get_task (set_current s3 next)) with (get_task s3).
  rewrite !H3 by (done || lia). destruct (Z.eqb_spec j next); [|done].
  by destruct (Z.eqb_spec next cur).
Qed.

Lemma switch_to_fields :
  let s' := switch_to s esp next in
  current s' = next /\ count s' = count s /\ need_reschedule s' = need_reschedule s /\
  scheduler_ready s' = scheduler_ready s /\ length (tasks s') = Z.to_nat MAX_TASKS.
Proof.
  unfold switch_to. cbv zeta.
  match goal with |- context [if ?b then _ else _] => destruct b end; do 4 (split; [done|]); rewrite put_length; cbn [tasks set_current];
    rewrite !put_length; done.
Qed.

Lemma switch_to_inv : sched_inv s -> sched_inv (switch_to s esp next).
Proof.
  intros [_ _ _ Hrun Hoth Hids]. destruct switch_to_fields as (Ec & En & _ & _ & El).
  fold cur in Hrun, Hoth.
  split; rewrite ?Ec, ?En; [done|done|done|..].
  - by rewrite switch_to_tasks, Z.eqb_refl by lia.
  - intros i Hi Hin. rewrite switch_to_tasks by lia. destruct (Z.eqb_spec i next); [done|].
    destruct (Z.eqb_spec i cur); [|by apply Hoth]. cbn [t_state with_state]. unfold st.
    case_bool_decide; done.
  - intros i Hi. rewrite switch_to_tasks by lia.
    destruct (Z.eqb_spec i next) as [->|]; [by apply Hids|].
    destruct (Z.eqb_spec i cur) as [->|]; by apply Hids.
Qed.

Lemma switch_to_switched :
  sched_inv s -> need_reschedule s = false -> switched s esp next (switch_to s esp next).
Proof.
  intros Hinv Hn. destruct switch_to_fields as (Ec & En & Ed & Er & El).
  pose proof (switch_to_inv Hinv) as Hi. assert (Hcn : (current s =? next) = false) by lia.
  split; [done|]. split; [done|]. split; [done|]. split; [congruence|]. split; [done|].
  rewrite (switch_to_tasks next), (switch_to_tasks (current s)) by lia.
  rewrite Hcn, Z.eqb_refl. fold cur. rewrite Z.eqb_refl. split; [done|]. split; [done|]. split; [done|].
  intros i Hir H1 H2. rewrite switch_to_tasks by done. fold cur in H1.
  by destruct (Z.eqb_spec i next), (Z.eqb_spec i cur).
Qed.
End switch.

Lemma sched_inv_need s b : sched_inv s -> sched_inv (set_need s b).
Proof. intros [H1 H2 H3 H4 H5 H6]. by split. Qed.

(** With a reschedule pending: the first ready task after the current one, round
    robin, gets the processor; without one the current task goes on. *)
Lemma schedule_cases s g esp :
  sched_inv s -> scheduler_ready s = true -> need_reschedule s = true ->
  (exists k s' g', 1 <= k < count s /\ t_state (get_task s (nth_after s k)) = TASK_READY /\
     (forall j, 1 <= j < k -> t_state (get_task s (nth_after s j)) <> TASK_READY) /\
     task_schedule_if_needed s g esp = (t_esp (get_task s (nth_after s k)), s', g') /\
     switched s esp (nth_after s k) s' /\
     g' = (if negb (kernel_stack_top (get_task s (nth_after s k)) =? 0)
           then tss_set_esp0 g (kernel_stack_top (get_task s (nth_after s k))) else g)) \/
  ((forall i, 0 <= i < count s -> i <> current s -> t_state (get_task s i) <> TASK_READY) /\
   task_schedule_if_needed s g esp = (esp, set_need s false, g)).
Proof.
  intros Hinv Hrdy Hneed. pose proof Hinv as [Hl Hc Hcur Hrun Hoth Hids].
  unfold task_schedule_if_needed. rewrite Hrdy, Hneed. cbn [negb orb].
  assert (Hst : forall j, 1 <= j < count s ->
    runnable (get_task s (nth_after s j)) = bool_decide (t_state (get_task s (nth_after s j)) = TASK_READY)).
  { intros j Hj. apply runnable_not_running, Hoth; [apply nth_after_range; lia|].
    by apply nth_after_current. }
  destruct (find_next_ready_spec (set_need s false) Hc Hcur) as [[E Hall]|(k & Hk & E & Hr & Hbt)];
    rewrite E; cbn [current set_need].
  - right. rewrite Z.eqb_refl. split; [|done]. intros i Hi Hne Hready.
    destruct (distance_nth s i Hcur Hi) as (En & Hd & Hd1). specialize (Hd1 Hne).
    specialize (Hall (distance s i) ltac:(cbn; lia)).
    change (runnable (get_task s (nth_after s (distance s i))) = false) in Hall.
    rewrite En, runnable_ready in Hall by done. done.
  - left. change (nth_after (set_need s false)) with (nth_after s) in *. cbn [count set_need] in Hk.
    change (get_task (set_need s false)) with (get_task s) in *.
    pose proof (nth_after_current s k Hcur Hk) as Hne.
    pose proof (nth_after_range s k ltac:(lia)) as Hnr.
    rewrite (Hst k Hk) in Hr. apply bool_decide_eq_true in Hr.
    exists k. set (next := nth_after s k) in *. destruct (Z.eqb_spec next (current s)); [done|].
    pose proof (switch_to_switched (set_need s false) esp next Hl Hc Hcur Hnr Hne
      (sched_inv_need s false Hinv) eq_refl) as Hsw.
    set (s5 := switch_to _ esp next) in *. clearbody s5.
    destruct Hsw as (Hi5 & Ec & En & Hx & Er & Eg & Hrest). rewrite Ec, Eg.
    cbn [t_esp kernel_stack_top with_state].
    eexists s5, _. split; [done|]. split; [done|]. split.
    { intros j Hj Hj'. specialize (Hbt j Hj). by rewrite runnable_ready in Hbt. }
    split; [reflexivity|]. split; [|done]. by repeat (split; [done|]).
Qed.

(** ** Interrupts *)

(** The state the scheduler sees when event [e] asks for a reschedule, and the
    stack pointer it is given. *)
Definition before_schedule (s : sched) (e : event) : sched :=
  match e with
  | EvTimer _ | EvYield _ => set_need s true
  | EvExit _ => set_need (task_exit_mark s) true
  | EvOther _ => s
  end.

Definition event_esp (e : event) : Z :=
  match e with EvTimer x | EvYield x | EvExit x | EvOther x => x end.

Lemma interrupt_schedule s g e :
  interrupt s g e = task_schedule_if_needed (before_schedule s e) g (event_esp e).
Proof. by destruct e. Qed.

Lemma exit_mark_task s j :
  sched_inv s -> 0 <= j < MAX_TASKS ->
  get_task (task_exit_mark s) j =
    if j =? current s then with_state (get_task s j) TASK_TERMINATED else get_task s j.
Proof.
  intros [Hl Hc Hcur _ _ _] Hj. unfold task_exit_mark. rewrite get_put by (done || lia).
  by destruct (Z.eqb_spec j (current s)) as [->|].
Qed.

Lemma exit_mark_inv s : sched_inv s -> sched_inv (task_exit_mark s).
Proof.
  intros Hinv. pose proof (exit_mark_task s) as Hg. pose proof Hinv as [Hl Hc Hcur Hr Ho Hi].
  split; change (current (task_exit_mark s)) with (current s);
    change (count (task_exit_mark s)) with (count s); try done.
  - unfold task_exit_mark. by rewrite put_length.
  - by rewrite Hg, Z.eqb_refl by (done || lia).
  - intros i Hir Hne. rewrite Hg by (done || lia). destruct (Z.eqb_spec i (current s)); [done|].
    by apply Ho.
  - intros i Hir. rewrite Hg by (done || lia). destruct (Z.eqb_spec i (current s)); by apply Hi.
Qed.

Lemma before_schedule_ok s e :
  sched_inv s -> let s1 := before_schedule s e in
  sched_inv s1 /\ current s1 = current s /\ count s1 = count s /\
  scheduler_ready s1 = scheduler_ready s /\
  (reschedules e = true -> need_reschedule s1 = true) /\
  (forall j, 0 <= j < MAX_TASKS -> j <> current s -> get_task s1 j = get_task s j).
Proof.
  intros Hinv. destruct e; cbn [before_schedule reschedules].
  - split; [by apply sched_inv_need|done].
  - split; [by apply sched_inv_need|done].
  - split; [by apply sched_inv_need, exit_mark_inv|]. do 4 (split; [done|]).
    intros j Hj Hne. change (get_task (task_exit_mark s) j = get_task s j).
    rewrite exit_mark_task by done. by destruct (Z.eqb_spec j (current s)).
  - done.
Qed.

(** Every interrupt keeps the invariant and the number of tasks; a task that is
    neither the current one before nor after keeps its entry. *)
Lemma interrupt_ok s g e :
  sched_inv s -> scheduler_ready s = true ->
  let '(esp, s', g') := interrupt s g e in
  sched_inv s' /\ scheduler_ready s' = true /\ count s' = count s /\
  (forall i, 0 <= i < MAX_TASKS -> i <> current s -> i <> current s' -> get_task s' i = get_task s i).
Proof.
  intros Hinv Hr. rewrite interrupt_schedule.
  destruct (before_schedule_ok s e Hinv) as (I1 & C1 & N1 & R1 & _ & G1).
  set (s1 := before_schedule s e) in *. clearbody s1.
  destruct (need_reschedule s1) eqn:Hneed.
  - destruct (schedule_cases s1 g (event_esp e) I1 ltac:(congruence) Hneed) as
      [(k & s' & g' & Hk & _ & _ & E & Hsw & _)|[_ E]]; rewrite E.
    + destruct Hsw as (Hi & Hc & Hn & _ & Hrd & _ & _ & _ & Ho). split; [done|].
      split; [congruence|]. split; [congruence|]. intros i Hir H1 H2. rewrite Ho by congruence.
      by apply G1.
    + split; [by apply sched_inv_need|]. split; [cbn; congruence|]. split; [done|].
      intros i Hir H1 _. by apply G1.
  - unfold task_schedule_if_needed. rewrite Hneed, orb_true_r. split; [done|].
    split; [congruence|]. split; [done|]. intros i Hir H1 _. by apply G1.
Qed.

Lemma run_inv s g es :
  sched_inv s -> scheduler_ready s = true ->
  let '(_, s', _) := run s g es in
  sched_inv s' /\ scheduler_ready s' = true /\ count s' = count s.
Proof.
  revert s g. induction es as [|e es IH]; intros s g Hinv Hr; cbn [run]; [done|].
  pose proof (interrupt_ok s g e Hinv Hr) as Hi. destruct (interrupt s g e) as [[esp s1] g1].
  destruct Hi as (Hi & Hr1 & Hc1 & _). specialize (IH s1 g1 Hi Hr1).
  destruct (run s1 g1 es) as [[esps s2] g2]. destruct IH as (? & ? & ?).
  split; [done|]. split; [done|]. congruence.
Qed.

(** A task that has exited and been switched away from. *)
Definition gone (s : sched) (i : Z) : Prop :=
  0 <= i < count s /\ i <> current s /\ t_state (get_task s i) = TASK_TERMINATED.

Lemma interrupt_gone s g e i :
  sched_inv s -> scheduler_ready s = true -> gone s i ->
  let '(_, s', _) := interrupt s g e in gone s' i.
Proof.
  intros Hinv Hr (Hi & Hne & Ht). pose proof (interrupt_ok s g e Hinv Hr) as Hok.
  rewrite interrupt_schedule in Hok |- *.
  destruct (before_schedule_ok s e Hinv) as (I1 & C1 & N1 & R1 & _ & G1).
  set (s1 := before_schedule s e) in *. clearbody s1. destruct Hinv as [_ Hc _ _ _ _].
  assert (Hcur : forall esp s' g', task_schedule_if_needed s1 g (event_esp e) = (esp, s', g') -> current s' <> i).
  { intros esp s' g'. destruct (need_reschedule s1) eqn:Hneed.
    - destruct (schedule_cases s1 g (event_esp e) I1 ltac:(congruence) Hneed) as
        [(k & s2 & g2 & Hk & Hrk & _ & E & Hsw & _)|[_ E]]; rewrite E; intros [= <- <- <-]; [|cbn; congruence].
      destruct Hsw as (_ & -> & _). intros <-. rewrite G1 in Hrk; [congruence|lia|done].
    - unfold task_schedule_if_needed. rewrite Hneed, orb_true_r. intros [= <- <- <-]. congruence. }
  destruct (task_schedule_if_needed _ _ _) as [[esp s'] g'] eqn:E. specialize (Hcur _ _ _ eq_refl).
  destruct Hok as (_ & _ & Hc' & Ho). split; [lia|]. split; [done|]. by rewrite Ho by (lia || done).
Qed.

Lemma run_gone s g es i :
  sched_inv s -> scheduler_ready s = true -> gone s i ->
  let '(_, s', _) := run s g es in gone s' i.
Proof.
  revert s g. induction es as [|e es IH]; intros s g Hinv Hr Hg; cbn [run]; [done|].
  pose proof (interrupt_ok s g e Hinv Hr) as Hi. pose proof (interrupt_gone s g e i Hinv Hr Hg) as Hg1.
  destruct (interrupt s g e) as [[esp s1] g1]. destruct Hi as (Hi & Hr1 & _).
  specialize (IH s1 g1 Hi Hr1 Hg1). by destruct (run s1 g1 es) as [[esps s2] g2].
Qed.

(** The current task exits while another one is ready. *)
Lemma exit_gone s g esp j :
  sched_inv s -> scheduler_ready s = true -> 0 <= j < count s -> j <> current s ->
  t_state (get_task s j) = TASK_READY ->
  let '(_, s', _) := interrupt s g (EvExit esp) in
  sched_inv s' /\ scheduler_ready s' = true /\ gone s' (current s).
Proof.
  intros Hinv Hr Hj Hne Hrj. pose proof (interrupt_ok s g (EvExit esp) Hinv Hr) as Hok.
  rewrite interrupt_schedule in Hok |- *. cbn [before_schedule event_esp] in *.
  destruct (before_schedule_ok s (EvExit esp) Hinv) as (I1 & C1 & N1 & R1 & D1 & G1).
  cbn [before_schedule reschedules] in *. specialize (D1 eq_refl).
  pose proof Hinv as [_ Hc Hcur _ _ _].
  assert (Hst : t_state (get_task (set_need (task_exit_mark s) true) (current s)) = TASK_TERMINATED).
  { change (t_state (get_task (task_exit_mark s) (current s)) = TASK_TERMINATED).
    rewrite exit_mark_task by (done || lia). by rewrite Z.eqb_refl. }
  set (s1 := set_need (task_exit_mark s) true) in *. clearbody s1.
  destruct (schedule_cases s1 g esp I1 ltac:(congruence) D1) as
    [(k & s' & g' & Hk & Hrk & _ & E & Hsw & _)|[Hno _]].
  2:{ exfalso. apply (Hno j); [lia|congruence|]. rewrite G1; [done|lia|done]. }
  rewrite E in Hok |- *. destruct Hok as (Hi & Hrd & Hc' & _). split; [done|]. split; [done|].
  destruct Hsw as (_ & Hcs & _ & _ & _ & _ & _ & Hts & _). rewrite C1 in Hts.
  split; [lia|]. split; [|by rewrite Hts, Hst]. rewrite Hcs. intros Heq. rewrite <- Heq in Hrk. congruence.
Qed.

(** One step of the queue: a ready task is switched to, with the stack pointer
    it was saved with, or comes closer. *)
Lemma interrupt_progress s g e i :
  sched_inv s -> scheduler_ready s = true -> need_reschedule (before_schedule s e) = true ->
  0 <= i < count s -> i <> current s -> t_state (get_task s i) = TASK_READY ->
  let '(esp, s', g') := interrupt s g e in
  (current s' = i /\ esp = t_esp (get_task s i) /\ t_state (get_task s' i) = TASK_RUNNING /\
   (kernel_stack_top (get_task s i) <> 0 -> esp0 (tss g') = kernel_stack_top (get_task s i))) \/
  (current s' <> i /\ distance s' i < distance s i /\ get_task s' i = get_task s i).
Proof.
  intros Hinv Hr D1 Hi Hne Hst. rewrite interrupt_schedule.
  destruct (before_schedule_ok s e Hinv) as (I1 & C1 & N1 & R1 & _ & G1).
  set (s1 := before_schedule s e) in *. clearbody s1.
  pose proof Hinv as [_ Hcnt Hcur _ _ _].
  assert (Gi : get_task s1 i = get_task s i) by (apply G1; [lia|done]).
  assert (Hd : distance s1 i = distance s i) by (unfold distance; congruence).
  destruct (distance_nth s1 i) as (En & Hdr & Hd1); [rewrite C1, N1; lia|lia|].
  specialize (Hd1 ltac:(congruence)).
  destruct (schedule_cases s1 g (event_esp e) I1 ltac:(congruence) D1) as
    [(k & s' & g' & Hk & Hrk & Hbt & E & Hsw & Hg)|[Hno _]].
  2:{ exfalso. apply (Hno i); [lia|congruence|congruence]. }
  rewrite E. destruct Hsw as (_ & Hc & Hn & _ & _ & Hgn & _ & _ & Ho).
  destruct (Z.eq_dec k (distance s1 i)) as [->|Hkd].
  - left. rewrite En in *. rewrite Hc, Hgn, Gi. split; [done|]. split; [done|]. split; [done|].
    intros Hk0. rewrite Hg, Gi. destruct (Z.eqb_spec (kernel_stack_top (get_task s i)) 0); done.
  - right. assert (k < distance s1 i).
    { destruct (Z_lt_ge_dec (distance s1 i) k); [|lia]. exfalso.
      apply (Hbt (distance s1 i) ltac:(lia)). rewrite En. congruence. }
    assert (Hcn : nth_after s1 k <> i).
    { intros E'. apply Hkd. rewrite <- E'. symmetry. apply distance_of_nth; lia. }
    rewrite Hc. split; [done|]. split.
    + rewrite <- Hd. unfold distance at 1. rewrite Hn, Hc. unfold nth_after.
      rewrite Zminus_mod_idemp_r.
      replace (i - (current s1 + k)) with ((i - current s1) - k) by lia.
      rewrite <- Zminus_mod_idemp_l. fold (distance s1 i). rewrite Z.mod_small; lia.
    + rewrite Ho by (congruence || lia). done.
Qed.

(** A ready task while any interrupt is taken: one that does not ask for a
    reschedule may leave everything as it is. *)
Lemma interrupt_wait s g e i :
  sched_inv s -> scheduler_ready s = true ->
  0 <= i < count s -> i <> current s -> t_state (get_task s i) = TASK_READY ->
  let '(esp, s', g') := interrupt s g e in
  (current s' = i /\ esp = t_esp (get_task s i) /\ t_state (get_task s' i) = TASK_RUNNING /\
   (kernel_stack_top (get_task s i) <> 0 -> esp0 (tss g') = kernel_stack_top (get_task s i))) \/
  (current s' <> i /\ distance s' i + (if reschedules e then 1 else 0) <= distance s i /\ get_task s' i = get_task s i).
Proof.
  intros Hinv Hr Hi Hne Hst. destruct (need_reschedule (before_schedule s e)) eqn:Hn.
  - pose proof (interrupt_progress s g e i Hinv Hr Hn Hi Hne Hst) as Hp.
    destruct (interrupt s g e) as [[esp s'] g']. destruct Hp as [Hp|(H1 & H2 & H3)]; [by left|right].
    split; [done|]. split; [destruct (reschedules e); lia|done].
  - destruct (before_schedule_ok s e Hinv) as (_ & C1 & N1 & _ & D1 & G1).
    destruct (reschedules e) eqn:Hre; [by rewrite D1 in Hn|]. rewrite interrupt_schedule. unfold task_schedule_if_needed.
    rewrite Hn, orb_true_r. right. unfold distance. rewrite C1, N1. split; [congruence|]. split; [lia|].
    apply G1; [pose proof (inv_count _ Hinv); lia|done].
Qed.

(** ** Creating tasks *)

(** A new last task comes between the current one and those before it. *)
Lemma distance_created s s' i :
  0 <= current s < count s -> 0 <= i < count s -> count s' = count s + 1 -> current s' = current s ->
  distance s' i <= distance s i + 1.
Proof.
  intros Hc Hi Hn Hc'. unfold distance. rewrite Hn, Hc'. destruct (Z_le_gt_dec (current s) i).
  - rewrite !Z.mod_small by lia. lia.
  - replace (i - current s) with (i - current s + count s + -1 * count s) at 2 by lia.
    replace (i - current s) with (i - current s + (count s + 1) + -1 * (count s + 1)) at 1 by lia.
    rewrite !Z.mod_add, !Z.mod_small by lia. lia.
Qed.

Lemma push_all_ok vs m sp :
  Forall (fun v => 0 <= v < 2 ^ 32) vs ->
  let '(m', sp') := push_all m sp vs in
  sp' = sp - 4 * Z.of_nat (length vs) /\ same_outside sp' sp m m' /\
  (forall k v, vs !! k = Some v -> load32 m' (sp - 4 * (Z.of_nat k + 1)) = v).
Proof.
  intros Hvs. revert m sp. induction Hvs as [|v vs Hv _ IH]; intros m sp; cbn [push_all].
  { split; [cbn; lia|]. split; [apply same_outside_refl|done]. }
  specialize (IH (store32 m (sp - 4) v) (sp - 4)).
  destruct (push_all (store32 m (sp - 4) v) (sp - 4) vs) as [m' sp'].
  destruct IH as (E & Ho & Hk). cbn [length]. split; [lia|]. split.
  - intros x Hx. rewrite Ho by lia. apply load8_store32_ne. lia.
  - intros [|k] v'; cbn [lookup list_lookup].
    + intros [= ->]. rewrite <- (load32_store32_same m (sp - 4) v') by done.
      replace (sp - 4 * (Z.of_nat 0 + 1)) with (sp - 4) by lia.
      apply load32_ext. intros x Hx. apply Ho. lia.
    + intros Hl. rewrite <- (Hk k v' Hl). f_equal. lia.
Qed.

(** A new entry in slot [count]. *)
Lemma new_task_inv s t :
  sched_inv s -> count s < MAX_TASKS -> t_id t = count s -> t_state t = TASK_READY ->
  let s' := put_task (set_count s (count s +₃₂ 1)) (count s) t in
  sched_inv s' /\ count s' = count s + 1 /\ current s' = current s /\ get_task s' (count s) = t /\
  (forall i, 0 <= i < count s -> get_task s' i = get_task s i).
Proof.
  intros [Hl Hc Hcur Hr Ho Hi] Hlt Hid Hst s'.
  assert (Hg : forall j, 0 <= j < MAX_TASKS -> get_task s' j = if j =? count s then t else get_task s j).
  { intros j Hj. unfold s'. by rewrite get_put by (done || lia). }
  assert (Hn : count s' = count s + 1) by (cbn [s' put_task set_count count]; unfold MAX_TASKS in *; unwrap; done).
  change (current s') with (current s).
  split; [|split; [done|split; [done|split]]].
  - split; rewrite ?Hn; change (current s') with (current s).
    + unfold s'. by rewrite put_length.
    + lia.
    + lia.
    + rewrite Hg by lia. by destruct (Z.eqb_spec (current s) (count s)); [lia|].
    + intros j Hj Hne. rewrite Hg by lia. destruct (Z.eqb_spec j (count s)); [congruence|].
      apply Ho; [lia|done].
    + intros j Hj. rewrite Hg by lia. destruct (Z.eqb_spec j (count s)); [congruence|].
      apply Hi. lia.
  - rewrite Hg by lia. by rewrite Z.eqb_refl.
  - intros i Hir. rewrite Hg by lia. by destruct (Z.eqb_spec i (count s)); [lia|].
Qed.

(** Taking a slot and giving it back. *)
Lemma release_slot s :
  1 <= count s < MAX_TASKS -> set_count (set_count s (count s +₃₂ 1)) ((count s +₃₂ 1) -₃₂ 1) = s.
Proof.
  intros Hc. unfold MAX_TASKS in Hc. unwrap. replace (count s + 1 - 1) with (count s) by lia. by destruct s.
Qed.

Section create_lemmas.
Context {H : Type} `{AllocLaws H}.
Context (task_exit : Z) (Hexit : 0 <= task_exit < 2 ^ 32).

Lemma task_create_cases w h s entry name lv :
  owns (ram w) h lv -> sched_inv s -> 0 <= entry < 2 ^ 32 ->
  (task_create task_exit w h s entry name = Some (u32 (-1), w, h, s)) \/
  exists w' h' s' lv' stack sz, count s < MAX_TASKS /\
    task_create task_exit w h s entry name = Some (count s, w', h', s') /\
    owns (ram w') h' lv' /\ keeps lv (ram w) (ram w') /\ apart lv stack sz /\
    (forall p n, In (p, n) lv' <-> In (p, n) lv \/ (p, n) = (stack, sz)) /\
    same_outside HEAP_START HEAP_END (ram w) (ram w') /\
    sched_inv s' /\ count s' = count s + 1 /\ current s' = current s /\
    (forall i, 0 <= i < count s -> get_task s' i = get_task s i) /\
    let t := get_task s' (count s) in
    t_state t = TASK_READY /\ is_user t = false /\ t_name t = name /\ stack_base t = stack /\
    user_stack_base t = 0 /\ TASK_STACK_SIZE <= sz /\ kernel_stack_top t = stack + TASK_STACK_SIZE /\
    stack <= t_esp t /\ t_esp t = kernel_stack_top t - 60 /\
    let f := frame_at (ram w') (t_esp t) in
    f_eip f = entry /\ f_cs f = GDT_KERNEL_CODE_SEL /\ f_ds f = GDT_KERNEL_DATA_SEL /\
    Z.testbit (f_eflags f) 9 = true /\ load32 (ram w') (kernel_stack_top t - 4) = task_exit.
Proof.
  intros Hown Hinv Hentry. unfold task_create. rewrite Z.geb_leb.
  destruct (Z.leb_spec MAX_TASKS (count s)) as [|Hlt]; [by left|]. cbn [take_slot].
  destruct (kmalloc_law w h lv TASK_STACK_SIZE Hown) as
    [E|(stack & sz & lv' & w1 & h1 & E & Hown1 & _ & _ & Hp & Hsz & Hend & Hap & Hkp & Hout & Hlv)];
    [done|done|..]; rewrite E; cbn [mbind option_bind].
  { left. cbn [Z.eqb count set_count]. by rewrite release_slot by (pose proof (inv_count _ Hinv); lia). }
  right. destruct (Z.eqb_spec stack 0) as [E0|_]; [unfold HEAP_START in Hp; lia|].
  assert (Hw : Forall (fun v => 0 <= v < 2 ^ 32) (kernel_frame_words task_exit entry)).
  { unfold kernel_frame_words, GDT_KERNEL_CODE_SEL, GDT_KERNEL_DATA_SEL. repeat constructor; lia. }
  pose proof (push_all_ok _ (ram w1) (stack + TASK_STACK_SIZE) Hw) as Hpush.
  destruct (push_all (ram w1) (stack + TASK_STACK_SIZE) (kernel_frame_words task_exit entry)) as [m2 sp].
  destruct Hpush as (Esp & Ho & Hk). cbn [length kernel_frame_words] in Esp.
  unfold TASK_STACK_SIZE in *.
  assert (Ho2 : same_outside stack (stack + sz) (ram w1) m2).
  { eapply same_outside_mono; [..|exact Ho]; lia. }
  set (t := {| t_id := count s |}).
  destruct (new_task_inv s t Hinv Hlt eq_refl eq_refl) as (I & N & C & Gt & Go).
  eexists _, h1, _, lv', stack, sz. split; [done|]. split; [reflexivity|]. cbn [ram set_ram].
  split; [by eapply owns_write; [exact Hown1|apply Hlv; by right|exact Ho2]|].
  split; [eapply keeps_trans; [exact Hkp|by eapply keeps_apart]|].
  split; [done|]. split; [done|]. split.
  { eapply same_outside_trans; [exact Hout|]. eapply same_outside_mono; [..|exact Ho2]; lia. }
  split; [exact I|]. split; [exact N|]. split; [exact C|]. split; [exact Go|].
  cbv zeta. rewrite Gt. cbn [t t_state is_user t_name stack_base user_stack_base kernel_stack_top t_esp].
  do 5 (split; [done|]). split; [done|]. split; [done|]. split; [lia|]. split; [lia|].
  unfold frame_at. cbn [f_eip f_cs f_ds f_eflags]. rewrite Esp.
  assert (Hat : forall a k v, a = stack + 4096 - 4 * (Z.of_nat k + 1) ->
    kernel_frame_words task_exit entry !! k = Some v -> load32 m2 a = v).
  { intros a k v -> Hl. by apply Hk. }
  split; [by apply (Hat _ 3%nat); [lia|]|]. split; [by apply (Hat _ 2%nat); [lia|]|].
  split; [by apply (Hat _ 14%nat); [lia|]|]. split; [|by apply (Hat _ 0%nat); [lia|]].
  by rewrite (Hat _ 1%nat 0x202) by (done || lia).
Qed.
End create_lemmas.

(** ** User-mode tasks *)

Definition mapped (m : memory) (v : vmm) (q : Z) : bool :=
  match walk m v q with Some _ => true | None => false end.

Lemma set_user_step m p v va :
  vmm_inv m p v -> 0 <= va < 2 ^ 32 ->
  let '(rc, m', v') := vmm_set_user m v va in
  vmm_inv m' p v' /\
  (forall lo hi, off_range lo hi m p v -> same_inside lo hi m m' /\ off_range lo hi m' p v') /\
  forall q, 0 <= q < 2 ^ 20 -> mapped m' v' q = mapped m v q /\
    user_page m' v' q = if q =? va / PAGE_SIZE then mapped m v q else user_page m v q.
Proof.
  intros Hinv Hva. destruct (set_user_cases m p v va Hinv Hva) as (m' & v' & E & Hinv' & _ & _ & Hw).
  pose proof (fun lo hi Hoff => set_user_range lo hi m p v va Hinv Hoff Hva) as Hh. rewrite E in Hh |- *.
  split; [done|]. split; [exact Hh|].
  intros q Hq. rewrite (user_page_walk _ _ _ _ Hinv' Hq), (user_page_walk _ _ _ _ Hinv Hq).
  unfold mapped. rewrite (Hw q Hq). destruct (Z.eqb_spec q (va / PAGE_SIZE)) as [_|_]; [|done].
  destruct (walk m v q) as [e|]; [|done]. cbn [mbind option_bind]. split; [done|].
  rewrite Z.lor_spec. apply orb_true_r.
Qed.

(** The stack loop runs once. *)
Lemma set_user_pages_once m v base :
  set_user_pages (Z.to_nat TASK_STACK_SIZE) m v base 0 =
  let '(_, m1, v1) := vmm_set_user m v base in (m1, v1).
Proof.
  assert (E : exists n, Z.to_nat TASK_STACK_SIZE = S (S n)).
  { exists (Z.to_nat (TASK_STACK_SIZE - 2)). unfold TASK_STACK_SIZE. lia. }
  destruct E as [n ->]. cbn [set_user_pages]. unfold TASK_STACK_SIZE, PAGE_SIZE. cbn [Z.ltb Z.compare].
  rewrite Z.add_0_r. by destruct (vmm_set_user m v base) as [[rc m1] v1].
Qed.

Lemma page_align_down a : 0 <= a < 2 ^ 32 -> PAGE_ALIGN_DOWN a = a / PAGE_SIZE * PAGE_SIZE.
Proof. apply land_page. Qed.

Section create_user.
Context {H : Type} `{AllocLaws H}.

(** The pages opened to ring 3 by [task_create_user]: the one with the lowest
    byte of the stack, and two from the entry point. *)
Definition opened (ustack entry q : Z) : bool :=
  (q =? ustack / PAGE_SIZE) || (q =? entry / PAGE_SIZE) ||
  (q =? (entry / PAGE_SIZE * PAGE_SIZE +₃₂ PAGE_SIZE) / PAGE_SIZE).

Lemma create_user_pages m p v ustack entry :
  vmm_inv m p v -> 0 <= ustack < 2 ^ 32 -> 0 <= entry < 2 ^ 32 ->
  let '(m3, v3) := set_user_pages (Z.to_nat TASK_STACK_SIZE) m v ustack 0 in
  let '(_, m4, v4) := vmm_set_user m3 v3 (PAGE_ALIGN_DOWN entry) in
  let '(_, m5, v5) := vmm_set_user m4 v4 (PAGE_ALIGN_DOWN entry +₃₂ PAGE_SIZE) in
  vmm_inv m5 p v5 /\
  (forall lo hi, off_range lo hi m p v -> same_inside lo hi m m5 /\ off_range lo hi m5 p v5) /\
  forall q, 0 <= q < 2 ^ 20 ->
    user_page m5 v5 q = if opened ustack entry q then mapped m v q else user_page m v q.
Proof.
  intros Hinv Hu He. rewrite set_user_pages_once.
  pose proof (set_user_step m p v ustack Hinv Hu) as Q1.
  destruct (vmm_set_user m v ustack) as [[r1 m3] v3]. destruct Q1 as (I3 & O3 & P3).
  assert (Hpad : PAGE_ALIGN_DOWN entry = entry / PAGE_SIZE * PAGE_SIZE) by (by apply page_align_down).
  assert (Hpr : 0 <= entry / PAGE_SIZE * PAGE_SIZE < 2 ^ 32) by (clear -He; unfold PAGE_SIZE; dlia).
  rewrite Hpad. pose proof (set_user_step m3 p v3 _ I3 Hpr) as Q2.
  destruct (vmm_set_user m3 v3 _) as [[r2 m4] v4]. destruct Q2 as (I4 & O4 & P4).
  pose proof (set_user_step m4 p v4 _ I4 (u32_range (entry / PAGE_SIZE * PAGE_SIZE + PAGE_SIZE))) as Q5.
  destruct (vmm_set_user m4 v4 _) as [[r3 m5] v5]. destruct Q5 as (I5 & O5 & P5).
  split; [done|]. split.
  { intros lo hi Hr. destruct (O3 lo hi Hr) as [S3 R3], (O4 lo hi R3) as [S4 R4], (O5 lo hi R4) as [S5 R5].
    split; [|done]. intros x Hx. rewrite S5, S4 by done. by apply S3. }
  intros q Hq. destruct (P3 q Hq) as [M3 U3], (P4 q Hq) as [M4 U4], (P5 q Hq) as [M5 U5].
  rewrite U5, U4, U3, M4, M3. unfold opened.
  rewrite (Z.div_mul (entry / PAGE_SIZE)) by done.
  destruct (q =? (entry / PAGE_SIZE * PAGE_SIZE +₃₂ PAGE_SIZE) / PAGE_SIZE), (q =? entry / PAGE_SIZE),
    (q =? ustack / PAGE_SIZE); done.
Qed.

(** The frame [task_create_user] builds below the top of a kernel stack. *)
Lemma user_frame_ok m entry us top :
  0 <= entry < 2 ^ 32 -> 0 <= us -> us + TASK_STACK_SIZE < 2 ^ 32 ->
  let '(m', sp) := push_all m top (user_frame_words entry us) in
  let f := frame_at m' sp in
  sp = top - 64 /\ same_outside (top - 64) top m m' /\
  f_eip f = entry /\ f_cs f = GDT_USER_CODE_SEL /\ f_ds f = GDT_USER_DATA_SEL /\
  f_ss f = GDT_USER_DATA_SEL /\ Z.testbit (f_eflags f) 9 = true /\ f_useresp f = us + TASK_STACK_SIZE.
Proof.
  intros He Hu Hu2.
  assert (Hwords : Forall (fun x => 0 <= x < 2 ^ 32) (user_frame_words entry us)).
  { unfold user_frame_words, GDT_USER_CODE_SEL, GDT_USER_DATA_SEL. unfold TASK_STACK_SIZE in *.
    repeat (constructor; [lia|]). constructor. }
  pose proof (push_all_ok _ m top Hwords) as Hpush.
  destruct (push_all m top _) as [m' sp]. destruct Hpush as (Esp & Ho & Hk).
  cbn [length user_frame_words] in Esp. assert (sp = top - 64) as -> by lia.
  split; [done|]. split; [done|]. unfold frame_at. cbn [f_eip f_cs f_ds f_ss f_eflags f_useresp].
  assert (Hat : forall a k x, a = top - 4 * (Z.of_nat k + 1) ->
    user_frame_words entry us !! k = Some x -> load32 m' a = x).
  { intros a k x -> Hl. by apply Hk. }
  split; [by apply (Hat _ 4%nat); [lia|]|]. split; [by apply (Hat _ 3%nat); [lia|]|].
  split; [by apply (Hat _ 15%nat); [lia|]|]. split; [by apply (Hat _ 0%nat); [lia|]|].
  split; [by rewrite (Hat _ 2%nat 0x202) by (done || lia)|].
  by apply (Hat _ 1%nat); [lia|].
Qed.

(** A payload that was just obtained, given back: the live payloads and all their
    bytes are as before. *)
Lemma payload_returned w1 h1 lv lv1 ptr sz m :
  owns (ram w1) h1 lv1 -> (forall p n, In (p, n) lv1 <-> In (p, n) lv \/ (p, n) = (ptr, sz)) ->
  apart lv ptr sz -> 0 < sz -> keeps lv m (ram w1) ->
  exists w' h' lv', kfree_op w1 h1 ptr = Some (w', h') /\ owns (ram w') h' lv' /\ keeps lv m (ram w') /\
    same_outside HEAP_START HEAP_END (ram w1) (ram w') /\ forall p n, In (p, n) lv' <-> In (p, n) lv.
Proof.
  intros Hown Hlv Hap Hsz Hk. assert (Hin : In (ptr, sz) lv1) by (apply Hlv; by right).
  destruct (kfree_law w1 h1 lv1 ptr sz Hown Hin) as (lv' & w' & h' & E & Hown' & _ & Hk' & Hout & Hlv').
  exists w', h', lv'. split; [done|]. split; [done|]. split; [|split; [done|]].
  - eapply keeps_trans; [exact Hk|]. eapply keeps_incl; [|exact Hk']. intros [? ?] ?. apply Hlv. by left.
  - intros q n. rewrite Hlv', Hlv. split; [|intros Hq; split; [by left|]].
    + intros [[?|[= -> ->]] ?]; done.
    + intros ->. assert (Hq1 : In (ptr, n) lv1) by (apply Hlv; by left).
      rewrite (owns_unique _ _ _ _ _ _ Hown Hq1 Hin) in Hq. specialize (Hap _ _ Hq). lia.
Qed.

(** The two stacks in the heap: pages are opened and the frame is pushed. *)
Lemma user_task_memory m p v ks us entry :
  vmm_inv m p v -> off_heap m p v -> 0 <= entry < 2 ^ 32 ->
  HEAP_START < ks -> ks + TASK_STACK_SIZE <= HEAP_END -> HEAP_START < us -> us + TASK_STACK_SIZE <= HEAP_END ->
  let '(m3, v3) := set_user_pages (Z.to_nat TASK_STACK_SIZE) m v us 0 in
  let '(_, m4, v4) := vmm_set_user m3 v3 (PAGE_ALIGN_DOWN entry) in
  let '(_, m5, v5) := vmm_set_user m4 v4 (PAGE_ALIGN_DOWN entry +₃₂ PAGE_SIZE) in
  let '(m6, sp) := push_all m5 (ks + TASK_STACK_SIZE) (user_frame_words entry us) in
  let f := frame_at m6 sp in
  sp = ks + TASK_STACK_SIZE - 64 /\ vmm_inv m6 p v5 /\ off_heap m6 p v5 /\
  same_inside HEAP_START HEAP_END m m5 /\ same_outside ks (ks + TASK_STACK_SIZE) m5 m6 /\
  (forall lo hi, off_range lo hi m p v -> (hi <= HEAP_START \/ HEAP_END <= lo) ->
     same_inside lo hi m m6 /\ off_range lo hi m6 p v5) /\
  (f_eip f = entry /\ f_cs f = GDT_USER_CODE_SEL /\ f_ds f = GDT_USER_DATA_SEL /\ f_ss f = GDT_USER_DATA_SEL /\
   Z.testbit (f_eflags f) 9 = true /\ f_useresp f = us + TASK_STACK_SIZE) /\
  forall q, 0 <= q < 2 ^ 20 -> user_page m6 v5 q = if opened us entry q then mapped m v q else user_page m v q.
Proof.
  intros Hvm Hoff He Hk Hkend Hu Huend.
  assert (Hur : 0 <= us < 2 ^ 32 /\ us + TASK_STACK_SIZE < 2 ^ 32)
    by (unfold HEAP_END, HEAP_START, HEAP_INITIAL, TASK_STACK_SIZE in *; lia).
  pose proof (create_user_pages m p v us entry Hvm ltac:(lia) He) as Hpages.
  destruct (set_user_pages _ m v us 0) as [m3 v3].
  destruct (vmm_set_user m3 v3 _) as [[r4 m4] v4]. destruct (vmm_set_user m4 v4 _) as [[r5 m5] v5].
  destruct Hpages as (Hvm5 & Hr5 & Hup5). destruct (Hr5 _ _ Hoff) as [Hs5 Hoff5].
  pose proof (user_frame_ok m5 entry us (ks + TASK_STACK_SIZE) He ltac:(lia) ltac:(lia)) as Hpush.
  destruct (push_all m5 _ _) as [m6 sp]. cbv zeta in *. destruct Hpush as (Esp & Ho6 & Hframe).
  unfold TASK_STACK_SIZE in *.
  assert (Hout6 : same_outside ks (ks + 4096) m5 m6) by (eapply same_outside_mono; [..|exact Ho6]; lia).
  assert (Hh6 : same_outside HEAP_START HEAP_END m5 m6) by (eapply same_outside_mono; [..|exact Hout6]; lia).
  destruct (vmm_inv_heap _ _ _ _ Hvm5 Hoff5 Hh6) as (Hvm6 & Hoff6 & Hw6).
  do 5 (split; [done|]). split; [|split; [done|]].
  - intros lo hi Hr Hd. destruct (vmm_inv_outside _ _ _ _ _ _ Hvm5 Hoff5 Hh6) as (_ & R6 & _).
    destruct (Hr5 lo hi Hr) as [S5 R5]. split; [|by apply R6]. intros x Hx. rewrite Hh6 by lia. by apply S5.
  - intros q Hq. rewrite (user_page_walk _ _ _ _ Hvm6 Hq), (Hw6 q Hq). by rewrite <- (user_page_walk _ _ _ _ Hvm5 Hq), (Hup5 q Hq).
Qed.

(** Paging when only the heap was written to. *)
Lemma paging_heap m m' p v :
  vmm_inv m p v -> off_heap m p v -> same_outside HEAP_START HEAP_END m m' ->
  vmm_inv m' p v /\ off_heap m' p v /\
  (forall lo hi, off_range lo hi m p v -> (hi <= HEAP_START \/ HEAP_END <= lo) ->
     same_inside lo hi m m' /\ off_range lo hi m' p v) /\
  forall q, 0 <= q < 2 ^ 20 -> user_page m' v q = user_page m v q /\ mapped m' v q = mapped m v q.
Proof.
  intros Hvm Hoff Hout. destruct (vmm_inv_heap _ _ _ _ Hvm Hoff Hout) as (Hvm' & Hoff' & Hw).
  split; [done|]. split; [done|]. split.
  - intros lo hi Hr Hd. destruct (vmm_inv_outside _ _ _ _ _ _ Hvm Hoff Hout) as (_ & R & _).
    split; [intros x Hx; apply Hout; lia|by apply R].
  - intros q Hq. rewrite (user_page_walk _ _ _ _ Hvm' Hq), (user_page_walk _ _ _ _ Hvm Hq). unfold mapped. by rewrite Hw.
Qed.

(** [task_create_user]: on failure both stacks are given back and the table is
    as before; on success the new task starts in ring 3 at [entry]. *)
Lemma task_create_user_cases w h p v s entry name lv :
  owns (ram w) h lv -> sched_inv s -> vmm_inv (ram w) p v -> off_heap (ram w) p v ->
  0 <= entry < 2 ^ 32 ->
  exists id w' h' v' s' lv', task_create_user w h v s entry name = Some (id, w', h', v', s') /\
    owns (ram w') h' lv' /\ keeps lv (ram w) (ram w') /\ vmm_inv (ram w') p v' /\
    off_heap (ram w') p v' /\
    (forall lo hi, off_range lo hi (ram w) p v -> (hi <= HEAP_START \/ HEAP_END <= lo) ->
       same_inside lo hi (ram w) (ram w') /\ off_range lo hi (ram w') p v') /\
    ((id = u32 (-1) /\ s' = s /\ (forall p n, In (p, n) lv' <-> In (p, n) lv) /\
      (forall q, 0 <= q < 2 ^ 20 -> user_page (ram w') v' q = user_page (ram w) v q)) \/
     (id = count s /\ count s < MAX_TASKS /\ sched_inv s' /\ count s' = count s + 1 /\
      current s' = current s /\ (forall i, 0 <= i < count s -> get_task s' i = get_task s i) /\
      let t := get_task s' id in
      let f := frame_at (ram w') (t_esp t) in
      (exists ksz usz, TASK_STACK_SIZE <= ksz /\ TASK_STACK_SIZE <= usz /\ apart lv (stack_base t) ksz /\
         apart ((stack_base t, ksz) :: lv) (user_stack_base t) usz /\
         forall p n, In (p, n) lv' <-> In (p, n) lv \/ (p, n) = (stack_base t, ksz) \/ (p, n) = (user_stack_base t, usz)) /\
      t_state t = TASK_READY /\ is_user t = true /\ t_esp t = kernel_stack_top t - 64 /\
      kernel_stack_top t = stack_base t + TASK_STACK_SIZE /\
      f_eip f = entry /\ f_cs f = GDT_USER_CODE_SEL /\ f_ds f = GDT_USER_DATA_SEL /\
      f_ss f = GDT_USER_DATA_SEL /\ Z.testbit (f_eflags f) 9 = true /\
      f_useresp f = user_stack_base t + TASK_STACK_SIZE /\ HEAP_START < user_stack_base t /\
      user_stack_base t + TASK_STACK_SIZE <= HEAP_END /\
      (forall q, 0 <= q < 2 ^ 20 -> user_page (ram w') v' q =
         if opened (user_stack_base t) entry q then mapped (ram w) v q else user_page (ram w) v q))).
Proof.
  intros Hown Hinv Hvm Hoff Hentry. unfold task_create_user. rewrite Z.geb_leb.
  destruct (Z.leb_spec MAX_TASKS (count s)) as [|Hlt].
  { eexists _, w, h, v, s, lv. split; [done|]. unfold keeps. split; [done|]. split; [done|].
    split; [done|]. split; [done|]. split; [by split; [intros x|]|]. by left. }
  cbn [take_slot]. pose proof (inv_count _ Hinv) as Hcnt.
  destruct (kmalloc_law w h lv TASK_STACK_SIZE Hown) as
    [E|(ks & ksz & lv1 & w1 & h1 & E & Hown1 & _ & _ & Hkp & Hksz & Hkend & Hkap & Hkk & Hkout & Hlv1)];
    [done|done|..]; rewrite E; cbn [mbind option_bind].
  { rewrite E. cbn [mbind option_bind Z.eqb orb negb count set_count]. rewrite release_slot by lia.
    eexists _, w, h, v, s, lv. split; [done|]. unfold keeps. split; [done|]. split; [done|].
    split; [done|]. split; [done|]. split; [by split; [intros x|]|]. by left. }
  destruct (Z.eqb_spec ks 0) as [E0|Hk0]; [unfold HEAP_START in Hkp; lia|]. cbn [orb negb].
  destruct (kmalloc_law w1 h1 lv1 TASK_STACK_SIZE Hown1) as
    [E'|(us & usz & lv2 & w2 & h2 & E' & Hown2 & _ & _ & Hup & Husz & Huend & Huap & Huk & Huout & Hlv2)];
    [done|done|..]; rewrite E'; cbn [mbind option_bind].
  - cbn [Z.eqb orb negb].
    destruct (payload_returned w1 h1 lv lv1 ks ksz (ram w) Hown1 Hlv1 Hkap) as
      (w3 & h3 & lv3 & E3 & Hown3 & Hk3 & Hout3 & Hlv3); [unfold TASK_STACK_SIZE in *; lia|done|].
    destruct (paging_heap (ram w) (ram w3) p v Hvm Hoff) as (Hvm3 & Hoff3 & Hr3 & Hu3); [by eapply same_outside_trans|].
    rewrite E3. cbn [mbind option_bind count set_count]. rewrite release_slot by lia.
    eexists _, w3, h3, v, s, lv3. do 6 (split; [done|]). left. do 3 (split; [done|]). intros q Hq. by apply Hu3.
  - destruct (Z.eqb_spec us 0) as [E0|Hu0]; [unfold HEAP_START in Hup; lia|].
    destruct (paging_heap (ram w) (ram w2) p v Hvm Hoff) as (Hvm2 & Hoff2 & Hr2 & Hu2); [by eapply same_outside_trans|].
    pose proof (user_task_memory (ram w2) p v ks us entry Hvm2 Hoff2 Hentry ltac:(lia) ltac:(lia) ltac:(lia) ltac:(lia)) as Hmem.
    destruct (set_user_pages _ (ram w2) v us 0) as [m3 v3].
    destruct (vmm_set_user m3 v3 _) as [[r4 m4] v4]. destruct (vmm_set_user m4 v4 _) as [[r5 m5] v5].
    destruct (push_all m5 _ _) as [m6 sp]. cbv zeta in Hmem.
    destruct Hmem as (Esp & Hvm6 & Hoff6 & Hs5 & Ho6 & Hr6 & Hframe & Hup6).
    assert (Hout6 : same_outside ks (ks + ksz) m5 m6) by (eapply same_outside_mono; [..|exact Ho6]; lia).
    assert (Hk2 : In (ks, ksz) lv2) by (apply Hlv2; left; apply Hlv1; by right). set (t := {| t_id := count s |}).
    destruct (new_task_inv s t Hinv Hlt eq_refl eq_refl) as (I & N & C & Gt & Go).
    eexists _, _, h2, v5, _, lv2. split; [reflexivity|]. cbn [ram set_ram emit].
    split; [eapply owns_write; [|exact Hk2|exact Hout6]; eapply owns_outside; [exact Hown2|exact Hs5]|].
    split.
    { eapply keeps_trans; [exact Hkk|]. eapply keeps_trans;
        [eapply keeps_incl; [|exact Huk]; intros [? ?] ?; apply Hlv1; by left|].
      eapply keeps_trans; [|eapply keeps_apart; [exact Hkap|exact Hout6]].
      intros q n x Hq Hx. apply Hs5. pose proof (owns_bounds _ _ _ _ _ Hown Hq). lia. }
    split; [done|]. split; [done|]. split.
    { intros lo hi Hr Hd. destruct (Hr2 lo hi Hr Hd) as [S2 R2]. destruct (Hr6 lo hi R2 Hd) as [S6 R6].
      split; [|done]. intros x Hx. rewrite S6 by done. by apply S2. }
    right. split; [done|]. split; [done|]. split; [exact I|]. split; [exact N|].
    split; [exact C|]. split; [exact Go|]. cbv zeta. rewrite Gt.
    cbn [t t_state is_user t_esp kernel_stack_top stack_base user_stack_base]. split.
    { exists ksz, usz. split; [done|]. split; [done|]. split; [done|]. split.
      - intros q n [[= <- <-]|Hq]; [by apply Huap, Hlv1; right|]. apply Huap, Hlv1. by left.
      - intros q n. rewrite Hlv2, Hlv1. tauto. }
    destruct Hframe as (F1 & F2 & F3 & F4 & F5 & F6). do 10 (split; [done|]). do 2 (split; [lia|]).
    intros q Hq. destruct (Hu2 q Hq) as [E1 E2]. by rewrite (Hup6 q Hq), E1, E2.
Qed.
End create_user.

(** ** Whole-kernel steps *)

(** An interrupt, or the creation of a task, over the allocator, the page tables
    and the scheduler. *)
Section steps.
Context {H : Type} `{AllocLaws H}.
Context (task_exit : Z) (Hexit : 0 <= task_exit < 2 ^ 32).

Inductive kstep : machine * H * vmm * sched * gdt_state -> machine * H * vmm * sched * gdt_state -> Prop :=
  | k_interrupt w h v s g e esp s' g' :
      interrupt s g e = (esp, s', g') -> kstep (w, h, v, s, g) (w, h, v, s', g')
  | k_create w h v s g entry name id w' h' s' :
      0 <= entry < 2 ^ 32 -> task_create task_exit w h s entry name = Some (id, w', h', s') ->
      kstep (w, h, v, s, g) (w', h', v, s', g)
  | k_create_user w h v s g entry name id w' h' v' s' :
      0 <= entry < 2 ^ 32 -> task_create_user w h v s entry name = Some (id, w', h', v', s') ->
      kstep (w, h, v, s, g) (w', h', v', s', g).

Definition kernel_ok (p : pmm) (k : machine * H * vmm * sched * gdt_state) : Prop :=
  let '(w, h, v, s, g) := k in
  sched_inv s /\ scheduler_ready s = true /\ vmm_inv (ram w) p v /\ off_heap (ram w) p v /\
  exists lv, owns (ram w) h lv.

Lemma create_ready w h s entry name id w' h' s' :
  task_create task_exit w h s entry name = Some (id, w', h', s') -> scheduler_ready s' = scheduler_ready s.
Proof.
  unfold task_create. destruct (_ >=? _); [by intros [= <- <- <- <-]|]. cbn [take_slot].
  destruct (kmalloc_op w h _) as [[[stack w1] h1]|]; [|done]. cbn [mbind option_bind].
  destruct (stack =? 0); [by intros [= <- <- <- <-]|].
  destruct (push_all _ _ _) as [m2 sp]. by intros [= <- <- <- <-].
Qed.

Lemma create_user_ready w h v s entry name id w' h' v' s' :
  task_create_user w h v s entry name = Some (id, w', h', v', s') ->
  scheduler_ready s' = scheduler_ready s.
Proof.
  unfold task_create_user. destruct (_ >=? _); [by intros [= <- <- <- <- <-]|]. cbn [take_slot].
  destruct (kmalloc_op w h _) as [[[ks w1] h1]|]; [|done]. cbn [mbind option_bind].
  destruct (kmalloc_op w1 h1 _) as [[[us w2] h2]|]; [|done]. cbn [mbind option_bind].
  destruct (_ || _).
  - destruct (if negb (ks =? 0) then _ else _) as [[w3 h3]|]; [|done]. cbn [mbind option_bind].
    destruct (if negb (us =? 0) then _ else _) as [[w4 h4]|]; [|done]. by intros [= <- <- <- <- <-].
  - destruct (set_user_pages _ _ _ _ _) as [m3 v3]. destruct (vmm_set_user m3 _ _) as [[r4 m4] v4].
    destruct (vmm_set_user m4 _ _) as [[r5 m5] v5]. destruct (push_all _ _ _) as [m6 sp].
    by intros [= <- <- <- <- <-].
Qed.

Lemma kstep_ok p k k' : kstep k k' -> kernel_ok p k -> kernel_ok p k'.
Proof.
  intros Hs Hok. destruct Hs as [w h v s g e esp s' g' E|w h v s g entry name id w' h' s' Hen E
    |w h v s g entry name id w' h' v' s' Hen E]; destruct Hok as (Hi & Hr & Hv & Ho & lv & Hown).
  - pose proof (interrupt_ok s g e Hi Hr) as Hin. rewrite E in Hin.
    destruct Hin as (Hi' & Hr' & _). split; [done|]. split; [done|]. split; [done|]. split; [done|].
    by exists lv.
  - pose proof (create_ready _ _ _ _ _ _ _ _ _ E) as Hr'. destruct (task_create_cases task_exit Hexit w h s entry name lv Hown Hi Hen) as
      [E'|(w1 & h1 & s1 & lv1 & st & sz & _ & E' & Hown1 & _ & _ & _ & Hout & Hi1 & _)];
      rewrite E in E'; injection E' as -> -> -> ->.
    { split; [done|]. split; [done|]. split; [done|]. split; [done|]. by exists lv. }
    destruct (vmm_inv_heap _ _ _ _ Hv Ho Hout) as (Hv1 & Ho1 & _).
    split; [done|]. split; [congruence|]. split; [done|]. split; [done|]. by exists lv1.
  - pose proof (create_user_ready _ _ _ _ _ _ _ _ _ _ _ E) as Hr'.
    destruct (task_create_user_cases w h p v s entry name lv Hown Hi Hv Ho Hen) as
      (id1 & w1 & h1 & v1 & s1 & lv1 & E' & Hown1 & _ & Hv1 & Ho1 & _ & Hc).
    rewrite E in E'. injection E' as -> -> -> -> ->.
    assert (Hi1 : sched_inv s1) by (destruct Hc as [(_ & -> & _)|(_ & _ & Hi1 & _)]; done).
    split; [done|]. split; [congruence|]. split; [done|]. split; [done|]. by exists lv1.
Qed.
(** What happens to the tasks, as a program: interrupts, and the calls that add a
    task. *)
Inductive task_op :=
  | OpInterrupt (e : event)
  | OpCreate (entry : Z) (name : string)
  | OpCreateUser (entry : Z) (name : string).

Definition task_do (k : machine * H * vmm * sched * gdt_state) (op : task_op)
  : option (machine * H * vmm * sched * gdt_state) :=
  let '(w, h, v, s, g) := k in
  match op with
  | OpInterrupt e => let '(_, s', g') := interrupt s g e in Some (w, h, v, s', g')
  | OpCreate entry name =>
      '(_, w', h', s') ← task_create task_exit w h s entry name; Some (w', h', v, s', g)
  | OpCreateUser entry name =>
      '(_, w', h', v', s') ← task_create_user w h v s entry name; Some (w', h', v', s', g)
  end.

Fixpoint task_ops (k : machine * H * vmm * sched * gdt_state) (ops : list task_op)
  : option (machine * H * vmm * sched * gdt_state) :=
  match ops with
  | [] => Some k
  | op :: ops' => k1 ← task_do k op; task_ops k1 ops'
  end.

Definition op_ok (op : task_op) : Prop :=
  match op with
  | OpInterrupt _ => True
  | OpCreate entry _ | OpCreateUser entry _ => 0 <= entry < 2 ^ 32
  end.

(** How many of the operations ask for a reschedule, and how many may add a task. *)
Definition turn (op : task_op) : Z := match op with OpInterrupt e => if reschedules e then 1 else 0 | _ => 0 end.
Definition creation (op : task_op) : Z := match op with OpInterrupt _ => 0 | _ => 1 end.
Definition turns (ops : list task_op) : Z := foldr Z.add 0 (map turn ops).
Definition creations (ops : list task_op) : Z := foldr Z.add 0 (map creation ops).

Definition k_tasks (k : machine * H * vmm * sched * gdt_state) : sched := k.1.2.

(** An operation that adds a task returns, and a ready task waits on: as many new
    tasks as there were creations may come before it. *)
Lemma create_wait p k op i :
  kernel_ok p k -> op_ok op -> creation op = 1 ->
  0 <= i < count (k_tasks k) -> i <> current (k_tasks k) ->
  exists k', task_do k op = Some k' /\ kernel_ok p k' /\ current (k_tasks k') = current (k_tasks k) /\
    count (k_tasks k) <= count (k_tasks k') /\
    get_task (k_tasks k') i = get_task (k_tasks k) i /\ distance (k_tasks k') i <= distance (k_tasks k) i + 1.
Proof.
  destruct k as [[[[w h] v] s] g]. cbn [k_tasks fst snd]. intros Hok Hop Hcr Hi Hne.
  pose proof Hok as (Hs & Hr & Hv & Ho & lv & Hown). pose proof (inv_current _ Hs) as Hcur.
  destruct op as [e|entry name|entry name]; [done|..]; cbn [task_do].
  - destruct (task_create_cases task_exit Hexit w h s entry name lv Hown Hs Hop) as
      [E|(w1 & h1 & s1 & lv1 & st & sz & _ & E & _ & _ & _ & _ & _ & _ & Hn & Hc & Hg & _)]; rewrite E;
      cbn [mbind option_bind]; eexists; (split; [reflexivity|]); (split; [by eapply kstep_ok; [eapply k_create, E|]|]);
      cbn [k_tasks fst snd]; [by repeat split; lia|]. split; [done|]. split; [lia|]. split; [by apply Hg|]. by apply distance_created.
  - destruct (task_create_user_cases w h p v s entry name lv Hown Hs Hv Ho Hop) as
      (id1 & w1 & h1 & v1 & s1 & lv1 & E & _ & _ & _ & _ & _ & Hc). rewrite E. cbn [mbind option_bind].
    eexists. split; [reflexivity|]. split; [by eapply kstep_ok; [eapply k_create_user, E|]|]. cbn [k_tasks fst snd].
    destruct Hc as [(_ & -> & _)|(_ & _ & _ & Hn & Hc & Hg & _)]; [by repeat split; lia|].
    split; [done|]. split; [lia|]. split; [by apply Hg|]. by apply distance_created.
Qed.

Lemma bounded_wait p k i ops :
  kernel_ok p k -> Forall op_ok ops -> 0 <= i < count (k_tasks k) -> i <> current (k_tasks k) ->
  t_state (get_task (k_tasks k) i) = TASK_READY -> distance (k_tasks k) i + creations ops <= turns ops ->
  exists ops1 e ops2 w h v s1 g1, ops = ops1 ++ OpInterrupt e :: ops2 /\ task_ops k ops1 = Some (w, h, v, s1, g1) /\
    let '(esp, s2, g2) := interrupt s1 g1 e in
    current s2 = i /\ esp = t_esp (get_task (k_tasks k) i) /\ t_state (get_task s2 i) = TASK_RUNNING /\
    (kernel_stack_top (get_task (k_tasks k) i) <> 0 -> esp0 (tss g2) = kernel_stack_top (get_task (k_tasks k) i)).
Proof.
  intros Hok Hops. revert k Hok. induction Hops as [|op ops Hop _ IH]; intros k Hok Hi Hne Hst Hlen.
  { destruct k as [[[[w h] v] s] g]. cbn [k_tasks fst snd] in *. destruct Hok as (Hs & _).
    destruct (distance_nth s i (inv_current _ Hs) Hi) as (_ & _ & Hd). specialize (Hd Hne). cbn in Hlen. lia. }
  unfold creations, turns in Hlen. cbn [map foldr] in Hlen. fold (creations ops) (turns ops) in Hlen.
  assert (Hcase : creation op = 1 /\ turn op = 0 \/ exists e, op = OpInterrupt e) by (destruct op; eauto).
  destruct Hcase as [[Hcr Htu]|[e ->]].
  - destruct (create_wait p k op i Hok Hop Hcr Hi Hne) as (k1 & E1 & Hok1 & Hc & Hn & Hg & Hd).
    destruct (IH k1 Hok1 ltac:(lia) ltac:(congruence) ltac:(congruence) ltac:(lia)) as
      (ops1 & e & ops2 & w & h & v & s1 & g1 & -> & E & Hx).
    exists (op :: ops1), e, ops2, w, h, v, s1, g1. split; [done|]. split; [cbn [task_ops]; by rewrite E1|]. by rewrite Hg in Hx.
  - cbn [creation turn] in Hlen. destruct k as [[[[w h] v] s] g]. cbn [k_tasks fst snd] in *.
    pose proof Hok as (Hs & Hr & _). pose proof (interrupt_wait s g e i Hs Hr Hi Hne Hst) as Hp.
    pose proof (interrupt_ok s g e Hs Hr) as Hio.
    destruct (interrupt s g e) as [[esp s1] g1] eqn:Ei. destruct Hio as (_ & _ & Hcnt & _).
    destruct Hp as [Hnow|(Hne1 & Hd & Hg)].
    + exists [], e, ops, w, h, v, s, g. split; [done|]. split; [done|]. by rewrite Ei.
    + destruct (IH (w, h, v, s1, g1)) as (ops1 & e' & ops2 & w' & h' & v' & s2 & g2 & -> & E & Hx);
        cbn [k_tasks fst snd]; [by eapply kstep_ok; [eapply k_interrupt, Ei|]|lia|congruence|congruence|lia|].
      exists (OpInterrupt e :: ops1), e', ops2, w', h', v', s2, g2. split; [done|].
      split; [cbn [task_ops task_do]; by rewrite Ei|]. cbn [k_tasks fst snd] in Hx. by rewrite Hg in Hx.
Qed.
End steps.

(** ** A concrete kernel for the witnesses *)

Definition demo_sched : sched := (task_init (Machine ∅ []) (Sched [] 0 0 false false)).2.

Lemma demo_sched_inv : sched_inv demo_sched /\ scheduler_ready demo_sched = true.
Proof.
  split; [|done]. split; try done. intros i Hi Hne. cbn in *. lia.
  intros i Hi. cbn in Hi. assert (i = 0) as -> by lia. done.
Qed.

(** Three tasks: the kernel, running, and two ready ones. *)
Definition demo_task (i : Z) : task := Task i (0x210000 + i) 0x20f000 0 0x210000 TASK_READY "t" false.
Definition demo_sched3 : sched :=
  put_task (put_task (set_count demo_sched 3) 1 (demo_task 1)) 2 (demo_task 2).

Lemma demo_sched3_inv : sched_inv demo_sched3.
Proof.
  split; try done.
  - intros i Hi Hne. cbn in Hi, Hne.
    assert (i = 1 \/ i = 2) as [->| ->] by lia; done.
  - intros i Hi. cbn in Hi. assert (i = 0 \/ i = 1 \/ i = 2) as [->|[->| ->]] by lia; done.
Qed.

(** The kernel after the boot of the paging witnesses, with its first task. *)
Lemma demo_kernel_ok : kernel_ok demo_vmm_pmm (demo_boot.1, demo_boot.2, demo_vmm, demo_sched, gdt_boot).
Proof.
  destruct demo_boot_paging as (Hv & Ho & _). destruct demo_sched_inv as [Hs Hr].
  split; [done|]. split; [done|]. split; [done|]. split; [done|].
  exists (live [(HEAP_INITIAL - sizeof_block, true)]).
  exists [(HEAP_INITIAL - sizeof_block, true)]. split; [apply heap_init_inv|done].
Qed.

(** ** Properties *)

(** C8: bounded waiting.  Let a ready task be [d] places behind the current one, and
    let interrupts (ticks, yields, exits, others) and creations of kernel and user
    tasks follow in any order.  The task gets the processor at the latest at the
    rescheduling interrupt number [d] plus the number of creations, since each new
    task may come before it; it resumes with exactly the stack pointer it was saved
    with and, when it has a kernel stack (every task but the first), the TSS
    points to it. *)
Theorem task_bounded_wait (p : pmm) (task_exit : Z) (k : machine * heap * vmm * sched * gdt_state) (i : Z) (ops : list task_op)
  (Hexit : 0 <= task_exit < 2 ^ 32) (Hok : kernel_ok p k) (Hops : Forall op_ok ops)
  (Hi : 0 <= i < count (k_tasks k)) (Hne : i <> current (k_tasks k))
  (Hready : t_state (get_task (k_tasks k) i) = TASK_READY)
  (Hlen : distance (k_tasks k) i + creations ops <= turns ops) :
  exists ops1 e ops2 w h v s1 g1, ops = ops1 ++ OpInterrupt e :: ops2 /\
    task_ops task_exit k ops1 = Some (w, h, v, s1, g1) /\
    let '(esp, s2, g2) := interrupt s1 g1 e in
    current s2 = i /\ esp = t_esp (get_task (k_tasks k) i) /\ t_state (get_task s2 i) = TASK_RUNNING /\
    (kernel_stack_top (get_task (k_tasks k) i) <> 0 -> esp0 (tss g2) = kernel_stack_top (get_task (k_tasks k) i)).
Proof. by apply (bounded_wait task_exit Hexit p). Qed.

(** Task 1 waits for the processor while a third task is created. *)
Definition demo_created : machine * heap * vmm * sched * gdt_state :=
  default (demo_boot.1, demo_boot.2, demo_vmm, demo_sched, gdt_boot)
    (task_ops 0x101000 (demo_boot.1, demo_boot.2, demo_vmm, demo_sched, gdt_boot) [OpCreate 0x102000 "t"]).

Lemma demo_created_ok : kernel_ok demo_vmm_pmm demo_created.
Proof.
  unfold demo_created. cbn [task_ops task_do].
  destruct (task_create 0x101000 demo_boot.1 demo_boot.2 demo_sched 0x102000 "t") as [[[[id w] h] s]|] eqn:E;
    [|apply demo_kernel_ok]. cbn [mbind option_bind default].
  apply (kstep_ok 0x101000 ltac:(lia) demo_vmm_pmm (demo_boot.1, demo_boot.2, demo_vmm, demo_sched, gdt_boot)); [|apply demo_kernel_ok].
  by apply (k_create 0x101000 _ _ _ _ _ 0x102000 "t" id).
Qed.

Lemma task_bounded_wait_witness :
  exists ops1 e ops2, [OpCreate 0x103000 "u"; OpInterrupt (EvTimer 0x1000); OpInterrupt (EvYield 0x1100)] =
      ops1 ++ OpInterrupt e :: ops2 /\
    exists w h v s1 g1, task_ops 0x101000 demo_created ops1 = Some (w, h, v, s1, g1) /\
    let '(esp, s2, g2) := interrupt s1 g1 e in current s2 = 1 /\ esp0 (tss g2) = 0x200010 + 4096.
Proof.
  destruct (task_bounded_wait demo_vmm_pmm 0x101000 demo_created 1
    [OpCreate 0x103000 "u"; OpInterrupt (EvTimer 0x1000); OpInterrupt (EvYield 0x1100)]) as
    (ops1 & e & ops2 & w & h & v & s1 & g1 & E & Er & Hr).
  - lia.
  - exact demo_created_ok.
  - repeat constructor; lia.
  - vm_compute. split; [discriminate|reflexivity].
  - vm_compute. discriminate.
  - vm_compute. reflexivity.
  - vm_compute. discriminate.
  - exists ops1, e, ops2. split; [exact E|]. exists w, h, v, s1, g1. split; [exact Er|].
    destruct (interrupt s1 g1 e) as [[esp s2] g2]. destruct Hr as (H1 & _ & _ & H4). split; [exact H1|].
    assert (Et : kernel_stack_top (get_task (k_tasks demo_created) 1) = 0x200010 + 4096) by (vm_compute; reflexivity).
    rewrite <- Et. apply H4. rewrite Et. discriminate.
Defined.

(** What one call of the scheduler does.  Without a pending request nothing
    happens.  With one, the first ready task after the current one in round-robin
    order becomes the one running task, the current one keeps the given stack
    pointer and becomes ready again unless it has exited, and all other tasks
    are untouched; if no other task is ready the current one goes on. *)
Theorem task_schedule_correct (s : sched) (g : gdt_state) (esp : Z)
  (Hinv : sched_inv s) (Hon : scheduler_ready s = true) :
  (need_reschedule s = false -> task_schedule_if_needed s g esp = (esp, s, g)) /\
  (need_reschedule s = true ->
   (exists k s' g', 1 <= k < count s /\ t_state (get_task s (nth_after s k)) = TASK_READY /\
     (forall j, 1 <= j < k -> t_state (get_task s (nth_after s j)) <> TASK_READY) /\
     task_schedule_if_needed s g esp = (t_esp (get_task s (nth_after s k)), s', g') /\
     switched s esp (nth_after s k) s') \/
   ((forall i, 0 <= i < count s -> i <> current s -> t_state (get_task s i) <> TASK_READY) /\
    task_schedule_if_needed s g esp = (esp, set_need s false, g))).
Proof.
  split.
  - intros Hn. unfold task_schedule_if_needed. by rewrite Hn, orb_true_r.
  - intros Hn. destruct (schedule_cases s g esp Hinv Hon Hn) as
      [(k & s' & g' & Hk & Hr & Hb & E & Hsw & _)|Hno]; [left|by right].
    by exists k, s', g'.
Qed.

Lemma task_schedule_correct_witness :
  task_schedule_if_needed demo_sched3 gdt_boot 0x1000 = (0x1000, demo_sched3, gdt_boot).
Proof.
  destruct (task_schedule_correct demo_sched3 gdt_boot 0x1000 demo_sched3_inv eq_refl) as [H _].
  apply H. reflexivity.
Defined.

(** The scheduler's invariant (one running task, the current one; every task
    numbered by its slot; at most 64), the paging invariant and the heap's are
    kept by every sequence of interrupts and task creations. *)
Theorem kernel_invariant (p : pmm) (task_exit : Z)
  (k k' : machine * heap * vmm * sched * gdt_state)
  (Hexit : 0 <= task_exit < 2 ^ 32) (Hok : kernel_ok p k) (Hsteps : rtc (kstep task_exit) k k') :
  kernel_ok p k'.
Proof. induction Hsteps as [|k k1 k' Hstep _ IH]; [done|]. by eapply IH, kstep_ok. Qed.

Lemma kernel_invariant_witness :
  let '(_, s', g') := interrupt demo_sched gdt_boot (EvTimer 0x1000) in
  kernel_ok demo_vmm_pmm (demo_boot.1, demo_boot.2, demo_vmm, s', g').
Proof.
  destruct (interrupt demo_sched gdt_boot (EvTimer 0x1000)) as [[esp s'] g'] eqn:E.
  apply (kernel_invariant demo_vmm_pmm 0x101000 _ _ ltac:(lia) demo_kernel_ok).
  eapply rtc_once, k_interrupt, E.
Defined.

(** C33: [task_create] returns; it fails, changing nothing, or the new last task is
    ready; its stack is a fresh heap payload apart from all others (whose
    contents are kept), and with it the live payloads are exactly those there were;
    and the frame at its saved stack pointer returns to
    [entry] in ring 0 with interrupts on, with [task_exit] as return address. *)
Theorem task_create_correct (task_exit : Z) (w : machine) (h : heap) (s : sched) (entry : Z)
  (name : string) (lv : list (Z * Z))
  (Hexit : 0 <= task_exit < 2 ^ 32) (Hown : owns (ram w) h lv) (Hinv : sched_inv s)
  (Hentry : 0 <= entry < 2 ^ 32) :
  (task_create task_exit w h s entry name = Some (u32 (-1), w, h, s)) \/
  exists w' h' s' lv' stack sz,
    task_create task_exit w h s entry name = Some (count s, w', h', s') /\
    owns (ram w') h' lv' /\ (forall p n, In (p, n) lv' <-> In (p, n) lv \/ (p, n) = (stack, sz)) /\
    keeps lv (ram w) (ram w') /\ apart lv stack sz /\
    sched_inv s' /\ count s' = count s + 1 /\ current s' = current s /\
    (forall i, 0 <= i < count s -> get_task s' i = get_task s i) /\
    let t := get_task s' (count s) in
    let f := frame_at (ram w') (t_esp t) in
    t_state t = TASK_READY /\ t_name t = name /\ stack_base t = stack /\ TASK_STACK_SIZE <= sz /\
    stack <= t_esp t /\ t_esp t + 60 = stack + TASK_STACK_SIZE /\
    f_eip f = entry /\ f_cs f = GDT_KERNEL_CODE_SEL /\ f_ds f = GDT_KERNEL_DATA_SEL /\
    Z.testbit (f_eflags f) 9 = true /\ load32 (ram w') (t_esp t + 56) = task_exit.
Proof.
  destruct (task_create_cases task_exit Hexit w h s entry name lv Hown Hinv Hentry) as
    [E|(w' & h' & s' & lv' & st & sz & _ & E & Ho & Hk & Ha & Hlv & _ & Hi & Hn & Hc & Hg & Ht)];
    [by left|right].
  destruct Ht as (T1 & _ & T3 & T4 & _ & T5 & T6 & T7 & T8 & F1 & F2 & F3 & F4 & F5).
  exists w', h', s', lv', st, sz. do 9 (split; [done|]). cbv zeta.
  do 4 (split; [done|]). split; [done|]. split; [lia|].
  split; [done|]. split; [done|]. split; [done|]. split; [done|]. rewrite <- F5. f_equal. lia.
Qed.

Lemma task_create_correct_witness :
  exists w' h' s', task_create 0x101000 demo_boot.1 demo_boot.2 demo_sched 0x102000 "t" =
      Some (1, w', h', s') /\
    f_eip (frame_at (ram w') (t_esp (get_task s' 1))) = 0x102000.
Proof.
  destruct (task_create_correct 0x101000 demo_boot.1 demo_boot.2 demo_sched 0x102000 "t"
    (live [(HEAP_INITIAL - sizeof_block, true)])) as [E|(w' & h' & s' & lv' & st & sz & E & Hr)].
  - lia.
  - exists [(HEAP_INITIAL - sizeof_block, true)]. split; [apply heap_init_inv|reflexivity].
  - apply demo_sched_inv.
  - lia.
  - exfalso. assert (Hn : ((fun r => match r with Some (id, _, _, _) => id | None => 0 end)
      (task_create 0x101000 demo_boot.1 demo_boot.2 demo_sched 0x102000 "t")) = 1)
      by (vm_compute; reflexivity). rewrite E in Hn. discriminate Hn.
  - exists w', h', s'. split; [exact E|].
    destruct Hr as (_ & _ & _ & _ & _ & _ & _ & _ & Ht). exact (proj1 (proj2 (proj2 (proj2 (proj2 (proj2 (proj2 Ht))))))).
Defined.

(** C34: [task_create_user] returns; on failure the heap holds the payloads it
    held, no page is opened and the scheduler is unchanged; on success the new
    task's frame enters ring 3 at [entry] with interrupts on and the top of the
    user stack as stack pointer, and the pages opened to ring 3 are the one with
    the stack's lowest byte and the two from the entry point, no other. *)
Theorem task_create_user_correct (w : machine) (h : heap) (p : pmm) (v : vmm) (s : sched) (entry : Z)
  (name : string) (lv : list (Z * Z))
  (Hown : owns (ram w) h lv) (Hinv : sched_inv s) (Hvm : vmm_inv (ram w) p v)
  (Hoff : off_heap (ram w) p v) (Hentry : 0 <= entry < 2 ^ 32) :
  exists id w' h' v' s' lv', task_create_user w h v s entry name = Some (id, w', h', v', s') /\
    owns (ram w') h' lv' /\ keeps lv (ram w) (ram w') /\ vmm_inv (ram w') p v' /\
    ((id = u32 (-1) /\ s' = s /\ (forall p n, In (p, n) lv' <-> In (p, n) lv) /\
      (forall q, 0 <= q < 2 ^ 20 -> user_page (ram w') v' q = user_page (ram w) v q)) \/
     (id = count s /\ sched_inv s' /\ count s' = count s + 1 /\
      let t := get_task s' id in
      let f := frame_at (ram w') (t_esp t) in
      t_state t = TASK_READY /\ is_user t = true /\
      f_eip f = entry /\ f_cs f = GDT_USER_CODE_SEL /\ f_ds f = GDT_USER_DATA_SEL /\
      f_ss f = GDT_USER_DATA_SEL /\ Z.testbit (f_eflags f) 9 = true /\
      f_useresp f = user_stack_base t + TASK_STACK_SIZE /\
      (forall q, 0 <= q < 2 ^ 20 -> user_page (ram w') v' q =
         if opened (user_stack_base t) entry q then mapped (ram w) v q else user_page (ram w) v q))).
Proof.
  destruct (task_create_user_cases w h p v s entry name lv Hown Hinv Hvm Hoff Hentry) as
    (id & w' & h' & v' & s' & lv' & E & Ho & Hk & Hv & _ & _ & Hc).
  exists id, w', h', v', s', lv'. do 4 (split; [done|]). destruct Hc as [Hc|Hc]; [by left|right].
  destruct Hc as (-> & _ & Hi & Hn & _ & _ & _ & T1 & T2 & _ & _ & F1 & F2 & F3 & F4 & F5 & F6 & _ & _ & Hq).
  split; [done|]. split; [done|]. split; [done|]. cbv zeta. by do 8 (split; [done|]).
Qed.

Lemma task_create_user_correct_witness :
  exists id w' h' v' s', task_create_user demo_boot.1 demo_boot.2 demo_vmm demo_sched 0x102000 "u" =
      Some (id, w', h', v', s') /\ vmm_inv (ram w') demo_vmm_pmm v'.
Proof.
  destruct demo_boot_paging as (Hv & Ho & _).
  destruct (task_create_user_correct demo_boot.1 demo_boot.2 demo_vmm_pmm demo_vmm demo_sched 0x102000 "u"
    (live [(HEAP_INITIAL - sizeof_block, true)])) as (id & w' & h' & v' & s' & lv' & E & _ & _ & Hv' & _).
  - exists [(HEAP_INITIAL - sizeof_block, true)]. split; [apply heap_init_inv|reflexivity].
  - apply demo_sched_inv.
  - exact Hv.
  - exact Ho.
  - lia.
  - exists id, w', h', v', s'. exact (conj E Hv').
Defined.

(** The heap aligns stacks to 8 bytes, not to pages, and only the page of the
    stack's lowest byte is opened.  So when the user stack is not page-aligned,
    the page that holds the top of the stack (where the task's first push goes)
    stays closed to ring 3, unless it was open before or holds the code. *)
Theorem task_create_user_stack_top_closed (w : machine) (h : heap) (p : pmm) (v : vmm) (s : sched)
  (entry : Z) (name : string) (lv : list (Z * Z)) (id : Z) (w' : machine) (h' : heap) (v' : vmm) (s' : sched)
  (Hown : owns (ram w) h lv) (Hinv : sched_inv s) (Hvm : vmm_inv (ram w) p v)
  (Hoff : off_heap (ram w) p v) (Hentry : 0 <= entry /\ entry + 2 * PAGE_SIZE <= HEAP_START)
  (Hok : task_create_user w h v s entry name = Some (id, w', h', v', s')) (Hid : id = count s) :
  let f := frame_at (ram w') (t_esp (get_task s' id)) in
  let top_page := (f_useresp f - 1) / PAGE_SIZE in
  user_stack_base (get_task s' id) mod PAGE_SIZE <> 0 ->
  user_page (ram w) v top_page = false -> user_page (ram w') v' top_page = false.
Proof.
  intros f top_page Hal Hclosed. unfold PAGE_SIZE in Hentry.
  destruct (task_create_user_cases w h p v s entry name lv Hown Hinv Hvm Hoff) as
    (id1 & w1 & h1 & v1 & s1 & lv1 & E & _ & _ & _ & _ & _ & Hc);
    [unfold HEAP_START in Hentry; lia|].
  rewrite Hok in E. injection E as <- <- <- <- <-.
  pose proof (inv_count _ Hinv) as Hcnt. unfold MAX_TASKS in Hcnt.
  destruct Hc as [(E & _)|Hc]; [rewrite E in Hid; change (u32 (-1)) with 0xFFFFFFFF in Hid; lia|].
  destruct Hc as (_ & _ & _ & _ & _ & _ & _ & _ & _ & _ & _ & _ & _ & _ & _ & _ & F6 & Hlo & Hhi & Hq).
  subst top_page f. rewrite F6 in *. set (us := user_stack_base _) in *.
  unfold HEAP_END, HEAP_START, HEAP_INITIAL, TASK_STACK_SIZE in *.
  rewrite Hq by (unfold PAGE_SIZE in *; dlia).
  replace (opened us entry ((us + 4096 - 1) / PAGE_SIZE)) with false; [done|].
  symmetry. unfold opened. rewrite u32_small by (unfold PAGE_SIZE; dlia).
  rewrite !orb_false_iff, !Z.eqb_neq. unfold PAGE_SIZE in *. split; [split|]; dlia.
Qed.

(** The stacks of the first user task. *)
Lemma task_create_user_stack_top_closed_witness :
  exists id w' h' v' s',
    task_create_user demo_boot.1 demo_boot.2 demo_vmm demo_sched 0x102000 "u" = Some (id, w', h', v', s') /\
    user_page (ram w') v' ((f_useresp (frame_at (ram w') (t_esp (get_task s' id))) - 1) / PAGE_SIZE) = false.
Proof.
  destruct demo_boot_paging as (Hv & Ho & Hnp & _).
  assert (Hown : owns (ram demo_boot.1) demo_boot.2 (live [(HEAP_INITIAL - sizeof_block, true)])).
  { exists [(HEAP_INITIAL - sizeof_block, true)]. split; [apply heap_init_inv|reflexivity]. }
  assert (Hr : (fun r => match r with
      | Some (id, _, _, _, s') => (id =? 1) && negb (user_stack_base (get_task s' id) mod PAGE_SIZE =? 0)
      | None => false end)
    (task_create_user demo_boot.1 demo_boot.2 demo_vmm demo_sched 0x102000 "u") = true)
    by (vm_compute; reflexivity).
  assert (Hcl : forall q, 0 <= q < 2 ^ 20 -> user_page (ram demo_boot.1) demo_vmm q = false).
  { intros q Hq. unfold user_page, walk. by rewrite Hnp by (apply pg_split, Hq). }
  destruct (task_create_user demo_boot.1 demo_boot.2 demo_vmm demo_sched 0x102000 "u")
    as [[[[[id w'] h'] v'] s']|] eqn:E; [|discriminate Hr].
  apply andb_prop in Hr as [Hid Hal]. apply Z.eqb_eq in Hid. apply negb_true_iff, Z.eqb_neq in Hal.
  exists id, w', h', v', s'. split; [reflexivity|].
  apply (task_create_user_stack_top_closed demo_boot.1 demo_boot.2 demo_vmm_pmm demo_vmm demo_sched 0x102000 "u"
    _ id w' h' v' s' Hown (proj1 demo_sched_inv) Hv Ho).
  - vm_compute. split; discriminate.
  - exact E.
  - exact Hid.
  - exact Hal.
  - unfold user_page, walk. destruct (present _ _ _) eqn:Hp; [|reflexivity].
    pose proof (load32_range (ram w') (t_esp (get_task s' id) + 56)) as Hlr.
    destruct (Z.eq_dec (load32 (ram w') (t_esp (get_task s' id) + 56)) 0) as [Ez|Hz].
    + cbn [f_useresp frame_at] in Hp. rewrite Ez in Hp. discriminate Hp.
    + rewrite Hnp in Hp; [discriminate Hp|]. apply pg_split. cbn [f_useresp frame_at].
      unfold PAGE_SIZE. dlia.
Defined.

(** C40: [task_create] makes the slot visible ([count++]) before it fills it in, and
    an empty slot reads as ready.  A timer interrupt in between, when no other
    task is ready, switches to the empty slot: to stack pointer 0. *)
Theorem task_create_race (s : sched) (g : gdt_state) (esp : Z)
  (Hinv : sched_inv s) (Hon : scheduler_ready s = true) (Hroom : count s < MAX_TASKS)
  (Hempty : get_task s (count s) = zero_task)
  (Hidle : forall i, 0 <= i < count s -> i <> current s -> t_state (get_task s i) = TASK_TERMINATED) :
  let '(esp', s', _) := interrupt (take_slot s).2 g (EvTimer esp) in
  esp' = 0 /\ current s' = count s.
Proof.
  pose proof Hinv as [Hl Hc Hcur _ _ _]. unfold MAX_TASKS in *.
  rewrite interrupt_schedule. cbn [before_schedule event_esp take_slot snd].
  set (s1 := set_count s (count s +₃₂ 1)).
  assert (N1 : count s1 = count s + 1) by (cbn [s1 count set_count]; unwrap; done).
  unfold task_schedule_if_needed. cbn [scheduler_ready need_reschedule set_need s1 set_count].
  rewrite Hon. cbn [negb orb]. fold s1. set (s2 := set_need (set_need s1 true) false).
  assert (N2 : count s2 = count s + 1) by done. change (current s2) with (current s).
  assert (Hf : find_next_ready s2 = count s).
  { destruct (find_next_ready_spec s2) as [[_ Hall]|(j & Hj & E & Hr & _)];
      [rewrite N2; unfold MAX_TASKS; lia|rewrite N2; change (current s2) with (current s); lia|..].
    - exfalso. destruct (distance_nth s2 (count s)) as (En & Hd & Hd1);
        [rewrite N2; change (current s2) with (current s); lia|lia|].
      change (current s2) with (current s) in Hd1. specialize (Hd1 ltac:(lia)).
      specialize (Hall _ (conj Hd1 (proj2 Hd))). rewrite En in Hall.
      change (get_task s2 (count s)) with (get_task s (count s)) in Hall. by rewrite Hempty in Hall.
    - rewrite E. pose proof (nth_after_range s2 j ltac:(lia)) as Hnr. rewrite N2 in Hnr.
      destruct (Z.eq_dec (nth_after s2 j) (count s)); [done|]. exfalso.
      assert (Hnc : nth_after s2 j <> current s).
      { apply (nth_after_current s2); [rewrite N2; change (current s2) with (current s); lia|done]. }
      change (get_task s2) with (get_task s) in Hr. unfold runnable in Hr.
      rewrite Hidle in Hr by (done || lia). done. }
  rewrite Hf. destruct (Z.eqb_spec (count s) (current s)); [lia|].
  destruct (switch_to_fields s2 esp (count s) Hl) as (Ec & _).
  rewrite Ec. rewrite switch_to_tasks by (done || rewrite ?N2; change (current s2) with (current s);
    unfold MAX_TASKS; lia).
  rewrite Z.eqb_refl. cbn [t_esp with_state]. change (get_task s2 (count s)) with (get_task s (count s)).
  by rewrite Hempty.
Qed.

Lemma task_create_race_witness :
  let '(esp', s', _) := interrupt (take_slot demo_sched).2 gdt_boot (EvTimer 0x1000) in
  esp' = 0 /\ current s' = 1.
Proof.
  apply (task_create_race demo_sched gdt_boot 0x1000 (proj1 demo_sched_inv)).
  - reflexivity.
  - reflexivity.
  - reflexivity.
  - intros i Hi Hne. cbn in Hi, Hne. lia.
Defined.
