(* ===== verification/Timer.v ===== *)
(** * [kernel/drivers/timer.c]: the interval timer

    A [hlt] waits for an interrupt.  While a task sleeps, the environment decides
    how many timer interrupts each wake-up brings (other interrupts bring none):
    [timer_sleep] takes that list, and runs [timer_irq_handler] for each. *)
From stdpp Require Import base numbers list gmap strings.
From Stdlib Require Import ZArith Lia.
From S2P Require Import Prelude.
From S2P Require Import Machine.
From S2P Require Import Io.
From S2P Require Import Pic.
From S2P Require Import Task.

Definition PIT_CHANNEL0 : Z := 0x40.
Definition PIT_COMMAND : Z := 0x43.
Definition PIT_FREQUENCY : Z := 1193182.
Definition TIMER_FREQUENCY : Z := 100.
Definition PIT_SELECT_CHANNEL0 : Z := 0x00.
Definition PIT_ACCESS_LOHI : Z := 0x30.
Definition PIT_MODE_SQUARE : Z := 0x06.
Definition PIT_BINARY : Z := 0x00.

Record timer := Timer {
  timer_ticks : Z;
  timer_io : io;
  timer_sched : sched;
}.

Definition timer_irq_handler (t : timer) : timer :=
  {| timer_ticks := u64 (timer_ticks t + 1); timer_io := pic_send_eoi (timer_io t) 0;
     timer_sched := task_request_reschedule (timer_sched t) |}.

(** The decimal digits of the frequency, as the code writes them. *)
Definition freq_digits (freq : Z) : list Z :=
  let '(b1, f1) := if freq >=? 100 then ([48 + freq / 100], freq mod 100) else ([], freq) in
  let '(b2, f2) := if (0 <? Z.of_nat (length b1)) || (f1 >=? 10) then (b1 ++ [48 + f1 / 10], f1 mod 10)
                   else (b1, f1) in
  b2 ++ [48 + f2].

(** The vector whose handler [timer_init] registers is returned for the caller's table. *)
Definition timer_init (w : machine) (s : io) : machine * io * Z :=
  let w1 := emit w [VgaSetColor VGA_COLOR_YELLOW VGA_COLOR_BLACK; VgaPuts (line "Initializing Timer (PIT)...")] in
  let divisor := PIT_FREQUENCY / TIMER_FREQUENCY in
  let s1 := outb s PIT_COMMAND
    (Z.lor (Z.lor (Z.lor PIT_SELECT_CHANNEL0 PIT_ACCESS_LOHI) PIT_MODE_SQUARE) PIT_BINARY) in
  let s2 := outb (outb s1 PIT_CHANNEL0 (Z.land divisor 0xFF)) PIT_CHANNEL0 (Z.land (Z.shiftr divisor 8) 0xFF) in
  let s3 := pic_enable_irq s2 0 in
  (emit w1 [VgaSetColor VGA_COLOR_LIGHT_GREEN VGA_COLOR_BLACK; VgaPuts "  [OK] PIT configured ("; VgaPuts (string_of (freq_digits TIMER_FREQUENCY));
            VgaPuts (line " Hz)"); VgaPuts (line "  [OK] Timer IRQ0 handler registered");
            VgaPuts (line "  [OK] System timer running" ++ nl)], s3, 32).

Definition timer_get_ticks (t : timer) : Z := timer_ticks t.
Definition timer_get_uptime_ms (t : timer) : Z := u64 (timer_ticks t * 1000) / TIMER_FREQUENCY.
Definition timer_get_uptime_sec (t : timer) : Z := u32 (timer_ticks t / TIMER_FREQUENCY).

(** [while (timer_ticks < end_tick) hlt;]: each wake-up brings the given number of
    timer interrupts; [None] when they run out before the loop ends. *)
Fixpoint sleep_loop (wakes : list nat) (t : timer) (end_tick : Z) : option timer :=
  if timer_ticks t <? end_tick then
    match wakes with
    | [] => None
    | k :: wakes' => sleep_loop wakes' (Nat.iter k timer_irq_handler t) end_tick
    end
  else Some t.

Definition timer_sleep (wakes : list nat) (t : timer) (ticks : Z) : option timer :=
  let end_tick := u64 (timer_ticks t + ticks) in sleep_loop wakes t end_tick.

Definition timer_sleep_ms (wakes : list nat) (t : timer) (ms : Z) : option timer :=
  let ticks := (ms *₃₂ TIMER_FREQUENCY) / 1000 in timer_sleep wakes t ticks.

(** ** Sleeping *)

Lemma iter_ticks k t :
  0 <= timer_ticks t -> timer_ticks t + Z.of_nat k < 2 ^ 64 ->
  timer_ticks (Nat.iter k timer_irq_handler t) = timer_ticks t + Z.of_nat k.
Proof.
  intros H0. induction k as [|k IH]; intros Hk; cbn [Nat.iter nat_rect]; [lia|].
  unfold Nat.iter in IH. cbn [timer_irq_handler timer_ticks]. rewrite IH by lia. rewrite u64_small by lia. lia.
Qed.

Definition total (wakes : list nat) : Z := Z.of_nat (foldr Nat.add 0%nat wakes).

Lemma sleep_loop_ok wakes t end_tick :
  0 <= timer_ticks t -> timer_ticks t + total wakes < 2 ^ 64 -> end_tick <= timer_ticks t + total wakes ->
  exists pre post t', wakes = pre ++ post /\ sleep_loop wakes t end_tick = Some t' /\
    timer_ticks t' = timer_ticks t + total pre /\ end_tick <= timer_ticks t' /\
    (forall k pre', pre = pre' ++ [k] -> timer_ticks t + total pre' < end_tick).
Proof.
  unfold total. revert t. induction wakes as [|k wakes IH]; intros t H0 Hb He; cbn [sleep_loop foldr] in *.
  - destruct (Z.ltb_spec (timer_ticks t) end_tick); [lia|]. exists [], [], t.
    repeat split; [cbn; lia|lia|]. by intros k [|].
  - destruct (Z.ltb_spec (timer_ticks t) end_tick).
    + pose proof (iter_ticks k t H0 ltac:(lia)) as Ek.
      destruct (IH (Nat.iter k timer_irq_handler t)) as (pre & post & t' & -> & -> & E & Hle & Hmin);
        [lia|lia|lia|]. rewrite Ek in *.
      exists (k :: pre), post, t'. repeat split; [|done|].
      * rewrite E. cbn [foldr]. lia.
      * intros j [|k' pre'] Epre; cbn [app] in Epre.
        -- injection Epre as -> ->. cbn. lia.
        -- injection Epre as -> ->. specialize (Hmin j pre' eq_refl). cbn [foldr] in *. lia.
    + exists [], (k :: wakes), t. repeat split; [cbn; lia|lia|]. by intros j [|].
Qed.

(** [timer_sleep_ms] sleeps for [ms / 10] ticks: it returns as soon as the
    timer interrupts have brought the counter that far, and not before, for every
    duration below 42949673 ms and whatever other interrupts wake the CPU. *)
Theorem timer_sleep_ms_correct wakes t ms :
  0 <= timer_ticks t -> timer_ticks t + total wakes < 2 ^ 64 -> 0 <= ms < 42949673 ->
  ms / 10 <= total wakes ->
  exists pre post t', wakes = pre ++ post /\ timer_sleep_ms wakes t ms = Some t' /\
    timer_ticks t' = timer_ticks t + total pre /\ ms / 10 <= total pre /\
    (forall k pre', pre = pre' ++ [k] -> total pre' < ms / 10).
Proof.
  intros H0 Hb Hms Hw. unfold timer_sleep_ms, timer_sleep, TIMER_FREQUENCY.
  rewrite u32_small by lia.
  assert (Hdiv : ms * 100 / 1000 = ms / 10).
  { replace 1000 with (10 * 100) by lia. by rewrite Z.div_mul_cancel_r by lia. }
  assert (0 <= ms / 10) by (apply Z.div_pos; lia).
  rewrite Hdiv, u64_small by lia.
  destruct (sleep_loop_ok wakes t (timer_ticks t + ms / 10) H0 Hb ltac:(lia)) as
    (pre & post & t' & -> & -> & E & Hle & Hmin).
  exists pre, post, t'. repeat split; [done|lia|]. intros k pre' Hp. specialize (Hmin k pre' Hp). lia.
Qed.

(** From 42949673 ms on, the product wraps: the sleep is short, at 42949673 ms it
    does not wait at all. *)
Lemma timer_sleep_ms_wraps wakes t :
  0 <= timer_ticks t < 2 ^ 64 -> timer_sleep_ms wakes t 42949673 = Some t.
Proof.
  intros Ht. unfold timer_sleep_ms, timer_sleep, TIMER_FREQUENCY.
  change (42949673 *₃₂ 100 / 1000) with 0. rewrite Z.add_0_r, u64_small by done.
  destruct wakes; cbn [sleep_loop]; rewrite Z.ltb_irrefl; done.
Qed.

Lemma timer_sleep_ms_correct_witness :
  exists t', timer_sleep_ms [1%nat; 0%nat; 2%nat; 1%nat] (Timer 0 (Io [] []) demo_sched) 30 = Some t' /\
    timer_ticks t' = 3.
Proof.
  destruct (timer_sleep_ms_correct [1%nat; 0%nat; 2%nat; 1%nat] (Timer 0 (Io [] []) demo_sched) 30)
    as (pre & post & t' & _ & R & _ & _ & _).
  - reflexivity || (cbn; lia).
  - reflexivity.
  - lia.
  - vm_compute. discriminate.
  - exists t'. split; [exact R|]. assert (E : timer_ticks <$> Some t' = Some 3) by (rewrite <- R; vm_compute; reflexivity).
    injection E as E. exact E.
Defined.
