(* ===== verification/Idt.v ===== *)
(** * [kernel/arch/x86_64/idt.c]: gates and interrupt dispatch

    [kernel] is the state the handlers share.  A registered handler is a function
    on it; [None] is a handler that never returns.  [isr_handler] is the C entry
    point of the assembly stubs: it runs the handler of the frame's vector (or
    the default for it) and then the scheduler, whose result is the stack pointer
    the stub returns through.  The handlers the kernel registers with
    [timer_init], [keyboard_init], [vmm_init] and [task_init] are lifted to [kernel],
    and [irq_dispatch] says that dispatching to them is what [Task.interrupt]
    describes.  The handler of the system calls is in [Syscall], with the table of
    all handlers and the theorem on it. *)
From stdpp Require Import base numbers list gmap strings.
From Stdlib Require Import ZArith Lia Ascii.
From S2P Require Import Prelude.
From S2P Require Import Machine.
From S2P Require Import Io.
From S2P Require Import Pic.
From S2P Require Import Keyboard.
From S2P Require Import Heap.
From S2P Require Import Vmm.
From S2P Require Import Gdt.
From S2P Require Import Task.
From S2P Require Import Timer.

Definition IDT_ENTRIES : Z := 256.
Definition IDT_GATE_INT32 : Z := 0xE.
Definition IDT_FLAG_PRESENT : Z := 0x80.
Definition IDT_FLAG_DPL0 : Z := 0x00.
Definition IDT_FLAG_DPL3 : Z := 0x60.

Record idt_entry := IdtEntry {
  g_base_low : Z;
  g_selector : Z;
  g_zero : Z;
  g_flags : Z;
  g_base_high : Z;
}.

Definition absent_gate : idt_entry := IdtEntry 0 0 0 0 0.
#[global] Instance idt_entry_inhabited : Inhabited idt_entry := populate absent_gate.

Record kernel := Kernel {
  k_machine : machine;
  k_io : io;
  k_ticks : Z;
  k_kbd : kbd;
  k_sched : sched;
  k_gdt : gdt_state;
  k_heap : heap;
}.

Definition handler : Type := kernel -> Z -> option kernel.

(** The static tables, and what IDTR holds. *)
Record idt_state := IdtState {
  idt : list idt_entry;
  interrupt_handlers : list (option handler);
  idtr_limit : Z;
  idtr_base : Z;
}.

Definition set_idt (s : idt_state) (t : list idt_entry) : idt_state :=
  {| idt := t; interrupt_handlers := interrupt_handlers s; idtr_limit := idtr_limit s; idtr_base := idtr_base s |}.

(** ** Gates *)

Definition idt_gate (base selector flags : Z) : idt_entry :=
  {| g_base_low := Z.land base 0xFFFF; g_selector := selector; g_zero := 0;
     g_flags := u8 (Z.lor flags IDT_FLAG_PRESENT); g_base_high := Z.land (Z.shiftr base 16) 0xFFFF |}.

Definition idt_set_gate (s : idt_state) (num base selector flags : Z) : idt_state :=
  set_idt s (<[Z.to_nat num := idt_gate base selector flags]> (idt s)).

Definition idt_register_handler (s : idt_state) (num : Z) (h : handler) : idt_state :=
  {| idt := idt s; interrupt_handlers := <[Z.to_nat num := Some h]> (interrupt_handlers s);
     idtr_limit := idtr_limit s; idtr_base := idtr_base s |}.

(** The calls [idt_set_gate(i, stub i, 0x08, DPL0 | INT32)] for [n] vectors from [i]. *)
Fixpoint set_gates (n : nat) (s : idt_state) (stub : Z -> Z) (i : Z) : idt_state :=
  match n with
  | O => s
  | S n' => set_gates n' (idt_set_gate s i (stub i) 0x08 (Z.lor IDT_FLAG_DPL0 IDT_GATE_INT32)) stub (i + 1)
  end.

(** [stub] gives the addresses of [isr0] .. [isr31], [irq0] .. [irq15] (vectors 32
    to 47), [isr128] and [isr129]; [addr] is the address of the table. *)
Definition idt_init (w : machine) (s : idt_state) (stub : Z -> Z) (addr : Z) : machine * idt_state :=
  let w1 := emit w [VgaSetColor VGA_COLOR_YELLOW VGA_COLOR_BLACK; VgaPuts (line "Initializing IDT...")] in
  let s1 := {| idt := replicate (Z.to_nat IDT_ENTRIES) absent_gate;
               interrupt_handlers := replicate (Z.to_nat IDT_ENTRIES) None;
               idtr_limit := idtr_limit s; idtr_base := idtr_base s |} in
  let s2 := set_gates 48 s1 stub 0 in
  let s3 := idt_set_gate s2 128 (stub 128) 0x08 (Z.lor IDT_FLAG_DPL3 IDT_GATE_INT32) in
  let s4 := idt_set_gate s3 129 (stub 129) 0x08 (Z.lor IDT_FLAG_DPL0 IDT_GATE_INT32) in
  let w2 := emit w1 [VgaSetColor VGA_COLOR_LIGHT_CYAN VGA_COLOR_BLACK; VgaPuts (line "  About to load IDT with LIDT instruction...");
                     VgaSetColor VGA_COLOR_LIGHT_GREY VGA_COLOR_BLACK; VgaSetColor VGA_COLOR_LIGHT_GREEN VGA_COLOR_BLACK; VgaPuts (line "  [OK] IDT loaded (256 entries)");
                     VgaPuts (line "  [OK] Exception handlers installed (0-31)");
                     VgaPuts (line "  [OK] IRQ handlers ready (32-47)" ++ nl)] in
  (w2, {| idt := idt s4; interrupt_handlers := interrupt_handlers s4;
          idtr_limit := 8 * IDT_ENTRIES - 1; idtr_base := addr |}).

(** ** Exceptions *)

Definition exception_messages : list string :=
  ["Division By Zero"; "Debug"; "Non Maskable Interrupt"; "Breakpoint"; "Overflow"; "Bound Range Exceeded";
   "Invalid Opcode"; "Device Not Available"; "Double Fault"; "Coprocessor Segment Overrun"; "Invalid TSS";
   "Segment Not Present"; "Stack-Segment Fault"; "General Protection Fault"; "Page Fault"; "Reserved";
   "x87 FPU Error"; "Alignment Check"; "Machine Check"; "SIMD Floating-Point Exception";
   "Virtualization Exception"; "Reserved"; "Reserved"; "Reserved"; "Reserved"; "Reserved"; "Reserved";
   "Reserved"; "Reserved"; "Reserved"; "Security Exception"; "Reserved"]%string.

(** The eight hexadecimal digits of a word, most significant first. *)
Fixpoint nibbles (n : nat) (v : Z) : list out_call :=
  match n with
  | O => []
  | S n' =>
      let nibble := Z.land (Z.shiftr v (4 * Z.of_nat n')) 0xF in
      VgaPutchar (if nibble <? 10 then 48 + nibble else 65 + (nibble - 10)) :: nibbles n' v
  end.

(** What the default handler prints before it halts. *)
Definition default_exception_handler (f : frame) : list out_call :=
  [VgaSetColor VGA_COLOR_WHITE VGA_COLOR_RED; VgaPuts (nl ++ nl ++ "!!! KERNEL PANIC - CPU EXCEPTION !!!" ++ nl ++ nl); VgaSetColor VGA_COLOR_LIGHT_RED VGA_COLOR_BLACK] ++
  (if f_int_no f <? 32 then
     [VgaPuts "Exception: "; VgaPuts (nth (Z.to_nat (f_int_no f)) exception_messages ""); VgaPuts nl]
   else
     [VgaPuts "Unknown exception: ";
      VgaPuts (string_of [48 + f_int_no f / 100; 48 + (f_int_no f / 10) mod 10; 48 + f_int_no f mod 10]);
      VgaPuts nl]) ++
  [VgaPuts "Error code: 0x"] ++ nibbles 8 (f_err_code f) ++ [VgaPuts nl; VgaPuts "EIP: 0x"] ++
  nibbles 8 (f_eip f) ++ [VgaPuts nl; VgaPuts (nl ++ "System halted." ++ nl)].

(** ** Dispatch *)

Definition with_k_io (k : kernel) (s : io) : kernel :=
  {| k_machine := k_machine k; k_io := s; k_ticks := k_ticks k; k_kbd := k_kbd k; k_sched := k_sched k;
     k_gdt := k_gdt k; k_heap := k_heap k |}.
Definition with_k_sched (k : kernel) (s : sched) (g : gdt_state) : kernel :=
  {| k_machine := k_machine k; k_io := k_io k; k_ticks := k_ticks k; k_kbd := k_kbd k; k_sched := s; k_gdt := g;
     k_heap := k_heap k |}.

(** The stack pointer to return through, [None] when the CPU halts for good. *)
Definition isr_handler (s : idt_state) (k : kernel) (esp : Z) : option (Z * kernel) :=
  let int_no := f_int_no (frame_at (ram (k_machine k)) esp) in
  k1 ← match interrupt_handlers s !! Z.to_nat int_no with
       | Some (Some h) => h k esp
       | _ => if int_no <? 32 then None
              else if (int_no >=? 32) && (int_no <? 48)
              then Some (with_k_io k (pic_send_eoi (k_io k) (u8 (int_no - 32))))
              else Some k
       end;
  let '(esp', sc, g) := task_schedule_if_needed (k_sched k1) (k_gdt k1) esp in
  Some (esp', with_k_sched k1 sc g).

(** The handlers of the timer, the keyboard and the yield vector. *)
Definition timer_isr : handler := fun k _ =>
  let t := timer_irq_handler (Timer (k_ticks k) (k_io k) (k_sched k)) in
  Some {| k_machine := k_machine k; k_io := timer_io t; k_ticks := timer_ticks t; k_kbd := k_kbd k;
          k_sched := timer_sched t; k_gdt := k_gdt k; k_heap := k_heap k |}.

Definition keyboard_isr : handler := fun k _ =>
  let b := keyboard_irq_handler (with_kbd_io (k_kbd k) (k_io k)) in
  Some {| k_machine := k_machine k; k_io := kbd_io b; k_ticks := k_ticks k; k_kbd := b;
          k_sched := k_sched k; k_gdt := k_gdt k; k_heap := k_heap k |}.

Definition yield_isr : handler := fun k _ =>
  Some (with_k_sched k (yield_isr_handler (k_sched k)) (k_gdt k)).

(** The page-fault handler prints and halts. *)
Definition page_fault_isr : handler := fun _ _ => None.

(** The handlers registered at boot, but for that of the system calls. *)
Definition register_irqs (s : idt_state) : idt_state :=
  idt_register_handler (idt_register_handler (idt_register_handler (idt_register_handler s
    14 page_fault_isr) 32 timer_isr) 33 keyboard_isr) 129 yield_isr.

(** ** Specification *)

Definition gate_base (e : idt_entry) : Z := g_base_low e + 65536 * g_base_high e.
Definition gate_present (e : idt_entry) : bool := Z.testbit (g_flags e) 7.
Definition gate_dpl (e : idt_entry) : Z := Z.land (Z.shiftr (g_flags e) 5) 3.
Definition gate_type (e : idt_entry) : Z := Z.land (g_flags e) 0xF.

(** What the event of a vector is for the scheduler. *)
Definition event_of (int_no esp : Z) : event :=
  if int_no =? 32 then EvTimer esp else if int_no =? 129 then EvYield esp else EvOther esp.

(** The end-of-interrupt commands of a log. *)
Definition eois (log : list io_op) : list Z :=
  omap (fun o => match o with
                 | OutB p v => if (v =? PIC_EOI) && ((p =? PIC1_COMMAND) || (p =? PIC2_COMMAND)) then Some p else None
                 | _ => None end) log.

(** ** Gates *)

Lemma set_gates_lookup n s stub i j :
  0 <= i -> i + Z.of_nat n <= Z.of_nat (length (idt s)) -> 0 <= j ->
  idt (set_gates n s stub i) !! Z.to_nat j =
    if (i <=? j) && (j <? i + Z.of_nat n)
    then Some (idt_gate (stub j) 0x08 (Z.lor IDT_FLAG_DPL0 IDT_GATE_INT32)) else idt s !! Z.to_nat j.
Proof.
  revert s i. induction n as [|n IH]; intros s i Hi Hn Hj; cbn [set_gates].
  { zcases; done || lia. }
  rewrite IH; [|lia|cbn; rewrite length_insert; lia|done]. cbn [idt idt_set_gate set_idt].
  destruct (Z.eq_dec j i) as [->|Hne].
  - rewrite list_lookup_insert_eq by lia. zcases; try lia; done.
  - rewrite list_lookup_insert_ne by lia. zcases; try lia; done.
Qed.

Lemma set_gates_length n s stub i : length (idt (set_gates n s stub i)) = length (idt s).
Proof. revert s i. induction n as [|n IH]; intros s i; [done|]. cbn [set_gates]. rewrite IH. cbn. apply length_insert. Qed.

Lemma set_gates_handlers n s stub i : interrupt_handlers (set_gates n s stub i) = interrupt_handlers s.
Proof. revert s i. induction n as [|n IH]; intros s i; [done|]. cbn [set_gates]. by rewrite IH. Qed.

Lemma idt_gate_base base sel flags : 0 <= base < 2 ^ 32 -> gate_base (idt_gate base sel flags) = base.
Proof.
  intros Hb. unfold gate_base, idt_gate. cbn [g_base_low g_base_high]. change 0xFFFF with (Z.ones 16).
  rewrite !Z.land_ones, Z.shiftr_div_pow2 by lia. change (2 ^ 16) with 65536.
  rewrite (Z.mod_small (base / 65536)) by dlia. pose proof (Z.div_mod base 65536). lia.
Qed.

(** The gate a vector has after [idt_init]. *)
Definition gate_spec (stub : Z -> Z) (i : Z) (e : idt_entry) : Prop :=
  if (i <? 48) || (i =? 128) || (i =? 129) then
    gate_present e = true /\ gate_base e = stub i /\ g_selector e = GDT_KERNEL_CODE_SEL /\
    gate_type e = IDT_GATE_INT32 /\ gate_dpl e = if i =? 128 then 3 else 0
  else gate_present e = false.

(** After [idt_init] exactly the vectors 0 to 47, 128 and 129 are present,
    each an interrupt gate into the kernel code segment at its own stub, and only
    the system-call vector 128 can be invoked from ring 3; IDTR covers the whole
    table, and no handler is registered. *)
Theorem idt_init_correct w s stub addr :
  (forall i, 0 <= stub i < 2 ^ 32) ->
  let s' := (idt_init w s stub addr).2 in
  length (idt s') = Z.to_nat IDT_ENTRIES /\ idtr_limit s' = 8 * IDT_ENTRIES - 1 /\ idtr_base s' = addr /\
  (forall i, 0 <= i < IDT_ENTRIES -> gate_spec stub i (idt s' !!! Z.to_nat i) /\
     interrupt_handlers s' !! Z.to_nat i = Some None).
Proof.
  intros Hstub. unfold idt_init. cbn [snd idt interrupt_handlers idtr_limit idtr_base idt_set_gate set_idt].
  set (s1 := {| idt := replicate _ absent_gate |}).
  assert (Hl : length (idt s1) = Z.to_nat IDT_ENTRIES) by apply length_replicate.
  split; [by rewrite !length_insert, set_gates_length|]. split; [done|]. split; [done|].
  intros i Hi. unfold IDT_ENTRIES in *. split.
  2:{ rewrite set_gates_handlers. apply lookup_replicate_2. lia. }
  set (gs := idt (set_gates 48 s1 stub 0)).
  assert (Hgs : length gs = Z.to_nat 256) by (unfold gs; by rewrite set_gates_length).
  assert (Hlk : forall e, <[Z.to_nat 129 := idt_gate (stub 129) 8 (Z.lor IDT_FLAG_DPL0 IDT_GATE_INT32)]>
      (<[Z.to_nat 128 := idt_gate (stub 128) 8 (Z.lor IDT_FLAG_DPL3 IDT_GATE_INT32)]> gs) !! Z.to_nat i = Some e ->
    gate_spec stub i e).
  { intros e. unfold gate_spec. destruct (Z.eq_dec i 129) as [->|N1].
    { rewrite list_lookup_insert_eq by (rewrite length_insert; lia). intros [= <-].
      cbn [orb Z.ltb Z.eqb Z.compare Pos.compare Pos.compare_cont Pos.eqb].
      repeat split; try done. by apply idt_gate_base. }
    rewrite list_lookup_insert_ne by lia. destruct (Z.eq_dec i 128) as [->|N2].
    { rewrite list_lookup_insert_eq by lia. intros [= <-].
      repeat split; try done. by apply idt_gate_base. }
    rewrite list_lookup_insert_ne by lia. unfold gs. rewrite set_gates_lookup by (rewrite ?Hl; lia).
    destruct (Z.eqb_spec i 128), (Z.eqb_spec i 129); try lia. rewrite !orb_false_r.
    destruct (Z.leb_spec 0 i), (Z.ltb_spec i (0 + Z.of_nat 48)), (Z.ltb_spec i 48); try lia; cbn [andb].
    - intros [= <-]. repeat split; try done. by apply idt_gate_base.
    - cbn [idt s1]. rewrite lookup_replicate_2 by lia. by intros [= <-]. }
  apply Hlk. apply list_lookup_lookup_total_lt. rewrite !length_insert. lia.
Qed.

Lemma idt_init_correct_witness :
  gate_dpl (idt (idt_init (Machine ∅ []) (IdtState [] [] 0 0) (fun i => 0x100000 + 16 * (i mod 256)) 0x5000).2
    !!! 128%nat) = 3.
Proof.
  destruct (idt_init_correct (Machine ∅ []) (IdtState [] [] 0 0) (fun i => 0x100000 + 16 * (i mod 256)) 0x5000)
    as (_ & _ & _ & Hg).
  - intros i. pose proof (Z.mod_pos_bound i 256). lia.
  - destruct (Hg 128 ltac:(unfold IDT_ENTRIES; lia)) as [(_ & _ & _ & _ & R) _]. exact R.
Defined.

(** ** Dispatch *)

(** Handlers registered over a table without any. *)
Lemma register_irqs_lookup s n :
  (forall i, 0 <= i < IDT_ENTRIES -> interrupt_handlers s !! Z.to_nat i = Some None) ->
  length (interrupt_handlers s) = Z.to_nat IDT_ENTRIES -> 0 <= n < IDT_ENTRIES ->
  interrupt_handlers (register_irqs s) !! Z.to_nat n =
    Some (if n =? 14 then Some page_fault_isr else if n =? 32 then Some timer_isr
          else if n =? 33 then Some keyboard_isr else if n =? 129 then Some yield_isr else None).
Proof.
  intros Hs Hl Hn. unfold register_irqs, idt_register_handler, IDT_ENTRIES in *. cbn [interrupt_handlers].
  destruct (Z.eq_dec n 129) as [->|]; [rewrite list_lookup_insert_eq; [done|rewrite !length_insert; lia]|].
  rewrite list_lookup_insert_ne by lia.
  destruct (Z.eq_dec n 33) as [->|]; [rewrite list_lookup_insert_eq; [done|rewrite !length_insert; lia]|].
  rewrite list_lookup_insert_ne by lia.
  destruct (Z.eq_dec n 32) as [->|]; [rewrite list_lookup_insert_eq; [done|rewrite !length_insert; lia]|].
  rewrite list_lookup_insert_ne by lia.
  destruct (Z.eq_dec n 14) as [->|]; [rewrite list_lookup_insert_eq; [done|lia]|].
  rewrite list_lookup_insert_ne by lia. rewrite Hs by done.
  destruct (Z.eqb_spec n 14), (Z.eqb_spec n 32), (Z.eqb_spec n 33), (Z.eqb_spec n 129); try lia; done.
Qed.

Lemma register_irqs_length s : length (interrupt_handlers (register_irqs s)) = length (interrupt_handlers s).
Proof. unfold register_irqs, idt_register_handler. cbn [interrupt_handlers]. by rewrite !length_insert. Qed.

Lemma eois_app a b : eois (a ++ b) = eois a ++ eois b.
Proof. apply omap_app. Qed.

Lemma send_eoi_log s irq :
  eois (io_log (pic_send_eoi s irq)) =
    eois (io_log s) ++ (if irq >=? 8 then [PIC2_COMMAND; PIC1_COMMAND] else [PIC1_COMMAND]).
Proof.
  unfold pic_send_eoi. destruct (irq >=? 8); unfold outb, io_push; cbn [io_log];
    rewrite !eois_app, <- ?app_assoc; done.
Qed.

Lemma handle_scancode_io k sc : kbd_io (handle_scancode k sc) = kbd_io k.
Proof.
  unfold handle_scancode, track, buf_put.
  repeat match goal with |- context [if ?b then _ else _] => destruct b end; done.
Qed.

Lemma keyboard_irq_eoi k : eois (io_log (kbd_io (keyboard_irq_handler k))) = eois (io_log (kbd_io k)) ++ [PIC1_COMMAND].
Proof.
  unfold keyboard_irq_handler, inb. cbn [kbd_io with_kbd_io]. rewrite send_eoi_log, handle_scancode_io.
  cbn [kbd_io with_kbd_io io_push io_drop io_log]. rewrite eois_app. cbn. by rewrite app_nil_r.
Qed.

(** What a hardware or software interrupt acknowledges. *)
Definition eoi_spec (n : Z) : list Z :=
  if (32 <=? n) && (n <? 40) then [PIC1_COMMAND]
  else if (40 <=? n) && (n <? 48) then [PIC2_COMMAND; PIC1_COMMAND] else [].

(** [isr_handler] on a vector that is not an exception, with these handlers. *)
Lemma irq_dispatch s k esp :
  (forall i, 0 <= i < IDT_ENTRIES -> interrupt_handlers s !! Z.to_nat i = Some None) ->
  length (interrupt_handlers s) = Z.to_nat IDT_ENTRIES ->
  let n := f_int_no (frame_at (ram (k_machine k)) esp) in
  n < IDT_ENTRIES ->
  if n <? 32 then isr_handler (register_irqs s) k esp = None
  else exists esp' k', isr_handler (register_irqs s) k esp = Some (esp', k') /\
    (esp', k_sched k', k_gdt k') = interrupt (k_sched k) (k_gdt k) (event_of n esp) /\
    eois (io_log (k_io k')) = eois (io_log (k_io k)) ++ eoi_spec n /\
    k_ticks k' = (if n =? 32 then u64 (k_ticks k + 1) else k_ticks k) /\ k_machine k' = k_machine k.
Proof.
  intros Hs Hl n Hn. assert (H0 : 0 <= n) by (apply load32_range).
  unfold isr_handler. fold n. rewrite register_irqs_lookup by done. unfold event_of, eoi_spec.
  destruct (Z.ltb_spec n 32) as [Hlt|Hge].
  { destruct (Z.eqb_spec n 14); [done|].
    destruct (Z.eqb_spec n 32), (Z.eqb_spec n 33), (Z.eqb_spec n 129); try lia. done. }
  destruct (Z.eqb_spec n 14); [lia|].
  destruct (Z.eqb_spec n 32) as [E|].
  { destruct (Z.eqb_spec n 129); [lia|]. unfold timer_isr. cbn [mbind option_bind k_sched k_gdt interrupt].
    cbn [timer_irq_handler timer_sched timer_io timer_ticks].
    destruct (task_schedule_if_needed _ _ _) as [[esp' sc] g]. eexists _, _. split; [done|]. split; [done|].
    cbn [k_io k_ticks k_machine with_k_sched]. rewrite send_eoi_log, E. done. }
  destruct (Z.eqb_spec n 33) as [E|].
  { destruct (Z.eqb_spec n 129); [lia|]. unfold keyboard_isr. cbn [mbind option_bind k_sched k_gdt interrupt].
    destruct (task_schedule_if_needed _ _ _) as [[esp' sc] g]. eexists _, _. split; [done|]. split; [done|].
    cbn [k_io k_ticks k_machine with_k_sched]. rewrite keyboard_irq_eoi, E. done. }
  destruct (Z.eqb_spec n 129) as [E|].
  { unfold yield_isr. cbn [mbind option_bind k_sched k_gdt interrupt with_k_sched].
    destruct (task_schedule_if_needed _ _ _) as [[esp' sc] g]. eexists _, _. split; [done|]. split; [done|].
    cbn [k_io k_ticks k_machine with_k_sched]. rewrite E. cbn. by rewrite app_nil_r. }
  cbn [interrupt]. rewrite Z.geb_leb. destruct (Z.leb_spec 32 n); [|lia].
  destruct (Z.ltb_spec n 48) as [H48|H48]; cbn [andb mbind option_bind k_sched k_gdt with_k_io];
    destruct (task_schedule_if_needed _ _ _) as [[esp' sc] g]; eexists _, _; (split; [done|]); (split; [done|]);
    cbn [k_io k_ticks k_machine with_k_sched with_k_io].
  - rewrite send_eoi_log, u8_small, Z.geb_leb by lia. split; [|done].
    destruct (Z.leb_spec 8 (n - 32)), (Z.ltb_spec n 40), (Z.leb_spec 40 n); try lia; done.
  - destruct (Z.ltb_spec n 40), (Z.leb_spec 40 n); try lia. by rewrite app_nil_r.
Qed.

(** A timer interrupt whose frame is at 4096. *)
Definition demo_kernel : kernel :=
  Kernel (Machine (store32 ∅ (4096 + 36) 32) []) (Io [] []) 0 demo_kbd demo_sched gdt_boot demo_heap.2.
Definition demo_idt : idt_state :=
  (idt_init (Machine ∅ []) (IdtState [] [] 0 0) (fun i => 0x100000 + 16 * i) 0x5000).2.
