(* ===== verification/Syscall.v ===== *)
(** * [kernel/syscall/syscall.c]: the system calls

    INT 0x80 from ring 3 pushes an [interrupt_frame_t] on the task's kernel stack
    and enters [isr_handler], which finds [syscall_handler] in the table.  A call
    reads its arguments from the frame and leaves its result in the frame's EAX.

    A system call is a function from the shared state ([Idt.kernel]) and the
    address of the frame to its [outcome]: it returns a result to the caller, or
    [task_exit] takes the processor away from it, in the state given, by INT 0x81;
    [None] is a call that waits for ever.  Characters for the screen are console calls of the
    machine, which [Vga] replays; the serial line is polled through the ports, at
    most [polls] times for a character.  What happens while [keyboard_getchar]
    waits (it yields to other tasks) is the list [waits] of state changes. *)
From stdpp Require Import base numbers list gmap strings.
From Stdlib Require Import ZArith Lia.
From S2P Require Import Prelude.
From S2P Require Import Machine.
From S2P Require Import Io.
From S2P Require Import Serial.
From S2P Require Import Keyboard.
From S2P Require Import Alloc.
From S2P Require Import Heap.
From S2P Require Import Pmm.
From S2P Require Import Vmm.
From S2P Require Import Gdt.
From S2P Require Import Task.
From S2P Require Import Timer.
From S2P Require Import Idt.

Definition SYS_EXIT : Z := 0.
Definition SYS_WRITE : Z := 1.
Definition SYS_READ : Z := 2.
Definition SYS_GETPID : Z := 3.
Definition SYS_UPTIME : Z := 4.
Definition SYS_SBRK : Z := 5.
Definition SYS_YIELD : Z := 6.
Definition SYS_MAX : Z := 7.

Definition with_k_machine (k : kernel) (w : machine) : kernel :=
  {| k_machine := w; k_io := k_io k; k_ticks := k_ticks k; k_kbd := k_kbd k; k_sched := k_sched k;
     k_gdt := k_gdt k; k_heap := k_heap k |}.
Definition with_k_kbd (k : kernel) (b : kbd) : kernel :=
  {| k_machine := k_machine k; k_io := k_io k; k_ticks := k_ticks k; k_kbd := b; k_sched := k_sched k;
     k_gdt := k_gdt k; k_heap := k_heap k |}.
Definition with_k_heap (k : kernel) (h : heap) : kernel :=
  {| k_machine := k_machine k; k_io := k_io k; k_ticks := k_ticks k; k_kbd := k_kbd k; k_sched := k_sched k;
     k_gdt := k_gdt k; k_heap := h |}.

Definition frame_of (k : kernel) (esp : Z) : frame := frame_at (ram (k_machine k)) esp.

(** [frame->eax = v] *)
Definition set_eax (k : kernel) (esp v : Z) : kernel :=
  with_k_machine k (set_ram (k_machine k) (store32 (ram (k_machine k)) (esp + 32) v)).

(** ** The calls *)

(** The state in which [task_exit] executes INT 0x81, from which it never returns
    to [sys_exit]. *)
Definition sys_exit_yields (k : kernel) : kernel :=
  with_k_sched (with_k_machine k (emit (k_machine k) [Klog "syscall: exit"]))
    (task_exit_mark (k_sched k)) (k_gdt k).

(** How a call ends: with a result, or in INT 0x81 of [task_exit]. *)
Inductive outcome :=
  | Returns (r : Z) (k : kernel)
  | Exits (k : kernel).

Definition sys_exit (k : kernel) (esp : Z) : option outcome := Some (Exits (sys_exit_yields k)).

(** A call that ends with its result only. *)
Definition returning (fn : kernel -> Z -> option (Z * kernel)) : kernel -> Z -> option outcome :=
  fun k esp => '(r, k1) ← fn k esp; Some (Returns r k1).

Section calls.
Context (polls : nat) (waits : list (kernel -> kernel)).

(** The loop of [sys_write], [n] iterations left, the next character at [p]. *)
Fixpoint write_loop (n : nat) (k : kernel) (fd p len : Z) : option (Z * kernel) :=
  match n with
  | O => Some (s32 len, k)
  | S n' =>
      let c := s8 (load8 (ram (k_machine k)) p) in
      if fd =? 1 then write_loop n' (with_k_machine k (emit (k_machine k) [VgaPutchar c])) fd (p +₃₂ 1) len
      else if fd =? 2 then
        s ← serial_putc polls (k_io k) c;
        write_loop n' (with_k_io k s) fd (p +₃₂ 1) len
      else Some (-1, k)
  end.

Definition sys_write (k : kernel) (esp : Z) : option (Z * kernel) :=
  let f := frame_of k esp in
  let fd := s32 (f_ebx f) in
  let buf := f_ecx f in
  let len := f_edx f in
  if (buf =? 0) || (len =? 0) then Some (0, k) else write_loop (Z.to_nat len) k fd buf len.

(** [keyboard_getchar], each wait of which changes the state. *)
Fixpoint getchar (ws : list (kernel -> kernel)) (k : kernel) : option (Z * kernel) :=
  match keyboard_getchar [] (k_kbd k) with
  | Some (c, b) => Some (c, with_k_kbd k b)
  | None => match ws with
            | [] => None
            | w :: ws' => getchar ws' (w k)
            end
  end.

Definition sys_read (k : kernel) (esp : Z) : option (Z * kernel) :=
  let f := frame_of k esp in
  let fd := s32 (f_ebx f) in
  let buf := f_ecx f in
  let len := f_edx f in
  if negb (fd =? 0) || (buf =? 0) || (len =? 0) then Some (-1, k)
  else
    '(c, k1) ← getchar waits k;
    if c =? 0 then Some (0, k1)
    else Some (1, with_k_machine k1 (set_ram (k_machine k1) (store8 (ram (k_machine k1)) buf c))).

Definition sys_getpid (k : kernel) (esp : Z) : option (Z * kernel) :=
  Some (s32 (task_current_id (k_sched k)), k).

Definition sys_uptime (k : kernel) (esp : Z) : option (Z * kernel) := Some (s32 (k_ticks k), k).

Definition sys_sbrk (k : kernel) (esp : Z) : option (Z * kernel) :=
  let increment := f_ebx (frame_of k esp) in
  '(ptr, w, h) ← kmalloc (k_machine k) (k_heap k) increment;
  Some (if negb (ptr =? 0) then s32 ptr else -1, with_k_heap (with_k_machine k w) h).

Definition sys_yield (k : kernel) (esp : Z) : option (Z * kernel) :=
  Some (0, with_k_sched k (task_request_reschedule (k_sched k)) (k_gdt k)).

Definition syscall_table : list (kernel -> Z -> option outcome) :=
  [sys_exit; returning sys_write; returning sys_read; returning sys_getpid; returning sys_uptime;
   returning sys_sbrk; returning sys_yield].

(** What the call of a frame does: the handler returns in the state of [Returns],
    the result in EAX; in that of [Exits] the processor executes INT 0x81. *)
Definition syscall_outcome (k : kernel) (esp : Z) : option outcome :=
  let num := f_eax (frame_of k esp) in
  if num >=? SYS_MAX then Some (Returns (-1) k)
  else
    match syscall_table !! Z.to_nat num with
    | None => Some (Returns (-1) k)
    | Some fn => fn k esp
    end.

(** As a handler: [None] when it does not return to [isr_handler]. *)
Definition syscall_handler : handler := fun k esp =>
  match syscall_outcome k esp with
  | Some (Returns r k1) => Some (set_eax k1 esp (u32 r))
  | Some (Exits _) | None => None
  end.

Definition syscall_init (w : machine) (s : idt_state) : machine * idt_state :=
  (emit w [Klog "syscall: INT 0x80 handler registered"], idt_register_handler s 128 syscall_handler).
End calls.

(** ** Specification *)

Definition with_eax (f : frame) (v : Z) : frame :=
  {| f_ds := f_ds f; f_edi := f_edi f; f_esi := f_esi f; f_ebp := f_ebp f; f_esp := f_esp f; f_ebx := f_ebx f;
     f_edx := f_edx f; f_ecx := f_ecx f; f_eax := v; f_int_no := f_int_no f; f_err_code := f_err_code f;
     f_eip := f_eip f; f_cs := f_cs f; f_eflags := f_eflags f; f_useresp := f_useresp f; f_ss := f_ss f |}.

(** From the state [k1] the call left, the interrupt returns [r] to the caller:
    the frame at [esp] changes in EAX only, and the scheduler runs on [e]. *)
Definition returns (k1 : kernel) (esp r : Z) (e : event) (res : option (Z * kernel)) : Prop :=
  exists esp' k', res = Some (esp', k') /\
    (esp', k_sched k', k_gdt k') = interrupt (k_sched k1) (k_gdt k1) e /\
    frame_of k' esp = with_eax (frame_of k1 esp) (u32 r) /\
    same_outside (esp + 32) (esp + 36) (ram (k_machine k1)) (ram (k_machine k')) /\
    con (k_machine k') = con (k_machine k1) /\ k_io k' = k_io k1 /\ k_ticks k' = k_ticks k1 /\
    k_kbd k' = k_kbd k1 /\ k_heap k' = k_heap k1.

(** The dispatcher of a table with the system calls, at a frame of INT 0x80. *)
Definition int80 (polls : nat) (waits : list (kernel -> kernel)) (s : idt_state) (k : kernel) (esp : Z)
  : option (Z * kernel) :=
  isr_handler (syscall_init polls waits (k_machine k) s).2 k esp.

(** ** Returning *)

Lemma frame_set_eax k esp v : frame_of (set_eax k esp v) esp = with_eax (frame_of k esp) (u32 v).
Proof.
  unfold frame_of, set_eax, frame_at, with_eax. cbn [k_machine ram set_ram with_k_machine f_ds f_edi f_esi f_ebp
    f_esp f_ebx f_edx f_ecx f_eax f_int_no f_err_code f_eip f_cs f_eflags f_useresp f_ss].
  unfold store32, load32. rewrite load_store_le_eq. rewrite !load_store_le_disjoint by lia. done.
Qed.

Lemma set_eax_outside k esp v :
  same_outside (esp + 32) (esp + 36) (ram (k_machine k)) (ram (k_machine (set_eax k esp v))).
Proof. intros a Ha. apply (store_le_outside 4). lia. Qed.

Section dispatch.
Context (polls : nat) (waits : list (kernel -> kernel)) (s : idt_state) (k : kernel) (esp : Z).
Context (Hl : length (interrupt_handlers s) = Z.to_nat IDT_ENTRIES) (Hv : f_int_no (frame_of k esp) = 128).

Lemma int80_handler :
  int80 polls waits s k esp =
    (k1 ← syscall_handler polls waits k esp;
     let '(esp', sc, g) := task_schedule_if_needed (k_sched k1) (k_gdt k1) esp in
     Some (esp', with_k_sched k1 sc g)).
Proof.
  unfold int80, isr_handler, syscall_init, idt_register_handler. cbn [snd interrupt_handlers].
  unfold frame_of in Hv. rewrite Hv, list_lookup_insert_eq; [done|]. unfold handler, IDT_ENTRIES in *. lia.
Qed.

Lemma returns_intro k1 r e res :
  res = (let '(esp', sc, g) := interrupt (k_sched k1) (k_gdt k1) e in
         Some (esp', with_k_sched (set_eax k1 esp (u32 r)) sc g)) ->
  returns k1 esp r e res.
Proof.
  intros ->. destruct (interrupt _ _ _) as [[esp' sc] g] eqn:E. eexists _, _. split; [done|].
  split; [by rewrite E|]. rewrite <- (u32_small (u32 r)) at 2 by apply u32_range.
  rewrite <- frame_set_eax. split; [done|]. split; [apply set_eax_outside|]. done.
Qed.

(** A call of the table that returns. *)
Lemma int80_call fn r k1 :
  syscall_table polls waits !! Z.to_nat (f_eax (frame_of k esp)) = Some (returning fn) -> f_eax (frame_of k esp) < SYS_MAX ->
  fn k esp = Some (r, k1) -> returns k1 esp r (EvOther esp) (int80 polls waits s k esp).
Proof.
  intros Hfn Hn E. apply returns_intro. rewrite int80_handler. unfold syscall_handler, syscall_outcome.
  rewrite Z.geb_leb. destruct (Z.leb_spec SYS_MAX (f_eax (frame_of k esp))); [lia|]. rewrite Hfn. unfold returning. by rewrite E.
Qed.
End dispatch.

Lemma u32_s32 x : u32 (s32 x) = u32 x.
Proof.
  unfold u32, s32, swrap, wrap. change (2 ^ (32 - 1)) with 2147483648.
  rewrite Zminus_mod_idemp_l. f_equal. lia.
Qed.

(** Only the low 32 bits of a result reach the caller. *)
Lemma returns_u32 k1 esp r r' e res : u32 r = u32 r' -> returns k1 esp r e res -> returns k1 esp r' e res.
Proof. intros E H. unfold returns in *. by rewrite <- E. Qed.

(** ** Writing *)

Lemma serial_putc_s8 polls s c : serial_putc polls s (s8 c) = serial_putc polls s c.
Proof.
  unfold serial_putc. destruct (wait_empty polls s) as [s1|]; [|done]. cbn [mbind option_bind].
  unfold outb. do 4 f_equal. unfold u8, s8, swrap, wrap. change (2 ^ (8 - 1)) with 128.
  rewrite Zminus_mod_idemp_l. f_equal. lia.
Qed.

(** The console calls that print the bytes. *)
Definition prints (l : list Z) : list out_call := map (fun c => VgaPutchar (s8 c)) l.

Lemma with_k_machine_emit k a b :
  with_k_machine (with_k_machine k (emit (k_machine k) a)) (emit (emit (k_machine k) a) b) =
  with_k_machine k (emit (k_machine k) (a ++ b)).
Proof. unfold with_k_machine, emit. cbn. by rewrite app_assoc. Qed.

Lemma emit_nil k : with_k_machine k (emit (k_machine k) []) = k.
Proof. destruct k as [[m c]]. unfold with_k_machine, emit. cbn. by rewrite app_nil_r. Qed.

Lemma write_loop_screen polls n k p len :
  0 <= p -> p + Z.of_nat n <= 2 ^ 32 ->
  write_loop polls n k 1 p len =
    Some (s32 len, with_k_machine k (emit (k_machine k) (prints (bytes_at (ram (k_machine k)) p n)))).
Proof.
  revert k p. induction n as [|n IH]; intros k p Hp Hn; cbn [write_loop bytes_at prints map].
  { by rewrite emit_nil. }
  cbn [Z.eqb Pos.eqb]. destruct n as [|n].
  { cbn [write_loop]. done. }
  unwrap. rewrite IH by lia. cbn [k_machine with_k_machine]. f_equal. f_equal. apply with_k_machine_emit.
Qed.

Lemma write_loop_serial polls n k p len :
  0 <= p -> p + Z.of_nat n <= 2 ^ 32 -> (0 < polls)%nat -> ready (k_io k) n ->
  exists s, write_loop polls n k 2 p len = Some (s32 len, with_k_io k s) /\
    sent (io_log s) = sent (io_log (k_io k)) ++ bytes_at (ram (k_machine k)) p n.
Proof.
  revert k p. induction n as [|n IH]; intros k p Hp Hn Hpo Hr; cbn [write_loop bytes_at].
  { exists (k_io k). rewrite app_nil_r. by destruct k. }
  cbn [Z.eqb Pos.eqb]. rewrite serial_putc_s8.
  destruct (serial_putc_ok polls (k_io k) _ n Hr Hpo (load8_range (ram (k_machine k)) p)) as (s1 & -> & Hr1 & E1).
  cbn [mbind option_bind]. destruct n as [|n].
  { cbn [write_loop bytes_at]. by exists s1. }
  unwrap. destruct (IH (with_k_io k s1) (p + 1)) as (s2 & -> & E2); [lia|lia|done|done|].
  exists s2. split; [done|]. cbn [k_io k_machine with_k_io] in E2. rewrite E2, E1, <- app_assoc. done.
Qed.

Lemma write_loop_bad polls n k fd p len :
  fd <> 1 -> fd <> 2 -> write_loop polls (S n) k fd p len = Some (-1, k).
Proof. intros H1 H2. cbn [write_loop]. destruct (Z.eqb_spec fd 1), (Z.eqb_spec fd 2); done. Qed.

(** C19: [sys_write] through INT 0x80.  With descriptor 1 exactly the bytes of
    the caller's buffer go to the screen, in order; with descriptor 2 they go out
    on the serial line (when it is ready); the caller gets the length.  Any other
    descriptor gives -1 and writes nothing; an empty or null buffer gives 0.  In
    every case memory changes only in the caller's EAX. *)
Theorem syscall_write_correct polls waits s k esp
  (Hl : length (interrupt_handlers s) = Z.to_nat IDT_ENTRIES) (Hv : f_int_no (frame_of k esp) = 128)
  (Hn : f_eax (frame_of k esp) = SYS_WRITE) :
  let f := frame_of k esp in
  let buf := f_ecx f in
  let len := f_edx f in
  let text := bytes_at (ram (k_machine k)) buf (Z.to_nat len) in
  let res := int80 polls waits s k esp in
  if (buf =? 0) || (len =? 0) then returns k esp 0 (EvOther esp) res
  else if f_ebx f =? 1 then
    buf + len <= 2 ^ 32 ->
    returns (with_k_machine k (emit (k_machine k) (prints text))) esp len (EvOther esp) res
  else if f_ebx f =? 2 then
    buf + len <= 2 ^ 32 -> (0 < polls)%nat -> ready (k_io k) (Z.to_nat len) ->
    exists io', sent (io_log io') = sent (io_log (k_io k)) ++ text /\
      returns (with_k_io k io') esp len (EvOther esp) res
  else returns k esp (-1) (EvOther esp) res.
Proof.
  intros f buf len text res.
  assert (Hcall : forall r k1, sys_write polls k esp = Some (r, k1) -> returns k1 esp r (EvOther esp) res).
  { intros r k1. apply int80_call; [done|done|by rewrite Hn|by rewrite Hn]. }
  assert (Hb : 0 <= buf) by apply load32_range. assert (Hlen : 0 <= len) by apply load32_range.
  assert (Hfd : 0 <= f_ebx f < 2 ^ 32) by apply load32_range.
  assert (Hs : forall d, 0 <= d < 2 -> s32 (f_ebx f) = 1 + d <-> f_ebx f = 1 + d).
  { intros d Hd. unfold s32, swrap, wrap. change (2 ^ (32 - 1)) with 2147483648. dlia. }
  unfold sys_write in Hcall. fold f buf len in Hcall.
  destruct ((buf =? 0) || (len =? 0)) eqn:E0; [by apply Hcall|].
  apply orb_false_iff in E0 as [E1%Z.eqb_neq E2%Z.eqb_neq].
  assert (Hlt : u32 (s32 len) = u32 len) by apply u32_s32.
  destruct (Z.eqb_spec (f_ebx f) 1) as [F1|F1].
  { intros Hend. apply (returns_u32 _ _ (s32 len)); [done|]. apply Hcall. rewrite F1.
    change (s32 1) with 1. rewrite write_loop_screen by lia. done. }
  destruct (Z.eqb_spec (f_ebx f) 2) as [F2|F2].
  { intros Hend Hp Hr. rewrite F2 in Hcall. change (s32 2) with 2 in Hcall.
    destruct (write_loop_serial polls (Z.to_nat len) k buf len) as (io' & E & Hsent); [lia|lia|done|done|].
    exists io'. split; [done|]. apply (returns_u32 _ _ (s32 len)); [done|]. by apply Hcall. }
  apply Hcall. destruct (Z.to_nat len) as [|n] eqn:En; [lia|]. apply write_loop_bad.
  - intros F. apply (Hs 0) in F; lia.
  - intros F. apply (Hs 1) in F; lia.
Qed.

(** ** Reading *)

(** [kn] is the first state, after some of the waits [ws] from [k], in which a
    character is there. *)
Inductive first_input : list (kernel -> kernel) -> kernel -> kernel -> Prop :=
  | fi_here ws k : keyboard_has_input (k_kbd k) = true -> first_input ws k k
  | fi_wait w ws k kn :
      keyboard_has_input (k_kbd k) = false -> first_input ws (w k) kn -> first_input (w :: ws) k kn.

Lemma getchar_here ws k :
  keyboard_has_input (k_kbd k) = true ->
  getchar ws k = Some (default 0 (kb_buffer (k_kbd k) !! Z.to_nat (kb_tail (k_kbd k))),
    with_k_kbd k (with_tail (k_kbd k) ((kb_tail (k_kbd k) + 1) mod KB_BUFFER_SIZE))).
Proof.
  unfold keyboard_has_input. intros Hi%negb_true_iff. destruct ws; cbn [getchar keyboard_getchar]; by rewrite Hi.
Qed.

Lemma getchar_first ws k kn c q :
  first_input ws k kn -> kbd_inv (k_kbd kn) -> queue (k_kbd kn) = c :: q ->
  exists b, getchar ws k = Some (c, with_k_kbd kn b) /\ kbd_inv b /\ queue b = q.
Proof.
  induction 1 as [ws k Hi|w ws k kn Hi _ IH]; intros Hk Hq.
  - rewrite getchar_here by done. destruct (queue_advance _ Hk Hi) as [E Hk']. rewrite Hq in E.
    injection E as -> ->. by eexists.
  - unfold keyboard_has_input in Hi. apply negb_false_iff in Hi. cbn [getchar keyboard_getchar]. rewrite Hi. by apply IH.
Qed.

(** C20: [sys_read] through INT 0x80.  With descriptor 0 and a non-empty buffer
    the call waits until a key has been typed (in the state [kn]), takes the
    oldest character off the queue, stores it at the address the caller gave and
    returns 1; the address is used as it is, whichever page it is in.  Any other
    descriptor, a null buffer or length 0 gives -1 and takes nothing. *)
Theorem syscall_read_correct polls waits s k esp kn c q
  (Hl : length (interrupt_handlers s) = Z.to_nat IDT_ENTRIES) (Hv : f_int_no (frame_of k esp) = 128)
  (Hn : f_eax (frame_of k esp) = SYS_READ) (Hwait : first_input waits k kn) (Hk : kbd_inv (k_kbd kn))
  (Hq : queue (k_kbd kn) = c :: q) (Hc : c <> 0) :
  let f := frame_of k esp in
  let buf := f_ecx f in
  let res := int80 polls waits s k esp in
  if (f_ebx f =? 0) && negb (buf =? 0) && negb (f_edx f =? 0) then
    exists b, kbd_inv b /\ queue b = q /\
      returns (with_k_machine (with_k_kbd kn b)
        (set_ram (k_machine kn) (store8 (ram (k_machine kn)) buf c))) esp 1 (EvOther esp) res
  else returns k esp (-1) (EvOther esp) res.
Proof.
  intros f buf res.
  assert (Hcall : forall r k1, sys_read waits k esp = Some (r, k1) -> returns k1 esp r (EvOther esp) res).
  { intros r k1. apply int80_call; [done|done|by rewrite Hn|by rewrite Hn]. }
  assert (Hfd : 0 <= f_ebx f < 2 ^ 32) by apply load32_range.
  assert (Hs : (s32 (f_ebx f) =? 0) = (f_ebx f =? 0)).
  { apply eq_true_iff_eq. rewrite !Z.eqb_eq. unfold s32, swrap, wrap.
    change (2 ^ (32 - 1)) with 2147483648. dlia. }
  unfold sys_read in Hcall. fold f buf in Hcall. rewrite Hs in Hcall.
  destruct (f_ebx f =? 0), (buf =? 0), (f_edx f =? 0); cbn [negb andb orb] in *; try (by apply Hcall).
  destruct (getchar_first _ _ _ _ _ Hwait Hk Hq) as (b & E & Hb & Hqb). exists b. split; [done|].
  split; [done|]. apply Hcall. rewrite E. cbn [mbind option_bind]. by destruct (Z.eqb_spec c 0).
Qed.

(** ** Queries, yielding and unknown numbers *)

(** Through INT 0x80, [sys_getpid] returns the number of the running task,
    [sys_uptime] the low 32 bits of the tick counter, [sys_yield] 0 after the
    scheduler has treated the interrupt as a yield, and every number that is not
    a system call gives -1; nothing else changes. *)
Theorem syscall_query_correct polls waits s k esp
  (Hl : length (interrupt_handlers s) = Z.to_nat IDT_ENTRIES) (Hv : f_int_no (frame_of k esp) = 128) :
  let n := f_eax (frame_of k esp) in
  let res := int80 polls waits s k esp in
  (n = SYS_GETPID -> returns k esp (current (k_sched k)) (EvOther esp) res) /\
  (n = SYS_UPTIME -> returns k esp (k_ticks k) (EvOther esp) res) /\
  (n = SYS_YIELD -> returns k esp 0 (EvYield esp) res) /\
  (SYS_MAX <= n -> returns k esp (-1) (EvOther esp) res).
Proof.
  intros n res. repeat split; intros Hn.
  - apply (returns_u32 _ _ (s32 (current (k_sched k)))); [apply u32_s32|].
    apply (int80_call polls waits s k esp Hl Hv sys_getpid); fold n; by rewrite ?Hn.
  - apply (returns_u32 _ _ (s32 (k_ticks k))); [apply u32_s32|].
    apply (int80_call polls waits s k esp Hl Hv sys_uptime); fold n; by rewrite ?Hn.
  - destruct (int80_call polls waits s k esp Hl Hv sys_yield 0
      (with_k_sched k (task_request_reschedule (k_sched k)) (k_gdt k))) as (esp' & k' & R); fold n; try by rewrite ?Hn.
    by exists esp', k'.
  - apply returns_intro. unfold res. rewrite int80_handler by done. unfold syscall_handler, syscall_outcome. fold n.
    rewrite Z.geb_leb. by destruct (Z.leb_spec SYS_MAX n); [|lia].
Qed.

(** ** Memory *)

(** The interrupt frame at [esp] lies in one live payload (a task's stack), or
    outside the heap (the boot stack). *)
Definition frame_placed (lv : list (Z * Z)) (esp : Z) : Prop :=
  (exists p n, In (p, n) lv /\ p <= esp /\ esp + 64 <= p + n) \/ esp + 64 <= HEAP_START \/ HEAP_END <= esp.

Lemma frame_kept lv m m' esp :
  frame_placed lv esp -> keeps lv m m' -> same_outside HEAP_START HEAP_END m m' ->
  frame_at m' esp = frame_at m esp.
Proof.
  intros Hp Hk Ho.
  assert (Hb : forall a, esp <= a < esp + 64 -> load8 m' a = load8 m a).
  { intros a Ha. destruct Hp as [(p & n & Hin & H1 & H2)|Hout]; [apply (Hk p n); [done|lia]|apply Ho; lia]. }
  unfold frame_at, load32. f_equal; apply load_le_ext; intros b Hbb; apply Hb; lia.
Qed.

(** A write to EAX leaves the heap what it was. *)
Lemma owns_eax (lv : list (Z * Z)) m m' (h : heap) esp :
  owns m h lv -> frame_placed lv esp -> same_outside (esp + 32) (esp + 36) m m' -> owns m' h lv.
Proof.
  intros Hown [(p & n & Hin & H1 & H2)|Hout] Ho.
  - apply (owns_write m m' h lv p n); [done|done|]. intros a Ha. apply Ho. lia.
  - apply (owns_outside m m' h lv); [done|]. intros a Ha. apply Ho. lia.
Qed.

(** Paging beside a frame: in a live payload, or outside the heap and off the paging
    structures. *)
Lemma frame_paging (lv : list (Z * Z)) m m' (h : heap) p v esp :
  owns m h lv -> frame_placed lv esp -> off_heap m p v ->
  (esp + 64 <= HEAP_START \/ HEAP_END <= esp -> off_range esp (esp + 64) m p v) ->
  vmm_inv m p v -> same_outside (esp + 32) (esp + 36) m m' ->
  vmm_inv m' p v /\ (forall q, 0 <= q < 2 ^ 20 -> walk m' v q = walk m v q).
Proof.
  intros Hown Hpl Hoff Hfr Hvm Ho. destruct Hpl as [(a & n & Hin & H1 & H2)|Hout].
  - destruct (owns_bounds _ _ _ _ _ Hown Hin) as (R1 & R2 & R3).
    destruct (vmm_inv_outside HEAP_START HEAP_END m m' p v Hvm Hoff) as (V1 & _ & V2); [|done].
    eapply same_outside_mono; [..|exact Ho]; lia.
  - destruct (vmm_inv_outside esp (esp + 64) m m' p v Hvm (Hfr Hout)) as (V1 & _ & V2); [|done].
    eapply same_outside_mono; [..|exact Ho]; lia.
Qed.

(** C22: [sys_sbrk] through INT 0x80, for increments below 2^32 - 7 (a larger one
    wraps around in [kmalloc]: [kmalloc_huge_wraps]).  With a heap whose live
    payloads are [lv] the caller gets -1 and nothing else changes, or the address of a
    new payload of at least the size asked for, apart from all live ones; the heap
    stays well formed, and outside the new payload and the heap's own headers memory
    changes only in the caller's EAX.  In every case each page's translation stays
    what it was, permissions included, so a page of the heap that ring 3 could not
    reach stays closed to it.  An increment of 0 gives -1. *)
Theorem syscall_sbrk_correct polls waits s k esp lv p v
  (Hl : length (interrupt_handlers s) = Z.to_nat IDT_ENTRIES) (Hv : f_int_no (frame_of k esp) = 128)
  (Hn : f_eax (frame_of k esp) = SYS_SBRK) (Hown : owns (ram (k_machine k)) (k_heap k) lv)
  (Hpl : frame_placed lv esp) (Hvm : vmm_inv (ram (k_machine k)) p v) (Hoff : off_heap (ram (k_machine k)) p v)
  (Hfr : esp + 64 <= HEAP_START \/ HEAP_END <= esp -> off_range esp (esp + 64) (ram (k_machine k)) p v) :
  let inc := f_ebx (frame_of k esp) in
  let res := int80 polls waits s k esp in
  (inc = 0 -> returns k esp (-1) (EvOther esp) res) /\
  (0 < inc < 2 ^ 32 - 7 ->
   returns k esp (-1) (EvOther esp) res \/
   exists ptr sz lv' esp' k', res = Some (esp', k') /\
     (esp', k_sched k', k_gdt k') = interrupt (k_sched k) (k_gdt k) (EvOther esp) /\
     frame_of k' esp = with_eax (frame_of k esp) ptr /\
     owns (ram (k_machine k')) (k_heap k') lv' /\
     (forall p n, In (p, n) lv' <-> In (p, n) lv \/ (p, n) = (ptr, sz)) /\
     ptr mod 8 = 0 /\ inc <= sz /\ HEAP_START < ptr /\ ptr + sz <= HEAP_END /\ apart lv ptr sz /\
     (forall a, (a < HEAP_START \/ HEAP_END <= a \/ exists p n, In (p, n) lv /\ p <= a < p + n) ->
        ~ (esp + 32 <= a < esp + 36) ->
        load8 (ram (k_machine k')) a = load8 (ram (k_machine k)) a)) /\
  (inc < 2 ^ 32 - 7 -> forall esp' k', res = Some (esp', k') -> forall pg, 0 <= pg < 2 ^ 20 ->
     translation (ram (k_machine k')) v pg = translation (ram (k_machine k)) v pg).
Proof.
  intros inc res.
  assert (Hcall : forall r k1, sys_sbrk k esp = Some (r, k1) -> returns k1 esp r (EvOther esp) res).
  { intros r k1. apply int80_call; [done|done|by rewrite Hn|by rewrite Hn]. }
  unfold sys_sbrk in Hcall. fold inc in Hcall. change (@kmalloc) with (@kmalloc_op heap _) in Hcall.
  assert (Hself : with_k_heap (with_k_machine k (k_machine k)) (k_heap k) = k) by (by destruct k).
  assert (Hinc0 : 0 <= inc) by apply load32_range.
  (* the paging of a state whose heap alone changed, and then the frame's EAX *)
  assert (Hpg : forall k1 r lv1, returns k1 esp r (EvOther esp) res ->
    owns (ram (k_machine k1)) (k_heap k1) lv1 -> frame_placed lv1 esp ->
    same_outside HEAP_START HEAP_END (ram (k_machine k)) (ram (k_machine k1)) ->
    forall esp' k', res = Some (esp', k') -> forall pg, 0 <= pg < 2 ^ 20 ->
     translation (ram (k_machine k')) v pg = translation (ram (k_machine k)) v pg).
  { intros k1 r lv1 (e2 & k2 & E & _ & _ & Hso & _) Hown1 Hpl1 Ho1 esp' k' E' pg Hpg.
    rewrite E in E'. injection E' as <- <-.
    destruct (vmm_inv_outside _ _ _ _ p v Hvm Hoff Ho1) as (V1 & R1 & W1).
    destruct (frame_paging lv1 _ (ram (k_machine k2)) (k_heap k1) p v esp Hown1 Hpl1 (R1 _ _ Hoff)) as [V2 W2]; try done.
    { intros Hout. by apply R1, Hfr. }
    rewrite (translation_walk _ p v pg V2 Hpg), W2, W1 by done. by rewrite (translation_walk _ p v pg Hvm Hpg). }
  assert (Hsame : returns k esp (-1) (EvOther esp) res -> forall esp' k', res = Some (esp', k') -> forall pg, 0 <= pg < 2 ^ 20 ->
     translation (ram (k_machine k')) v pg = translation (ram (k_machine k)) v pg).
  { intros Hr. by apply (Hpg k (-1) lv Hr). }
  split; [|apply and_comm; split].
  { intros H0. rewrite H0, kmalloc_zero in Hcall. cbn [mbind option_bind] in Hcall.
    rewrite Hself in Hcall. by apply Hcall. }
  - intros Hinc. destruct (Z.eq_dec inc 0) as [H0|Hnz].
    { apply Hsame. rewrite H0, kmalloc_zero in Hcall. cbn [mbind option_bind] in Hcall.
      rewrite Hself in Hcall. by apply Hcall. }
    destruct (kmalloc_law (k_machine k) (k_heap k) lv inc Hown ltac:(lia) ltac:(lia)) as
      [E|(ptr & sz & lv' & w' & h' & E & Ho' & Hc & H8 & Hs & Hsz & He & Hap & Hk & Hso & Hiff)];
      rewrite E in Hcall; cbn [mbind option_bind] in Hcall.
    { apply Hsame. rewrite Hself in Hcall. by apply Hcall. }
    apply (Hpg _ _ lv' (Hcall _ _ eq_refl)); [done| |done].
    destruct Hpl as [(a & n & Hin & Hb)|Hout]; [left; exists a, n|by right]. split; [|done]. apply Hiff. by left.
  - intros Hinc. destruct (kmalloc_law (k_machine k) (k_heap k) lv inc Hown ltac:(lia) ltac:(lia)) as
      [E|(ptr & sz & lv' & w' & h' & E & Ho' & Hc & H8 & Hs & Hsz & He & Hap & Hk & Hso & Hiff)];
      rewrite E in Hcall; cbn [mbind option_bind] in Hcall.
    { left. rewrite Hself in Hcall. by apply Hcall. }
    right. assert (Hp : 0 < ptr < 2 ^ 32) by (unfold HEAP_END, HEAP_INITIAL, HEAP_START in *; lia).
    destruct (Z.eqb_spec ptr 0) as [|_]; [lia|]. cbn [negb] in Hcall.
    destruct (Hcall _ _ eq_refl) as (esp' & k' & Er & Ei & Ef & Hso' & _ & _ & _ & _ & Eh).
    cbn [k_machine k_heap k_sched k_gdt with_k_heap with_k_machine] in *.
    exists ptr, sz, lv', esp', k'. split; [done|]. split; [done|]. split.
    { rewrite Ef, u32_s32, u32_small by lia. f_equal. by apply (frame_kept lv). }
    assert (Hpl' : frame_placed lv' esp).
    { destruct Hpl as [(a & n & Hin & Hb)|Hout]; [left; exists a, n|by right]. split; [|done]. apply Hiff. by left. }
    split; [rewrite Eh; by apply (owns_eax lv' (ram w') _ h' esp)|]. do 6 (split; [done|]).
    intros a Ha Hne. rewrite Hso' by done. destruct Ha as [Ha|[Ha|(q & n & Hin & Ha)]].
    + apply Hso. lia.
    + apply Hso. lia.
    + by apply (Hk q n).
Qed.

(** ** Exit *)

(** The dispatcher's table when all handlers are registered. *)
Definition all_handlers (polls : nat) (waits : list (kernel -> kernel)) (w : machine) (s : idt_state) : idt_state :=
  (syscall_init polls waits w (register_irqs s)).2.

Lemma all_handlers_lookup polls waits w s n :
  n <> 128 -> 0 <= n -> interrupt_handlers (all_handlers polls waits w s) !! Z.to_nat n =
    interrupt_handlers (register_irqs s) !! Z.to_nat n.
Proof. intros Hn H0. apply list_lookup_insert_ne. lia. Qed.

(** C18: with every handler registered at boot, the system calls' included,
    [isr_handler] on a vector that is neither an exception nor a system call
    returns, and does to the scheduler and the TSS exactly what [Task.interrupt]
    says for that vector: so the theorems on runs of interrupts hold of the
    dispatcher.  It leaves memory and the console alone; every hardware
    interrupt is acknowledged exactly once, to the controllers it came through, and
    no other vector is; a timer interrupt advances the clock by one tick.
    Vector 128 runs the system call and then the scheduler on the state it left, and
    does not return when the call does not.  An exception halts. *)
Theorem isr_handler_dispatch polls waits w s k esp
  (Hs : forall i, 0 <= i < IDT_ENTRIES -> interrupt_handlers s !! Z.to_nat i = Some None)
  (Hl : length (interrupt_handlers s) = Z.to_nat IDT_ENTRIES)
  (Hint : f_int_no (frame_of k esp) < IDT_ENTRIES) :
  let n := f_int_no (frame_of k esp) in
  let res := isr_handler (all_handlers polls waits w s) k esp in
  if n <? 32 then res = None
  else if n =? 128 then
    match syscall_outcome polls waits k esp with
    | Some (Returns r k1) => returns k1 esp r (EvOther esp) res
    | Some (Exits _) | None => res = None
    end
  else exists esp' k', res = Some (esp', k') /\
    (esp', k_sched k', k_gdt k') = interrupt (k_sched k) (k_gdt k) (event_of n esp) /\
    eois (io_log (k_io k')) = eois (io_log (k_io k)) ++ eoi_spec n /\
    k_ticks k' = (if n =? 32 then u64 (k_ticks k + 1) else k_ticks k) /\ k_machine k' = k_machine k.
Proof.
  intros n res. assert (H0 : 0 <= n) by apply load32_range.
  destruct (Z.eqb_spec n 128) as [E|E].
  - rewrite E. cbn [Z.ltb Z.compare Pos.compare Pos.compare_cont].
    assert (Er : res = int80 polls waits (register_irqs s) k esp) by done.
    pose proof (int80_handler polls waits (register_irqs s) k esp ltac:(by rewrite register_irqs_length) E) as Hh.
    rewrite <- Er in Hh. unfold syscall_handler in Hh.
    destruct (syscall_outcome polls waits k esp) as [[r k1|k1]|]; [|done|done]. by apply returns_intro.
  - assert (Er : res = isr_handler (register_irqs s) k esp).
    { unfold res, isr_handler. fold (frame_of k esp). fold n. by rewrite all_handlers_lookup. }
    rewrite Er. exact (irq_dispatch s k esp Hs Hl Hint).
Qed.

(** C21: [sys_exit] does not return.  It logs, marks the caller as terminated and
    executes INT 0x81 in that state; that interrupt (with its frame pushed at
    [esp2]) is the exit event of the scheduler: if another task is ready it gets the
    processor, and whatever interrupts follow, the task that exited never runs
    again. *)
Theorem syscall_exit_correct polls waits s k esp w2 esp2 j
  (Hs : forall i, 0 <= i < IDT_ENTRIES -> interrupt_handlers s !! Z.to_nat i = Some None)
  (Hl : length (interrupt_handlers s) = Z.to_nat IDT_ENTRIES) (Hv : f_int_no (frame_of k esp) = 128)
  (Hn : f_eax (frame_of k esp) = SYS_EXIT) (Hinv : sched_inv (k_sched k))
  (Hon : scheduler_ready (k_sched k) = true) (Hj : 0 <= j < count (k_sched k)) (Hne : j <> current (k_sched k))
  (Hready : t_state (get_task (k_sched k) j) = TASK_READY)
  (Hv2 : f_int_no (frame_at (ram w2) esp2) = 129) :
  let table := all_handlers polls waits (k_machine k) s in
  isr_handler table k esp = None /\
  exists k1, syscall_outcome polls waits k esp = Some (Exits k1) /\
    k_machine k1 = emit (k_machine k) [Klog "syscall: exit"] /\
    exists esp' k', isr_handler table (with_k_machine k1 w2) esp2 = Some (esp', k') /\
      (esp', k_sched k', k_gdt k') = interrupt (k_sched k) (k_gdt k) (EvExit esp2) /\
      forall es, let '(_, sc, _) := run (k_sched k') (k_gdt k') es in gone sc (current (k_sched k)).
Proof.
  intros table.
  assert (Ho : syscall_outcome polls waits k esp = Some (Exits (sys_exit_yields k))).
  { unfold syscall_outcome. by rewrite Hn. }
  split.
  { change (int80 polls waits (register_irqs s) k esp = None). rewrite int80_handler; [|by rewrite register_irqs_length|done].
    unfold syscall_handler. by rewrite Ho. }
  exists (sys_exit_yields k). split; [done|]. split; [done|].
  unfold isr_handler. cbn [k_machine with_k_machine]. rewrite Hv2.
  unfold table. rewrite all_handlers_lookup by lia. rewrite register_irqs_lookup by (done || unfold IDT_ENTRIES; lia).
  cbn [Z.eqb Pos.eqb]. unfold yield_isr. cbn [mbind option_bind].
  pose proof (exit_gone (k_sched k) (k_gdt k) esp2 j Hinv Hon Hj Hne Hready) as Hg. cbn [interrupt] in Hg.
  cbn [k_sched k_gdt with_k_sched with_k_machine sys_exit_yields interrupt].
  destruct (task_schedule_if_needed _ _ _) as [[esp' sc] g] eqn:E. destruct Hg as (Hi' & Hon' & Hg).
  eexists _, _. split; [done|]. split; [done|]. intros es. cbn [k_sched k_gdt with_k_sched].
  apply run_gone; done.
Qed.

(** ** Instances *)

(** A frame of vector [v] at 4096 with the registers given, and a text at 8192. *)
Definition demo_ram (v eax ebx ecx edx : Z) (m : memory) : memory :=
  store_bytes (store32 (store32 (store32 (store32 (store32 m (4096 + 36) v) (4096 + 32) eax) (4096 + 20) ebx)
    (4096 + 28) ecx) (4096 + 24) edx) 8192 [111; 107].
Definition demo_call (eax ebx ecx edx : Z) : kernel :=
  Kernel (Machine (demo_ram 128 eax ebx ecx edx (ram demo_heap.1)) []) (Io [] []) 7
    (keyboard_irq_handler demo_kbd) demo_sched3 gdt_boot demo_heap.2.

Lemma demo_handlers i : 0 <= i < IDT_ENTRIES -> interrupt_handlers demo_idt !! Z.to_nat i = Some None.
Proof.
  intros Hi. unfold demo_idt, idt_init. cbn [snd interrupt_handlers idt_set_gate set_idt].
  rewrite set_gates_handlers. apply lookup_replicate_2. unfold IDT_ENTRIES in *. lia.
Qed.

Lemma isr_handler_dispatch_witness :
  (exists esp' k', isr_handler (all_handlers 0 [] (Machine ∅ []) demo_idt) demo_kernel 4096 = Some (esp', k') /\ k_ticks k' = 1) /\
  exists esp' k', isr_handler (all_handlers 0 [] (Machine ∅ []) demo_idt) (demo_call 4 0 0 0) 4096 = Some (esp', k') /\
    f_eax (frame_of k' 4096) = 7.
Proof.
  split.
  - destruct (isr_handler_dispatch 0 [] (Machine ∅ []) demo_idt demo_kernel 4096 demo_handlers eq_refl
      ltac:(vm_compute; reflexivity)) as (esp' & k' & E & _ & _ & Et & _).
    exists esp', k'. split; [exact E|]. rewrite Et. vm_compute. reflexivity.
  - assert (En : f_int_no (frame_of (demo_call 4 0 0 0) 4096) = 128) by (vm_compute; reflexivity).
    assert (Eo : syscall_outcome 0 [] (demo_call 4 0 0 0) 4096 = Some (Returns 7 (demo_call 4 0 0 0))) by (vm_compute; reflexivity).
    pose proof (isr_handler_dispatch 0 [] (Machine ∅ []) demo_idt (demo_call 4 0 0 0) 4096 demo_handlers eq_refl) as R.
    rewrite En, Eo in R. destruct (R eq_refl) as (esp' & k' & E & _ & Ef & _).
    exists esp', k'. split; [exact E|]. rewrite Ef. reflexivity.
Defined.

Lemma syscall_write_correct_witness :
  exists esp' k', int80 0 [] demo_idt (demo_call 1 1 8192 2) 4096 = Some (esp', k') /\
    con (k_machine k') = [VgaPutchar 111; VgaPutchar 107] /\ f_eax (frame_of k' 4096) = 2.
Proof.
  pose proof (syscall_write_correct 0 [] demo_idt (demo_call 1 1 8192 2) 4096 eq_refl
    ltac:(vm_compute; reflexivity) ltac:(vm_compute; reflexivity)) as R.
  cbv zeta in R.
  replace (f_ecx (frame_of (demo_call 1 1 8192 2) 4096)) with 8192 in R by (vm_compute; reflexivity).
  replace (f_edx (frame_of (demo_call 1 1 8192 2) 4096)) with 2 in R by (vm_compute; reflexivity).
  replace (f_ebx (frame_of (demo_call 1 1 8192 2) 4096)) with 1 in R by (vm_compute; reflexivity).
  destruct (R ltac:(lia)) as (esp' & k' & E & _ & Ef & _ & Ec & _).
  exists esp', k'. split; [exact E|]. split.
  - rewrite Ec. vm_compute. reflexivity.
  - rewrite Ef. reflexivity.
Defined.

Lemma syscall_read_correct_witness :
  exists esp' k', int80 0 [] demo_idt (demo_call 2 0 9000 1) 4096 = Some (esp', k') /\
    f_eax (frame_of k' 4096) = 1 /\ load8 (ram (k_machine k')) 9000 = 97.
Proof.
  pose proof (syscall_read_correct 0 [] demo_idt (demo_call 2 0 9000 1) 4096 (demo_call 2 0 9000 1) 97 [] eq_refl
    ltac:(vm_compute; reflexivity) ltac:(vm_compute; reflexivity)
    (fi_here [] (demo_call 2 0 9000 1) ltac:(vm_compute; reflexivity))) as R.
  cbv zeta in R.
  replace (f_ecx (frame_of (demo_call 2 0 9000 1) 4096)) with 9000 in R by (vm_compute; reflexivity).
  replace (f_edx (frame_of (demo_call 2 0 9000 1) 4096)) with 1 in R by (vm_compute; reflexivity).
  replace (f_ebx (frame_of (demo_call 2 0 9000 1) 4096)) with 0 in R by (vm_compute; reflexivity).
  destruct R as (b & _ & _ & esp' & k' & E & _ & Ef & Hso & _).
  - split; [vm_compute; reflexivity|split; vm_compute; [discriminate|reflexivity]..].
  - vm_compute. reflexivity.
  - lia.
  - exists esp', k'. split; [exact E|]. split; [rewrite Ef; reflexivity|].
    rewrite Hso by lia. vm_compute. reflexivity.
Defined.

Lemma syscall_query_correct_witness :
  exists esp' k', int80 0 [] demo_idt (demo_call 4 0 0 0) 4096 = Some (esp', k') /\ f_eax (frame_of k' 4096) = 7.
Proof.
  destruct (syscall_query_correct 0 [] demo_idt (demo_call 4 0 0 0) 4096 eq_refl ltac:(vm_compute; reflexivity))
    as (_ & R & _). destruct R as (esp' & k' & E & _ & Ef & _); [vm_compute; reflexivity|].
  exists esp', k'. split; [exact E|]. rewrite Ef. reflexivity.
Defined.

Lemma demo_call_owns eax ebx ecx edx :
  owns (ram (k_machine (demo_call eax ebx ecx edx))) (k_heap (demo_call eax ebx ecx edx)) [(2097168, 104)].
Proof.
  apply (owns_outside (ram demo_heap.1)).
  - exists [(104, false); (1048440, true)]. split; [exact demo_heap_inv|reflexivity].
  - intros x Hx. unfold HEAP_START in Hx. cbn [k_machine demo_call ram]. unfold demo_ram.
    cbn [store_bytes]. rewrite !load8_store8_ne by lia. unfold store32. rewrite !store_le_outside by lia. done.
Qed.

(** The same on the machine of the paging witnesses, with an empty heap. *)
Definition demo_sbrk_call : kernel :=
  Kernel (Machine (demo_ram 128 5 100 0 0 (ram demo_boot.1)) []) (Io [] []) 7
    (keyboard_irq_handler demo_kbd) demo_sched3 gdt_boot demo_boot.2.

Lemma demo_sbrk_outside : same_outside 4096 8194 (ram demo_boot.1) (ram (k_machine demo_sbrk_call)).
Proof.
  intros x Hx. cbn [k_machine demo_sbrk_call ram]. unfold demo_ram.
  cbn [store_bytes]. rewrite !load8_store8_ne by lia. unfold store32. rewrite !store_le_outside by lia. done.
Qed.

Lemma demo_sbrk_paging :
  owns (ram (k_machine demo_sbrk_call)) (k_heap demo_sbrk_call) [] /\
  vmm_inv (ram (k_machine demo_sbrk_call)) demo_vmm_pmm demo_vmm /\
  off_heap (ram (k_machine demo_sbrk_call)) demo_vmm_pmm demo_vmm /\
  off_range 4096 (4096 + 64) (ram (k_machine demo_sbrk_call)) demo_vmm_pmm demo_vmm.
Proof.
  destruct demo_boot_paging as (Hv & Ho & Hnp & _). pose proof demo_sbrk_outside as Hso.
  assert (Hr : forall lo hi, hi <= 0x100000 -> off_range lo hi (ram demo_boot.1) demo_vmm_pmm demo_vmm).
  { intros lo hi Hhi. split; cbn [page_directory frame_bitmap demo_vmm demo_vmm_pmm]; [lia|lia|].
    intros i Hi Hp. by rewrite Hnp in Hp. }
  destruct (vmm_inv_outside _ _ _ _ _ _ Hv (Hr 4096 8194 ltac:(lia)) Hso) as (V1 & V2 & _).
  split; [|split; [done|split; [by apply V2|apply V2, Hr; lia]]].
  apply (owns_outside (ram demo_boot.1)).
  - exists [(HEAP_INITIAL - sizeof_block, true)]. split; [apply heap_init_inv|done].
  - intros x Hx. apply Hso. unfold HEAP_START in *. lia.
Qed.

Lemma syscall_sbrk_correct_witness :
  exists esp' k', int80 0 [] demo_idt demo_sbrk_call 4096 = Some (esp', k') /\
    (f_eax (frame_of k' 4096) = 2 ^ 32 - 1 \/ HEAP_START < f_eax (frame_of k' 4096) < HEAP_END) /\
    translation (ram (k_machine k')) demo_vmm 512 = translation (ram (k_machine demo_sbrk_call)) demo_vmm 512.
Proof.
  destruct demo_sbrk_paging as (Hown & Hv & Ho & Hf).
  assert (E128 : f_int_no (frame_of demo_sbrk_call 4096) = 128) by (vm_compute; reflexivity).
  assert (E5 : f_eax (frame_of demo_sbrk_call 4096) = SYS_SBRK) by (vm_compute; reflexivity).
  assert (Ei : f_ebx (frame_of demo_sbrk_call 4096) = 100) by (vm_compute; reflexivity).
  destruct (syscall_sbrk_correct 0 [] demo_idt demo_sbrk_call 4096 [] demo_vmm_pmm demo_vmm eq_refl E128 E5 Hown
    ltac:(right; left; unfold HEAP_START; lia) Hv Ho (fun _ => Hf)) as (_ & R & T).
  rewrite Ei in R, T. specialize (T ltac:(lia)).
  destruct R as [(esp' & k' & E & _ & Ef & _)|(ptr & sz & lv' & esp' & k' & E & _ & Ef & _ & _ & _ & Hsz & Hp & He & _)].
  - lia.
  - exists esp', k'. split; [exact E|]. split; [left; rewrite Ef; reflexivity|]. exact (T esp' k' E 512 ltac:(lia)).
  - exists esp', k'. split; [exact E|]. split; [right; rewrite Ef; cbn [f_eax with_eax]; lia|]. exact (T esp' k' E 512 ltac:(lia)).
Defined.

Lemma syscall_exit_correct_witness :
  isr_handler (all_handlers 0 [] (k_machine (demo_call 0 0 0 0)) demo_idt) (demo_call 0 0 0 0) 4096 = None.
Proof.
  apply (syscall_exit_correct 0 [] demo_idt (demo_call 0 0 0 0) 4096
    (Machine (demo_ram 129 0 0 0 0 ∅) []) 4096 1 demo_handlers eq_refl).
  - vm_compute. reflexivity.
  - vm_compute. reflexivity.
  - exact demo_sched3_inv.
  - reflexivity.
  - split; [lia|reflexivity].
  - discriminate.
  - reflexivity.
  - vm_compute. reflexivity.
Defined.
