(* ===== verification/Trap.v ===== *)
(** * [kernel/arch/x86_64/isr.asm]: entering and leaving an interrupt

    The stubs of isr.asm stand between the processor and [isr_handler].  On an
    interrupt the processor pushes the return address (and, when it comes from ring
    3, switches to the stack of the TSS and pushes the old stack pointer first); the
    stub of the vector pushes an error code and the vector, [isr_common_stub] the
    general registers and DS, and passes the address of all this, an
    [interrupt_frame_t], to [isr_handler].  Whatever stack pointer the handler
    returns, the registers are popped from there: this is the context switch.

    [cpu] is what a task sees of the processor.  [isr_entry] and [isr_exit] are the
    two halves of the stub, [context_step] is a system of tasks that run code of
    their own and are interrupted.  Code of ring 0 is assumed to run on a stack of its
    own task; where the frame of an interrupt in ring 3 lands is not assumed but
    follows from what the scheduler puts into the TSS ([tss_inv]).  A task that is
    switched away from and later gets the processor back finds every register as it
    was ([context_switch_correct]). *)
From stdpp Require Import base numbers list gmap strings relations.
From Stdlib Require Import ZArith Lia.
From S2P Require Import Prelude.
From S2P Require Import Machine.
From S2P Require Import Io.
From S2P Require Import Keyboard.
From S2P Require Import Heap.
From S2P Require Import Gdt.
From S2P Require Import Task.
From S2P Require Import Timer.
From S2P Require Import Idt.
From S2P Require Import Syscall.

(** ** The processor *)

Record cpu := Cpu {
  c_eax : Z; c_ebx : Z; c_ecx : Z; c_edx : Z; c_esi : Z; c_edi : Z; c_ebp : Z; c_esp : Z;
  c_eip : Z; c_eflags : Z; c_cs : Z; c_ss : Z; c_ds : Z; c_es : Z; c_fs : Z; c_gs : Z;
}.

Definition user_mode (c : cpu) : bool := rpl (c_cs c) =? 3.

(** What the registers of a task are: general registers of 32 bits, selectors of
    16, one data segment for all of DS, ES, FS and GS (the stub saves DS only), and
    the kernel's stack segment in ring 0. *)
Record cpu_ok (c : cpu) : Prop := {
  ok_regs : Forall (fun x => 0 <= x < 2 ^ 32)
    [c_eax c; c_ebx c; c_ecx c; c_edx c; c_esi c; c_edi c; c_ebp c; c_esp c; c_eip c; c_eflags c];
  ok_segs : Forall (fun x => 0 <= x < 2 ^ 16) [c_cs c; c_ss c; c_ds c];
  ok_data : c_es c = c_ds c /\ c_fs c = c_ds c /\ c_gs c = c_ds c;
  ok_ring : user_mode c = false -> c_ss c = GDT_KERNEL_DATA_SEL;
}.

(** ** The stubs *)

(** The vectors of [ISR_ERRCODE], for which the processor pushes an error code. *)
Definition has_error_code (v : Z) : bool := existsb (Z.eqb v) [8; 10; 11; 12; 13; 14; 17; 30].

(** What the processor pushes, up to the error code. *)
Definition hardware_words (c : cpu) : list Z :=
  (if user_mode c then [c_ss c; c_esp c] else []) ++ [c_eflags c; c_cs c; c_eip c].

(** The error code and the vector. *)
Definition vector_words (v err : Z) : list Z := [if has_error_code v then err else 0; v].

(** [pusha], with the stack pointer [sp] before it, then [mov ax, ds; push eax]:
    the high half of EAX is pushed along with DS. *)
Definition common_words (c : cpu) (sp : Z) : list Z :=
  [c_eax c; c_ecx c; c_edx c; c_ebx c; sp; c_ebp c; c_esi c; c_edi c; Z.lor (Z.land (c_eax c) 0xFFFF0000) (c_ds c)].

(** Where the frame is pushed: [top] is ESP0 of the TSS. *)
Definition entry_stack (top : Z) (c : cpu) : Z := if user_mode c then top else c_esp c.

Definition isr_entry (m : memory) (top v err : Z) (c : cpu) : memory * Z :=
  let '(m1, sp1) := push_all m (entry_stack top c) (hardware_words c) in
  let '(m2, sp2) := push_all m1 sp1 (vector_words v err) in
  push_all m2 sp2 (common_words c sp2).

(** [pop eax; mov ds, ax; ...; popa; add esp, 8; iret]: [popa] skips the stack
    pointer, and [iret] pops one only when it returns to ring 3. *)
Definition isr_exit (m : memory) (sp : Z) : cpu :=
  let f := frame_at m sp in
  let ds := Z.land (f_ds f) 0xFFFF in
  let cs := Z.land (f_cs f) 0xFFFF in
  {| c_eax := f_eax f; c_ebx := f_ebx f; c_ecx := f_ecx f; c_edx := f_edx f; c_esi := f_esi f; c_edi := f_edi f;
     c_ebp := f_ebp f; c_esp := if rpl cs =? 3 then f_useresp f else sp + 56;
     c_eip := f_eip f; c_eflags := f_eflags f; c_cs := cs;
     c_ss := if rpl cs =? 3 then Z.land (f_ss f) 0xFFFF else GDT_KERNEL_DATA_SEL;
     c_ds := ds; c_es := ds; c_fs := ds; c_gs := ds |}.

Definition frame_size (c : cpu) : Z := if user_mode c then 64 else 56.

(** ** The frame that [isr_handler] sees *)

Lemma push_all_app vs ws m sp :
  push_all m sp (vs ++ ws) = let '(m1, sp1) := push_all m sp vs in push_all m1 sp1 ws.
Proof. revert m sp. induction vs as [|v vs IH]; intros m sp; cbn [app push_all]; [done|]. apply IH. Qed.

Definition entry_words (top v err : Z) (c : cpu) : list Z :=
  hardware_words c ++ vector_words v err ++ common_words c (entry_stack top c - frame_size c + 36).

Lemma push_all_sp vs m sp : (push_all m sp vs).2 = sp - 4 * Z.of_nat (length vs).
Proof. revert m sp. induction vs as [|v vs IH]; intros m sp; cbn [push_all length snd]; [lia|]. rewrite IH. lia. Qed.

Lemma isr_entry_words m top v err c :
  isr_entry m top v err c = push_all m (entry_stack top c) (entry_words top v err c).
Proof.
  unfold isr_entry, entry_words. rewrite push_all_app.
  destruct (push_all m (entry_stack top c) (hardware_words c)) as [m1 sp1] eqn:E1. rewrite push_all_app.
  destruct (push_all m1 sp1 (vector_words v err)) as [m2 sp2] eqn:E2. do 2 f_equal.
  apply (f_equal snd) in E1, E2. rewrite push_all_sp in E1, E2. cbn [snd] in E1, E2. subst.
  unfold hardware_words, vector_words, frame_size. destruct (user_mode c); cbn; lia.
Qed.

Lemma push_all_up vs m sp :
  Forall (fun v => 0 <= v < 2 ^ 32) vs ->
  let '(m', sp') := push_all m sp vs in
  sp' = sp - 4 * Z.of_nat (length vs) /\ same_outside sp' sp m m' /\
  (forall j x a, rev vs !! j = Some x -> a = sp' + 4 * Z.of_nat j -> load32 m' a = x).
Proof.
  intros Hvs. pose proof (push_all_ok vs m sp Hvs) as Hp. destruct (push_all m sp vs) as [m' sp'].
  destruct Hp as (Esp & Ho & Hk). split; [done|]. split; [done|]. intros j x a Hj ->.
  pose proof (lookup_lt_Some _ _ _ Hj) as Hlt. rewrite length_rev in Hlt.
  rewrite rev_alt in Hj. change (reverse vs !! j = Some x) in Hj. rewrite reverse_lookup in Hj by done.
  rewrite <- (Hk _ x Hj). f_equal. lia.
Qed.

(** The low half of a word. *)
Lemma low_half x : 0 <= x < 2 ^ 16 -> Z.land x 0xFFFF = x.
Proof. intros Hx. change 0xFFFF with (Z.ones 16). rewrite Z.land_ones, Z.mod_small by lia. done. Qed.

Lemma low_half_ds e d : 0 <= d < 2 ^ 16 -> Z.land (Z.lor (Z.land e 0xFFFF0000) d) 0xFFFF = d.
Proof.
  intros Hd. rewrite Z.land_lor_distr_l, <- Z.land_assoc. change (Z.land 0xFFFF0000 0xFFFF) with 0.
  rewrite Z.land_0_r, Z.lor_0_l. by apply low_half.
Qed.

(** The members of the lists of a [Forall], one hypothesis each. *)
Ltac split_all :=
  repeat match goal with
  | H : Forall _ (_ :: _) |- _ => apply Forall_cons_iff in H as [? H]
  end; cbv beta in *.

Section entry.
Context (m : memory) (top v err : Z) (c : cpu).
Context (Hc : cpu_ok c) (Hv : 0 <= v < 256) (Herr : 0 <= err < 2 ^ 32).
Let base := entry_stack top c.
Context (Hbase : frame_size c <= base < 2 ^ 32).

Lemma entry_words_range : Forall (fun x => 0 <= x < 2 ^ 32) (entry_words top v err c).
Proof using Hc Hv Herr Hbase.
  destruct Hc as [Hr Hs _ _]. split_all.
  assert (Hds : 0 <= Z.lor (Z.land (c_eax c) 0xFFFF0000) (c_ds c) < 2 ^ 32).
  { apply lor_range; [done|by apply land_range|lia]. }
  unfold entry_words, hardware_words, vector_words, common_words. rewrite !Forall_app.
  unfold base, frame_size in *.
  destruct (has_error_code v), (user_mode c); repeat split; repeat (constructor; [lia|]); constructor.
Qed.

(** The words on the stack, from the frame's lowest address up. *)
Lemma entry_words_up :
  rev (entry_words top v err c) =
    [Z.lor (Z.land (c_eax c) 0xFFFF0000) (c_ds c); c_edi c; c_esi c; c_ebp c; base - frame_size c + 36; c_ebx c; c_edx c;
     c_ecx c; c_eax c; v; if has_error_code v then err else 0; c_eip c; c_cs c; c_eflags c] ++
    (if user_mode c then [c_esp c; c_ss c] else []).
Proof using. unfold entry_words, hardware_words. by destruct (user_mode c). Qed.

(** The frame holds the registers of the interrupted code, and nothing else in
    memory has changed. *)
Lemma isr_entry_frame :
  let '(m', sp) := isr_entry m top v err c in
  let f := frame_at m' sp in
  sp = base - frame_size c /\ same_outside sp base m m' /\
  f_int_no f = v /\ f_err_code f = (if has_error_code v then err else 0) /\ isr_exit m' sp = c /\
  f_eax f = c_eax c /\ f_ebx f = c_ebx c /\ f_ecx f = c_ecx c /\ f_edx f = c_edx c.
Proof using Hc Hv Herr Hbase.
  rewrite isr_entry_words. pose proof (push_all_up _ m base entry_words_range) as Hp.
  fold base. destruct (push_all m base (entry_words top v err c)) as [m' sp]. destruct Hp as (Esp & Ho & Hk). cbv zeta.
  assert (Hsp : sp = base - frame_size c).
  { rewrite Esp. unfold entry_words, hardware_words, frame_size. destruct (user_mode c); cbn; lia. }
  split; [done|]. split; [done|]. clear Esp Ho. destruct Hc as [Hr Hs (D1 & D2 & D3) Hring]. clear Hr. split_all.
  rewrite entry_words_up in Hk. unfold isr_exit, frame_at.
  cbn [f_ds f_edi f_esi f_ebp f_esp f_ebx f_edx f_ecx f_eax f_int_no f_err_code f_eip f_cs f_eflags f_useresp f_ss].
  rewrite (Hk 0%nat _ sp eq_refl ltac:(lia)), (Hk 1%nat _ (sp + 4) eq_refl ltac:(lia)), (Hk 2%nat _ (sp + 8) eq_refl ltac:(lia)),
    (Hk 3%nat _ (sp + 12) eq_refl ltac:(lia)), (Hk 5%nat _ (sp + 20) eq_refl ltac:(lia)), (Hk 6%nat _ (sp + 24) eq_refl ltac:(lia)),
    (Hk 7%nat _ (sp + 28) eq_refl ltac:(lia)), (Hk 8%nat _ (sp + 32) eq_refl ltac:(lia)), (Hk 9%nat _ (sp + 36) eq_refl ltac:(lia)),
    (Hk 10%nat _ (sp + 40) eq_refl ltac:(lia)), (Hk 11%nat _ (sp + 44) eq_refl ltac:(lia)), (Hk 12%nat _ (sp + 48) eq_refl ltac:(lia)),
    (Hk 13%nat _ (sp + 52) eq_refl ltac:(lia)).
  do 2 (split; [done|]). split; [|done]. rewrite low_half_ds, (low_half (c_cs c)) by done.
  unfold frame_size in Hsp. change (rpl (c_cs c) =? 3) with (user_mode c).
  destruct (user_mode c) eqn:Eu.
  - rewrite (Hk 14%nat _ (sp + 56) eq_refl ltac:(lia)), (Hk 15%nat _ (sp + 60) eq_refl ltac:(lia)), low_half by done.
    destruct c; cbn in *; congruence.
  - rewrite <- (Hring eq_refl). replace (sp + 56) with (c_esp c) by (unfold base, entry_stack in Hsp; rewrite Eu in Hsp; lia).
    destruct c; cbn in *; congruence.
Qed.
End entry.

(** ** What the dispatcher does to the scheduler *)

Lemma write_loop_sched polls n k fd p len r k1 :
  write_loop polls n k fd p len = Some (r, k1) -> k_sched k1 = k_sched k /\ k_gdt k1 = k_gdt k.
Proof.
  revert k p. induction n as [|n IH]; intros k p; cbn [write_loop]; [by intros [= _ <-]|].
  destruct (fd =? 1); [intros E; apply (IH _ _ E)|]. destruct (fd =? 2); [|by intros [= _ <-]].
  destruct (Serial.serial_putc _ _ _) as [o|]; [|done]. cbn [mbind option_bind]. intros E. apply (IH _ _ E).
Qed.

(** A reschedule may have been asked for; nothing else has changed. *)
Definition asked (s s1 : sched) : Prop := s1 = s \/ s1 = set_need s true.

Lemma syscall_handler_sched polls k esp k1 :
  syscall_handler polls [] k esp = Some k1 -> asked (k_sched k) (k_sched k1) /\ k_gdt k1 = k_gdt k.
Proof.
  unfold syscall_handler, syscall_outcome. destruct (_ >=? _); [intros [= <-]; by split; [left|]|].
  destruct (Z.to_nat _) as [|[|[|[|[|[|[|i]]]]]]]; cbn [lookup list_lookup syscall_table]; unfold returning.
  - done.
  - destruct (sys_write polls k esp) as [[r k2]|] eqn:E; [|done]. intros [= <-]. unfold sys_write in E.
    destruct (_ || _); [injection E as _ <-; by split; [left|]|]. apply write_loop_sched in E as [E1 E2].
    split; [by left|done].
  - destruct (sys_read [] k esp) as [[r k2]|] eqn:E; [|done]. intros [= <-]. unfold sys_read in E.
    destruct (_ || _); [injection E as _ <-; by split; [left|]|]. cbn [getchar] in E.
    destruct (keyboard_getchar [] (k_kbd k)) as [[c b]|]; [|done]. cbn [mbind option_bind] in E.
    destruct (c =? 0); injection E as _ <-; by split; [left|].
  - intros [= <-]. by split; [left|].
  - intros [= <-]. by split; [left|].
  - unfold sys_sbrk. destruct (kmalloc _ _ _) as [[[ptr w] h]|]; [|done]. cbn [mbind option_bind].
    intros [= <-]. by split; [left|].
  - intros [= <-]. by split; [right|].
  - intros [= <-]. by split; [left|].
Qed.

Section handlers.
Context (polls : nat) (w0 : machine) (s0 : idt_state).
Context (Hs0 : forall i, 0 <= i < IDT_ENTRIES -> interrupt_handlers s0 !! Z.to_nat i = Some None).
Context (Hl0 : length (interrupt_handlers s0) = Z.to_nat IDT_ENTRIES).
Abbreviation table := (all_handlers polls [] w0 s0).

(** A vector that is not an exception: its handler, which may ask for a reschedule
    and writes to memory only for a system call, and then the scheduler. *)
Lemma isr_handler_sched k sp esp' k' :
  let v := f_int_no (frame_of k sp) in
  v < IDT_ENTRIES -> isr_handler table k sp = Some (esp', k') ->
  exists s1, asked (k_sched k) s1 /\
    task_schedule_if_needed s1 (k_gdt k) sp = (esp', k_sched k', k_gdt k') /\
    (v <> 128 -> k_machine k' = k_machine k).
Proof using Hs0 Hl0.
  intros v Hv. assert (H0 : 0 <= v) by apply load32_range. unfold isr_handler. cbv zeta. change (f_int_no (frame_at (ram (k_machine k)) sp)) with v.
  assert (Hdone : forall k1, asked (k_sched k) (k_sched k1) -> k_gdt k1 = k_gdt k -> (v <> 128 -> k_machine k1 = k_machine k) ->
    (let '(e, sc, g) := task_schedule_if_needed (k_sched k1) (k_gdt k1) sp in Some (e, with_k_sched k1 sc g)) = Some (esp', k') ->
    exists s1, asked (k_sched k) s1 /\ task_schedule_if_needed s1 (k_gdt k) sp = (esp', k_sched k', k_gdt k') /\
      (v <> 128 -> k_machine k' = k_machine k)).
  { intros k1 Ha Eg Em. destruct (task_schedule_if_needed _ _ _) as [[e sc] g] eqn:E. intros [= <- <-].
    exists (k_sched k1). rewrite <- Eg. done. }
  destruct (Z.eq_dec v 128) as [E128|H128].
  { assert (El : interrupt_handlers table !! Z.to_nat v = Some (Some (syscall_handler polls []))).
    { rewrite E128. apply list_lookup_insert_eq. rewrite register_irqs_length, Hl0. unfold IDT_ENTRIES. lia. }
    match goal with |- context [match ?l with _ => _ end] => change l with (interrupt_handlers table !! Z.to_nat v) end.
    rewrite El.
    destruct (syscall_handler polls [] k sp) as [k1|] eqn:E; [|done]. apply syscall_handler_sched in E as [Ha Eg].
    cbn [mbind option_bind]. by apply (Hdone k1). }
  rewrite all_handlers_lookup, register_irqs_lookup by done.
  destruct (v =? 14); [done|].
  destruct (v =? 32); [apply (Hdone (Kernel (k_machine k) _ _ _ (task_request_reschedule (k_sched k)) _ _)); by try right|].
  destruct (v =? 33); [apply (Hdone (Kernel (k_machine k) _ _ _ (k_sched k) _ _)); by try left|].
  destruct (v =? 129); [apply (Hdone (with_k_sched k (yield_isr_handler (k_sched k)) (k_gdt k))); by try right|].
  destruct (v <? 32); [done|].
  destruct (_ && _); [apply (Hdone (with_k_io k _))|apply (Hdone k)]; by try left.
Qed.
End handlers.

Lemma asked_inv s s1 :
  asked s s1 -> sched_inv s -> scheduler_ready s = true ->
  sched_inv s1 /\ scheduler_ready s1 = true /\ current s1 = current s /\ count s1 = count s /\
  forall i, get_task s1 i = get_task s i.
Proof. intros [-> | ->] Hs Hr; [done|]. split; [by apply sched_inv_need|done]. Qed.

(** The scheduler does not touch the kernel stacks' tops. *)
Lemma put_kst s j t i :
  kernel_stack_top t = kernel_stack_top (get_task s j) ->
  kernel_stack_top (get_task (put_task s j t) i) = kernel_stack_top (get_task s i).
Proof.
  intros Ht. unfold get_task, put_task in *. cbn [tasks]. destruct (decide (Z.to_nat j = Z.to_nat i)) as [E|E].
  - rewrite E in Ht |- *. destruct (decide (Z.to_nat i < length (tasks s))%nat).
    + by rewrite list_lookup_total_insert_eq.
    + by rewrite list_insert_ge by lia.
  - by rewrite list_lookup_total_insert_ne.
Qed.

Lemma schedule_kst s g esp i :
  let '(_, s', _) := task_schedule_if_needed s g esp in
  kernel_stack_top (get_task s' i) = kernel_stack_top (get_task s i).
Proof.
  unfold task_schedule_if_needed. destruct (_ || _); [done|]. destruct (_ =? _); [done|].
  unfold switch_to. set (s0 := set_need s false). change (get_task s i) with (get_task s0 i). clearbody s0.
  rewrite put_kst by done. change (get_task (set_current ?x _) i) with (get_task x i).
  destruct (bool_decide _); rewrite ?put_kst by done; done.
Qed.

(** The stack pointer the scheduler returns, where those of the tasks are, and what
    the TSS holds. *)
Lemma schedule_esp s g esp :
  sched_inv s -> scheduler_ready s = true ->
  let '(esp', s', g') := task_schedule_if_needed s g esp in
  sched_inv s' /\ scheduler_ready s' = true /\ count s' = count s /\
  (forall i, 0 <= i < MAX_TASKS -> i <> current s -> t_esp (get_task s' i) = t_esp (get_task s i)) /\
  if current s' =? current s then esp' = esp /\ g' = g
  else esp' = t_esp (get_task s (current s')) /\ t_esp (get_task s' (current s)) = esp /\
    (kernel_stack_top (get_task s (current s')) <> 0 -> esp0 (tss g') = kernel_stack_top (get_task s (current s'))).
Proof.
  intros Hs Hr. destruct (need_reschedule s) eqn:Hn.
  2:{ unfold task_schedule_if_needed. rewrite Hn, orb_true_r, Z.eqb_refl. done. }
  destruct (schedule_cases s g esp Hs Hr Hn) as [(k & s' & g' & Hk & _ & _ & E & Hsw & Hg)|[_ E]]; rewrite E.
  - pose proof Hs as [_ Hc Hcur _ _ _]. pose proof (nth_after_current s k Hcur Hk) as Hne.
    destruct Hsw as (Hi & Ec & En & _ & Er & Eg & Ecur & _ & Ho). rewrite Ec.
    destruct (Z.eqb_spec (nth_after s k) (current s)); [done|].
    split; [done|]. split; [congruence|]. split; [done|]. split.
    2:{ split; [done|]. split; [done|]. intros Hk0. rewrite Hg. by destruct (Z.eqb_spec (kernel_stack_top (get_task s (nth_after s k))) 0). }
    intros i Hi' Hne'. destruct (Z.eq_dec i (nth_after s k)) as [->|Hd]; [by rewrite Eg|]. by rewrite Ho.
  - cbn [current set_need]. rewrite Z.eqb_refl. split; [by apply sched_inv_need|done].
Qed.

(** ** Tasks that are interrupted *)

(** The registers popped at [sp] depend on the frame only. *)
Lemma isr_exit_ext m m' sp c :
  isr_exit m sp = c -> same_inside sp (sp + frame_size c) m m' -> isr_exit m' sp = c.
Proof.
  intros E Hs. assert (Hw : forall a, sp <= a -> a + 4 <= sp + frame_size c -> load32 m' a = load32 m a).
  { intros a H1 H2. apply load32_ext. intros x Hx. apply Hs. lia. }
  assert (H56 : 56 <= frame_size c) by (unfold frame_size; destruct (user_mode c); lia).
  assert (Hu : user_mode c = (rpl (Z.land (load32 m (sp + 48)) 0xFFFF) =? 3)) by (by rewrite <- E).
  rewrite <- E. unfold isr_exit, frame_at.
  cbn [f_ds f_edi f_esi f_ebp f_esp f_ebx f_edx f_ecx f_eax f_int_no f_err_code f_eip f_cs f_eflags f_useresp f_ss].
  rewrite (Hw sp), (Hw (sp + 4)), (Hw (sp + 8)), (Hw (sp + 12)), (Hw (sp + 20)), (Hw (sp + 24)), (Hw (sp + 28)), (Hw (sp + 32)),
    (Hw (sp + 44)), (Hw (sp + 48)), (Hw (sp + 52)) by lia.
  rewrite <- Hu. unfold frame_size in Hw. destruct (user_mode c); [|done]. by rewrite (Hw (sp + 56)), (Hw (sp + 60)) by lia.
Qed.

Section switching.
Context (polls : nat) (w0 : machine) (s0 : idt_state).
Context (Hs0 : forall i, 0 <= i < IDT_ENTRIES -> interrupt_handlers s0 !! Z.to_nat i = Some None).
Context (Hl0 : length (interrupt_handlers s0) = Z.to_nat IDT_ENTRIES).
Abbreviation table := (all_handlers polls [] w0 s0).
(** The stacks of task [i], their addresses and sizes: the one its frames are pushed
    on and, for a task of ring 3, the one it runs on. *)
Context (stacks : Z -> list (Z * Z)).

Abbreviation running k := (current (k_sched k)).

(** The stacks of the tasks other than [i] have the same contents. *)
Definition stacks_kept (i : Z) (m m' : memory) : Prop :=
  forall j r, 0 <= j < MAX_TASKS -> j <> i -> In r (stacks j) -> same_inside r.1 (r.1 + r.2) m m'.

Definition on_stack (i a n : Z) : Prop := exists r, In r (stacks i) /\ r.1 <= a /\ a + n <= r.1 + r.2.

(** Those of task [i] do. *)
Definition stack_kept (i : Z) (m m' : memory) : Prop :=
  forall r, In r (stacks i) -> same_inside r.1 (r.1 + r.2) m m'.

(** The kernel, about to run [isr_handler] at [sp]. *)
Definition interrupted (k : kernel) (c : cpu) (v err : Z) : kernel * Z :=
  let '(m, sp) := isr_entry (ram (k_machine k)) (esp0 (tss (k_gdt k))) v err c in
  (with_k_machine k (set_ram (k_machine k) m), sp).

(** What the scheduler keeps up: the TSS holds the top of the running task's kernel
    stack, if it has one (the first task has none and stays in ring 0). *)
Definition tss_inv (k : kernel) : Prop :=
  let t := get_task (k_sched k) (running k) in
  kernel_stack_top t <> 0 -> esp0 (tss (k_gdt k)) = kernel_stack_top t.

(** The kernel stacks of the task table are the tasks' own. *)
Definition stacks_inv (s : sched) : Prop :=
  forall i, 0 <= i < count s -> kernel_stack_top (get_task s i) <> 0 ->
    64 <= kernel_stack_top (get_task s i) < 2 ^ 32 /\ on_stack i (kernel_stack_top (get_task s i) - 64) 64.

Record tasks_ok (k : kernel) : Prop := {
  to_sched : sched_inv (k_sched k);
  to_ready : scheduler_ready (k_sched k) = true;
  to_tss : tss_inv k;
  to_stacks : stacks_inv (k_sched k);
}.

(** Registers of the running task: in ring 0 the stack pointer has room for a frame
    on its own stack; ring 3 is for tasks with a kernel stack. *)
Definition placed (k : kernel) (c : cpu) : Prop :=
  if user_mode c then kernel_stack_top (get_task (k_sched k) (running k)) <> 0
  else 56 <= c_esp c < 2 ^ 32 /\ on_stack (running k) (c_esp c - 56) 56.

(** The running task runs code, its own or the kernel's, or is interrupted.  Code
    may do anything to the state but write on the stacks of other tasks, change
    their entries in the task table, or move its own kernel stack or the TSS; it
    may add entries, with stacks of their own.  A system call, which writes to
    addresses the caller chose, is taken to leave the other stacks alone. *)
Inductive context_step : cpu * kernel -> cpu * kernel -> Prop :=
  | code_step c k c' k' :
      cpu_ok c' -> running k' = running k -> sched_inv (k_sched k') -> scheduler_ready (k_sched k') = true ->
      count (k_sched k) <= count (k_sched k') ->
      (forall j, 0 <= j < count (k_sched k) -> j <> running k -> get_task (k_sched k') j = get_task (k_sched k) j) ->
      kernel_stack_top (get_task (k_sched k') (running k)) = kernel_stack_top (get_task (k_sched k) (running k)) ->
      k_gdt k' = k_gdt k -> stacks_inv (k_sched k') ->
      stacks_kept (running k) (ram (k_machine k)) (ram (k_machine k')) ->
      context_step (c, k) (c', k')
  | interrupt_step c k v err k1 sp esp' k' :
      0 <= v < 256 -> 0 <= err < 2 ^ 32 -> cpu_ok c -> placed k c ->
      interrupted k c v err = (k1, sp) -> isr_handler table k1 sp = Some (esp', k') ->
      (v = 128 -> stacks_kept (running k) (ram (k_machine k1)) (ram (k_machine k'))) ->
      context_step (c, k) (isr_exit (ram (k_machine k')) esp', k').

(** One interrupt: in, [isr_handler], and out again with whatever it returned. *)
Definition trap (k : kernel) (c : cpu) (v err : Z) : option (cpu * kernel) :=
  let '(k1, sp) := interrupted k c v err in
  '(esp', k') ← isr_handler table k1 sp;
  Some (isr_exit (ram (k_machine k')) esp', k').

(** [task_yield]: INT 0x81, from the registers [c]. *)
Definition task_yield (k : kernel) (c : cpu) : option (cpu * kernel) := trap k c 129 0.

(** Task [i] does not run until the last state, in which it has the processor. *)
Inductive until_running (i : Z) : cpu * kernel -> cpu * kernel -> Prop :=
  | until_now st : running st.2 = i -> until_running i st st
  | until_step st st1 st2 :
      running st.2 <> i -> context_step st st1 -> until_running i st1 st2 -> until_running i st st2.

(** Task [i] has been switched away from with the registers [c] and the memory [m0]. *)
Definition waiting (k : kernel) (i : Z) (c : cpu) (m0 : memory) : Prop :=
  let esp := t_esp (get_task (k_sched k) i) in
  tasks_ok k /\ 0 <= i < count (k_sched k) /\
  on_stack i esp (frame_size c) /\ stack_kept i m0 (ram (k_machine k)) /\ isr_exit m0 esp = c.

Lemma stack_kept_trans i m1 m2 m3 : stack_kept i m1 m2 -> stack_kept i m2 m3 -> stack_kept i m1 m3.
Proof. intros H12 H23 r Hr x Hx. rewrite (H23 r Hr) by done. by apply (H12 r Hr). Qed.

Lemma stacks_kept_one i j m m' : stacks_kept i m m' -> 0 <= j < MAX_TASKS -> j <> i -> stack_kept j m m'.
Proof. intros Hk Hj Hne r Hr. by apply (Hk j r). Qed.

Lemma exit_kept i m m' sp c : stack_kept i m m' -> on_stack i sp (frame_size c) -> isr_exit m sp = c -> isr_exit m' sp = c.
Proof.
  intros Hk (r & Hr & H1 & H2) E. apply (isr_exit_ext m); [done|]. intros x Hx. apply (Hk r Hr). lia.
Qed.

(** The stacks of different tasks do not overlap. *)
Context (Hstack : forall i j r q, 0 <= i < MAX_TASKS -> 0 <= j < MAX_TASKS -> i <> j -> In r (stacks i) -> In q (stacks j) ->
  r.1 + r.2 <= q.1 \/ q.1 + q.2 <= r.1).

(** What an interrupt leaves for the dispatcher: a frame on the stack of the running
    task.  In ring 3 the TSS decides where it is. *)
Lemma interrupted_ok k c v err k1 sp :
  0 <= v < 256 -> 0 <= err < 2 ^ 32 -> cpu_ok c -> tasks_ok k -> placed k c ->
  interrupted k c v err = (k1, sp) ->
  k_sched k1 = k_sched k /\ k_gdt k1 = k_gdt k /\ f_int_no (frame_of k1 sp) = v /\ isr_exit (ram (k_machine k1)) sp = c /\
  on_stack (running k) sp (frame_size c) /\ stacks_kept (running k) (ram (k_machine k)) (ram (k_machine k1)).
Proof.
  intros Hv He Hc [Hs _ Ht Hst] Hp E. pose proof (inv_count _ Hs) as Hcnt. pose proof (inv_current _ Hs) as Hcur.
  set (base := entry_stack (esp0 (tss (k_gdt k))) c).
  assert (Hb : frame_size c <= base < 2 ^ 32 /\ on_stack (running k) (base - frame_size c) (frame_size c)).
  { unfold placed in Hp. unfold base, entry_stack, frame_size. destruct (user_mode c); [|done].
    rewrite (Ht Hp). by apply Hst. }
  destruct Hb as [Hb (q & Hq & Hon)]. unfold interrupted in E.
  pose proof (isr_entry_frame (ram (k_machine k)) (esp0 (tss (k_gdt k))) v err c Hc Hv He Hb) as Hf.
  destruct (isr_entry _ _ _ _ _) as [m sp1]. injection E as <- <-. destruct Hf as (Esp & Ho & Ei & _ & Ex & _). fold base in Esp, Ho.
  do 4 (split; [done|]). split; [exists q; split; [done|]; lia|]. intros j r Hj Hne Hrj x Hx. apply Ho.
  destruct (Hstack j (running k) r q Hj ltac:(lia) Hne Hrj Hq); lia.
Qed.

(** A whole interrupt: the task that had the processor has kept it, with the
    registers in its frame, or has been switched away from; in both cases the TSS
    is that of the task that runs now. *)
Lemma interrupt_sched k k1 sp esp' k' v :
  tasks_ok k -> k_sched k1 = k_sched k -> k_gdt k1 = k_gdt k -> f_int_no (frame_of k1 sp) = v -> v < 256 ->
  isr_handler table k1 sp = Some (esp', k') ->
  tasks_ok k' /\ count (k_sched k') = count (k_sched k) /\
  (v <> 128 -> k_machine k' = k_machine k1) /\
  (forall i, 0 <= i < MAX_TASKS -> i <> running k -> t_esp (get_task (k_sched k') i) = t_esp (get_task (k_sched k) i)) /\
  if running k' =? running k then esp' = sp
  else esp' = t_esp (get_task (k_sched k) (running k')) /\ t_esp (get_task (k_sched k') (running k)) = sp.
Proof.
  intros [Hi Hr Ht Hst] Es Eg Ev Hv Hisr.
  destruct (isr_handler_sched polls w0 s0 Hs0 Hl0 k1 sp esp' k') as (s1 & Ha & Esch & Hm); [rewrite Ev; unfold IDT_ENTRIES; lia|done|].
  rewrite Ev in Hm. rewrite Es in Ha. destruct (asked_inv _ _ Ha Hi Hr) as (I1 & R1 & C1 & N1 & G1).
  pose proof (schedule_esp s1 (k_gdt k1) sp I1 R1) as Hs. pose proof (schedule_kst s1 (k_gdt k1) sp) as Hkst.
  rewrite Esch in Hs, Hkst. rewrite C1, N1, G1 in Hs.
  destruct Hs as (I' & R' & N' & Ho & Hesp).
  assert (Hkst' : forall i, kernel_stack_top (get_task (k_sched k') i) = kernel_stack_top (get_task (k_sched k) i)).
  { intros i. by rewrite Hkst, G1. }
  split; [split; [done|done| |]|split; [done|split; [done|split]]].
  - unfold tss_inv. rewrite Hkst'. destruct (Z.eqb_spec (running k') (running k)) as [E|E].
    + destruct Hesp as [_ ->]. rewrite Eg, E. exact Ht.
    + apply Hesp.
  - intros i Hir. rewrite Hkst'. apply Hst. lia.
  - intros i Hir Hne. by rewrite Ho, G1.
  - destruct (_ =? _); [apply Hesp|]. destruct Hesp as (H1 & H2 & _). done.
Qed.

(** A waiting task waits on with its registers and stacks, or gets them back. *)
Lemma waiting_step i c m0 st st' :
  context_step st st' -> running st.2 <> i -> waiting st.2 i c m0 ->
  if running st'.2 =? i then st'.1 = c /\ stack_kept i m0 (ram (k_machine st'.2)) /\ tasks_ok st'.2 else waiting st'.2 i c m0.
Proof.
  intros Hstep Hne (Hok & Hin & Hst & Hk0 & Hx). pose proof Hok as [Hi Hr Ht Hss].
  pose proof (inv_count _ Hi) as Hcnt. pose proof (inv_current _ Hi) as Hcur.
  destruct Hstep as [c1 k c' k' Hc' Er Hi' Hr' Hcnt' Hg Hkst Egd Hss' Hk|c1 k v err k1 sp esp' k' Hv He Hc Hp E Hisr Hcall]; cbn [fst snd] in *.
  - rewrite Er. destruct (Z.eqb_spec (running k) i); [done|]. unfold waiting. rewrite Hg by (done || lia).
    split; [split; [done|done| |done]|split; [lia|split; [done|split; [|done]]]].
    + unfold tss_inv. rewrite Er, Hkst, Egd. exact Ht.
    + eapply stack_kept_trans; [exact Hk0|]. apply (stacks_kept_one _ _ _ _ Hk); [lia|done].
  - destruct (interrupted_ok k c1 v err k1 sp Hv He Hc Hok Hp E) as (Es & Eg & Ev & _ & _ & Hk1).
    destruct (interrupt_sched k k1 sp esp' k' v Hok Es Eg Ev ltac:(lia) Hisr) as (Hok' & N' & Hm & Ho & Hesp).
    assert (Hk' : stack_kept i m0 (ram (k_machine k'))).
    { eapply stack_kept_trans; [exact Hk0|]. eapply stack_kept_trans; [apply (stacks_kept_one _ _ _ _ Hk1); [lia|done]|].
      apply (stacks_kept_one (running k)); [|lia|done]. destruct (Z.eq_dec v 128); [by apply Hcall|]. by rewrite Hm. }
    destruct (Z.eqb_spec (running k') i) as [<-|Hne'].
    + split; [|by split]. destruct (Z.eqb_spec (running k') (running k)); [done|]. destruct Hesp as [-> _].
      by apply (exit_kept (running k') m0).
    + unfold waiting. rewrite (Ho i) by (done || lia). split; [done|]. split; [lia|done].
Qed.

Lemma until_running_ok i c m0 st st' :
  until_running i st st' -> running st.2 <> i -> waiting st.2 i c m0 ->
  st'.1 = c /\ stack_kept i m0 (ram (k_machine st'.2)) /\ tasks_ok st'.2.
Proof.
  induction 1 as [st Hn|st st1 st2 Hn Hstep Hu IH]; intros Hne Hw; [done|].
  pose proof (waiting_step i c m0 st st1 Hstep Hne Hw) as Hs. destruct (Z.eqb_spec (running st1.2) i) as [E|E].
  - inversion Hu; subst; done.
  - by apply IH.
Qed.

(** C9: context switches are transparent.  The running task, with registers [c], is
    interrupted at any instruction (by the clock, the keyboard, another device or
    INT 0x81; in ring 0 with its stack pointer on its own stack, or in ring 3 in a
    task with a kernel stack, where the TSS decides where the frame goes).  Whatever
    then happens, including any number of other tasks running arbitrary code that
    stays off the other tasks' stacks, system calls that do, and further interrupts,
    when it has the processor again every register is as it was and so is every byte
    of its stacks.  The frame of the interrupt lands on a stack of the task itself,
    and in the last state the TSS points to the task's kernel stack again (if it has
    one): the scheduler moves it at every switch, so that the same holds of its next
    interrupt. *)
Theorem context_switch_correct k c v err k1 sp esp' k' c2 k2
  (Hok : tasks_ok k) (Hv : 32 <= v < 256) (Hnv : v <> 128) (He : 0 <= err < 2 ^ 32) (Hc : cpu_ok c) (Hp : placed k c)
  (E : interrupted k c v err = (k1, sp)) (Hisr : isr_handler table k1 sp = Some (esp', k'))
  (Hu : until_running (running k) (isr_exit (ram (k_machine k')) esp', k') (c2, k2)) :
  c2 = c /\ stack_kept (running k) (ram (k_machine k1)) (ram (k_machine k2)) /\
  on_stack (running k) sp (frame_size c) /\ tasks_ok k2.
Proof.
  destruct (interrupted_ok k c v err k1 sp ltac:(lia) He Hc Hok Hp E) as (Es & Eg & Ev & Ex & Hon & _).
  destruct (interrupt_sched k k1 sp esp' k' v Hok Es Eg Ev ltac:(lia) Hisr) as (Hok' & N' & Hm & Ho & Hesp).
  pose proof (inv_current _ (to_sched _ Hok)) as Hcur.
  specialize (Hm Hnv). destruct (Z.eqb_spec (running k') (running k)) as [En|En].
  - inversion Hu; subst; [|done]. by rewrite Hm.
  - destruct Hesp as [_ Hesp]. rewrite <- Hm.
    destruct (until_running_ok _ c (ram (k_machine k')) _ _ Hu) as (H1 & H2 & H3); [done| |done].
    unfold waiting. cbn [snd]. rewrite Hesp, N', Hm. by repeat (split; [done|]).
Qed.
End switching.

(** ** An instance: a kernel task, a task of ring 3, and the clock *)

Definition demo_stacks (i : Z) : list (Z * Z) :=
  if i =? 0 then [(0x10000, 0x1000)] else if i =? 1 then [(0x20000, 0x1000); (0x30000, 0x1000)] else [].
(** Task 0 in ring 0, task 1 in ring 3. *)
Definition demo_cpu (i : Z) : cpu :=
  if i =? 0 then
    Cpu 100 200 3 4 5 6 7 0x10F00 0x101000 0x202 GDT_KERNEL_CODE_SEL GDT_KERNEL_DATA_SEL
      GDT_KERNEL_DATA_SEL GDT_KERNEL_DATA_SEL GDT_KERNEL_DATA_SEL GDT_KERNEL_DATA_SEL
  else
    Cpu 101 201 3 4 5 6 7 0x30F00 0x102000 0x202 GDT_USER_CODE_SEL GDT_USER_DATA_SEL
      GDT_USER_DATA_SEL GDT_USER_DATA_SEL GDT_USER_DATA_SEL GDT_USER_DATA_SEL.
Definition demo_two : kernel :=
  let '(m, sp) := isr_entry ∅ 0x21000 32 0 (demo_cpu 1) in
  Kernel (Machine m []) (Io [] []) 7 demo_kbd
    (put_task (set_count demo_sched 2) 1 (Task 1 sp 0x20000 0x30000 0x21000 TASK_READY "t" true)) gdt_boot demo_heap.2.
(** The clock interrupts task [i]: its frame, and the state after the handler. *)
Definition demo_in (k : kernel) (i : Z) : kernel * Z := interrupted k (demo_cpu i) 32 0.
Definition demo_out (k : kernel) (i : Z) : Z * kernel :=
  default (0, k) (isr_handler (all_handlers 0 [] (Machine ∅ []) demo_idt) (demo_in k i).1 (demo_in k i).2).
Definition demo_first : kernel := (demo_out demo_two 0).2.
Definition demo_second : kernel := (demo_out demo_first 1).2.

Lemma demo_cpu_ok i : cpu_ok (demo_cpu i).
Proof.
  unfold demo_cpu, GDT_KERNEL_CODE_SEL, GDT_KERNEL_DATA_SEL, GDT_USER_CODE_SEL, GDT_USER_DATA_SEL.
  destruct (i =? 0); (split; [| |by repeat split|done]); repeat (constructor; [cbn; lia|]); constructor.
Qed.

Lemma demo_stacks_apart i j r q :
  0 <= i < MAX_TASKS -> 0 <= j < MAX_TASKS -> i <> j -> In r (demo_stacks i) -> In q (demo_stacks j) ->
  r.1 + r.2 <= q.1 \/ q.1 + q.2 <= r.1.
Proof.
  intros Hi Hj Hne. unfold demo_stacks.
  destruct (Z.eqb_spec i 0), (Z.eqb_spec i 1), (Z.eqb_spec j 0), (Z.eqb_spec j 1); try lia; cbn [In]; intros Hr Hq;
    repeat match goal with H : _ \/ _ |- _ => destruct H as [H|H] | H : _ = _ |- _ => subst; cbn [fst snd] end; done || lia.
Qed.

Lemma demo_two_ok : tasks_ok demo_stacks demo_two.
Proof.
  split; [|done| |].
  - split; change (count (k_sched demo_two)) with 2; change (current (k_sched demo_two)) with 0; try done.
    + intros i Hi Hne. assert (i = 1) as -> by lia. vm_compute. discriminate.
    + intros i Hi. assert (i = 0 \/ i = 1) as [-> | ->] by lia; done.
  - intros H. by vm_compute in H.
  - intros i Hi. change (count (k_sched demo_two)) with 2 in Hi. assert (i = 0 \/ i = 1) as [-> | ->] by lia.
    + intros H. by vm_compute in H.
    + intros _. change (kernel_stack_top (get_task (k_sched demo_two) 1)) with 0x21000. split; [lia|].
      exists (0x20000, 0x1000). split; [by left|]. cbn [fst snd]. lia.
Qed.

(** Task 0 is interrupted in ring 0; task 1 goes on in ring 3 until the next tick, whose
    frame goes to its kernel stack; task 0 is back. *)
Lemma context_switch_correct_witness :
  isr_exit (ram (k_machine demo_second)) (demo_out demo_first 1).1 = demo_cpu 0 /\
  current (k_sched demo_first) = 1 /\ current (k_sched demo_second) = 0.
Proof.
  split; [|split; vm_compute; reflexivity].
  apply (context_switch_correct 0 (Machine ∅ []) demo_idt demo_handlers eq_refl demo_stacks demo_stacks_apart
    demo_two (demo_cpu 0) 32 0 (demo_in demo_two 0).1 (demo_in demo_two 0).2 (demo_out demo_two 0).1 demo_first
    (isr_exit (ram (k_machine demo_second)) (demo_out demo_first 1).1) demo_second demo_two_ok).
  - lia.
  - lia.
  - lia.
  - apply demo_cpu_ok.
  - split; [vm_compute; split; [discriminate|reflexivity]|]. eexists. split; [by left|]. vm_compute. split; discriminate.
  - apply surjective_pairing.
  - vm_compute. reflexivity.
  - apply (until_step _ _ _ _ _ _ (isr_exit (ram (k_machine demo_second)) (demo_out demo_first 1).1, demo_second)).
    + vm_compute. discriminate.
    + replace (isr_exit (ram (k_machine demo_first)) (demo_out demo_two 0).1) with (demo_cpu 1) by (vm_compute; reflexivity).
      apply (interrupt_step _ _ _ _ (demo_cpu 1) demo_first 32 0 (demo_in demo_first 1).1 (demo_in demo_first 1).2
        (demo_out demo_first 1).1 demo_second).
      * lia.
      * lia.
      * apply demo_cpu_ok.
      * vm_compute. discriminate.
      * apply surjective_pairing.
      * vm_compute. reflexivity.
      * discriminate.
    + apply until_now. vm_compute. reflexivity.
Defined.
