(* ===== verification/User.v ===== *)
(** * The ring-3 side of the system calls ([syscall.h]) and the demonstration program ([shell.c])

    A program of ring 3 reaches the kernel through the three inline functions of
    syscall.h, which load the registers and execute INT 0x80.  Here they run over the
    whole path: the frame the processor and the stub push ([Trap]), [isr_handler] and
    the system call ([Syscall]), the scheduler, and back through the stub.

    [user_demo_entry] is the program the shell's [syscall] command starts.  Between
    its statements it may be preempted: [others n] is what has happened to the kernel
    the [n]-th time it goes on.

    In ring 3 every access goes through the page tables with their permissions: a
    statement runs only if the pages of the program's code are open to ring 3, and
    those it writes are open and writable; otherwise it faults, and the page-fault
    handler halts the machine.  Addresses are followed where the page is mapped to
    itself, as [vmm_init] maps all of them. *)
From stdpp Require Import base numbers list gmap strings.
From Stdlib Require Import ZArith Lia.
From S2P Require Import Prelude.
From S2P Require Import Machine.
From S2P Require Import CString.
From S2P Require Import Io.
From S2P Require Import Keyboard.
From S2P Require Import Alloc.
From S2P Require Import Heap.
From S2P Require Import Pmm.
From S2P Require Import Vmm.
From S2P Require Import Gdt.
From S2P Require Import Task.
From S2P Require Import Timer.
From S2P Require Import Idt.
From S2P Require Import Syscall.
From S2P Require Import Trap.

(** ** The wrappers *)

(** The registers of the asm statement's input operands. *)
Definition load_regs (c : cpu) (eax ebx ecx edx : Z) : cpu :=
  {| c_eax := eax; c_ebx := ebx; c_ecx := ecx; c_edx := edx; c_esi := c_esi c; c_edi := c_edi c; c_ebp := c_ebp c;
     c_esp := c_esp c; c_eip := c_eip c; c_eflags := c_eflags c; c_cs := c_cs c; c_ss := c_ss c;
     c_ds := c_ds c; c_es := c_es c; c_fs := c_fs c; c_gs := c_gs c |}.

(** ** What ring 3 may touch *)

(** Whether ring 3 may read (or, with [w], write) the page, found at its own address. *)
Definition ring3_page (v : vmm) (m : memory) (w : bool) (pg : Z) : bool :=
  match translation m v pg with
  | Some t => (te_frame t =? pg) && te_user t && (negb w || te_writable t)
  | None => false
  end.

(** Every page of [lo, hi). *)
Definition ring3_may (v : vmm) (m : memory) (w : bool) (lo hi : Z) : bool :=
  forallb (ring3_page v m w) (seqZ (lo / PAGE_SIZE) ((hi - 1) / PAGE_SIZE - lo / PAGE_SIZE + 1)).

(** Where a program is: its instructions, and the part of its user stack it uses. *)
Record image := Image {
  code_lo : Z;
  code_hi : Z;
  frame_lo : Z;
  frame_hi : Z;
}.

Section wrappers.
Context (polls : nat) (w0 : machine) (s0 : idt_state) (v : vmm) (im : image).
Abbreviation trap := (trap polls w0 s0).

(** A statement of the program that writes [lo, hi) may run, or faults. *)
Definition statement (k : kernel) (lo hi : Z) : option kernel :=
  let m := ram (k_machine k) in
  if ring3_may v m false (code_lo im) (code_hi im) && ring3_may v m true lo hi then Some k else None.

(** A call may spill anything into the program's stack frame. *)
Definition syscall (k : kernel) (c : cpu) : option (Z * cpu * kernel) :=
  k ← statement k (frame_lo im) (frame_hi im);
  '(c', k') ← trap k c 128 0; Some (s32 (c_eax c'), c', k').
Definition _syscall0 (k : kernel) (c : cpu) (num : Z) : option (Z * cpu * kernel) :=
  syscall k (load_regs c num (c_ebx c) (c_ecx c) (c_edx c)).
Definition _syscall1 (k : kernel) (c : cpu) (num a1 : Z) : option (Z * cpu * kernel) :=
  syscall k (load_regs c num a1 (c_ecx c) (c_edx c)).
Definition _syscall3 (k : kernel) (c : cpu) (num a1 a2 a3 : Z) : option (Z * cpu * kernel) :=
  syscall k (load_regs c num a1 a2 a3).

(** ** The demonstration *)

(** The arrays on the stack, and what happens while the program is preempted. *)
Context (msg1 pidmsg tmsg done_ : Z) (others : nat -> kernel -> kernel).

(** The initialiser of an array at [a], and the next point of preemption. *)
Definition init_array (n : nat) (k : kernel) (a : Z) (l : list Z) : option kernel :=
  k ← statement k a (a + Z.of_nat (length l));
  Some (others n (with_k_machine k (set_ram (k_machine k) (store_bytes (ram (k_machine k)) a l)))).

(** [for (int i = 17; i >= 13; i--) { tmsg[i] = '0' + (ticks % 10); ticks /= 10; }],
    [n] iterations from [i]. *)
Fixpoint tick_loop (n : nat) (m : memory) (i ticks : Z) : memory :=
  match n with
  | O => m
  | S n' => tick_loop n' (store8 m (tmsg + i) (48 + Z.rem ticks 10)) (i - 1) (Z.quot ticks 10)
  end.

(** The program up to its last call. *)
Definition user_demo_body (k : kernel) (c : cpu) : option (cpu * kernel) :=
  k ← init_array 0 k msg1 (bytes_of (line "[USER] Hello from Ring 3!") ++ [0]);
  '(_, c, k) ← _syscall3 k c SYS_WRITE 1 msg1 26;
  let k := others 1 k in
  '(pid, c, k) ← _syscall0 k c SYS_GETPID;
  k ← init_array 2 k pidmsg (bytes_of "[USER] PID=" ++ [48 + Z.rem pid 10; 10; 0]);
  '(_, c, k) ← _syscall3 k c SYS_WRITE 1 pidmsg 13;
  let k := others 3 k in
  '(ticks, c, k) ← _syscall0 k c SYS_UPTIME;
  k ← init_array 4 k tmsg (bytes_of (line "[USER] Ticks=00000") ++ [0]);
  k ← statement k (tmsg + 13) (tmsg + 18);
  let k := others 5 (with_k_machine k (set_ram (k_machine k) (tick_loop 5 (ram (k_machine k)) 17 ticks))) in
  '(_, c, k) ← _syscall3 k c SYS_WRITE 1 tmsg 19;
  k ← init_array 6 k done_ (bytes_of (line "[USER] Exiting") ++ [0]);
  '(_, c, k) ← _syscall3 k c SYS_WRITE 1 done_ 15;
  Some (c, others 7 k).

(** The whole program; [None] when it faults, or does not come back from [sys_exit]. *)
Definition user_demo_entry (k : kernel) (c : cpu) : option (Z * cpu * kernel) :=
  '(c, k) ← user_demo_body k c;
  _syscall1 k c SYS_EXIT 0.
End wrappers.

(** The texts of the program, given the results of its two queries. *)
Definition user_demo_texts (pid ticks : Z) : list (list Z) :=
  [bytes_of (line "[USER] Hello from Ring 3!");
   bytes_of "[USER] PID=" ++ [48 + Z.rem pid 10; 10];
   bytes_of "[USER] Ticks=" ++ map (fun e => 48 + Z.rem (Z.quot ticks (10 ^ e)) 10) [4; 3; 2; 1; 0] ++ [10];
   bytes_of (line "[USER] Exiting")].

(** ** One call *)

Section demo.
Context (polls : nat) (w0 : machine) (s0 : idt_state).
Context (Hl0 : length (interrupt_handlers s0) = Z.to_nat IDT_ENTRIES).
Abbreviation table := (all_handlers polls [] w0 s0).
(** The task that runs the program, and the top of its kernel stack, in the heap. *)
Context (i top : Z) (Htop : HEAP_START <= top - 64 /\ top <= HEAP_END).

(** The page tables, and the program's place: its stack frame is in the heap, apart
    from the frame of an interrupt. *)
Context (v : vmm) (im : image).
Abbreviation ulo := (frame_lo im).
Abbreviation uhi := (frame_hi im).
Context (Hcode : 0 <= code_lo im /\ code_hi im <= 2 ^ 32) (Hlo : HEAP_START <= ulo) (Hhi : uhi <= HEAP_END).
Context (Hapart : uhi <= top - 64 \/ top <= ulo).
Abbreviation syscall := (syscall polls w0 s0 v im).
Abbreviation call0 := (_syscall0 polls w0 s0 v im).
Abbreviation call1 := (_syscall1 polls w0 s0 v im).
Abbreviation call3 := (_syscall3 polls w0 s0 v im).

(** The paging structures are sound and lie outside the heap, and ring 3 may run the
    code and write the stack frame. *)
Definition open_to_ring3 (m : memory) : Prop :=
  (exists p, vmm_inv m p v /\ off_heap m p v) /\
  ring3_may v m false (code_lo im) (code_hi im) = true /\ ring3_may v m true ulo uhi = true.

(** The task has the processor, no reschedule is pending (the scheduler runs at
    the end of the interrupt that asks for one), and its pages are open. *)
Definition in_task (k : kernel) : Prop :=
  current (k_sched k) = i /\ esp0 (tss (k_gdt k)) = top /\ need_reschedule (k_sched k) = false /\
  open_to_ring3 (ram (k_machine k)).

Lemma ring3_may_spec m w lo hi :
  ring3_may v m w lo hi = true <-> forall pg, lo / PAGE_SIZE <= pg <= (hi - 1) / PAGE_SIZE -> ring3_page v m w pg = true.
Proof.
  unfold ring3_may. rewrite forallb_forall. split; intros H pg Hpg.
  - apply H. rewrite <- list_elem_of_In, elem_of_seqZ. lia.
  - rewrite <- list_elem_of_In, elem_of_seqZ in Hpg. apply H. lia.
Qed.

Lemma ring3_may_mono m w lo hi lo' hi' :
  lo <= lo' -> hi' <= hi -> ring3_may v m w lo hi = true -> ring3_may v m w lo' hi' = true.
Proof.
  rewrite !ring3_may_spec. intros H1 H2 H pg Hpg. apply H. unfold PAGE_SIZE in *.
  pose proof (Z.div_le_mono lo lo' 4096). pose proof (Z.div_le_mono (hi' - 1) (hi - 1) 4096). lia.
Qed.

(** Writes to the heap, to stacks for example, leave every page as open as it was. *)
Lemma open_kept m m' : same_outside HEAP_START HEAP_END m m' -> open_to_ring3 m -> open_to_ring3 m'.
Proof.
  intros Ho ((p & Hv & Hoff) & H1 & H2). destruct (vmm_inv_heap m m' p v Hv Hoff Ho) as (Hv' & Hoff' & Hw).
  assert (Hp : forall w lo hi, 0 <= lo -> hi <= 2 ^ 32 -> ring3_may v m w lo hi = true -> ring3_may v m' w lo hi = true).
  { intros w lo hi Hl Hh. rewrite !ring3_may_spec. intros H pg Hpg. specialize (H pg Hpg).
    assert (Hr : 0 <= pg < 2 ^ 20) by (unfold PAGE_SIZE in Hpg; dlia).
    unfold ring3_page in *. by rewrite (translation_walk m' p), Hw, <- (translation_walk m p) by done. }
  split; [by exists p|]. unfold HEAP_END, HEAP_INITIAL, HEAP_START in *. split; apply Hp; (done || lia).
Qed.

(** The program's statements may run, those that write to its stack frame. *)
Lemma statement_runs k lo hi : in_task k -> ulo <= lo -> hi <= uhi -> statement v im k lo hi = Some k.
Proof.
  intros (_ & _ & _ & _ & H1 & H2) Hl Hh. unfold statement. by rewrite H1, (ring3_may_mono _ _ _ _ lo hi Hl Hh H2).
Qed.

Definition in_ring3 (c : cpu) : Prop := cpu_ok c /\ user_mode c = true.

(** A call that returns [r] from the state [k2]: the caller goes on, with EAX changed
    and the other registers as they were. *)
Lemma syscall_returns k c fn r k2 :
  in_task k -> in_ring3 c -> 0 <= c_eax c < SYS_MAX ->
  let k1 := (interrupted k c 128 0).1 in
  let sp := top - 64 in
  syscall_table polls [] !! Z.to_nat (c_eax c) = Some (returning fn) ->
  ((f_ebx (frame_of k1 sp), f_ecx (frame_of k1 sp), f_edx (frame_of k1 sp)) = (c_ebx c, c_ecx c, c_edx c) ->
   same_outside sp top (ram (k_machine k)) (ram (k_machine k1)) -> fn k1 sp = Some (r, k2)) ->
  k_sched k2 = k_sched k -> k_gdt k2 = k_gdt k -> ram (k_machine k2) = ram (k_machine k1) ->
  exists k', syscall k c = Some (s32 (u32 r), load_regs c (u32 r) (c_ebx c) (c_ecx c) (c_edx c), k') /\
    in_task k' /\ con (k_machine k') = con (k_machine k2) /\ k_ticks k' = k_ticks k2 /\
    same_outside sp top (ram (k_machine k)) (ram (k_machine k')).
Proof.
  intros Hin [Hc Hu] Hnum. pose proof Hin as (Ei & Et & En & Hopen). unfold HEAP_END, HEAP_INITIAL, HEAP_START in Htop.
  unfold User.syscall, trap, interrupted. rewrite statement_runs by (done || lia). cbn [mbind option_bind]. rewrite Et.
  pose proof (isr_entry_frame (ram (k_machine k)) top 128 0 c Hc ltac:(lia) ltac:(lia)) as Hf.
  unfold entry_stack, frame_size in Hf. rewrite Hu in Hf. specialize (Hf ltac:(lia)).
  destruct (isr_entry _ _ _ _ _) as [m sp0]. destruct Hf as (-> & Ho & Ev & _ & Ex & Ea & Eb & Ec & Ed). cbn [fst]. cbv zeta.
  set (k1 := with_k_machine k (set_ram (k_machine k) m)). intros Hfn Hcall Es Eg Em.
  change (frame_at m (top - 64)) with (frame_of k1 (top - 64)) in Ev, Ea, Eb, Ec, Ed.
  specialize (Hcall ltac:(by rewrite Eb, Ec, Ed) Ho).
  destruct (int80_call polls [] (register_irqs s0) k1 (top - 64) ltac:(by rewrite register_irqs_length) Ev fn r k2) as
    (esp' & k' & E & Esch & Efr & Hout & Econ & _ & Etk & _); [by rewrite Ea|rewrite Ea; lia|done|].
  cbn [interrupt] in Esch. unfold task_schedule_if_needed in Esch. rewrite Es, En, orb_true_r in Esch.
  injection Esch as -> Es' Eg'. change (isr_handler table k1 (top - 64) = Some (top - 64, k')) in E. rewrite E.
  cbn [mbind option_bind]. unfold frame_of in Efr. rewrite Em in Efr.
  assert (Ex' : isr_exit (ram (k_machine k')) (top - 64) = load_regs c (u32 r) (c_ebx c) (c_ecx c) (c_edx c)).
  { unfold isr_exit. rewrite Efr. rewrite <- Ex. reflexivity. }
  assert (Hk' : same_outside (top - 64) top (ram (k_machine k)) (ram (k_machine k'))).
  { intros x Hx. rewrite Hout, Em by lia. apply Ho. lia. }
  exists k'. rewrite Ex'. split; [done|]. split; [|done].
  unfold in_task. rewrite Es', Eg', Eg. do 3 (split; [done|]). eapply open_kept, Hopen. eapply same_outside_mono; [..|exact Hk'];
    unfold HEAP_END, HEAP_INITIAL, HEAP_START; lia.
Qed.

Lemma load_ring3 c x y z w :
  in_ring3 c -> Forall (fun v => 0 <= v < 2 ^ 32) [x; y; z; w] -> in_ring3 (load_regs c x y z w).
Proof.
  intros [[Hr Hs Hd Hk] Hu] Hv. split; [|done]. split; [|done|done|done]. cbn [load_regs c_eax c_ebx c_ecx c_edx c_esi c_edi c_ebp
    c_esp c_eip c_eflags]. split_all. repeat (constructor; [done|]). constructor.
Qed.

(** What a call has done to the rest of the kernel. *)
Definition called (k k' : kernel) (out : list out_call) : Prop :=
  in_task k' /\ con (k_machine k') = con (k_machine k) ++ out /\ k_ticks k' = k_ticks k /\
  same_outside (top - 64) top (ram (k_machine k)) (ram (k_machine k')).

Lemma call_write k c a len :
  in_task k -> in_ring3 c -> 0 < a -> 0 < len < 2 ^ 31 -> a + len <= 2 ^ 32 -> a + len <= top - 64 \/ top <= a ->
  exists k', call3 k c SYS_WRITE 1 a len = Some (len, load_regs c len 1 a len, k') /\
    called k k' (prints (bytes_at (ram (k_machine k)) a (Z.to_nat len))).
Proof.
  intros Hk Hc Ha Hlen Hend Hd. set (c1 := load_regs c SYS_WRITE 1 a len).
  assert (Hc1 : in_ring3 c1) by (apply load_ring3; [done|]; unfold SYS_WRITE; repeat (constructor; [lia|]); constructor).
  set (k1 := (interrupted k c1 128 0).1).
  destruct (syscall_returns k c1 (sys_write polls) len
    (with_k_machine k1 (emit (k_machine k1) (prints (bytes_at (ram (k_machine k)) a (Z.to_nat len)))))) as (k' & E & Hi & Hcon & Ht & Ho);
    [done|done|by unfold SYS_MAX|done|..].
  - fold k1. intros [= Eb Ec Ed] Ho. unfold sys_write. unfold frame_of. cbn [f_ebx f_ecx f_edx frame_at].
    rewrite Eb, Ec, Ed. destruct (Z.eqb_spec a 0), (Z.eqb_spec len 0); try lia. cbn [orb]. change (s32 1) with 1.
    rewrite write_loop_screen by lia. rewrite s32_small by lia.
    rewrite (bytes_at_ext (ram (k_machine k)) (ram (k_machine k1))); [done|]. intros x Hx. apply Ho. lia.
  - unfold k1, interrupted. by destruct (isr_entry _ _ _ _ _).
  - unfold k1, interrupted. by destruct (isr_entry _ _ _ _ _).
  - done.
  - exists k'. rewrite u32_small, s32_small in E by lia. split; [done|]. split; [done|].
    rewrite Hcon, Ht. unfold k1, interrupted. by destruct (isr_entry _ _ _ _ _).
Qed.

(** A query answers [r], which it reads from the state. *)
Lemma call_query k c num fn (r : kernel -> Z) :
  in_task k -> in_ring3 c -> 0 <= num < SYS_MAX -> syscall_table polls [] !! Z.to_nat num = Some (returning fn) ->
  (forall k1 sp, fn k1 sp = Some (s32 (r k1), k1)) ->
  (forall w, r (with_k_machine k w) = r k) ->
  exists k', call0 k c num =
      Some (s32 (r k), load_regs c (u32 (r k)) (c_ebx c) (c_ecx c) (c_edx c), k') /\ called k k' [].
Proof.
  intros Hk Hc Hn Hfn Hr Hw. set (c1 := load_regs c num (c_ebx c) (c_ecx c) (c_edx c)).
  assert (Hc1 : in_ring3 c1).
  { apply load_ring3; [done|]. destruct Hc as [[Hr' _ _ _] _]. unfold SYS_MAX in Hn. split_all. repeat (constructor; [done || lia|]). constructor. }
  set (k1 := (interrupted k c1 128 0).1).
  assert (Ek : exists w, k1 = with_k_machine k w /\ con w = con (k_machine k)).
  { unfold k1, interrupted. destruct (isr_entry _ _ _ _ _). by eexists. }
  destruct Ek as (w & Ek & Econ).
  destruct (syscall_returns k c1 fn (s32 (r k)) k1) as (k' & E & Hi & Hcon & Ht & Ho); [done|done|done|done|..].
  - fold k1. intros _ _. rewrite Hr, Ek. by rewrite Hw.
  - by rewrite Ek.
  - by rewrite Ek.
  - done.
  - exists k'. rewrite u32_s32 in E. split.
    + unfold _syscall0. fold c1. rewrite E. do 3 f_equal. unfold s32, swrap, wrap, u32. change (2 ^ (32 - 1)) with 2147483648.
      unfold wrap. rewrite Zplus_mod_idemp_l. done.
    + split; [done|]. rewrite Hcon, Ht, Ek. cbn [k_machine k_ticks with_k_machine]. by rewrite Econ, app_nil_r.
Qed.

(** ** The program *)

Context (msg1 pidmsg tmsg done_ : Z) (others : nat -> kernel -> kernel).
(** The arrays, in the program's stack frame. *)
Context (Harrays : ulo <= msg1 /\ msg1 + 27 <= uhi /\ ulo <= pidmsg /\ pidmsg + 14 <= uhi /\
                   ulo <= tmsg /\ tmsg + 20 <= uhi /\ ulo <= done_ /\ done_ + 16 <= uhi).

(** [k'] follows [k], with [x] on the screen in between. *)
Definition follows (k k' : kernel) (x : list out_call) : Prop :=
  in_task k' /\ con (k_machine k') = con (k_machine k) ++ x /\ k_ticks k <= k_ticks k'.

(** While the program is preempted: its task gets the processor back, its stack is
    as it was ([Trap.context_switch_correct]) and its pages as open, the others may
    have printed something, and the clock has not gone back. *)
Context (Hothers : forall n k, in_task k -> exists x, follows k (others n k) x /\
  same_inside ulo uhi (ram (k_machine k)) (ram (k_machine (others n k)))).

(** Nobody else prints. *)
Definition quiet : Prop := forall n k, con (k_machine (others n k)) = con (k_machine k).

Lemma follows_trans k1 k2 k3 x y : follows k1 k2 x -> follows k2 k3 y -> follows k1 k3 (x ++ y).
Proof. intros (_ & E1 & T1) (H & E2 & T2). split; [done|]. split; [by rewrite E2, E1, app_assoc|lia]. Qed.

Lemma called_follows k k' out : called k k' out -> follows k k' out.
Proof. intros (H & E & T & _). split; [done|]. split; [done|lia]. Qed.

Lemma others_ok n k : in_task k -> exists x, follows k (others n k) x /\ (quiet -> x = []) /\
  same_inside ulo uhi (ram (k_machine k)) (ram (k_machine (others n k))).
Proof.
  intros Hk. destruct (Hothers n k Hk) as (x & Hf & Hs). exists x. split; [done|]. split; [|done].
  intros Hq. destruct Hf as (_ & E & _). rewrite Hq in E. rewrite <- (app_nil_r (con (k_machine k))) in E at 1.
  by apply app_inv_head in E.
Qed.

(** A store of the program to its stack. *)
Lemma store_follows k m :
  in_task k -> same_outside ulo uhi (ram (k_machine k)) m -> follows k (with_k_machine k (set_ram (k_machine k) m)) [].
Proof.
  intros (E1 & E2 & E3 & Ho) Hm. split; [|cbn; by rewrite app_nil_r]. do 3 (split; [done|]).
  eapply open_kept, Ho. by eapply same_outside_mono; [..|exact Hm].
Qed.

Lemma frame_range : 0 < ulo /\ uhi < 2 ^ 31.
Proof. unfold HEAP_END, HEAP_INITIAL, HEAP_START in *. lia. Qed.

(** Preempted, then writing the text that its memory holds at [a]. *)
Lemma say n k c a l len :
  Z.of_nat (length l) = len -> in_task k -> in_ring3 c -> ulo <= a -> a + len <= uhi -> 0 < len < 2 ^ 31 ->
  bytes_at (ram (k_machine k)) a (length l) = l ->
  exists x c' k', call3 (others n k) c SYS_WRITE 1 a len = Some (len, c', k') /\ in_ring3 c' /\
    follows k k' (x ++ prints l) /\ (quiet -> x = []).
Proof.
  intros <- Hk Hc Ha Hend Hl Hb. pose proof frame_range. destruct (others_ok n k Hk) as (x & Hf & Hq & Hs).
  destruct (call_write (others n k) c a (Z.of_nat (length l))) as (k' & E & Hcd); [apply Hf|done|lia|lia|lia|lia|].
  rewrite Nat2Z.id, (bytes_at_ext (ram (k_machine k))), Hb in Hcd by (intros y Hy; apply Hs; lia).
  exists x. eexists _, k'. split; [exact E|]. split; [|split; [|done]].
  - apply load_ring3; [done|]. repeat (constructor; [lia|]). constructor.
  - eapply follows_trans; [exact Hf|]. by apply called_follows.
Qed.

(** An array with the text [l] and a final zero holds the text. *)
Lemma array_text m a l : Forall (fun b => 0 <= b < 256) l -> bytes_at (store_bytes m a (l ++ [0])) a (length l) = l.
Proof.
  intros Hl. rewrite store_bytes_snoc, (bytes_at_ext (store_bytes m a l)); [by apply bytes_at_store_bytes|].
  intros y Hy. apply load8_store8_ne. lia.
Qed.

(** Such an array, written. *)
Lemma say_array n k c a l len :
  Z.of_nat (length l) = len -> in_task k -> in_ring3 c -> ulo <= a -> a + len + 1 <= uhi -> 0 < len < 2 ^ 31 ->
  Forall (fun b => 0 <= b < 256) l ->
  exists x c' ka k', init_array v im others n k a (l ++ [0]) = Some ka /\
    call3 ka c SYS_WRITE 1 a len = Some (len, c', k') /\ in_ring3 c' /\
    follows k k' (x ++ prints l) /\ (quiet -> x = []).
Proof.
  intros Hlen Hk Hc Ha Hend Hl Hb. unfold init_array.
  assert (Hla : Z.of_nat (length (l ++ [0])) = len + 1) by (rewrite length_app, Nat2Z.inj_add, Hlen; done).
  rewrite statement_runs by (done || lia). cbn [mbind option_bind]. set (k0 := with_k_machine k _).
  assert (F0 : follows k k0 []).
  { apply store_follows; [done|]. eapply same_outside_mono; [..|apply store_bytes_outside]; lia. }
  destruct (say n k0 c a l len) as (x & c' & k' & E & Hc' & Hf & Hq); [done|apply F0|done|done|lia|done|by apply array_text|].
  eexists x, c', _, k'. split; [done|]. split; [done|]. split; [done|]. split; [|done]. exact (follows_trans k k0 k' [] _ F0 Hf).
Qed.

Lemma load8_store8_at m a b x : a = b -> load8 (store8 m a x) b = u8 x.
Proof. intros ->. apply load8_store8_eq. Qed.

Lemma rem_digit x : 0 <= 48 + Z.rem x 10 < 256.
Proof. pose proof (Z.rem_bound_abs x 10). lia. Qed.

(** The array of the third text after the loop. *)
Lemma tick_bytes m ticks :
  bytes_at m tmsg 19 = bytes_of (line "[USER] Ticks=00000") ->
  bytes_at (tick_loop tmsg 5 m 17 ticks) tmsg 19 =
    bytes_of "[USER] Ticks=" ++ map (fun e => 48 + Z.rem (Z.quot ticks (10 ^ e)) 10) [4; 3; 2; 1; 0] ++ [10].
Proof.
  intros Hm. change 19%nat with (13 + (5 + 1))%nat in *. rewrite !bytes_at_app in *.
  change (bytes_of (line "[USER] Ticks=00000")) with (bytes_of "[USER] Ticks=" ++ [48; 48; 48; 48; 48] ++ [10]) in Hm.
  apply app_inj_1 in Hm as [H13 Hm]; [|by rewrite length_bytes_at]. apply app_inj_1 in Hm as [_ H1]; [|by rewrite length_bytes_at].
  f_equal; [|f_equal].
  - rewrite <- H13. apply bytes_at_ext. intros b Hb. cbn [tick_loop]. by rewrite !load8_store8_ne by lia.
  - cbn [bytes_at tick_loop map]. change (Z.of_nat 13) with 13.
    repeat first [rewrite load8_store8_at by lia | rewrite load8_store8_ne by lia].
    change (10 ^ 0) with 1. rewrite Z.quot_1_r, !Z.quot_quot by lia. rewrite !u8_small by apply rem_digit. done.
  - rewrite <- H1. apply bytes_at_ext. intros b Hb. cbn [tick_loop]. by rewrite !load8_store8_ne by lia.
Qed.

(** The loop over the digits writes to the array only. *)
Lemma tick_loop_outside m ticks : same_outside tmsg (tmsg + 20) m (tick_loop tmsg 5 m 17 ticks).
Proof. intros x Hx. cbn [tick_loop]. by rewrite !load8_store8_ne by lia. Qed.

(** The last call is [sys_exit], which does not return. *)
Definition exits (k : kernel) (c : cpu) : Prop :=
  let '(k1, sp) := interrupted k (load_regs c SYS_EXIT 0 (c_ecx c) (c_edx c)) 128 0 in
  syscall_outcome polls [] k1 sp = Some (Exits (sys_exit_yields k1)) /\ call1 k c SYS_EXIT 0 = None.

Lemma call_exit k c : in_task k -> in_ring3 c -> exits k c.
Proof.
  intros Hin Hc. pose proof Hin as (Ei & Et & En & _). unfold HEAP_END, HEAP_INITIAL, HEAP_START in Htop.
  unfold exits, _syscall1. set (c1 := load_regs c SYS_EXIT 0 (c_ecx c) (c_edx c)).
  assert (Hc1 : in_ring3 c1).
  { apply load_ring3; [done|]. destruct Hc as [[Hr _ _ _] _]. unfold SYS_EXIT. split_all. repeat (constructor; [done || lia|]). constructor. }
  unfold User.syscall, trap. rewrite statement_runs by (done || lia). cbn [mbind option_bind]. unfold interrupted. rewrite Et.
  pose proof (isr_entry_frame (ram (k_machine k)) top 128 0 c1 (proj1 Hc1) ltac:(lia) ltac:(lia)) as Hf.
  unfold entry_stack, frame_size in Hf. rewrite (proj2 Hc1) in Hf. specialize (Hf ltac:(lia)).
  destruct (isr_entry _ _ _ _ _) as [m sp]. destruct Hf as (-> & _ & Ev & _ & _ & Ea & _).
  set (k1 := with_k_machine k _).
  assert (Eo : syscall_outcome polls [] k1 (top - 64) = Some (Exits (sys_exit_yields k1))).
  { unfold syscall_outcome. change (f_eax (frame_of k1 (top - 64))) with (f_eax (frame_at m (top - 64))). by rewrite Ea. }
  split; [done|]. assert (E : isr_handler table k1 (top - 64) = None); [|by rewrite E].
  change (int80 polls [] (register_irqs s0) k1 (top - 64) = None). rewrite int80_handler; [|by rewrite register_irqs_length|done].
  unfold syscall_handler. by rewrite Eo.
Qed.

(** The texts with what the other tasks print before each and at the end. *)
Fixpoint weave (xs : list (list out_call)) (ts : list (list Z)) : list out_call :=
  match xs, ts with
  | x :: xs', t :: ts' => x ++ prints t ++ weave xs' ts'
  | x :: _, [] => x
  | [], _ => []
  end.

(** The texts for a running time that fits in 31 bits, in decimal. *)
Lemma demo_texts_decimal t e :
  0 <= t < 2 ^ 31 -> 0 <= e -> 48 + Z.rem (Z.quot (s32 t) (10 ^ e)) 10 = 48 + (t / 10 ^ e) mod 10.
Proof.
  intros Ht He. rewrite s32_small by lia. assert (Hp : 0 < 10 ^ e) by (apply Z.pow_pos_nonneg; lia).
  generalize dependent (10 ^ e). intros p Hp. assert (0 <= t / p) by (apply Z.div_pos; lia).
  rewrite Z.quot_div_nonneg by lia. by rewrite Z.rem_mod_nonneg by lia.
Qed.

(** A query that goes on with the next preemption point before it. *)
Lemma ask n k c num fn (r : kernel -> Z) :
  in_task k -> in_ring3 c -> 0 <= num < SYS_MAX -> syscall_table polls [] !! Z.to_nat num = Some (returning fn) ->
  (forall k1 sp, fn k1 sp = Some (s32 (r k1), k1)) -> (forall k1 w, r (with_k_machine k1 w) = r k1) ->
  exists x c' k', call0 (others n k) c num = Some (s32 (r (others n k)), c', k') /\ in_ring3 c' /\
    follows k (others n k) x /\ follows (others n k) k' [] /\ (quiet -> x = []).
Proof.
  intros Hk Hc Hn Hfn Hr Hw. destruct (others_ok n k Hk) as (x & Hf & Hq & _).
  destruct (call_query (others n k) c num fn r) as (k' & E & Hcd); [apply Hf|done|done|done|done|done|].
  exists x. eexists _, k'. split; [exact E|]. split.
  - apply load_ring3; [done|]. destruct Hc as [[Hreg _ _ _] _]. split_all.
    pose proof (u32_range (r (others n k))). repeat (constructor; [done|]). constructor.
  - split; [done|]. split; [|done]. by apply called_follows.
Qed.

Ltac bytes := repeat (constructor; [by compute|]); constructor.

Abbreviation hello := (bytes_of (line "[USER] Hello from Ring 3!")).
Abbreviation pid_text n := (bytes_of "[USER] PID=" ++ [48 + Z.rem n 10; 10]).
Abbreviation zeros := (bytes_of (line "[USER] Ticks=00000")).
Abbreviation tick_text n :=
  (bytes_of "[USER] Ticks=" ++ map (fun e => 48 + Z.rem (Z.quot n (10 ^ e)) 10) [4; 3; 2; 1; 0] ++ [10]).
Abbreviation exiting := (bytes_of (line "[USER] Exiting")).
Abbreviation array := (init_array v im others).
Abbreviation body := (user_demo_body polls w0 s0 v im msg1 pidmsg tmsg done_ others).
Abbreviation entry := (user_demo_entry polls w0 s0 v im msg1 pidmsg tmsg done_ others).

(** The first two texts. *)
Lemma demo_first_half k c :
  in_task k -> in_ring3 c -> 0 <= i < MAX_TASKS ->
  exists x1 x2 c1 ka k1 c2 k2 kb c3 k3,
    array 0 k msg1 (hello ++ [0]) = Some ka /\ call3 ka c SYS_WRITE 1 msg1 26 = Some (26, c1, k1) /\
    call0 (others 1 k1) c1 SYS_GETPID = Some (i, c2, k2) /\
    array 2 k2 pidmsg (pid_text i ++ [0]) = Some kb /\ call3 kb c2 SYS_WRITE 1 pidmsg 13 = Some (13, c3, k3) /\ in_ring3 c3 /\
    follows k k3 (x1 ++ prints hello ++ x2 ++ prints (pid_text i)) /\ (quiet -> x1 = [] /\ x2 = []).
Proof.
  intros Hk Hc Hi. destruct Harrays as (A1 & A2 & A3 & A4 & _).
  destruct (say_array 0 k c msg1 hello 26) as (x1 & c1 & ka & k1 & A & E1 & C1 & F1 & Q1); [done|done|done|done|lia|lia|bytes|].
  destruct (ask 1 k1 c1 SYS_GETPID sys_getpid (fun k => current (k_sched k))) as (x2 & c2 & k2 & E2 & C2 & G2 & F2 & Q2);
    [apply F1|done|by unfold SYS_GETPID|done|done|done|].
  rewrite (proj1 (proj1 G2)), s32_small in E2 by (unfold MAX_TASKS in Hi; lia). pose proof (rem_digit i) as Hd.
  destruct (say_array 2 k2 c2 pidmsg (pid_text i) 13) as (x3 & c3 & kb & k3 & B & E3 & C3 & F3 & Q3);
    [done|apply F2|done|done|lia|lia|apply Forall_app; split; [bytes|repeat (constructor; [lia|]); constructor]|].
  exists x1, (x2 ++ x3), c1, ka, k1, c2, k2, kb, c3, k3. do 6 (split; [done|]). split.
  - pose proof (follows_trans _ _ _ _ _ F1 (follows_trans _ _ _ _ _ G2 (follows_trans _ _ _ _ _ F2 F3))) as F.
    by rewrite <- !app_assoc in *.
  - intros Hq. by rewrite Q1, Q2, Q3.
Qed.

(** The array of the third text, the loop over its digits. *)
Definition with_ticks (k : kernel) (ticks : Z) : kernel :=
  with_k_machine k (set_ram (k_machine k) (tick_loop tmsg 5 (ram (k_machine k)) 17 ticks)).

(** The running time, read and written. *)
Lemma demo_ticks k c :
  in_task k -> in_ring3 c ->
  exists x t c1 k1 ka c2 k2, call0 (others 3 k) c SYS_UPTIME = Some (s32 t, c1, k1) /\ k_ticks k <= t <= k_ticks k2 /\
    array 4 k1 tmsg (zeros ++ [0]) = Some ka /\ statement v im ka (tmsg + 13) (tmsg + 18) = Some ka /\
    call3 (others 5 (with_ticks ka (s32 t))) c1 SYS_WRITE 1 tmsg 19 = Some (19, c2, k2) /\
    in_ring3 c2 /\ follows k k2 (x ++ prints (tick_text (s32 t))) /\ (quiet -> x = []).
Proof.
  intros Hk Hc. destruct Harrays as (_ & _ & _ & _ & A5 & A6 & _).
  destruct (ask 3 k c SYS_UPTIME sys_uptime k_ticks) as (x1 & c1 & k1 & E1 & C1 & G1 & F1 & Q1);
    [done|done|by unfold SYS_UPTIME|done|done|done|]. set (t := k_ticks (others 3 k)) in *.
  set (k0 := with_k_machine k1 (set_ram (k_machine k1) (store_bytes (ram (k_machine k1)) tmsg (zeros ++ [0])))).
  assert (F0 : follows k1 k0 []).
  { apply store_follows; [apply F1|]. eapply same_outside_mono; [..|apply store_bytes_outside]; [lia|].
    change (Z.of_nat (length (zeros ++ [0]))) with 20. lia. }
  destruct (others_ok 4 k0 (proj1 F0)) as (x2 & F2 & Q2 & S2). set (k2 := others 4 k0) in *.
  assert (Hz : bytes_at (ram (k_machine k2)) tmsg 19 = zeros).
  { rewrite (bytes_at_ext (ram (k_machine k0))) by (intros y Hy; apply S2; lia). apply (array_text _ tmsg zeros). bytes. }
  assert (F2' : follows k2 (with_ticks k2 (s32 t)) []).
  { apply store_follows; [apply F2|]. eapply same_outside_mono; [..|apply tick_loop_outside]; lia. }
  destruct (say 5 (with_ticks k2 (s32 t)) c1 tmsg (tick_text (s32 t)) 19) as (x3 & c3 & k3 & E3 & C3 & F3 & Q3);
    [done|apply F2'|done|done|lia|lia|by apply tick_bytes|].
  assert (A : array 4 k1 tmsg (zeros ++ [0]) = Some k2).
  { unfold init_array. rewrite statement_runs; [done|apply F1|lia|]. change (Z.of_nat (length (zeros ++ [0]))) with 20. lia. }
  exists (x1 ++ x2 ++ x3), t, c1, k1, k2, c3, k3. split; [done|]. split.
  { destruct G1 as (_ & _ & G1), F1 as (_ & _ & T1), F0 as (_ & _ & T0), F2 as (_ & _ & T2), F2' as (_ & _ & T2'), F3 as (_ & _ & T3). lia. }
  split; [done|]. split; [apply statement_runs; [apply F2|lia|lia]|]. split; [done|]. split; [done|]. split.
  - pose proof (follows_trans _ _ _ _ _ G1 (follows_trans _ _ _ _ _ F1 (follows_trans _ _ _ _ _ F0 (follows_trans _ _ _ _ _ F2
      (follows_trans _ _ _ _ _ F2' F3))))) as F. by rewrite <- !app_assoc in *.
  - intros Hq. by rewrite Q1, Q2, Q3.
Qed.

Lemma user_demo_runs k c :
  in_task k -> in_ring3 c -> 0 <= i < MAX_TASKS ->
  exists c' k' t xs, body k c = Some (c', k') /\ in_task k' /\ in_ring3 c' /\
    k_ticks k <= t <= k_ticks k' /\ con (k_machine k') = con (k_machine k) ++ weave xs (user_demo_texts i (s32 t)) /\
    length xs = 5%nat /\ (quiet -> Forall (eq []) xs).
Proof.
  intros Hk Hc Hi. pose proof Harrays as (_ & _ & _ & _ & _ & _ & A7 & A8). unfold user_demo_body. cbv zeta.
  destruct (demo_first_half k c Hk Hc Hi) as (x1 & x2 & c1 & ka & k1 & c2 & k2 & kb & c3 & k3 & A1 & E1 & E2 & A2 & E3 & C3 & F3 & Q3).
  rewrite A1. cbn [mbind option_bind]. rewrite E1. cbn [mbind option_bind]. rewrite E2. cbn [mbind option_bind].
  change (bytes_of "[USER] PID=" ++ [48 + Z.rem i 10; 10; 0]) with (pid_text i ++ [0]).
  rewrite A2. cbn [mbind option_bind]. rewrite E3. cbn [mbind option_bind].
  destruct (demo_ticks k3 c3 (proj1 F3) C3) as (x3 & t & c4 & k4 & kc & c5 & k5 & E4 & Ht & A4 & S4 & E5 & C5 & F5 & Q5).
  rewrite E4. cbn [mbind option_bind]. rewrite A4. cbn [mbind option_bind]. rewrite S4. cbn [mbind option_bind].
  fold (with_ticks kc (s32 t)). rewrite E5. cbn [mbind option_bind].
  destruct (say_array 6 k5 c5 done_ exiting 15) as (x4 & c6 & kd & k6 & A6 & E6 & C6 & F6 & Q6); [done|apply F5|done|done|lia|lia|bytes|].
  rewrite A6. cbn [mbind option_bind]. rewrite E6. cbn [mbind option_bind]. destruct (others_ok 7 k6 (proj1 F6)) as (x5 & F7 & Q7 & _).
  pose proof (follows_trans _ _ _ _ _ F3 (follows_trans _ _ _ _ _ F5 (follows_trans _ _ _ _ _ F6 F7))) as (Hk' & Hcon & _).
  exists c6, (others 7 k6), t, [x1; x2; x3; x4; x5]. split; [done|]. split; [done|]. split; [done|]. split.
  { destruct F3 as (_ & _ & T3), F6 as (_ & _ & T6), F7 as (_ & _ & T7). lia. }
  split; [|split; [done|]].
  - rewrite Hcon. cbn [weave user_demo_texts]. by rewrite <- !app_assoc.
  - intros Hq. destruct (Q3 Hq) as [-> ->]. rewrite (Q5 Hq), (Q6 Hq), (Q7 Hq). repeat (constructor; [done|]). constructor.
Qed.

(** With one page of the stack frame closed (its top page, say) the program faults at
    its first statement or at its first call. *)
Lemma user_demo_faults k c p pg :
  vmm_inv (ram (k_machine k)) p v -> off_heap (ram (k_machine k)) p v ->
  ulo / PAGE_SIZE <= pg <= (uhi - 1) / PAGE_SIZE -> ring3_page v (ram (k_machine k)) true pg = false ->
  (forall n k, ring3_page v (ram (k_machine k)) true pg = false ->
     ring3_page v (ram (k_machine (others n k))) true pg = false) ->
  body k c = None.
Proof.
  intros Hv Hoff Hpg Hcl Ho. unfold user_demo_body, init_array. destruct (statement v im k msg1 _) as [k0|] eqn:E0; [|done].
  unfold statement in E0. destruct (_ && _) in E0; [|done]. injection E0 as <-. cbn [mbind option_bind].
  set (k1 := others 0 _). assert (E : statement v im k1 ulo uhi = None); [|unfold _syscall3, User.syscall; by rewrite E].
  unfold statement. assert (E : ring3_may v (ram (k_machine k1)) true ulo uhi = false); [|by rewrite E, andb_false_r].
  apply not_true_iff_false. rewrite ring3_may_spec. intros H. specialize (H pg Hpg).
  unfold k1 in H. rewrite Ho in H; [done|]. cbn [k_machine with_k_machine ram set_ram].
  set (m' := store_bytes _ _ _). assert (Hm : same_outside HEAP_START HEAP_END (ram (k_machine k)) m').
  { eapply same_outside_mono; [..|apply store_bytes_outside]; [lia|].
    match goal with |- context [length ?l] => change (Z.of_nat (length l)) with 27 end. lia. }
  destruct (vmm_inv_heap _ m' p v Hv Hoff Hm) as (Hv' & _ & Hw). unfold HEAP_END, HEAP_INITIAL, HEAP_START, PAGE_SIZE in *.
  assert (Hr : 0 <= pg < 2 ^ 20) by dlia.
  unfold ring3_page in *. by rewrite (translation_walk m' p), Hw, <- (translation_walk _ p) by done.
Qed.

(** C10: the demonstration program, run in ring 3 through the whole path of a system
    call (the stubs, the dispatcher, the kernel's functions and the scheduler) and
    preempted between its statements in any way that gives it its task and its stack
    back, when the pages of its code are open to ring 3 and those of its stack frame
    open and writable, and stay so (the calls themselves keep them so).  No
    statement faults and the program reaches its end; the screen has got its four texts, in
    order, each in one piece, with what other tasks print only in between and
    nothing at all when they print nothing; the second gives the last decimal digit
    of the task's number, the third the running time at some moment of the run, in five
    decimal digits as long as it is below 2^31 ticks.  The last call is [sys_exit],
    from which the program does not come back.
    The open stack is a condition that [task_create_user] does not always
    establish ([task_create_user_stack_top_closed]); without it the program faults
    ([user_demo_faults]). *)
Theorem user_demo_correct k c
  (Hk : in_task k) (Hc : in_ring3 c) (Hi : 0 <= i < MAX_TASKS) (Ht : 0 <= k_ticks k) :
  exists c' k' t xs, body k c = Some (c', k') /\
    in_task k' /\ in_ring3 c' /\ k_ticks k <= t <= k_ticks k' /\ length xs = 5%nat /\
    con (k_machine k') = con (k_machine k) ++ weave xs (user_demo_texts i (s32 t)) /\
    (quiet -> con (k_machine k') = con (k_machine k) ++ prints (concat (user_demo_texts i (s32 t)))) /\
    (t < 2 ^ 31 -> user_demo_texts i (s32 t) !! 2%nat =
      Some (bytes_of "[USER] Ticks=" ++ map (fun e => 48 + (t / 10 ^ e) mod 10) [4; 3; 2; 1; 0] ++ [10])) /\
    exits k' c' /\ entry k c = None.
Proof.
  destruct (user_demo_runs k c Hk Hc Hi) as (c' & k' & t & xs & E & Hk' & Hc' & Htk & Hcon & Hl & Hq).
  exists c', k', t, xs. do 6 (split; [done|]). split; [|split; [|split; [by apply call_exit|]]].
  - intros Hqu. rewrite Hcon. specialize (Hq Hqu). do 6 (destruct xs as [|? xs]; try discriminate Hl).
    split_all. subst. cbn [weave user_demo_texts app concat]. unfold prints. by rewrite !map_app, app_nil_r.
  - intros Ht31. cbn [user_demo_texts lookup list_lookup map]. by rewrite !(demo_texts_decimal t) by lia.
  - unfold user_demo_entry. rewrite E. cbn [mbind option_bind]. pose proof (call_exit k' c' Hk' Hc') as He. unfold exits in He.
    destruct (interrupted _ _ _ _). apply He.
Qed.
End demo.

(** ** An instance *)

(** Another task prints a dot whenever the program is preempted, for three ticks. *)
Definition demo_others (n : nat) (k : kernel) : kernel :=
  Kernel (emit (k_machine k) [VgaPutchar 46]) (k_io k) (k_ticks k + 3) (k_kbd k) (k_sched k) (k_gdt k) (k_heap k).
Definition demo_user_cpu : cpu :=
  Cpu 0 0 0 0 0 0 0 0x210F00 0x101000 0x202 GDT_USER_CODE_SEL GDT_USER_DATA_SEL
    GDT_USER_DATA_SEL GDT_USER_DATA_SEL GDT_USER_DATA_SEL GDT_USER_DATA_SEL.

(** 4 MB of memory with the frames above the heap free, paging on, and the page of
    the code and that of the stack frame opened to ring 3. *)
Definition demo_user_pmm : pmm := Pmm 0x100000 1024 768 0x400000 0x400000.
Definition demo_user_ram : memory := fill_bitmap 24 ∅ 0x100000.
Definition demo_user_paged : memory * pmm * vmm :=
  let '(_, w, p, v) := vmm_init (Machine demo_user_ram []) demo_user_pmm demo_vmm in (ram w, p, v).
Definition demo_user_code : memory * vmm :=
  let '(_, m, v) := vmm_set_user demo_user_paged.1.1 demo_user_paged.2 0x101000 in (m, v).
Definition demo_user_open : memory * vmm :=
  let '(_, m, v) := vmm_set_user demo_user_code.1 demo_user_code.2 0x210000 in (m, v).
Definition demo_image : image := Image 0x101000 0x101400 0x210E00 0x211000.
Definition demo_user : kernel :=
  Kernel (Machine demo_user_open.1 []) (Io [] []) 1234 demo_kbd (set_current demo_sched3 2) (tss_set_esp0 gdt_boot 0x221000)
    demo_heap.2.

Lemma demo_user_ready : vmm_ready demo_user_ram demo_user_pmm demo_vmm.
Proof.
  assert (Hlow : forall f, frame_free demo_user_ram demo_user_pmm f -> 768 <= f).
  { intros f [Hf Hb]. destruct (Z_le_gt_dec 768 f); [done|].
    rewrite (forallb_below (bitmap_test demo_user_ram demo_user_pmm) 768) in Hb; [done|by vm_compute|lia]. }
  split; [split; [done|vm_compute; reflexivity]|done|done|done| |right; vm_compute; discriminate].
  intros f Hf. specialize (Hlow f Hf). split; [lia|]. unfold kernel_frame, bitmap_end, PAGE_SIZE.
  change (bitmap_bytes (total_frames demo_user_pmm)) with 128. cbn [frame_bitmap page_directory demo_user_pmm demo_vmm].
  change (0x1FF000 / 4096) with 511. lia.
Qed.

Definition demo_user_check (r : Z * machine * pmm * vmm) : bool :=
  let '(rc, w, p, v) := r in
  (rc =? 0) && (bitmap_end p <=? HEAP_START) && (HEAP_END <=? table (ram w) v 0 * PAGE_SIZE).

Lemma demo_user_paging :
  vmm_inv demo_user_paged.1.1 demo_user_paged.1.2 demo_user_paged.2 /\
  off_heap demo_user_paged.1.1 demo_user_paged.1.2 demo_user_paged.2.
Proof.
  assert (Hc : demo_user_check (vmm_init (Machine demo_user_ram []) demo_user_pmm demo_vmm) = true) by (vm_compute; reflexivity).
  pose proof (vmm_init_cases (Machine demo_user_ram []) demo_user_pmm demo_vmm demo_user_ready ltac:(cbn; lia)) as H.
  assert (Hn : num_pde (total_memory demo_user_pmm) = 1) by (vm_compute; reflexivity).
  rewrite Hn in H. clear Hn. unfold demo_user_paged.
  destruct (vmm_init (Machine demo_user_ram []) demo_user_pmm demo_vmm) as [[[rc w] p] v]. unfold demo_user_check in Hc.
  apply andb_prop in Hc as [Hc Ht]. apply andb_prop in Hc as [Hr Hb]. apply Z.eqb_eq in Hr. apply Z.leb_le in Hb, Ht.
  cbn [fst snd]. destruct H as (Hv & Epd & [(_ & _ & _ & _ & _ & _ & Hp & _)|[E _]]); [|rewrite Hr in E; discriminate E].
  split; [exact Hv|]. split; [left; rewrite Epd; vm_compute; discriminate|left; exact Hb|].
  intros i Hi Hpi. rewrite Hp in Hpi by exact Hi. assert (i = 0) as -> by lia. right. exact Ht.
Qed.

Lemma demo_user_opened : open_to_ring3 demo_user_open.2 demo_image (ram (k_machine demo_user)).
Proof.
  split; [|split; vm_compute; reflexivity]. destruct demo_user_paging as [Hv Ho]. exists demo_user_paged.1.2.
  cbn [demo_user k_machine ram]. unfold demo_user_open, demo_user_code.
  destruct (set_user_cases _ _ _ 0x101000 Hv ltac:(lia)) as (m1 & v1 & E1 & Hv1 & _).
  pose proof (set_user_range HEAP_START HEAP_END _ _ _ 0x101000 Hv Ho ltac:(lia)) as R1. rewrite E1 in R1 |- *. cbn [fst snd].
  destruct (set_user_cases _ _ _ 0x210000 Hv1 ltac:(lia)) as (m2 & v2 & E2 & Hv2 & _).
  pose proof (set_user_range HEAP_START HEAP_END _ _ _ 0x210000 Hv1 (proj2 R1) ltac:(lia)) as R2. rewrite E2 in R2 |- *.
  by split; [|apply R2].
Qed.

Abbreviation demo_run f :=
  (f 0%nat (Machine ∅ []) demo_idt demo_user_open.2 demo_image 0x210E00 0x210E20 0x210E40 0x210E60 demo_others demo_user demo_user_cpu).

Lemma user_demo_correct_witness :
  demo_run user_demo_entry = None /\ exists c' k', demo_run user_demo_body = Some (c', k').
Proof.
  destruct (user_demo_correct 0 (Machine ∅ []) demo_idt eq_refl 2 0x221000 ltac:(by vm_compute) demo_user_open.2 demo_image
    ltac:(by vm_compute) ltac:(by vm_compute) ltac:(by vm_compute) ltac:(cbn; lia)
    0x210E00 0x210E20 0x210E40 0x210E60 demo_others ltac:(cbn; lia)) with (k := demo_user) (c := demo_user_cpu)
    as (c' & k' & t & xs & E & _ & _ & _ & _ & _ & _ & _ & _ & En).
  - intros n k (E1 & E2 & E3). exists [VgaPutchar 46]. split; [|done]. split; [done|]. split; [done|cbn; lia].
  - do 3 (split; [done|]). apply demo_user_opened.
  - split; [|done]. split; [| |done|done]; unfold demo_user_cpu, GDT_USER_CODE_SEL, GDT_USER_DATA_SEL;
      repeat (constructor; [cbn; lia|]); constructor.
  - by unfold MAX_TASKS.
  - done.
  - split; [exact En|]. by exists c', k'.
Defined.
