(* ===== verification/Ramfs.v ===== *)
(** * [kernel/fs/ramfs.c]: the in-memory filesystem

    A node ([vfs_node_t]) or file payload ([ramfs_file_t]) is identified by the
    address [kmalloc] returned for it; the store maps addresses to records with
    the fields of the structs, so two pointers to a node are one node.  The
    bytes of the files are in memory, in the buffers [kmalloc] gave.  Strings
    are the bytes before their terminator, and [strcmp] on them is equality
    ([CString.strcmp_correct]).

    The filesystem is written over [AllocOps] and proved against [AllocLaws].
    [None] is a call that does not return: [ensure_capacity] doubles without
    bound for sizes above 2^31, and a walk over a cyclic list would not end. *)
From stdpp Require Import base numbers list gmap strings.
From Stdlib Require Import ZArith Lia.
From S2P Require Import Prelude.
From S2P Require Import Machine.
From S2P Require Import CString.
From S2P Require Import Alloc.
From S2P Require Import Heap.

Definition VFS_NAME_MAX : Z := 64.
Definition VFS_FILE : Z := 1.
Definition VFS_DIRECTORY : Z := 2.

Definition sizeof_node : Z := 96.
Definition sizeof_file : Z := 8.

Record vnode := Node {
  n_name : list Z;
  n_flags : Z;
  n_size : Z;
  n_inode : Z;
  n_ops : bool;
  n_fs_data : Z;
  n_parent : Z;
  n_children : Z;
  n_next : Z;
}.

Record rfile := File {
  f_data : Z;
  f_capacity : Z;
}.

Record ramfs := Ramfs {
  nodes : gmap Z vnode;
  files : gmap Z rfile;
  next_inode : Z;
}.

Definition zero_node : vnode := Node [] 0 0 0 false 0 0 0 0.
Definition zero_file : rfile := File 0 0.

Definition node_at (fs : ramfs) (a : Z) : vnode := default zero_node (nodes fs !! a).
Definition file_at (fs : ramfs) (a : Z) : rfile := default zero_file (files fs !! a).

Definition set_node (fs : ramfs) (a : Z) (n : vnode) : ramfs :=
  {| nodes := <[a := n]> (nodes fs); files := files fs; next_inode := next_inode fs |}.
Definition set_file (fs : ramfs) (a : Z) (f : rfile) : ramfs :=
  {| nodes := nodes fs; files := <[a := f]> (files fs); next_inode := next_inode fs |}.
Definition set_next_inode (fs : ramfs) (i : Z) : ramfs :=
  {| nodes := nodes fs; files := files fs; next_inode := i |}.

Definition with_size (n : vnode) (s : Z) : vnode :=
  {| n_name := n_name n; n_flags := n_flags n; n_size := s; n_inode := n_inode n; n_ops := n_ops n;
     n_fs_data := n_fs_data n; n_parent := n_parent n; n_children := n_children n; n_next := n_next n |}.
Definition with_links (n : vnode) (parent next : Z) : vnode :=
  {| n_name := n_name n; n_flags := n_flags n; n_size := n_size n; n_inode := n_inode n;
     n_ops := n_ops n; n_fs_data := n_fs_data n; n_parent := parent; n_children := n_children n;
     n_next := next |}.
Definition with_children (n : vnode) (c : Z) : vnode :=
  {| n_name := n_name n; n_flags := n_flags n; n_size := n_size n; n_inode := n_inode n;
     n_ops := n_ops n; n_fs_data := n_fs_data n; n_parent := n_parent n; n_children := c;
     n_next := n_next n |}.

Definition is_file (n : vnode) : bool := has_flag (n_flags n) VFS_FILE.
Definition is_dir (n : vnode) : bool := has_flag (n_flags n) VFS_DIRECTORY.

Section ramfs.
Context {H : Type} `{AllocOps H}.

(** [alloc_node]: the address of the new node, or 0. *)
Definition alloc_node (w : machine) (h : H) (fs : ramfs) (name : list Z) (flags : Z)
  : option (Z * machine * H * ramfs) :=
  '(a, w1, h1) ← kmalloc_op w h sizeof_node;
  if a =? 0 then Some (0, w1, h1, fs)
  else
    let stored := take (Z.to_nat (VFS_NAME_MAX - 1)) name in
    let n := {| n_name := stored; n_flags := flags; n_size := 0; n_inode := next_inode fs;
                n_ops := true; n_fs_data := 0; n_parent := 0; n_children := 0; n_next := 0 |} in
    let fs1 := set_next_inode (set_node fs a n) (next_inode fs +₃₂ 1) in
    if has_flag flags VFS_FILE then
      '(fd, w2, h2) ← kmalloc_op w1 h1 sizeof_file;
      let fs2 := if negb (fd =? 0) then set_file fs1 fd zero_file else fs1 in
      let n' := {| n_name := stored; n_flags := flags; n_size := 0; n_inode := next_inode fs;
                   n_ops := true; n_fs_data := fd; n_parent := 0; n_children := 0; n_next := 0 |} in
      Some (a, w2, h2, set_node fs2 a n')
    else Some (a, w1, h1, fs1).

(** [while (new_cap < needed) new_cap *= 2;] *)
Fixpoint grow (fuel : nat) (new_cap needed : Z) : option Z :=
  if new_cap <? needed then
    match fuel with
    | O => None
    | S fuel' => grow fuel' (new_cap *₃₂ 2) needed
    end
  else Some new_cap.

(** Doublings after which the loop has ended, if it ever does. *)
Definition GROW_FUEL : nat := 32.

Definition ensure_capacity (w : machine) (h : H) (fs : ramfs) (fa needed : Z)
  : option (bool * machine * H * ramfs) :=
  let f := file_at fs fa in
  if needed <=? f_capacity f then Some (true, w, h, fs)
  else
    new_cap ← grow GROW_FUEL (if negb (f_capacity f =? 0) then f_capacity f else 64) needed;
    '(new_data, w1, h1) ← kmalloc_op w h new_cap;
    if new_data =? 0 then Some (false, w1, h1, fs)
    else
      '(w2, h2) ←
        (if negb (f_data f =? 0) then
           kfree_op (set_ram w1 (memcpy (ram w1) new_data (f_data f) (Z.to_nat (f_capacity f))))
             h1 (f_data f)
         else Some (w1, h1));
      let m3 := memset (ram w2) (new_data + f_capacity f) 0 (Z.to_nat (new_cap - f_capacity f)) in
      Some (true, set_ram w2 m3, h2, set_file fs fa {| f_data := new_data; f_capacity := new_cap |}).

Definition ramfs_read (w : machine) (fs : ramfs) (node off size buf : Z) : Z * machine :=
  let n := node_at fs node in
  if negb (is_file n) then (-1, w)
  else if n_fs_data n =? 0 then (-1, w)
  else
    let f := file_at fs (n_fs_data n) in
    if off >=? n_size n then (0, w)
    else
      let avail := n_size n - off in
      let size := if size >? avail then avail else size in
      if negb (f_data f =? 0)
      then (s32 size, set_ram w (memcpy (ram w) buf (f_data f + off) (Z.to_nat size)))
      else (s32 size, w).

Definition ramfs_write (w : machine) (h : H) (fs : ramfs) (node off size buf : Z)
  : option (Z * machine * H * ramfs) :=
  let n := node_at fs node in
  if negb (is_file n) then Some (-1, w, h, fs)
  else if n_fs_data n =? 0 then Some (-1, w, h, fs)
  else
    let end_ := off +₃₂ size in
    '(ok, w1, h1, fs1) ← ensure_capacity w h fs (n_fs_data n) end_;
    if negb ok then Some (-1, w1, h1, fs1)
    else
      let f := file_at fs1 (n_fs_data n) in
      let m2 := memcpy (ram w1) (f_data f + off) buf (Z.to_nat size) in
      let n1 := node_at fs1 node in
      let fs2 := if end_ >? n_size n1 then set_node fs1 node (with_size n1 end_) else fs1 in
      Some (s32 size, set_ram w1 m2, h1, fs2).

(** The children list from [c]. *)
Fixpoint find_child (fuel : nat) (fs : ramfs) (c : Z) (name : list Z) : option Z :=
  match fuel with
  | O => None
  | S fuel' =>
      if c =? 0 then Some 0
      else if bool_decide (n_name (node_at fs c) = name) then Some c
      else find_child fuel' fs (n_next (node_at fs c)) name
  end.

(** One more step than there are nodes. *)
Definition walk_fuel (fs : ramfs) : nat := S (size (nodes fs)).

Definition ramfs_lookup (fs : ramfs) (dir : Z) (name : list Z) : option Z :=
  if negb (is_dir (node_at fs dir)) then Some 0
  else find_child (walk_fuel fs) fs (n_children (node_at fs dir)) name.

Fixpoint readdir_loop (fuel : nat) (fs : ramfs) (c i index : Z) : option (option (list Z * Z)) :=
  match fuel with
  | O => None
  | S fuel' =>
      if c =? 0 then Some None
      else if i =? index then Some (Some (n_name (node_at fs c), n_flags (node_at fs c)))
      else readdir_loop fuel' fs (n_next (node_at fs c)) (i +₃₂ 1) index
  end.

(** The name and type written out, or [None] for the error result -1. *)
Definition ramfs_readdir (fs : ramfs) (dir index : Z) : option (option (list Z * Z)) :=
  if negb (is_dir (node_at fs dir)) then Some None
  else readdir_loop (walk_fuel fs) fs (n_children (node_at fs dir)) 0 index.

Definition ramfs_create (w : machine) (h : H) (fs : ramfs) (parent : Z) (name : list Z) (flags : Z)
  : option (Z * machine * H * ramfs) :=
  if negb (is_dir (node_at fs parent)) then Some (0, w, h, fs)
  else
    found ← ramfs_lookup fs parent name;
    if negb (found =? 0) then Some (0, w, h, fs)
    else
      '(a, w1, h1, fs1) ← alloc_node w h fs name flags;
      if a =? 0 then Some (0, w1, h1, fs1)
      else
        let fs2 := set_node fs1 a
          (with_links (node_at fs1 a) parent (n_children (node_at fs1 parent))) in
        let fs3 := set_node fs2 parent (with_children (node_at fs2 parent) a) in
        Some (a, w1, h1, fs3).
End ramfs.

(** ** Specification *)

(** Two stores with the same nodes up to the sizes of the files: the same tree of
    names. *)
Definition same_tree (fs fs' : ramfs) : Prop :=
  (fun n => with_size n 0) <$> nodes fs = (fun n => with_size n 0) <$> nodes fs'.

#[export] Instance same_tree_equiv : Equivalence same_tree.
Proof. split; unfold same_tree; repeat intro; congruence. Qed.

Lemma same_tree_node fs fs' a : same_tree fs fs' -> with_size (node_at fs a) 0 = with_size (node_at fs' a) 0.
Proof.
  intros E. apply (f_equal (.!! a)) in E. rewrite !lookup_fmap in E. unfold node_at.
  destruct (nodes fs !! a), (nodes fs' !! a); cbn in *; congruence.
Qed.

Lemma same_tree_set_size fs fs' a n s :
  nodes fs !! a = Some n -> nodes fs' = <[a := with_size n s]> (nodes fs) -> same_tree fs fs'.
Proof.
  intros Hn E. unfold same_tree. rewrite E, fmap_insert. symmetry. apply insert_id. by rewrite lookup_fmap, Hn.
Qed.

(** Lookups depend on the tree only. *)
#[export] Instance find_child_proper fuel : Proper (same_tree ==> eq ==> eq ==> eq) (find_child fuel).
Proof.
  intros fs fs' E c ? <- name ? <-. revert c. induction fuel as [|fuel IH]; intros c; [done|]. cbn [find_child].
  pose proof (same_tree_node _ _ c E) as [= -> _ _ _ _ _ _ ->]. by rewrite IH.
Qed.

#[export] Instance ramfs_lookup_proper : Proper (same_tree ==> eq ==> eq ==> eq) ramfs_lookup.
Proof.
  intros fs fs' E d ? <- name ? <-. unfold ramfs_lookup, is_dir, walk_fuel.
  pose proof (same_tree_node _ _ d E) as [= _ -> _ _ _ _ -> _].
  replace (size (nodes fs)) with (size (nodes fs')); [by rewrite E|].
  apply (f_equal size) in E. by rewrite !map_size_fmap in E.
Qed.

(** The sibling list from [c]. *)
Fixpoint siblings (fs : ramfs) (c : Z) (l : list Z) : Prop :=
  match l with
  | [] => c = 0
  | x :: l' => c = x /\ x <> 0 /\ is_Some (nodes fs !! x) /\ siblings fs (n_next (node_at fs x)) l'
  end.

(** A directory's children, most recent first. *)
Definition dir_list (fs : ramfs) (d : Z) (l : list Z) : Prop :=
  siblings fs (n_children (node_at fs d)) l.

(** The first node of the list with the name, or 0. *)
Definition first_named (fs : ramfs) (name : list Z) (l : list Z) : Z :=
  default 0 (list_find (fun x => n_name (node_at fs x) = name) l ≫= fun p => Some p.2).

(** The byte at offset [i] of a file payload's buffer. *)
Definition byte_at (m : memory) (f : rfile) (i : Z) : Z := load8 m (f_data f + i).

(** The filesystem's invariant, over the live payloads [lv]: nodes and payloads
    are live; a file's buffer is a live payload of its own, at least as large as
    the capacity, and the file's size does not exceed it; every directory's
    children form a list. *)
Record fs_inv (fs : ramfs) (lv : list (Z * Z)) : Prop := {
  inv_node_live : forall a n, nodes fs !! a = Some n -> exists k, In (a, k) lv;
  inv_file_live : forall a f, files fs !! a = Some f -> exists k, In (a, k) lv;
  inv_buffer : forall a f, files fs !! a = Some f ->
    (f_data f = 0 /\ f_capacity f = 0) \/
    (0 < f_capacity f < 2 ^ 32 /\ exists k, In (f_data f, k) lv /\ f_capacity f <= k);
  inv_buffer_own : forall a f, files fs !! a = Some f -> f_data f <> 0 ->
    nodes fs !! f_data f = None /\ files fs !! f_data f = None /\
    forall b g, files fs !! b = Some g -> f_data g = f_data f -> b = a;
  inv_size : forall a n, nodes fs !! a = Some n -> n_fs_data n <> 0 ->
    exists f, files fs !! n_fs_data n = Some f /\ 0 <= n_size n <= f_capacity f;
  inv_payload_own : forall a b n n', nodes fs !! a = Some n -> nodes fs !! b = Some n' ->
    n_fs_data n <> 0 -> n_fs_data n = n_fs_data n' -> a = b;
  inv_dirs : forall a n, nodes fs !! a = Some n -> exists l, siblings fs (n_children n) l;
}.

(** ** Growing *)

Lemma grow_ok fuel c needed :
  0 < c -> needed <= 2 ^ 30 -> c < needed -> needed <= c * 2 ^ Z.of_nat fuel ->
  exists c', grow fuel c needed = Some c' /\ needed <= c' /\ c < c' < 2 * needed.
Proof.
  revert c. induction fuel as [|fuel IH]; intros c Hc Hn Hlt Hf; cbn [grow];
    destruct (Z.ltb_spec c needed); try lia.
  rewrite u32_small by lia. rewrite Nat2Z.inj_succ, Z.pow_succ_r in Hf by lia.
  destruct (Z_lt_ge_dec (c * 2) needed) as [Hl|Hge].
  - destruct (IH (c * 2)) as (c' & -> & Hc1 & Hc2); try lia. exists c'. split; [done|]. lia.
  - exists (c * 2). split; [|lia]. destruct fuel; cbn [grow];
      (destruct (Z.ltb_spec (c * 2) needed); [lia|done]).
Qed.

(** Above 2^31 the doubling wraps to zero and never ends. *)
Lemma grow_zero fuel needed : 0 < needed -> grow fuel 0 needed = None.
Proof.
  intros Hn. induction fuel as [|fuel IH]; cbn [grow]; destruct (Z.ltb_spec 0 needed); try lia; done.
Qed.

Lemma grow_diverges fuel k needed :
  0 <= k <= 31 -> 2 ^ 31 < needed -> grow fuel (2 ^ k) needed = None.
Proof.
  revert k. induction fuel as [|fuel IH]; intros k Hk Hn; cbn [grow];
    (assert (2 ^ k <= 2 ^ 31) by (apply Z.pow_le_mono_r; lia));
    (destruct (Z.ltb_spec (2 ^ k) needed); [|lia]); [done|].
  replace (2 ^ k * 2) with (2 ^ (k + 1)) by (rewrite Z.pow_add_r by lia; lia).
  destruct (Z.eq_dec k 31) as [->|].
  - change (u32 (2 ^ (31 + 1))) with 0. apply grow_zero. lia.
  - rewrite u32_small; [apply IH; lia|]. split; [lia|]. apply Z.pow_lt_mono_r; lia.
Qed.

(** ** The store *)

Lemma node_at_set fs a n b : node_at (set_node fs a n) b = if b =? a then n else node_at fs b.
Proof.
  unfold node_at, set_node. cbn [nodes]. destruct (Z.eqb_spec b a) as [->|].
  - by rewrite lookup_insert_eq.
  - by rewrite lookup_insert_ne.
Qed.

Lemma node_at_Some fs a n : nodes fs !! a = Some n -> node_at fs a = n.
Proof. unfold node_at. by intros ->. Qed.

Lemma file_at_Some fs a f : files fs !! a = Some f -> file_at fs a = f.
Proof. unfold file_at. by intros ->. Qed.

(** ** Lists of siblings *)

Lemma siblings_inj fs c l1 l2 : siblings fs c l1 -> siblings fs c l2 -> l1 = l2.
Proof.
  revert c l2. induction l1 as [|x l1 IH]; intros c [|y l2]; cbn [siblings].
  - done.
  - intros -> (<- & ? & _). done.
  - intros (-> & ? & _) ->. done.
  - intros (-> & _ & _ & H1) (<- & _ & _ & H2). f_equal. by eapply IH.
Qed.

Lemma siblings_suffix fs c l1 x l2 :
  siblings fs c (l1 ++ x :: l2) -> siblings fs x (x :: l2).
Proof.
  revert c. induction l1 as [|y l1 IH]; intros c; cbn [app].
  - by intros (-> & ? & ? & ?).
  - intros (_ & _ & _ & Hs). by eapply IH.
Qed.

Lemma siblings_NoDup fs c l : siblings fs c l -> NoDup l.
Proof.
  revert c. induction l as [|x l IH]; intros c Hs; [constructor|]. constructor.
  - intros Hin. apply list_elem_of_split in Hin as (l1 & l2 & ->).
    pose proof (siblings_suffix fs c [] x _ Hs) as H1.
    pose proof (siblings_suffix fs c (x :: l1) x l2 Hs) as H2.
    pose proof (siblings_inj _ _ _ _ H1 H2) as E. injection E as E.
    apply (f_equal length) in E. rewrite length_app in E. cbn in E. lia.
  - destruct Hs as (_ & _ & _ & Hs). by eapply IH.
Qed.

Lemma siblings_nodes fs c l x : siblings fs c l -> In x l -> is_Some (nodes fs !! x) /\ x <> 0.
Proof.
  revert c. induction l as [|y l IH]; intros c; cbn [siblings In]; [done|].
  intros (_ & Hy & Hn & Hs) [->|Hin]; [done|by eapply IH].
Qed.

Lemma siblings_fuel fs c l : siblings fs c l -> (length l < walk_fuel fs)%nat.
Proof.
  intros Hs. unfold walk_fuel.
  pose proof (siblings_NoDup _ _ _ Hs) as Hnd.
  assert (Hle : (size (list_to_set l : gset Z) <= size (dom (nodes fs)))%nat).
  { apply subseteq_size. intros x Hx. rewrite elem_of_list_to_set in Hx.
    apply elem_of_dom. apply list_elem_of_In in Hx. by eapply siblings_nodes. }
  rewrite size_list_to_set in Hle by done. rewrite size_dom in Hle. lia.
Qed.

(** Nodes outside the list, and fields other than [next], do not matter. *)
Lemma siblings_ext fs fs' c l :
  (forall x, In x l -> is_Some (nodes fs' !! x) /\ n_next (node_at fs' x) = n_next (node_at fs x)) ->
  siblings fs c l -> siblings fs' c l.
Proof.
  revert c. induction l as [|x l IH]; intros c He; cbn [siblings]; [done|].
  intros (-> & Hx & _ & Hs). destruct (He x) as [H1 H2]; [by left|].
  split; [done|]. split; [done|]. split; [done|]. rewrite H2. apply IH; [|done].
  intros y Hy. apply He. by right.
Qed.

Lemma find_child_ok fuel fs c l name :
  siblings fs c l -> (length l < fuel)%nat -> find_child fuel fs c name = Some (first_named fs name l).
Proof.
  revert c fuel. induction l as [|x l IH]; intros c fuel Hs Hf;
    (destruct fuel as [|fuel]; [cbn in Hf; lia|]); cbn [find_child siblings] in *.
  - by rewrite Hs.
  - destruct Hs as (-> & Hx & _ & Hs). destruct (Z.eqb_spec x 0); [done|].
    unfold first_named. cbn [list_find]. case_bool_decide as Hn.
    + rewrite decide_True by done. done.
    + rewrite decide_False by done. rewrite (IH _ fuel Hs) by (cbn in Hf; lia).
      unfold first_named. by destruct (list_find _ l) as [[k y]|].
Qed.

Lemma readdir_loop_ok fuel fs c l i index :
  siblings fs c l -> (length l < fuel)%nat -> 0 <= i -> i + Z.of_nat (length l) < 2 ^ 32 ->
  readdir_loop fuel fs c i index =
    Some (if i <=? index
          then x ← l !! Z.to_nat (index - i); Some (n_name (node_at fs x), n_flags (node_at fs x))
          else None).
Proof.
  revert c fuel i. induction l as [|x l IH]; intros c fuel i Hs Hf Hi Hb;
    (destruct fuel as [|fuel]; [cbn in Hf; lia|]); cbn [readdir_loop siblings] in *.
  - rewrite Hs. destruct (i <=? index); [|done]. by destruct (Z.to_nat (index - i)).
  - destruct Hs as (-> & Hx & _ & Hs). destruct (Z.eqb_spec x 0); [done|].
    cbn [length] in Hf, Hb. destruct (Z.eqb_spec i index) as [->|Hne].
    + rewrite Z.leb_refl, Z.sub_diag. done.
    + rewrite u32_small by lia. rewrite (IH _ fuel (i + 1) Hs) by lia.
      destruct (Z.leb_spec (i + 1) index), (Z.leb_spec i index); try lia; [|done].
      replace (Z.to_nat (index - i)) with (S (Z.to_nat (index - (i + 1)))) by lia. done.
Qed.

Lemma lookup_ok fs d n l name :
  nodes fs !! d = Some n -> is_dir n = true -> siblings fs (n_children n) l ->
  ramfs_lookup fs d name = Some (first_named fs name l).
Proof.
  intros Hn Hd Hs. unfold ramfs_lookup. rewrite (node_at_Some _ _ _ Hn), Hd. cbn [negb].
  apply find_child_ok; [done|]. by eapply siblings_fuel.
Qed.

(** The first node with the name is a child with that name; 0 means there is none. *)
Lemma first_named_spec fs name l :
  Forall (fun x => x <> 0) l ->
  (first_named fs name l = 0 /\ forall x, In x l -> n_name (node_at fs x) <> name) \/
  (In (first_named fs name l) l /\ n_name (node_at fs (first_named fs name l)) = name).
Proof.
  intros Hl. unfold first_named. destruct (list_find _ l) as [[k y]|] eqn:E; cbn [mbind option_bind default].
  - right. apply list_find_Some in E as (Hk & Hn & _). split; [|done].
    apply list_elem_of_In. by eapply list_elem_of_lookup_2.
  - left. split; [done|]. apply list_find_None in E. rewrite Forall_forall in E. intros x Hx.
    by apply E.
Qed.

(** ** Buffers *)

Section buffers.
Context {H : Type} `{AllocLaws H}.

(** A fresh payload is not a live one. *)
Lemma fresh_ptr m h lv lv' ptr sz k :
  owns m h lv' -> (forall p n, In (p, n) lv' <-> In (p, n) lv \/ (p, n) = (ptr, sz)) ->
  apart lv ptr sz -> 0 < sz -> ~ In (ptr, k) lv.
Proof.
  intros Hown Hlv Hap Hsz Hin.
  assert (k = sz) as -> by (eapply owns_unique; [exact Hown|apply Hlv; by left|apply Hlv; by right]).
  specialize (Hap _ _ Hin). lia.
Qed.

(** Replacing the buffer of file [fa], whose old one is no longer live. *)
Lemma fs_inv_set_file fs lv lv' fa f new sz cap :
  fs_inv fs lv -> files fs !! fa = Some f -> f_capacity f <= cap < 2 ^ 32 -> 0 < cap <= sz -> new <> 0 ->
  (forall k, ~ In (new, k) lv) -> In (new, sz) lv' ->
  (forall p n, In (p, n) lv -> (f_data f <> 0 -> p <> f_data f) -> In (p, n) lv') ->
  fs_inv (set_file fs fa {| f_data := new; f_capacity := cap |}) lv'.
Proof.
  intros [I1 I2 I3 I4 I5 I6 I7] Hf Hcap Hsz Hn0 Hfresh Hnew Hkeep.
  assert (Hneq : forall b g, files fs !! b = Some g -> f_data g <> new).
  { intros b g Hg Hd. destruct (I3 b g Hg) as [[? _]|(_ & k & Hk & _)]; [congruence|].
    rewrite Hd in Hk. by apply (Hfresh k). }
  assert (Hfa : fa <> new) by (intros ->; destruct (I2 _ _ Hf) as [k Hk]; by apply (Hfresh k)).
  split; cbn [nodes files set_file].
  - intros a n Hn. destruct (I1 a n Hn) as [k Hk]. exists k. apply Hkeep; [done|]. intros Hd0 ->.
    destruct (I4 fa f Hf Hd0) as [E _]. congruence.
  - intros a g Hg. assert (Hs : is_Some (files fs !! a)).
    { destruct (Z.eq_dec a fa) as [->|]; [by exists f|]. rewrite lookup_insert_ne in Hg by done. by exists g. }
    destruct Hs as [g0 Hg0]. destruct (I2 a g0 Hg0) as [k Hk]. exists k. apply Hkeep; [done|].
    intros Hd0 ->. destruct (I4 fa f Hf Hd0) as (_ & E & _). congruence.
  - intros a g Hg. destruct (Z.eq_dec a fa) as [->|Hne].
    + rewrite lookup_insert_eq in Hg. injection Hg as <-. right. cbn [f_data f_capacity]. split; [lia|].
      exists sz. split; [done|lia].
    + rewrite lookup_insert_ne in Hg by done. destruct (I3 a g Hg) as [?|(Hc & k & Hk & Hle)]; [by left|].
      right. split; [done|]. exists k. split; [|done]. apply Hkeep; [done|]. intros Hd0 E.
      destruct (I4 fa f Hf Hd0) as (_ & _ & Hown). by apply Hne, (Hown a g).
  - intros a g Hg Hd. destruct (Z.eq_dec a fa) as [->|Hne].
    + rewrite lookup_insert_eq in Hg. injection Hg as <-. cbn [f_data] in *. split; [|split].
      * destruct (nodes fs !! new) as [n|] eqn:E; [|done]. destruct (I1 _ _ E) as [k Hk]. by apply Hfresh in Hk.
      * rewrite lookup_insert_ne by done. destruct (files fs !! new) as [g|] eqn:E; [|done].
        destruct (I2 _ _ E) as [k Hk]. by apply Hfresh in Hk.
      * intros b g Hg Hd'. destruct (Z.eq_dec b fa) as [->|]; [done|].
        rewrite lookup_insert_ne in Hg by done. by apply Hneq in Hg.
    + rewrite lookup_insert_ne in Hg by done. destruct (I4 a g Hg Hd) as (E1 & E2 & Hown). split; [done|].
      split; [rewrite lookup_insert_ne; [done|intros E; congruence]|].
      intros b g' Hg' Hd'. destruct (Z.eq_dec b fa) as [->|].
      * rewrite lookup_insert_eq in Hg'. injection Hg' as <-. cbn [f_data] in Hd'. by apply Hneq in Hg.
      * rewrite lookup_insert_ne in Hg' by done. by eapply Hown.
  - intros a n Hn Hd. destruct (I5 a n Hn Hd) as (g & Hg & Hsz').
    destruct (Z.eq_dec (n_fs_data n) fa) as [E|].
    + assert (g = f) as -> by congruence. rewrite E, lookup_insert_eq. eexists. split; [done|]. cbn [f_capacity]. lia.
    + rewrite lookup_insert_ne by done. by exists g.
  - done.
  - intros a n Hn. destruct (I7 a n Hn) as [l Hl]. exists l. eapply siblings_ext; [|done].
    intros x Hx. split; [exact (proj1 (siblings_nodes _ _ _ _ Hl Hx))|done].
Qed.

(** The bytes of every file but [fa] are the same. *)
Definition others_kept (fs : ramfs) (fa : Z) (m m' : memory) : Prop :=
  forall b g i, files fs !! b = Some g -> b <> fa -> 0 <= i < f_capacity g -> byte_at m' g i = byte_at m g i.

(** A heap address the filesystem does not use. *)
Definition foreign (fs : ramfs) (p : Z) : Prop :=
  nodes fs !! p = None /\ files fs !! p = None /\ forall a f, files fs !! a = Some f -> f_data f <> p.

(** The live payloads of others stay live, stay others', and keep their bytes. *)
Definition fs_frame (fs fs' : ramfs) (lv lv' : list (Z * Z)) (m m' : memory) : Prop :=
  forall p n, In (p, n) lv -> foreign fs p ->
    In (p, n) lv' /\ foreign fs' p /\ forall x, p <= x < p + n -> load8 m' x = load8 m x.

Lemma fs_frame_refl fs lv m : fs_frame fs fs lv lv m m.
Proof. by intros p n. Qed.

Lemma fs_frame_trans fs1 fs2 fs3 lv1 lv2 lv3 m1 m2 m3 :
  fs_frame fs1 fs2 lv1 lv2 m1 m2 -> fs_frame fs2 fs3 lv2 lv3 m2 m3 -> fs_frame fs1 fs3 lv1 lv3 m1 m3.
Proof.
  intros H12 H23 p n Hp Hf. destruct (H12 p n Hp Hf) as (Hp2 & Hf2 & E2), (H23 p n Hp2 Hf2) as (Hp3 & Hf3 & E3).
  split; [done|]. split; [done|]. intros x Hx. by rewrite E3, E2.
Qed.

(** The copy into the new buffer and the release of the old one. *)
Lemma move_buffer_ok w h w1 h1 lv lv1 f new sz :
  owns (ram w) h lv -> owns (ram w1) h1 lv1 ->
  (f_data f = 0 /\ f_capacity f = 0) \/
  (0 < f_capacity f < 2 ^ 32 /\ exists k, In (f_data f, k) lv /\ f_capacity f <= k) ->
  f_capacity f <= sz -> HEAP_START < new -> new + sz <= HEAP_END -> apart lv new sz ->
  keeps lv (ram w) (ram w1) -> same_outside HEAP_START HEAP_END (ram w) (ram w1) ->
  (forall p n, In (p, n) lv1 <-> In (p, n) lv \/ (p, n) = (new, sz)) ->
  (forall k, ~ In (new, k) lv) ->
  exists w2 h2 lv2,
    (if negb (f_data f =? 0) then
       kfree_op (set_ram w1 (memcpy (ram w1) new (f_data f) (Z.to_nat (f_capacity f)))) h1 (f_data f)
     else Some (w1, h1)) = Some (w2, h2) /\
    owns (ram w2) h2 lv2 /\ In (new, sz) lv2 /\
    (forall p n, In (p, n) lv -> (f_data f <> 0 -> p <> f_data f) -> In (p, n) lv2) /\
    (forall i, 0 <= i < f_capacity f -> load8 (ram w2) (new + i) = byte_at (ram w) f i) /\
    keeps lv (ram w) (ram w2) /\ same_outside HEAP_START HEAP_END (ram w) (ram w2) /\ con w2 = con w1.
Proof.
  intros Hown Hown1 Hbuf Hsz Hp Hend Hap Hkp Hout Hlv1 Hfresh.
  assert (Hnew1 : In (new, sz) lv1) by (apply Hlv1; by right).
  destruct Hbuf as [[Hd Hc]|(Hc & k & Hk & Hck)].
  - rewrite Hd. cbn [Z.eqb negb]. exists w1, h1, lv1. split; [done|]. split; [done|]. split; [done|].
    split; [intros p n ? _; apply Hlv1; by left|]. split; [lia|]. done.
  - pose proof (owns_bounds _ _ _ _ _ Hown Hk) as Hkb. pose proof (Hap _ _ Hk) as Hak.
    destruct (Z.eqb_spec (f_data f) 0) as [Ez|_]; [unfold HEAP_START in Hkb; lia|]. cbn [negb].
    set (m2 := memcpy (ram w1) new (f_data f) (Z.to_nat (f_capacity f))).
    assert (Ho2 : same_outside new (new + sz) (ram w1) m2).
    { eapply same_outside_mono; [..|apply memcpy_same_outside]; lia. }
    assert (Hown2 : owns m2 h1 lv1) by (eapply owns_write; done).
    assert (Hk1 : In (f_data f, k) lv1) by (apply Hlv1; by left).
    destruct (kfree_law (set_ram w1 m2) h1 lv1 (f_data f) k Hown2 Hk1) as
      (lv2 & w2 & h2 & E2 & Hown3 & Hcon2 & Hkp2 & Hout2 & Hlv2). cbn [ram con set_ram] in *.
    assert (Hnd : new <> f_data f) by (intros ->; by apply (Hfresh k)).
    exists w2, h2, lv2. split; [done|]. split; [done|]. split; [by apply Hlv2|].
    split; [intros p n Hp0 Hne; apply Hlv2; split; [apply Hlv1; by left|apply Hne; unfold HEAP_START in Hkb; lia]|].
    split; [|split; [|split; [|done]]].
    + intros i Hi. rewrite (Hkp2 new sz) by (done || lia). unfold m2. rewrite memcpy_load by lia.
      destruct (Z.leb_spec new (new + i)), (Z.ltb_spec (new + i) (new + Z.of_nat (Z.to_nat (f_capacity f))));
        try lia. cbn [andb]. rewrite (Hkp (f_data f) k) by (done || lia). unfold byte_at. f_equal. lia.
    + eapply keeps_trans; [exact Hkp|]. eapply keeps_trans; [by eapply keeps_apart|].
      eapply keeps_incl; [|exact Hkp2]. intros [q n] Hq. apply Hlv1. by left.
    + eapply same_outside_trans; [exact Hout|]. eapply same_outside_trans; [|exact Hout2].
      eapply same_outside_mono; [..|exact Ho2]; lia.
Qed.

(** The allocator has no block for the capacity [f] would grow to. *)
Definition no_room (w : machine) (h : H) (f : rfile) (needed : Z) : Prop :=
  f_capacity f < needed /\
  exists cap, needed <= cap <= Z.max 64 (2 * needed) /\ kmalloc_op w h cap = Some (0, w, h).

(** The capacity [ensure_capacity] asks for. *)
Lemma grow_capacity c needed :
  0 <= c < needed -> needed <= 2 ^ 30 ->
  exists cap, grow GROW_FUEL (if negb (c =? 0) then c else 64) needed = Some cap /\ needed <= cap /\ c <= cap /\
    cap <= Z.max 64 (2 * needed).
Proof.
  intros Hc Hn. set (c0 := if negb (c =? 0) then c else 64).
  assert (Hc0 : c <= c0 /\ 0 < c0 /\ (c0 = c \/ c0 = 64)) by (unfold c0; destruct (Z.eqb_spec c 0); cbn [negb]; lia).
  destruct (Z_lt_ge_dec c0 needed).
  - destruct (grow_ok GROW_FUEL c0 needed) as (c' & E & ? & ?); [lia|lia|lia| |].
    + change (2 ^ Z.of_nat GROW_FUEL) with (2 ^ 32). lia.
    + exists c'. split; [done|]. lia.
  - exists c0. split; [|lia]. cbn. destruct (Z.ltb_spec c0 needed); [lia|done].
Qed.

(** What [ensure_capacity] does: nothing changes when memory is short; otherwise
    the file has room, its old bytes, and zeros after them. *)
Lemma ensure_capacity_ok w h fs fa f needed lv :
  owns (ram w) h lv -> fs_inv fs lv -> files fs !! fa = Some f -> 0 <= needed <= 2 ^ 30 ->
  (ensure_capacity w h fs fa needed = Some (false, w, h, fs) /\ no_room w h f needed) \/
  exists w' h' fs' lv' f', ensure_capacity w h fs fa needed = Some (true, w', h', fs') /\
    owns (ram w') h' lv' /\ fs_inv fs' lv' /\ nodes fs' = nodes fs /\
    files fs' = <[fa := f']> (files fs) /\
    needed <= f_capacity f' /\ f_capacity f <= f_capacity f' /\
    (forall i, 0 <= i < f_capacity f' ->
       byte_at (ram w') f' i = if i <? f_capacity f then byte_at (ram w) f i else 0) /\
    others_kept fs fa (ram w) (ram w') /\ same_outside HEAP_START HEAP_END (ram w) (ram w') /\ con w' = con w /\
    fs_frame fs fs' lv lv' (ram w) (ram w').
Proof.
  intros Hown Hinv Hf Hn. unfold ensure_capacity. rewrite (file_at_Some _ _ _ Hf).
  destruct (Z.leb_spec needed (f_capacity f)) as [Hle|Hgt].
  { right. exists w, h, fs, lv, f. split; [done|]. split; [done|]. split; [done|]. split; [done|].
    split; [by rewrite insert_id|]. split; [done|]. split; [lia|]. split.
    - intros i Hi. by destruct (Z.ltb_spec i (f_capacity f)); [|lia].
    - split; [by intros b g i|]. split; [apply same_outside_refl|]. split; [done|apply fs_frame_refl]. }
  pose proof (inv_buffer _ _ Hinv fa f Hf) as Hbuf.
  assert (Hcap0 : 0 <= f_capacity f) by (destruct Hbuf as [[_ ->]|[? _]]; lia).
  destruct (grow_capacity (f_capacity f) needed ltac:(lia) ltac:(lia)) as (cap & -> & Hcn & Hcc & Hcm). cbn [mbind option_bind].
  destruct (kmalloc_law w h lv cap Hown) as
    [E|(new & sz & lv1 & w1 & h1 & E & Hown1 & Hcon1 & _ & Hp & Hsz & Hend & Hap & Hkp & Hout & Hlv1)];
    [lia|lia|..]; rewrite E; cbn [mbind option_bind];
    [left; split; [done|split; [done|by exists cap]]|right].
  destruct (Z.eqb_spec new 0) as [E0|Hn0]; [unfold HEAP_START in Hp; lia|].
  assert (Hfresh : forall k, ~ In (new, k) lv) by (intros k; eapply fresh_ptr; [done..|lia]).
  destruct (move_buffer_ok w h w1 h1 lv lv1 f new sz Hown Hown1 Hbuf ltac:(lia) Hp Hend Hap Hkp Hout Hlv1
    Hfresh) as (w2 & h2 & lv2 & -> & Hown2 & Hnew2 & Hkeep2 & Hcopy & Hkp2 & Hout2 & Hcon2).
  cbn [mbind option_bind].
  set (m3 := memset (ram w2) (new + f_capacity f) 0 (Z.to_nat (cap - f_capacity f))).
  assert (Ho3 : same_outside new (new + sz) (ram w2) m3).
  { eapply same_outside_mono; [..|apply memset_same_outside]; lia. }
  eexists _, h2, _, lv2, {| f_data := new; f_capacity := cap |}. split; [reflexivity|].
  cbn [ram set_ram f_capacity]. split; [by eapply owns_write|].
  split; [eapply fs_inv_set_file; try done; lia|]. split; [done|]. split; [done|]. split; [done|].
  split; [lia|]. split; [|split; [|split; [|split; [by rewrite <- Hcon1|]]]].
  - intros i Hi. unfold byte_at at 1. cbn [f_data]. unfold m3. rewrite memset_load.
    destruct (Z.ltb_spec i (f_capacity f)).
    + zcases; try lia; cbn [andb]; apply Hcopy; lia.
    + zcases; try lia. done.
  - intros b g i Hg Hb Hi. pose proof (inv_buffer _ _ Hinv b g Hg) as [[_ Hc]|(Hc & k & Hk & Hle)]; [lia|].
    unfold byte_at. rewrite Ho3.
    + apply (Hkp2 (f_data g) k); [done|lia].
    + pose proof (Hap _ _ Hk). lia.
  - eapply same_outside_trans; [exact Hout2|]. eapply same_outside_mono; [..|exact Ho3]; lia.
  - intros p n Hp0 (F1 & F2 & F3). split; [by apply Hkeep2; [|intros _; apply not_eq_sym, (F3 fa)]|]. split.
    + split; [done|]. cbn [files set_file]. split; [rewrite lookup_insert_ne; [done|congruence]|].
      intros b g. destruct (Z.eq_dec b fa) as [->|].
      * rewrite lookup_insert_eq. intros [= <-]. cbn [f_data]. intros E'. rewrite <- E' in Hp0. by apply (Hfresh n).
      * rewrite lookup_insert_ne by done. apply F3.
    + intros x Hx. pose proof (Hap p n Hp0). rewrite Ho3 by lia. by apply (Hkp2 p n).
Qed.

(** Changing the size of a file. *)
Lemma fs_inv_set_size fs lv a n s :
  fs_inv fs lv -> nodes fs !! a = Some n ->
  (n_fs_data n <> 0 -> exists f, files fs !! n_fs_data n = Some f /\ 0 <= s <= f_capacity f) ->
  fs_inv (set_node fs a (with_size n s)) lv.
Proof.
  intros [I1 I2 I3 I4 I5 I6 I7] Hn Hs.
  assert (Hlk : forall b n', nodes (set_node fs a (with_size n s)) !! b = Some n' ->
    exists n0, nodes fs !! b = Some n0 /\ n_fs_data n' = n_fs_data n0 /\ n_children n' = n_children n0 /\
      n_flags n' = n_flags n0 /\ (n' = n0 \/ b = a /\ n0 = n /\ n_size n' = s)).
  { intros b n'. cbn [nodes set_node]. destruct (Z.eq_dec b a) as [->|].
    - rewrite lookup_insert_eq. intros [= <-]. exists n. split; [done|]. by repeat split; [..|right].
    - rewrite lookup_insert_ne by done. intros Hb. exists n'. split; [done|]. by repeat split; [..|left]. }
  split; try done.
  - intros b n' Hb. destruct (Hlk b n' Hb) as (n0 & N0 & _). by eapply I1.
  - intros b f Hf Hd. destruct (I4 b f Hf Hd) as (E1 & E2 & E3). split; [|done].
    cbn [nodes set_node]. rewrite lookup_insert_ne; [done|intros ->; congruence].
  - intros b n' Hb Hd. destruct (Hlk b n' Hb) as (n0 & N0 & E1 & _ & E3 & [->|(-> & -> & Es)]).
    + by apply I5 with b.
    + rewrite Es, E1. apply Hs. congruence.
  - intros b c n1 n2 Hb Hc Hd He. destruct (Hlk b n1 Hb) as (n10 & H10 & E1 & _).
    destruct (Hlk c n2 Hc) as (n20 & H20 & E2 & _). eapply I6; [done|done|congruence..].
  - intros b n' Hb. destruct (Hlk b n' Hb) as (n0 & N0 & _ & -> & _). destruct (I7 b n0 N0) as [l Hl].
    exists l. eapply siblings_ext; [|done]. intros x Hx.
    destruct (siblings_nodes _ _ _ _ Hl Hx) as [[nx Hnx] _]. rewrite node_at_set. cbn [nodes set_node].
    destruct (Z.eqb_spec x a) as [->|].
    + rewrite lookup_insert_eq. split; [done|]. by rewrite (node_at_Some _ _ _ Hn).
    + rewrite lookup_insert_ne by done. by split; [exists nx|].
Qed.

(** The copy of [ramfs_write] into the buffer of the file [f]: it stays inside the
    buffer's payload. *)
Lemma copy_into_file m h fs lv fd f off sz buf :
  owns m h lv -> fs_inv fs lv -> files fs !! fd = Some f -> 0 <= off -> 0 <= sz -> off + sz <= f_capacity f ->
  (buf + sz <= HEAP_START \/ HEAP_END <= buf) ->
  let m' := memcpy m (f_data f + off) buf (Z.to_nat sz) in
  owns m' h lv /\ same_outside HEAP_START HEAP_END m m' /\
  (forall x, load8 m' x = if (f_data f + off <=? x) && (x <? f_data f + off + sz)
     then load8 m (buf + (x - (f_data f + off))) else load8 m x) /\
  (forall p k, In (p, k) lv -> p <> f_data f -> forall x, p <= x < p + k -> load8 m' x = load8 m x).
Proof.
  intros Hown Hinv Hf Ho Hs Hcap Hbuf m'.
  destruct (inv_buffer _ _ Hinv fd f Hf) as [[_ E]|(_ & k & Hk & Hle)].
  { assert (sz = 0) as -> by lia. change m' with m. split; [done|]. split; [apply same_outside_refl|]. split; [|done].
    intros x. destruct (Z.leb_spec (f_data f + off) x), (Z.ltb_spec x (f_data f + off + 0)); try lia; done. }
  pose proof (owns_bounds _ _ _ _ _ Hown Hk) as Hb.
  assert (Hm : forall x, load8 m' x = if (f_data f + off <=? x) && (x <? f_data f + off + sz)
     then load8 m (buf + (x - (f_data f + off))) else load8 m x).
  { intros x. unfold m'. rewrite memcpy_load, Z2Nat.id by lia. done. }
  clearbody m'. assert (Hsame : same_outside (f_data f) (f_data f + k) m m').
  { intros x Hx. rewrite Hm. zcases; try lia; done. }
  split; [by eapply owns_write|]. split; [eapply same_outside_mono; [..|exact Hsame]; lia|]. split; [done|].
  intros p n Hp Hne x Hx. apply Hsame. destruct (owns_apart _ _ _ _ _ _ _ Hown Hk Hp) as [E|Hap]; [congruence|lia].
Qed.

(** A write: nothing changes when memory is short; otherwise the bytes of the
    range are the source's, the bytes before the old capacity are kept, and new
    ones are zero. *)
Lemma ramfs_write_ok w h fs a n f off sz buf lv :
  owns (ram w) h lv -> fs_inv fs lv -> nodes fs !! a = Some n -> is_file n = true ->
  n_fs_data n <> 0 -> files fs !! n_fs_data n = Some f ->
  0 <= off -> 0 <= sz -> off + sz <= 2 ^ 30 ->
  (buf + sz <= HEAP_START \/ HEAP_END <= buf) ->
  (ramfs_write w h fs a off sz buf = Some (-1, w, h, fs) /\ no_room w h f (off + sz)) \/
  exists w' h' fs' lv' f', ramfs_write w h fs a off sz buf = Some (sz, w', h', fs') /\
    owns (ram w') h' lv' /\ fs_inv fs' lv' /\
    nodes fs' = <[a := with_size n (Z.max (n_size n) (off + sz))]> (nodes fs) /\
    files fs' = <[n_fs_data n := f']> (files fs) /\
    off + sz <= f_capacity f' /\ f_capacity f <= f_capacity f' /\
    (forall i, 0 <= i < f_capacity f' ->
       byte_at (ram w') f' i =
         if (off <=? i) && (i <? off + sz) then load8 (ram w) (buf + (i - off))
         else if i <? f_capacity f then byte_at (ram w) f i else 0) /\
    others_kept fs (n_fs_data n) (ram w) (ram w') /\
    same_outside HEAP_START HEAP_END (ram w) (ram w') /\ con w' = con w /\
    fs_frame fs fs' lv lv' (ram w) (ram w').
Proof.
  intros Hown Hinv Hn Hfl Hd Hf Ho Hs Hb Hbuf. unfold ramfs_write.
  rewrite (node_at_Some _ _ _ Hn), Hfl. destruct (Z.eqb_spec (n_fs_data n) 0); [done|]. cbn [negb].
  rewrite u32_small by lia.
  destruct (ensure_capacity_ok w h fs _ f (off + sz) lv Hown Hinv Hf) as
    [[-> Hno]|(w1 & h1 & fs1 & lv1 & f1 & -> & Hown1 & Hinv1 & En & Ef & Hcap & Hcf & Hbytes & Hoth & Hout & Hcon & Hfr)];
    [lia|by left|right]. cbn [mbind option_bind negb].
  set (fd := n_fs_data n) in *.
  assert (Hf1 : files fs1 !! fd = Some f1) by (rewrite Ef; apply lookup_insert_eq).
  rewrite (file_at_Some _ _ _ Hf1). assert (Hn1 : nodes fs1 !! a = Some n) by (by rewrite En).
  rewrite (node_at_Some _ _ _ Hn1), Z.gtb_ltb.
  destruct (copy_into_file (ram w1) h1 fs1 lv1 fd f1 off sz buf Hown1 Hinv1 Hf1 Ho Hs Hcap Hbuf) as (Hown2 & Hout2 & Hm2 & Hap2).
  set (m2 := memcpy (ram w1) (f_data f1 + off) buf (Z.to_nat sz)) in *.
  assert (Hinv2 : fs_inv (set_node fs1 a (with_size n (Z.max (n_size n) (off + sz)))) lv1).
  { apply fs_inv_set_size; [done|done|]. intros _. exists f1. split; [done|].
    destruct (inv_size _ _ Hinv1 a n Hn1 Hd) as (g & Hg & Hsz). fold fd in Hg.
    assert (g = f1) as -> by congruence. lia. }
  assert (Esz : s32 sz = sz) by (apply s32_small; lia).
  clearbody m2.
  eexists (set_ram w1 m2), h1, _, lv1, f1. split; [by rewrite Esz|]. cbn [ram set_ram].
  split; [done|]. split; [|split; [|split; [|split; [done|split; [done|split; [|split; [|split; [|split; [done|]]]]]]]]].
  - destruct (Z.ltb_spec (n_size n) (off + sz)); [by rewrite Z.max_r in Hinv2 by lia|done].
  - destruct (Z.ltb_spec (n_size n) (off + sz)).
    + rewrite Z.max_r by lia. cbn [nodes set_node]. by rewrite En.
    + rewrite Z.max_l by lia. replace (with_size n (n_size n)) with n by (by destruct n).
      by rewrite insert_id.
  - by destruct (_ <? _).
  - intros i Hi. unfold byte_at at 1. rewrite Hm2.
    replace ((f_data f1 + off <=? f_data f1 + i) && (f_data f1 + i <? f_data f1 + off + sz))
      with ((off <=? i) && (i <? off + sz)).
    2:{ f_equal; zcases; try done; lia. }
    destruct (Z.leb_spec off i), (Z.ltb_spec i (off + sz)); cbn [andb]; try by apply Hbytes.
    rewrite Hout by lia. f_equal. lia.
  - intros b g i Hg Hb' Hi. rewrite <- (Hoth b g i Hg Hb' Hi).
    assert (Hg1 : files fs1 !! b = Some g) by (by rewrite Ef, lookup_insert_ne).
    destruct (inv_buffer _ _ Hinv1 b g Hg1) as [[_ E]|(_ & k' & Hk' & Hle')]; [lia|]. apply (Hap2 (f_data g) k'); [done| |lia].
    intros E. assert (Hd1 : f_data g <> 0).
    { pose proof (owns_bounds _ _ _ _ _ Hown1 Hk'). unfold HEAP_START in *. lia. }
    destruct (inv_buffer_own _ _ Hinv1 b g Hg1 Hd1) as (_ & _ & Hu). by apply Hb', eq_sym, (Hu fd f1).
  - by eapply same_outside_trans.
  - eapply fs_frame_trans; [exact Hfr|]. intros p k Hp0 (F1 & F2 & F3). split; [done|]. split.
    + destruct (_ <? _); [|done]. split; [|done]. cbn [nodes set_node]. rewrite lookup_insert_ne; [done|congruence].
    + apply (Hap2 p k Hp0). by apply not_eq_sym, (F3 fd).
Qed.

(** Reading a file prints nothing. *)
Lemma ramfs_read_con w fs node off size buf : con (ramfs_read w fs node off size buf).2 = con w.
Proof. unfold ramfs_read. by repeat case_match. Qed.

(** A read copies the part of the range before the end of the file. *)
Lemma ramfs_read_ok w h fs a n f off sz buf lv :
  owns (ram w) h lv -> fs_inv fs lv -> nodes fs !! a = Some n -> is_file n = true ->
  n_fs_data n <> 0 -> files fs !! n_fs_data n = Some f ->
  0 <= off -> 0 <= sz -> n_size n <= 2 ^ 30 ->
  (buf + sz <= HEAP_START \/ HEAP_END <= buf) ->
  let got := Z.max 0 (Z.min sz (n_size n - off)) in
  exists w', ramfs_read w fs a off sz buf = (got, w') /\
    (forall i, 0 <= i < got -> load8 (ram w') (buf + i) = byte_at (ram w) f (off + i)) /\
    same_outside buf (buf + got) (ram w) (ram w') /\ owns (ram w') h lv.
Proof.
  intros Hown Hinv Hn Hfl Hd Hf Ho Hs Hsz Hbuf got. unfold ramfs_read.
  rewrite (node_at_Some _ _ _ Hn), Hfl. destruct (Z.eqb_spec (n_fs_data n) 0); [done|]. cbn [negb].
  rewrite (file_at_Some _ _ _ Hf), Z.geb_leb, Z.gtb_ltb. subst got.
  destruct (inv_size _ _ Hinv a n Hn Hd) as (g & Hg & Hcap). assert (g = f) as -> by congruence. clear Hg.
  destruct (Z.leb_spec (n_size n) off).
  { rewrite Z.max_l by lia. exists w. split; [done|]. split; [lia|]. split; [apply same_outside_refl|done]. }
  set (got := if n_size n - off <? sz then n_size n - off else sz).
  assert (Hgot : got = Z.max 0 (Z.min sz (n_size n - off)) /\ 0 <= got <= sz /\ off + got <= n_size n).
  { subst got. destruct (Z.ltb_spec (n_size n - off) sz); lia. }
  destruct Hgot as (<- & Hgot & Hgo). clearbody got.
  assert (Esz : s32 got = got) by (apply s32_small; lia).
  rewrite Esz. destruct (inv_buffer _ _ Hinv _ f Hf) as [[_ E]|(_ & k & Hk & Hle)]; [lia|].
  pose proof (owns_bounds _ _ _ _ _ Hown Hk) as Hbd.
  destruct (Z.eqb_spec (f_data f) 0) as [E|_]; [unfold HEAP_START in Hbd; lia|]. cbn [negb].
  assert (Hout : same_outside buf (buf + got) (ram w) (memcpy (ram w) buf (f_data f + off) (Z.to_nat got))).
  { eapply same_outside_mono; [..|apply memcpy_same_outside]; lia. }
  eexists. split; [done|]. cbn [ram set_ram]. split; [|split; [done|]].
  - intros i Hi. rewrite memcpy_load by lia. rewrite Z2Nat.id by lia.
    destruct (Z.leb_spec buf (buf + i)), (Z.ltb_spec (buf + i) (buf + got)); try lia. cbn [andb].
    unfold byte_at. f_equal. lia.
  - eapply owns_outside; [exact Hown|]. intros x Hx. apply Hout. lia.
Qed.

(** ** Adding a node *)

(** The store with a new node [a] as first child of [parent], and a new empty
    payload [fd] when it is a file. *)
Definition add_node (fs : ramfs) (parent : Z) (np : vnode) (a : Z) (new : vnode) (fd i : Z) : ramfs :=
  {| nodes := <[parent := with_children np a]> (<[a := new]> (nodes fs));
     files := if fd =? 0 then files fs else <[fd := zero_file]> (files fs);
     next_inode := i |}.

Section add.
Context (fs : ramfs) (lv lv' : list (Z * Z)) (Hinv : fs_inv fs lv).
Context (Hlv : forall q, In q lv -> In q lv').
Context (parent : Z) (np : vnode) (Hparent : nodes fs !! parent = Some np).
Context (a ka : Z) (Ha0 : a <> 0) (Hfresh : forall k, ~ In (a, k) lv) (Hlive : In (a, ka) lv').
Context (fd i : Z) (Hfd : fd = 0 \/
  (fd <> a /\ (forall k, ~ In (fd, k) lv) /\ exists k, In (fd, k) lv')).
Context (new : vnode) (Hchildren : n_children new = 0) (Hnext : n_next new = n_children np)
  (Hdata : n_fs_data new = fd) (Hsize : n_size new = 0).
Let fs' := add_node fs parent np a new fd i.

Lemma fresh_node : nodes fs !! a = None.
Proof.
  destruct (nodes fs !! a) as [n|] eqn:E; [|done].
  destruct (inv_node_live _ _ Hinv a n E) as [k Hk]. by apply Hfresh in Hk.
Qed.

Lemma parent_ne : parent <> a.
Proof. intros E. pose proof fresh_node. congruence. Qed.

(** The nodes of the new store. *)
Lemma add_lookup b n :
  nodes fs' !! b = Some n ->
  (b = a /\ n = new) \/ (b = parent /\ n = with_children np a) \/
  (b <> a /\ b <> parent /\ nodes fs !! b = Some n).
Proof.
  cbn [nodes fs' add_node]. destruct (Z.eq_dec b parent) as [->|].
  - rewrite lookup_insert_eq. intros [= <-]. by right; left.
  - rewrite lookup_insert_ne by done. destruct (Z.eq_dec b a) as [->|].
    + rewrite lookup_insert_eq. intros [= <-]. by left.
    + rewrite lookup_insert_ne by done. auto.
Qed.

Lemma add_node_at b :
  node_at fs' b = if b =? parent then with_children np a else if b =? a then new else node_at fs b.
Proof.
  unfold node_at. cbn [nodes fs' add_node]. destruct (Z.eqb_spec b parent) as [->|].
  - by rewrite lookup_insert_eq.
  - rewrite lookup_insert_ne by done. destruct (Z.eqb_spec b a) as [->|].
    + by rewrite lookup_insert_eq.
    + by rewrite lookup_insert_ne by done.
Qed.

(** Old lists of siblings stay. *)
Lemma add_siblings c l : siblings fs c l -> siblings fs' c l.
Proof.
  intros Hs. eapply siblings_ext; [|done]. intros x Hx.
  destruct (siblings_nodes _ _ _ _ Hs Hx) as [[nx Hnx] _]. pose proof fresh_node as Hfn.
  assert (x <> a) by congruence. rewrite add_node_at.
  split.
  - cbn [nodes fs' add_node]. destruct (Z.eq_dec x parent) as [->|]; [by rewrite lookup_insert_eq|].
    rewrite !lookup_insert_ne by done. by exists nx.
  - destruct (Z.eqb_spec x parent) as [->|]; [by rewrite (node_at_Some _ _ _ Hparent)|].
    by destruct (Z.eqb_spec x a).
Qed.

Lemma add_file_lookup b f :
  files fs' !! b = Some f -> (b = fd /\ fd <> 0 /\ f = zero_file) \/ files fs !! b = Some f.
Proof.
  cbn [files fs' add_node]. destruct (Z.eqb_spec fd 0); [by right|].
  destruct (Z.eq_dec b fd) as [->|]; [rewrite lookup_insert_eq; intros [= <-]; by left|].
  rewrite lookup_insert_ne by done. by right.
Qed.

(** The payload of the new file is no old payload, and old files stay. *)
Lemma add_payload_fresh b n : nodes fs !! b = Some n -> n_fs_data n <> 0 -> n_fs_data n <> fd.
Proof.
  intros Hn Hd E. destruct (inv_size _ _ Hinv b n Hn Hd) as (f & Hf & _). destruct (inv_file_live _ _ Hinv _ _ Hf) as [k Hk].
  destruct Hfd as [?|(_ & Hf' & _)]; [congruence|]. rewrite E in Hk. by apply Hf' in Hk.
Qed.

Lemma add_file_keep b f : files fs !! b = Some f -> files fs' !! b = Some f.
Proof.
  intros Hb. cbn [files fs' add_node]. destruct (Z.eqb_spec fd 0); [done|].
  rewrite lookup_insert_ne; [done|]. intros <-. destruct (inv_file_live _ _ Hinv _ _ Hb) as [k Hk].
  destruct Hfd as [?|(_ & Hf' & _)]; [done|by apply Hf' in Hk].
Qed.

Lemma add_buffer_own b f :
  files fs' !! b = Some f -> f_data f <> 0 ->
  nodes fs' !! f_data f = None /\ files fs' !! f_data f = None /\
  forall c g, files fs' !! c = Some g -> f_data g = f_data f -> c = b.
Proof.
  intros Hb Hd. destruct (add_file_lookup b f Hb) as [(-> & _ & ->)|Hf]; [done|].
  destruct (inv_buffer_own _ _ Hinv b f Hf Hd) as (E1 & E2 & E3). pose proof parent_ne as Hpa.
  destruct (inv_buffer _ _ Hinv b f Hf) as [[? _]|(_ & k & Hk & _)]; [done|].
  assert (Hda : f_data f <> a) by (intros E; rewrite E in Hk; by apply Hfresh in Hk).
  assert (Hdf : f_data f <> fd).
  { intros E. destruct Hfd as [?|(_ & Hf' & _)]; [congruence|]. rewrite E in Hk. by apply Hf' in Hk. }
  split; [|split].
  - cbn [nodes fs' add_node]. rewrite !lookup_insert_ne; [done|congruence|intros E; congruence].
  - cbn [files fs' add_node]. destruct (fd =? 0); [done|]. by rewrite lookup_insert_ne.
  - intros c g Hg Hc. destruct (add_file_lookup c g Hg) as [(-> & _ & ->)|Hg']; [|by eapply E3].
    cbn [f_data zero_file] in Hc. congruence.
Qed.

Lemma add_payload_own b c n n' :
  nodes fs' !! b = Some n -> nodes fs' !! c = Some n' -> n_fs_data n <> 0 -> n_fs_data n = n_fs_data n' -> b = c.
Proof.
  pose proof (inv_payload_own _ _ Hinv) as I6. intros Hb Hc Hd He.
  destruct (add_lookup b n Hb) as [[-> ->]|[[-> ->]|(_ & _ & Hn)]],
    (add_lookup c n' Hc) as [[-> ->]|[[-> ->]|(_ & _ & Hn')]]; cbn [n_fs_data with_children] in *; try done.
  - exfalso. apply (add_payload_fresh parent np Hparent); congruence.
  - exfalso. apply (add_payload_fresh c n' Hn'); congruence.
  - exfalso. apply (add_payload_fresh parent np Hparent); congruence.
  - eapply I6; [exact Hparent|exact Hn'|done|done].
  - exfalso. apply (add_payload_fresh b n Hn); congruence.
  - eapply I6; [exact Hn|exact Hparent|done|done].
  - by eapply I6.
Qed.

Lemma fs_inv_add : fs_inv fs' lv'.
Proof.
  destruct Hinv as [I1 I2 I3 _ I5 _ I7]. pose proof parent_ne as Hpa. split.
  - intros b n Hb. destruct (add_lookup b n Hb) as [[-> _]|[[-> _]|(_ & _ & Hn)]].
    + by exists ka.
    + destruct (I1 _ _ Hparent) as [k Hk]. exists k. by apply Hlv.
    + destruct (I1 _ _ Hn) as [k Hk]. exists k. by apply Hlv.
  - intros b f Hb. destruct (add_file_lookup b f Hb) as [(-> & Hd & _)|Hf].
    + by destruct Hfd as [?|(_ & _ & Hk)].
    + destruct (I2 _ _ Hf) as [k Hk]. exists k. by apply Hlv.
  - intros b f Hb. destruct (add_file_lookup b f Hb) as [(-> & Hd & ->)|Hf]; [by left|].
    destruct (I3 b f Hf) as [?|(Hc & k & Hk & Hle)]; [by left|right]. split; [done|].
    exists k. split; [by apply Hlv|done].
  - apply add_buffer_own.
  - intros b n Hb Hd. destruct (add_lookup b n Hb) as [[-> ->]|[[-> ->]|(_ & _ & Hn)]].
    + rewrite Hdata in *. exists zero_file. cbn [files fs' add_node f_capacity zero_file].
      destruct (Z.eqb_spec fd 0); [done|]. rewrite lookup_insert_eq. split; [done|]. lia.
    + destruct (I5 parent np Hparent Hd) as (f & Hf & Hs). exists f. split; [by apply add_file_keep|done].
    + destruct (I5 b n Hn Hd) as (f & Hf & Hs). exists f. split; [by apply add_file_keep|done].
  - apply add_payload_own.
  - intros b n Hb. destruct (add_lookup b n Hb) as [[-> ->]|[[-> ->]|(_ & _ & Hn)]].
    + exists []. by rewrite Hchildren.
    + destruct (I7 parent np Hparent) as [l Hl]. exists (a :: l). cbn [n_children with_children siblings].
      split; [done|]. split; [done|]. rewrite add_node_at. destruct (Z.eqb_spec a parent); [congruence|].
      rewrite Z.eqb_refl, Hnext. split; [|by apply add_siblings].
      cbn [nodes fs' add_node]. rewrite lookup_insert_ne, lookup_insert_eq by done. by exists new.
    + destruct (I7 b n Hn) as [l Hl]. exists l. by apply add_siblings.
Qed.

Lemma add_foreign q n : In (q, n) lv -> q <> 0 -> foreign fs q -> foreign fs' q.
Proof.
  intros Hq Hq0 (F1 & F2 & F3).
  assert (Hqf : fd = 0 \/ q <> fd) by (destruct Hfd as [|(_ & Hff & _)]; [by left|right; intros ->; by apply (Hff n)]).
  split; [|split].
  - cbn [nodes fs' add_node]. rewrite !lookup_insert_ne; [done|intros ->; by apply (Hfresh n)|congruence].
  - cbn [files fs' add_node]. destruct (Z.eqb_spec fd 0); [done|]. rewrite lookup_insert_ne; [done|]. destruct Hqf; congruence.
  - intros b f [(_ & _ & ->)|Hb]%add_file_lookup; [cbn; congruence|by apply (F3 b)].
Qed.
End add.

(** The node [ramfs_create] makes. *)
Definition created (fs : ramfs) (parent : Z) (np : vnode) (name : list Z) (flags fd : Z) : vnode :=
  {| n_name := take (Z.to_nat (VFS_NAME_MAX - 1)) name; n_flags := flags; n_size := 0;
     n_inode := next_inode fs; n_ops := true; n_fs_data := fd; n_parent := parent; n_children := 0;
     n_next := n_children np |}.

(** What [alloc_node] and the linking of [ramfs_create] do. *)
Lemma alloc_node_ok w h fs parent np name flags lv :
  owns (ram w) h lv -> fs_inv fs lv -> nodes fs !! parent = Some np ->
  (alloc_node w h fs name flags = Some (0, w, h, fs) /\ kmalloc_op w h sizeof_node = Some (0, w, h)) \/
  exists a w' h' fs1 lv' ka fd, alloc_node w h fs name flags = Some (a, w', h', fs1) /\ a <> 0 /\
    owns (ram w') h' lv' /\ (forall q, In q lv -> In q lv') /\ (forall k, ~ In (a, k) lv) /\
    In (a, ka) lv' /\
    (fd = 0 \/ (fd <> a /\ (forall k, ~ In (fd, k) lv) /\ exists k, In (fd, k) lv')) /\
    (has_flag flags VFS_FILE = false -> fd = 0) /\
    keeps lv (ram w) (ram w') /\ same_outside HEAP_START HEAP_END (ram w) (ram w') /\ con w' = con w /\
    let fs2 := set_node fs1 a (with_links (node_at fs1 a) parent (n_children (node_at fs1 parent))) in
    set_node fs2 parent (with_children (node_at fs2 parent) a) =
    add_node fs parent np a (created fs parent np name flags fd) fd (next_inode fs +₃₂ 1).
Proof.
  intros Hown Hinv Hp. unfold alloc_node, sizeof_node.
  destruct (kmalloc_law w h lv 96 Hown) as
    [E|(a & sz & lv1 & w1 & h1 & E & Hown1 & Hcon1 & _ & Ha & Hsz & Hend & Hap & Hkp & Hout & Hlv1)];
    [lia|lia|..]; rewrite E; cbn [mbind option_bind]; [by left|right].
  destruct (Z.eqb_spec a 0) as [E0|Ha0]; [unfold HEAP_START in Ha; lia|].
  assert (Hfresh : forall k, ~ In (a, k) lv) by (intros k; eapply fresh_ptr; [done..|lia]).
  assert (Hpa : parent <> a).
  { intros ->. destruct (inv_node_live _ _ Hinv a np Hp) as [k Hk]. by apply Hfresh in Hk. }
  assert (Hnp : node_at fs parent = np) by (by apply node_at_Some).
  assert (Hsub : forall q, In q lv -> In q lv1) by (intros [q n] Hq; apply Hlv1; by left).
  destruct (has_flag flags VFS_FILE) eqn:Hfl.
  2:{ exists a, w1, h1. eexists. exists lv1, sz, 0. split; [reflexivity|]. split; [done|]. split; [done|].
      split; [done|]. split; [done|]. split; [apply Hlv1; by right|]. split; [by left|]. split; [done|].
      split; [done|]. split; [done|]. split; [done|].
      unfold add_node, set_node, set_next_inode, node_at. cbn [nodes files next_inode Z.eqb].
      rewrite !lookup_insert_eq, !lookup_insert_ne by done. rewrite Hp, insert_insert_eq. done. }
  unfold sizeof_file. destruct (kmalloc_law w1 h1 lv1 8 Hown1) as
    [E1|(fd & fsz & lv2 & w2 & h2 & E1 & Hown2 & Hcon2 & _ & Hf & Hfsz & _ & Hfap & Hfkp & Hfout & Hlv2)];
    [lia|lia|..]; rewrite E1; cbn [mbind option_bind].
  - exists a, w1, h1. eexists. exists lv1, sz, 0. split; [reflexivity|]. split; [done|]. split; [done|].
    split; [done|]. split; [done|]. split; [apply Hlv1; by right|]. split; [by left|]. split; [done|].
    split; [done|]. split; [done|]. split; [done|].
    unfold add_node, set_node, set_next_inode, node_at. cbn [nodes files next_inode Z.eqb negb].
    rewrite !lookup_insert_eq, !lookup_insert_ne by done. rewrite Hp, !insert_insert_eq. done.
  - destruct (Z.eqb_spec fd 0) as [E0|Hf0]; [unfold HEAP_START in Hf; lia|]. cbn [negb].
    assert (Hffresh : forall k, ~ In (fd, k) lv1) by (intros k; eapply fresh_ptr; [done..|lia]).
    exists a, w2, h2. eexists. exists lv2, sz, fd. split; [reflexivity|]. split; [done|]. split; [done|].
    split; [intros [q n] Hq; apply Hlv2; left; by apply Hsub|]. split; [done|].
    split; [apply Hlv2; left; apply Hlv1; by right|].
    split; [right; split; [intros ->; apply (Hffresh sz), Hlv1; by right|split;
      [intros k Hk; by apply (Hffresh k), Hsub|exists fsz; apply Hlv2; by right]]|].
    split; [done|]. split; [eapply keeps_trans; [exact Hkp|]; by eapply keeps_incl|].
    split; [by eapply same_outside_trans|]. split; [congruence|].
    unfold add_node, set_file, set_node, set_next_inode, node_at. cbn [nodes files next_inode].
    rewrite !lookup_insert_eq, !lookup_insert_ne by done. rewrite Hp, !insert_insert_eq.
    by destruct (Z.eqb_spec fd 0).
Qed.

Lemma first_named_cons fs name x l :
  first_named fs name (x :: l) =
  if decide (n_name (node_at fs x) = name) then x else first_named fs name l.
Proof.
  unfold first_named. cbn [list_find]. destruct (decide _); [done|].
  by destruct (list_find _ l) as [[k y]|].
Qed.

Lemma first_named_ext fs fs' name l :
  (forall x, In x l -> n_name (node_at fs' x) = n_name (node_at fs x)) ->
  first_named fs' name l = first_named fs name l.
Proof.
  induction l as [|x l IH]; intros Hl; [done|]. rewrite !first_named_cons, Hl by (by left).
  rewrite IH; [done|]. intros y Hy. apply Hl. by right.
Qed.

Lemma add_names fs parent np a new fd i x :
  nodes fs !! parent = Some np -> x <> a ->
  n_name (node_at (add_node fs parent np a new fd i) x) = n_name (node_at fs x) /\
  n_flags (node_at (add_node fs parent np a new fd i) x) = n_flags (node_at fs x).
Proof.
  intros Hp Hx. rewrite add_node_at. destruct (Z.eqb_spec x parent) as [->|].
  - by rewrite (node_at_Some _ _ _ Hp).
  - by destruct (Z.eqb_spec x a).
Qed.

(** [ramfs_create]: refused when the name exists, nothing changes when memory is
    short, otherwise one node is added. *)
Lemma ramfs_create_ok w h fs parent np name flags lv l :
  owns (ram w) h lv -> fs_inv fs lv -> nodes fs !! parent = Some np -> is_dir np = true ->
  siblings fs (n_children np) l ->
  (ramfs_create w h fs parent name flags = Some (0, w, h, fs) /\
   (first_named fs name l <> 0 \/ kmalloc_op w h sizeof_node = Some (0, w, h))) \/
  (first_named fs name l = 0 /\
   exists a w' h' lv' fd,
    let new := created fs parent np name flags fd in
    let fs' := add_node fs parent np a new fd (next_inode fs +₃₂ 1) in
    ramfs_create w h fs parent name flags = Some (a, w', h', fs') /\ a <> 0 /\
    nodes fs !! a = None /\ owns (ram w') h' lv' /\ fs_inv fs' lv' /\
    (has_flag flags VFS_FILE = false -> fd = 0) /\
    siblings fs' (n_children (node_at fs' parent)) (a :: l) /\
    (forall c k, siblings fs c k -> siblings fs' c k) /\
    keeps lv (ram w) (ram w') /\ same_outside HEAP_START HEAP_END (ram w) (ram w') /\ con w' = con w /\
    fs_frame fs fs' lv lv' (ram w) (ram w')).
Proof.
  intros Hown Hinv Hp Hd Hl. unfold ramfs_create. rewrite (node_at_Some _ _ _ Hp), Hd. cbn [negb].
  rewrite (lookup_ok _ _ _ _ name Hp Hd Hl). cbn [mbind option_bind].
  destruct (Z.eqb_spec (first_named fs name l) 0) as [Hnf|]; [|left; split; [done|by left]]. cbn [negb].
  destruct (alloc_node_ok w h fs parent np name flags lv Hown Hinv Hp) as
    [[-> Hno]|(a & w' & h' & fs1 & lv' & ka & fd & -> & Ha & Hown' & Hsub & Hfresh & Hka & Hfd & Hfl & Hkp & Hout & Hcon & Efs)];
    [left; split; [done|by right]|right]. split; [done|]. cbn [mbind option_bind].
  destruct (Z.eqb_spec a 0); [done|]. cbv zeta in Efs. rewrite Efs. exists a, w', h', lv', fd. cbv zeta.
  set (new := created fs parent np name flags fd). set (fs' := add_node fs parent np a new fd _).
  pose proof (fresh_node fs lv Hinv a Hfresh) as Hfn.
  assert (Hsib : forall c k, siblings fs c k -> siblings fs' c k).
  { intros c k. by apply add_siblings with lv. }
  split; [done|]. split; [done|]. split; [done|]. split; [done|].
  assert (Hfr : fs_frame fs fs' lv lv' (ram w) (ram w')).
  { intros q k Hq Hfor. split; [by apply Hsub|]. split; [|by intros x Hx; apply (Hkp q k)].
    pose proof (owns_bounds _ _ _ _ _ Hown Hq) as Hqb. unfold HEAP_START in Hqb.
    eapply add_foreign; try done. lia. }
  split; [by apply fs_inv_add with lv ka|]. split; [done|]. split; [|by split; [|split; [|split]]].
  unfold fs'. rewrite add_node_at, Z.eqb_refl. cbn [n_children with_children siblings]. fold fs'.
  split; [done|]. split; [done|]. unfold fs'. rewrite add_node_at, Z.eqb_refl.
  destruct (Z.eqb_spec a parent) as [E|]; [congruence|]. fold fs'. split; [|by apply Hsib].
  cbn [nodes fs' add_node]. rewrite lookup_insert_ne, lookup_insert_eq by congruence. by exists new.
Qed.

(** ** Files as byte sequences *)

(** The bytes of the file at node [a]. *)
Definition content (m : memory) (fs : ramfs) (a : Z) : list Z :=
  let n := node_at fs a in
  bytes_at m (f_data (file_at fs (n_fs_data n))) (Z.to_nat (n_size n)).

(** Overwriting, and extending, a sequence from an offset; reading from one. *)
Definition pwrite (l : list Z) (off : Z) (data : list Z) : list Z :=
  take (Z.to_nat off) l ++ data ++ drop (Z.to_nat off + length data) l.
Definition pread (l : list Z) (off n : Z) : list Z := take (Z.to_nat n) (drop (Z.to_nat off) l).

(** A regular file with its operations and payload. *)
Definition regular (fs : ramfs) (a : Z) : Prop :=
  exists n, nodes fs !! a = Some n /\ is_file n = true /\ n_ops n = true /\ n_fs_data n <> 0.

Lemma lookup_pwrite l off data i :
  0 <= off <= Z.of_nat (length l) ->
  pwrite l off data !! i =
    if decide (Z.to_nat off <= i < Z.to_nat off + length data)%nat then data !! (i - Z.to_nat off)%nat
    else l !! i.
Proof.
  intros Ho. unfold pwrite. destruct (decide _) as [Hi|Hi].
  - rewrite lookup_app_r by (rewrite length_take; lia). rewrite length_take.
    rewrite lookup_app_l by lia. f_equal. lia.
  - destruct (decide (i < Z.to_nat off)%nat).
    + rewrite lookup_app_l by (rewrite length_take; lia). apply lookup_take_lt. lia.
    + rewrite lookup_app_r by (rewrite length_take; lia). rewrite length_take.
      rewrite lookup_app_r by lia. rewrite lookup_drop. f_equal. lia.
Qed.

Lemma length_pwrite l off data :
  0 <= off <= Z.of_nat (length l) ->
  length (pwrite l off data) = Nat.max (length l) (Z.to_nat off + length data).
Proof. intros Ho. unfold pwrite. rewrite !length_app, length_take, length_drop. lia. Qed.

Lemma content_eq m fs a n f :
  nodes fs !! a = Some n -> files fs !! n_fs_data n = Some f ->
  content m fs a = bytes_at m (f_data f) (Z.to_nat (n_size n)).
Proof. intros Hn Hf. unfold content. by rewrite (node_at_Some _ _ _ Hn), (file_at_Some _ _ _ Hf). Qed.

Lemma regular_file fs lv a : fs_inv fs lv -> regular fs a ->
  exists n f, nodes fs !! a = Some n /\ is_file n = true /\ n_fs_data n <> 0 /\
    files fs !! n_fs_data n = Some f /\ 0 <= n_size n <= f_capacity f.
Proof.
  intros Hinv (n & Hn & Hfl & _ & Hd). destruct (inv_size _ _ Hinv a n Hn Hd) as (f & Hf & Hs).
  by exists n, f.
Qed.

(** A write refines [pwrite] on its file and keeps the others. *)
Lemma write_content w h fs a off sz buf lv :
  owns (ram w) h lv -> fs_inv fs lv -> regular fs a ->
  0 <= off <= Z.of_nat (length (content (ram w) fs a)) -> 0 <= sz -> off + sz <= 2 ^ 30 ->
  (buf + sz <= HEAP_START \/ HEAP_END <= buf) ->
  (ramfs_write w h fs a off sz buf = Some (-1, w, h, fs) /\
   no_room w h (file_at fs (n_fs_data (node_at fs a))) (off + sz)) \/
  exists w' h' fs' lv', ramfs_write w h fs a off sz buf = Some (sz, w', h', fs') /\
    owns (ram w') h' lv' /\ fs_inv fs' lv' /\
    content (ram w') fs' a = pwrite (content (ram w) fs a) off (bytes_at (ram w) buf (Z.to_nat sz)) /\
    (forall b, b <> a -> regular fs b -> content (ram w') fs' b = content (ram w) fs b) /\
    (forall b, regular fs b -> regular fs' b) /\
    (forall b, is_Some (nodes fs !! b) -> is_Some (nodes fs' !! b)) /\
    same_outside HEAP_START HEAP_END (ram w) (ram w') /\ con w' = con w /\ same_tree fs fs' /\
    fs_frame fs fs' lv lv' (ram w) (ram w').
Proof.
  intros Hown Hinv Hreg Ho Hs Hb Hbuf.
  destruct (regular_file _ _ _ Hinv Hreg) as (n & f & Hn & Hfl & Hd & Hf & Hsz).
  rewrite (content_eq _ _ _ _ _ Hn Hf), length_bytes_at in *.
  rewrite (node_at_Some _ _ _ Hn), (file_at_Some _ _ _ Hf).
  destruct (ramfs_write_ok w h fs a n f off sz buf lv) as
    [|(w' & h' & fs' & lv' & f' & -> & Hown' & Hinv' & En & Ef & Hc & Hc' & Hby & Hoth & Hout)];
    [done..|lia|done|lia|done|by left|right].
  exists w', h', fs', lv'. split; [done|]. split; [done|]. split; [done|].
  assert (Hn' : nodes fs' !! a = Some (with_size n (Z.max (n_size n) (off + sz)))).
  { rewrite En. apply lookup_insert_eq. }
  assert (Hf' : files fs' !! n_fs_data n = Some f') by (rewrite Ef; apply lookup_insert_eq).
  split; [|split; [|split; [|split; [|destruct Hout as (Hout & Hcon & Hfr); split; [done|split; [done|split; [by eapply same_tree_set_size|done]]]]]]].
  - rewrite (content_eq _ _ _ _ _ Hn' Hf'). cbn [n_size with_size]. apply list_eq. intros i.
    rewrite lookup_pwrite by (rewrite length_bytes_at; lia). rewrite length_bytes_at.
    rewrite !lookup_bytes_at_total. fold (byte_at (ram w') f' (Z.of_nat i)).
    destruct (decide (i < Z.to_nat (n_size n `max` (off + sz)))%nat) as [Hi|Hi].
    2:{ rewrite !decide_False by lia. done. }
    rewrite Hby by lia. unfold byte_at.
    destruct (Z.leb_spec off (Z.of_nat i)), (Z.ltb_spec (Z.of_nat i) (off + sz)); cbn [andb].
    1:{ rewrite !decide_True by lia. do 2 f_equal. lia. }
    all: rewrite decide_False by lia; rewrite decide_True by lia;
      (destruct (Z.ltb_spec (Z.of_nat i) (f_capacity f)); [done|lia]).
  - intros b Hba Hrb. destruct (regular_file _ _ _ Hinv Hrb) as (nb & fb & Hnb & _ & Hdb & Hfb & Hszb).
    assert (Hne : n_fs_data nb <> n_fs_data n).
    { intros E. by apply Hba, (inv_payload_own _ _ Hinv b a nb n). }
    rewrite (content_eq _ _ _ _ _ Hnb Hfb).
    rewrite (content_eq (ram w') fs' b nb fb).
    + apply bytes_at_ext. intros x Hx. replace x with (f_data fb + (x - f_data fb)) by lia.
      apply (Hoth (n_fs_data nb)); [done|done|lia].
    + by rewrite En, lookup_insert_ne.
    + by rewrite Ef, lookup_insert_ne.
  - intros b (nb & Hnb & Hfb & Hdb). destruct (Z.eq_dec b a) as [->|].
    + eexists. split; [exact Hn'|]. by simplify_eq.
    + exists nb. by rewrite En, lookup_insert_ne.
  - intros b Hb'. destruct (Z.eq_dec b a) as [->|]; [by rewrite Hn'|by rewrite En, lookup_insert_ne].
Qed.

(** The contents of the files are in the heap. *)
Lemma content_outside m m' h fs lv b :
  owns m h lv -> fs_inv fs lv -> regular fs b ->
  (forall x, HEAP_START <= x < HEAP_END -> load8 m' x = load8 m x) -> content m' fs b = content m fs b.
Proof.
  intros Hown Hinv Hrb Hout. destruct (regular_file _ _ _ Hinv Hrb) as (nb & fb & Hnb & _ & Hdb & Hfb & Hszb).
  rewrite !(content_eq _ _ _ _ _ Hnb Hfb). apply bytes_at_ext. intros x Hx. apply Hout.
  destruct (inv_buffer _ _ Hinv _ fb Hfb) as [[_ E0]|(_ & k & Hk & Hle)]; [lia|].
  pose proof (owns_bounds _ _ _ _ _ Hown Hk). lia.
Qed.

(** Truncation empties one file and keeps the others. *)
Lemma truncate_ok m fs a lv :
  fs_inv fs lv -> regular fs a ->
  let fs1 := set_node fs a (with_size (node_at fs a) 0) in
  fs_inv fs1 lv /\ content m fs1 a = [] /\ same_tree fs fs1 /\ (forall b, regular fs b -> regular fs1 b) /\
  (forall b, b <> a -> content m fs1 b = content m fs b) /\ (forall b, is_Some (nodes fs !! b) -> is_Some (nodes fs1 !! b)).
Proof.
  intros Hinv Hreg. cbv zeta. destruct (regular_file _ _ _ Hinv Hreg) as (n & f & Hn & Hfl & Hd & Hf & Hsz).
  rewrite (node_at_Some _ _ _ Hn). set (fs1 := set_node fs a (with_size n 0)).
  assert (Hn1 : nodes fs1 !! a = Some (with_size n 0)) by apply lookup_insert_eq.
  split; [apply fs_inv_set_size; [done|done|]; intros _; exists f; split; [done|lia]|].
  split; [by rewrite (content_eq _ _ _ _ _ Hn1 Hf)|]. split; [by eapply same_tree_set_size|].
  split; [|split].
  - intros b (nb & Hnb & Hnf & Hno & Hnd). destruct (Z.eq_dec b a) as [->|].
    + eexists. split; [exact Hn1|]. by simplify_eq.
    + exists nb. by rewrite <- Hnb at 1; split; [apply lookup_insert_ne|].
  - intros b Hb. unfold content, node_at. cbn [nodes files fs1 set_node]. by rewrite lookup_insert_ne.
  - intros b Hb. cbn [nodes fs1 set_node]. destruct (Z.eq_dec b a) as [->|]; [by rewrite lookup_insert_eq|by rewrite lookup_insert_ne].
Qed.

Lemma pwrite_end l data : pwrite l (Z.of_nat (length l)) data = l ++ data.
Proof. unfold pwrite. by rewrite Nat2Z.id, take_ge, drop_ge, app_nil_r by lia. Qed.

(** A read refines [pread] and writes only its result. *)
Lemma read_content w h fs a off sz buf lv :
  owns (ram w) h lv -> fs_inv fs lv -> regular fs a ->
  0 <= off -> 0 <= sz -> (buf + sz <= HEAP_START \/ HEAP_END <= buf) ->
  let got := pread (content (ram w) fs a) off sz in
  exists w', ramfs_read w fs a off sz buf = (Z.of_nat (length got), w') /\
    bytes_at (ram w') buf (length got) = got /\
    same_outside buf (buf + Z.of_nat (length got)) (ram w) (ram w') /\
    owns (ram w') h lv /\ forall b, regular fs b -> content (ram w') fs b = content (ram w) fs b.
Proof.
  intros Hown Hinv Hreg Ho Hs Hbuf got.
  destruct (regular_file _ _ _ Hinv Hreg) as (n & f & Hn & Hfl & Hd & Hf & Hsz).
  assert (Egot : got = pread (bytes_at (ram w) (f_data f) (Z.to_nat (n_size n))) off sz).
  { unfold got. by rewrite (content_eq _ _ _ _ _ Hn Hf). }
  assert (Hb : n_size n <= 2 ^ 30).
  { destruct (inv_buffer _ _ Hinv _ f Hf) as [[_ E0]|(_ & k & Hk & Hle)]; [lia|].
    pose proof (owns_bounds _ _ _ _ _ Hown Hk). unfold HEAP_END, HEAP_INITIAL, HEAP_START in *. lia. }
  assert (Hlen : Z.of_nat (length got) = Z.max 0 (Z.min sz (n_size n - off))).
  { rewrite Egot. unfold pread. rewrite length_take, length_drop, length_bytes_at. lia. }
  destruct (ramfs_read_ok w h fs a n f off sz buf lv) as (w' & E & Hby & Hout & Hown');
    [done..|lia|done|]. rewrite <- Hlen in *.
  exists w'. split; [done|]. split; [|split; [done|split; [done|]]].
  - apply list_eq. intros i. rewrite lookup_bytes_at_total. destruct (decide _) as [Hi|Hi].
    + rewrite Hby by lia. rewrite Egot. unfold pread. rewrite lookup_take_lt, lookup_drop, lookup_bytes_at_total by lia.
      rewrite decide_True by lia. unfold byte_at. do 2 f_equal. lia.
    + symmetry. apply lookup_ge_None. lia.
  - intros b Hrb. eapply content_outside; [done..|]. intros x Hx. apply Hout. lia.
Qed.

(** ** What the filesystem promises *)

(** [ramfs_create] refuses a name that is taken, and fails without effect
    when there is no memory; otherwise it adds one empty node under the parent:
    looking the name up in the parent finds it, every other lookup in every
    directory gives what it gave before, the new node is empty, the invariant
    holds and the bytes of all live memory are kept. *)
Theorem ramfs_create_correct w h fs parent np name flags lv l :
  owns (ram w) h lv -> fs_inv fs lv -> nodes fs !! parent = Some np -> is_dir np = true ->
  dir_list fs parent l -> (length name < 64)%nat ->
  let taken := exists x, In x l /\ n_name (node_at fs x) = name in
  (taken /\ ramfs_create w h fs parent name flags = Some (0, w, h, fs)) \/
  (~ taken /\ kmalloc_op w h sizeof_node = Some (0, w, h) /\
   ramfs_create w h fs parent name flags = Some (0, w, h, fs)) \/
  (~ taken /\ exists a w' h' fs' lv',
     ramfs_create w h fs parent name flags = Some (a, w', h', fs') /\ a <> 0 /\ nodes fs !! a = None /\
     owns (ram w') h' lv' /\ fs_inv fs' lv' /\ dir_list fs' parent (a :: l) /\
     n_flags (node_at fs' a) = flags /\ n_size (node_at fs' a) = 0 /\ n_parent (node_at fs' a) = parent /\
     dir_list fs' a [] /\
     ramfs_lookup fs' parent name = Some a /\
     (forall d name', is_Some (nodes fs !! d) -> (d, name') <> (parent, name) ->
        ramfs_lookup fs' d name' = ramfs_lookup fs d name') /\
     keeps lv (ram w) (ram w')).
Proof.
  intros Hown Hinv Hp Hd Hl Hlen taken. unfold dir_list in Hl. rewrite (node_at_Some _ _ _ Hp) in Hl.
  assert (Hnz : Forall (fun x => x <> 0) l).
  { apply List.Forall_forall. intros x Hx. by apply (siblings_nodes _ _ _ _ Hl). }
  assert (Htk : taken <-> first_named fs name l <> 0).
  { destruct (first_named_spec fs name l Hnz) as [[E Hno]|[Hin E]].
    - split; [intros (x & Hx & Ex); by apply Hno in Hx|by intros []].
    - split; [intros _|by exists (first_named fs name l)]. rewrite List.Forall_forall in Hnz. by apply Hnz. }
  destruct (ramfs_create_ok w h fs parent np name flags lv l Hown Hinv Hp Hd Hl) as
    [[E [Hf|Hm]]|(Hf & a & w' & h' & lv' & fd & E & Ha & Hfresh & Hown' & Hinv' & Hfd & Hs' & Hsib & Hkp & _)].
  - left. by rewrite Htk.
  - destruct (Z.eq_dec (first_named fs name l) 0); [right; left|left]; rewrite Htk; intuition congruence.
  - right; right. split; [rewrite Htk; by intros []|].
    set (new := created fs parent np name flags fd) in *.
    set (fs' := add_node fs parent np a new fd (next_inode fs +₃₂ 1)) in *.
    assert (Hpa : parent <> a) by congruence.
    assert (Hna : node_at fs' a = new).
    { unfold fs'. rewrite add_node_at. by destruct (Z.eqb_spec a parent); [congruence|rewrite Z.eqb_refl]. }
    assert (Ename : n_name new = name) by (apply take_ge; change (Z.to_nat (VFS_NAME_MAX - 1)) with 63%nat; lia).
    assert (Hnodes : forall d, is_Some (nodes fs !! d) -> d <> a) by (intros d [nd Hnd]; congruence).
    assert (Hlist : forall c k x, siblings fs c k -> In x k -> x <> a).
    { intros c k x Hc Hx. by apply Hnodes, (siblings_nodes _ _ _ _ Hc). }
    assert (Hlook : forall name' c k, siblings fs c k -> first_named fs' name' k = first_named fs name' k).
    { intros name' c k Hc. apply first_named_ext. intros x Hx. apply add_names; [done|by eapply Hlist]. }
    assert (Hpn : nodes fs' !! parent = Some (with_children np a)) by apply lookup_insert_eq.
    rewrite (node_at_Some _ _ _ Hpn) in Hs'.
    exists a, w', h', fs', lv'. rewrite Hna. unfold dir_list. rewrite Hna.
    rewrite (node_at_Some _ _ _ Hpn). do 10 (split; [done|]). split; [|split; [|done]].
    + rewrite (lookup_ok _ _ _ _ name Hpn Hd Hs'), first_named_cons, Hna. by rewrite decide_True.
    + intros d name' [nd Hnd] Hne. destruct (Z.eq_dec d parent) as [->|Hdp].
      * rewrite (lookup_ok _ _ _ _ name' Hpn Hd Hs'), first_named_cons, Hna.
        rewrite decide_False by congruence. rewrite (Hlook _ _ _ Hl). by rewrite (lookup_ok _ _ _ _ name' Hp Hd Hl).
      * assert (Hnd' : nodes fs' !! d = Some nd).
        { cbn [nodes fs' add_node]. rewrite lookup_insert_ne by done. rewrite lookup_insert_ne; [done|].
          intros <-. congruence. }
        destruct (is_dir nd) eqn:Hdd.
        -- destruct (inv_dirs _ _ Hinv d nd Hnd) as [k Hk].
           rewrite (lookup_ok _ _ _ _ name' Hnd' Hdd (Hsib _ _ Hk)), (Hlook _ _ _ Hk).
           by rewrite (lookup_ok _ _ _ _ name' Hnd Hdd Hk).
        -- unfold ramfs_lookup. by rewrite (node_at_Some _ _ _ Hnd'), (node_at_Some _ _ _ Hnd), Hdd.
Qed.

(** C11: files are byte sequences.  A write at an offset within the file either
    fails for lack of memory without any effect, or changes the file as [pwrite]
    does and no other file; every read after it, of any file, at any offset and
    length, gives what [pread] gives on the resulting sequence and returns its
    length, wherever the buffer was moved to.  The write ends below 2^30, and the
    callers' buffers are outside the heap. *)
Theorem ramfs_write_read_refines w h fs a off sz buf lv :
  owns (ram w) h lv -> fs_inv fs lv -> regular fs a ->
  0 <= off <= Z.of_nat (length (content (ram w) fs a)) -> 0 <= sz -> off + sz <= 2 ^ 30 ->
  (buf + sz <= HEAP_START \/ HEAP_END <= buf) ->
  (ramfs_write w h fs a off sz buf = Some (-1, w, h, fs) /\
   no_room w h (file_at fs (n_fs_data (node_at fs a))) (off + sz)) \/
  exists w' h' fs' lv', ramfs_write w h fs a off sz buf = Some (sz, w', h', fs') /\
    owns (ram w') h' lv' /\ fs_inv fs' lv' /\
    forall b off' sz' buf', regular fs b -> 0 <= off' -> 0 <= sz' ->
      (buf' + sz' <= HEAP_START \/ HEAP_END <= buf') ->
      let now := if b =? a then pwrite (content (ram w) fs a) off (bytes_at (ram w) buf (Z.to_nat sz))
                 else content (ram w) fs b in
      exists w'', ramfs_read w' fs' b off' sz' buf' = (Z.of_nat (length (pread now off' sz')), w'') /\
        bytes_at (ram w'') buf' (length (pread now off' sz')) = pread now off' sz'.
Proof.
  intros Hown Hinv Hreg Ho Hs Hb Hbuf.
  destruct (write_content w h fs a off sz buf lv Hown Hinv Hreg Ho Hs Hb Hbuf) as
    [|(w' & h' & fs' & lv' & E & Hown' & Hinv' & Ec & Eo & Hr & _)]; [by left|right].
  exists w', h', fs', lv'. split; [done|]. split; [done|]. split; [done|].
  intros b off' sz' buf' Hrb Ho' Hs' Hbuf' now.
  assert (En : content (ram w') fs' b = now).
  { unfold now. destruct (Z.eqb_spec b a) as [->|]; [done|by apply Eo]. }
  destruct (read_content w' h' fs' b off' sz' buf' lv' Hown' Hinv' (Hr b Hrb) Ho' Hs' Hbuf')
    as (w'' & E1 & E2 & _). rewrite En in E1, E2. by exists w''.
Qed.
End buffers.

(** A write whose end lies above 2 GiB never returns: the capacity is a
    power of two, its doubling wraps to zero, and the loop runs for ever. *)
Theorem ramfs_write_never_returns {H : Type} `{AllocOps H} w (h : H) fs a off sz buf :
  is_file (node_at fs a) = true -> n_fs_data (node_at fs a) <> 0 ->
  f_capacity (file_at fs (n_fs_data (node_at fs a))) = 0 \/
  (exists k, 0 <= k <= 31 /\ f_capacity (file_at fs (n_fs_data (node_at fs a))) = 2 ^ k) ->
  2 ^ 31 < off + sz < 2 ^ 32 ->
  ramfs_write w h fs a off sz buf = None /\
  forall fuel, grow fuel (Z.max 64 (f_capacity (file_at fs (n_fs_data (node_at fs a))))) (off + sz) = None.
Proof.
  intros Hf Hd Hc Hb. set (f := file_at fs (n_fs_data (node_at fs a))) in *.
  assert (Hk : exists k, 0 <= k <= 31 /\ (if negb (f_capacity f =? 0) then f_capacity f else 64) = 2 ^ k).
  { destruct Hc as [->|(k & Hk & ->)]; [by exists 6|]. exists k. split; [done|].
    pose proof (Z.pow_pos_nonneg 2 k). by destruct (Z.eqb_spec (2 ^ k) 0); [lia|]. }
  split.
  - unfold ramfs_write. rewrite Hf. destruct (Z.eqb_spec (n_fs_data (node_at fs a)) 0); [done|].
    cbn [negb]. rewrite u32_small by lia. unfold ensure_capacity. fold f.
    assert (Hle : f_capacity f <= 2 ^ 31).
    { destruct Hc as [->|(k & Hk' & ->)]; [lia|apply Z.pow_le_mono_r; lia]. }
    destruct (Z.leb_spec (off + sz) (f_capacity f)); [lia|].
    destruct Hk as (k & Hk & ->). by rewrite grow_diverges by lia.
  - intros fuel. destruct Hc as [->|(k & Hk' & ->)]; [by apply (grow_diverges fuel 6); lia|].
    destruct (Z_le_gt_dec 6 k) as [Hge|Hlt].
    + rewrite Z.max_r; [apply grow_diverges; lia|]. change 64 with (2 ^ 6). apply Z.pow_le_mono_r; lia.
    + rewrite Z.max_l; [by apply (grow_diverges fuel 6); lia|]. change 64 with (2 ^ 6).
      apply Z.pow_le_mono_r; lia.
Qed.

(** ** Witnesses *)

(** A heap with three payloads, holding a root directory, a file in it and the
    file's payload. *)
Definition demo_fs_heap : option (machine * heap) :=
  '(_, w1, h1) ← kmalloc (heap_init (Machine ∅ [])).1 (heap_init (Machine ∅ [])).2 96;
  '(_, w2, h2) ← kmalloc w1 h1 96;
  '(_, w3, h3) ← kmalloc w2 h2 8;
  Some (w3, h3).

Definition demo_blocks : list block := [(96, false); (96, false); (8, false); (1048312, true)].
Definition demo_root : Z := 2097168.
Definition demo_file : Z := 2097280.
Definition demo_payload : Z := 2097392.
Definition demo_store : ramfs :=
  {| nodes := {[ demo_root := Node [47] VFS_DIRECTORY 0 1 true 0 0 demo_file 0;
                 demo_file := Node [97] VFS_FILE 0 2 true demo_payload demo_root 0 0 ]};
     files := {[ demo_payload := zero_file ]}; next_inode := 3 |}.

Lemma demo_fs_owns :
  exists w h, demo_fs_heap = Some (w, h) /\ owns (ram w) h (live demo_blocks).
Proof.
  unfold demo_fs_heap.
  destruct (kmalloc_step _ _ _ 96 (heap_init_inv (Machine ∅ [])) ltac:(lia)) as (w1 & h1 & -> & H1 & _).
  cbn [mbind option_bind].
  destruct (kmalloc_step _ _ _ 96 H1 ltac:(lia)) as (w2 & h2 & -> & H2 & _). cbn [mbind option_bind].
  destruct (kmalloc_step _ _ _ 8 H2 ltac:(lia)) as (w3 & h3 & -> & H3 & _). cbn [mbind option_bind].
  exists w3, h3. split; [reflexivity|]. exists demo_blocks. split; [exact H3|reflexivity].
Qed.

Lemma demo_fs_inv : fs_inv demo_store (live demo_blocks).
Proof.
  assert (Hn : forall a n, nodes demo_store !! a = Some n ->
    (a = demo_root /\ n = Node [47] VFS_DIRECTORY 0 1 true 0 0 demo_file 0) \/
    (a = demo_file /\ n = Node [97] VFS_FILE 0 2 true demo_payload demo_root 0 0)).
  { intros a n. unfold demo_store. cbn [nodes]. rewrite lookup_insert_Some, lookup_singleton_Some.
    intuition congruence. }
  assert (Hf : forall a f, files demo_store !! a = Some f -> a = demo_payload /\ f = zero_file).
  { intros a f. unfold demo_store. cbn [files]. rewrite lookup_singleton_Some. intuition congruence. }
  split.
  - intros a n [[-> _]|[-> _]]%Hn; exists 96; vm_compute; tauto.
  - intros a f [-> _]%Hf. exists 8. vm_compute. tauto.
  - intros a f [_ ->]%Hf. by left.
  - by intros a f [_ ->]%Hf.
  - intros a n [[_ ->]|[_ ->]]%Hn; [done|]. intros _. by exists zero_file.
  - by intros a b n n' [[-> ->]|[-> ->]]%Hn [[-> ->]|[-> ->]]%Hn.
  - intros a n [[_ ->]|[_ ->]]%Hn; [|by exists []]. exists [demo_file]. repeat split; try done.
Qed.

Lemma demo_regular : regular demo_store demo_file.
Proof. eexists. split; [reflexivity|]. by vm_compute. Qed.

Lemma ramfs_create_correct_witness :
  exists w h, demo_fs_heap = Some (w, h) /\
    ramfs_create w h demo_store demo_root [97] VFS_FILE = Some (0, w, h, demo_store).
Proof.
  destruct demo_fs_owns as (w & h & E & Ho). exists w, h. split; [exact E|].
  destruct (ramfs_create_correct w h demo_store demo_root _ [97] VFS_FILE _ [demo_file] Ho demo_fs_inv
    eq_refl eq_refl) as [[_ R]|[(Ht & _)|(Ht & _)]].
  - repeat split; try done.
  - cbn. lia.
  - exact R.
  - exfalso. apply Ht. exists demo_file. split; [left|]; reflexivity.
  - exfalso. apply Ht. exists demo_file. split; [left|]; reflexivity.
Defined.

Lemma ramfs_write_read_refines_witness :
  exists w h w' h' fs', demo_fs_heap = Some (w, h) /\
    ramfs_write w h demo_store demo_file 0 5 4096 = Some (5, w', h', fs').
Proof.
  destruct demo_fs_owns as (w & h & E & Ho).
  destruct (ramfs_write_read_refines w h demo_store demo_file 0 5 4096 _ Ho demo_fs_inv demo_regular)
    as [[R _]|(w' & h' & fs' & _ & R & _)]; [vm_compute; split; discriminate|lia|lia| | |].
  - left. vm_compute. discriminate.
  - exfalso.
    assert (Hrc : ('(w, h) ← demo_fs_heap; '(rc, _, _, _) ← ramfs_write w h demo_store demo_file 0 5 4096;
                   Some rc) = Some 5) by (vm_compute; reflexivity).
    rewrite E in Hrc. cbn [mbind option_bind] in Hrc. rewrite R in Hrc. discriminate.
  - exists w, h, w', h', fs'. exact (conj E R).
Defined.

Lemma ramfs_write_never_returns_witness :
  ramfs_write (Machine ∅ []) (Heap 0 0 0) demo_store demo_file 0 0x90000000 4096 = None.
Proof.
  apply (ramfs_write_never_returns (Machine ∅ []) (Heap 0 0 0) demo_store demo_file 0 0x90000000 4096).
  - reflexivity.
  - vm_compute. discriminate.
  - left. reflexivity.
  - lia.
Defined.
