(* ===== verification/Vfs.v ===== *)
(** * [kernel/fs/vfs.c]: paths and file descriptors

    The filesystem behind a node is reached through [vfs_ops_t]; here it is the
    class [VfsBackend], whose methods are the operations table and the two node
    fields the core reads ([flags], [size]).  The core is written over any
    backend; [Ramfs] is the instance the kernel mounts, and [ramfs_init] mounts
    it.

    A path is the list of its bytes; [components] is the usual reading of one.
    Every loop ends with its input: the only way not to return is a backend
    operation that does not. *)
From stdpp Require Import base numbers list gmap strings.
From Stdlib Require Import ZArith Lia Ascii.
From S2P Require Import Prelude.
From S2P Require Import Machine.
From S2P Require Import CString.
From S2P Require Import Alloc.
From S2P Require Import Heap.
From S2P Require Import Ramfs.

Definition VFS_MAX_FDS : Z := 32.
Definition VFS_O_RDONLY : Z := 0x00.
Definition VFS_O_WRONLY : Z := 0x01.
Definition VFS_O_RDWR : Z := 0x02.
Definition VFS_O_CREAT : Z := 0x40.
Definition VFS_O_TRUNC : Z := 0x200.
Definition VFS_O_APPEND : Z := 0x400.

(** The byte ['/']. *)
Definition slash : Z := 47.

Class VfsBackend (B : Type) := {
  be_flags : B -> Z -> Z;
  be_size : B -> Z -> Z;
  be_set_size : B -> Z -> Z -> B;
  (** [node->ops] is set, and the table has the operation *)
  be_has_ops : B -> Z -> bool;
  be_lookup : B -> Z -> list Z -> option Z;
  be_readdir : B -> Z -> Z -> option (option (list Z * Z));
  be_read : machine -> B -> Z -> Z -> Z -> Z -> Z * machine;
  be_write : machine -> B -> Z -> Z -> Z -> Z -> option (Z * machine * B);
  be_create : machine -> B -> Z -> list Z -> Z -> option (Z * machine * B);
}.

Record fd_entry := Fd {
  fd_node : Z;
  fd_offset : Z;
  fd_flags : Z;
  fd_used : bool;
}.

Definition free_fd : fd_entry := Fd 0 0 0 false.
#[global] Instance fd_inhabited : Inhabited fd_entry := populate free_fd.

Record vfs := Vfs {
  fd_table : list fd_entry;
  root_node : Z;
}.

Definition get_fd (v : vfs) (fd : Z) : fd_entry := fd_table v !!! Z.to_nat fd.
Definition put_fd (v : vfs) (fd : Z) (e : fd_entry) : vfs :=
  {| fd_table := <[Z.to_nat fd := e]> (fd_table v); root_node := root_node v |}.
Definition with_offset (e : fd_entry) (o : Z) : fd_entry :=
  {| fd_node := fd_node e; fd_offset := o; fd_flags := fd_flags e; fd_used := fd_used e |}.

(** ** Descriptors and paths *)

(** [n] entries left from [i]. *)
Fixpoint alloc_fd_loop (n : nat) (v : vfs) (i : Z) : Z :=
  match n with
  | O => -1
  | S n' => if negb (fd_used (get_fd v i)) then i else alloc_fd_loop n' v (i + 1)
  end.

Definition alloc_fd (v : vfs) : Z := alloc_fd_loop (Z.to_nat VFS_MAX_FDS) v 0.

(** [while ( *p == '/') p++;] *)
Fixpoint skip_slashes (p : list Z) : list Z :=
  match p with
  | c :: p' => if c =? slash then skip_slashes p' else p
  | [] => []
  end.

(** [while ( *p && *p != '/' && i < max - 1) comp[i++] = *p++;], [n] bytes of room. *)
Fixpoint take_component (n : nat) (p : list Z) : list Z * list Z :=
  match n, p with
  | S n', c :: p' =>
      if c =? slash then ([], p)
      else let '(comp, rest) := take_component n' p' in (c :: comp, rest)
  | _, _ => ([], p)
  end.

(** The next component and the rest of the path, or [None] at the end. *)
Definition next_component (p : list Z) (max : Z) : option (list Z * list Z) :=
  match skip_slashes p with
  | [] => None
  | p' => Some (take_component (Z.to_nat (max - 1)) p')
  end.

Definition vfs_init (w : machine) (v : vfs) : machine * vfs :=
  (emit w [VgaSetColor VGA_COLOR_LIGHT_GREEN VGA_COLOR_BLACK; VgaPuts (line "  [OK] VFS initialized")],
   {| fd_table := replicate (Z.to_nat VFS_MAX_FDS) free_fd; root_node := 0 |}).

Definition vfs_set_root (v : vfs) (root : Z) : vfs := {| fd_table := fd_table v; root_node := root |}.
Definition vfs_get_root (v : vfs) : Z := root_node v.

Section core.
Context {B : Type} `{VfsBackend B}.

(** The loop of [vfs_resolve]; a path has at most as many components as bytes. *)
Fixpoint resolve_loop (fuel : nat) (s : B) (cur : Z) (p : list Z) : option Z :=
  match fuel with
  | O => None
  | S fuel' =>
      match next_component p VFS_NAME_MAX with
      | None => Some cur
      | Some (comp, rest) =>
          if negb (has_flag (be_flags s cur) VFS_DIRECTORY) then Some 0
          else if negb (be_has_ops s cur) then Some 0
          else
            c ← be_lookup s cur comp;
            if c =? 0 then Some 0 else resolve_loop fuel' s c rest
      end
  end.

(** A null result is 0. *)
Definition vfs_resolve (v : vfs) (s : B) (path : list Z) : option Z :=
  if root_node v =? 0 then Some 0
  else if bool_decide (path = [slash]) then Some (root_node v)
  else resolve_loop (S (length path)) s (root_node v) path.

(** The index of the last ['/'], [i] being the index of the first byte left. *)
Fixpoint last_slash_loop (p : list Z) (i last : Z) : Z :=
  match p with
  | [] => last
  | c :: p' => last_slash_loop p' (i + 1) (if c =? slash then i else last)
  end.

(** The parent node and the leaf name; the parent is 0 on error. *)
Definition resolve_parent (v : vfs) (s : B) (path : list Z) (max : Z) : option (Z * list Z) :=
  if negb (match path with c :: _ => c =? slash | [] => false end) then Some (0, [])
  else
    let last_slash := last_slash_loop path 0 0 in
    let leaf := take (Z.to_nat (max - 1)) (drop (Z.to_nat (last_slash + 1)) path) in
    match leaf with
    | [] => Some (0, leaf)
    | _ =>
        if last_slash =? 0 then Some (root_node v, leaf)
        else if last_slash >=? 256 then Some (0, leaf)
        else
          parent ← vfs_resolve v s (take (Z.to_nat last_slash) path);
          Some (parent, leaf)
    end.

Definition vfs_create_file (w : machine) (v : vfs) (s : B) (path : list Z)
  : option (Z * machine * B) :=
  '(parent, leaf) ← resolve_parent v s path VFS_NAME_MAX;
  if (parent =? 0) || negb (has_flag (be_flags s parent) VFS_DIRECTORY) then Some (0, w, s)
  else if negb (be_has_ops s parent) then Some (0, w, s)
  else be_create w s parent leaf VFS_FILE.

Definition vfs_mkdir (w : machine) (v : vfs) (s : B) (path : list Z) : option (Z * machine * B) :=
  '(parent, leaf) ← resolve_parent v s path VFS_NAME_MAX;
  if (parent =? 0) || negb (has_flag (be_flags s parent) VFS_DIRECTORY) then Some (-1, w, s)
  else if negb (be_has_ops s parent) then Some (-1, w, s)
  else
    '(dir, w', s') ← be_create w s parent leaf VFS_DIRECTORY;
    Some (if negb (dir =? 0) then 0 else -1, w', s').

Definition vfs_open (w : machine) (v : vfs) (s : B) (path : list Z) (flags : Z)
  : option (Z * machine * vfs * B) :=
  node0 ← vfs_resolve v s path;
  '(node, w1, s1) ←
    (if (node0 =? 0) && has_flag flags VFS_O_CREAT then vfs_create_file w v s path
     else Some (node0, w, s));
  if node =? 0 then Some (-1, w1, v, s1)
  else
    let fd := alloc_fd v in
    if fd <? 0 then Some (-1, w1, v, s1)
    else
      let e := {| fd_node := node;
                  fd_offset := if has_flag flags VFS_O_APPEND then be_size s1 node else 0;
                  fd_flags := flags; fd_used := true |} in
      let s2 := if has_flag flags VFS_O_TRUNC && be_has_ops s1 node then be_set_size s1 node 0 else s1 in
      Some (fd, w1, put_fd v fd e, s2).

(** [fd < 0 || fd >= VFS_MAX_FDS || !fd_table[fd].used] *)
Definition bad_fd (v : vfs) (fd : Z) : bool :=
  (fd <? 0) || (fd >=? VFS_MAX_FDS) || negb (fd_used (get_fd v fd)).

Definition vfs_close (v : vfs) (fd : Z) : Z * vfs :=
  if bad_fd v fd then (-1, v)
  else
    let e := get_fd v fd in
    (0, put_fd v fd {| fd_node := 0; fd_offset := fd_offset e; fd_flags := fd_flags e; fd_used := false |}).

(** [if (n > 0) fd_table[fd].offset += n;] *)
Definition advance (v : vfs) (fd n : Z) : vfs :=
  if n >? 0 then put_fd v fd (with_offset (get_fd v fd) (fd_offset (get_fd v fd) +₃₂ n)) else v.

Definition vfs_read (w : machine) (v : vfs) (s : B) (fd buf size : Z) : Z * machine * vfs :=
  if bad_fd v fd then (-1, w, v)
  else
    let node := fd_node (get_fd v fd) in
    if (node =? 0) || negb (be_has_ops s node) then (-1, w, v)
    else
      let '(n, w') := be_read w s node (fd_offset (get_fd v fd)) size buf in
      (n, w', advance v fd n).

Definition vfs_write (w : machine) (v : vfs) (s : B) (fd buf size : Z)
  : option (Z * machine * vfs * B) :=
  if bad_fd v fd then Some (-1, w, v, s)
  else
    let node := fd_node (get_fd v fd) in
    if (node =? 0) || negb (be_has_ops s node) then Some (-1, w, v, s)
    else
      '(n, w', s') ← be_write w s node (fd_offset (get_fd v fd)) size buf;
      Some (n, w', advance v fd n, s').

Definition vfs_readdir (v : vfs) (s : B) (path : list Z) (index : Z) : option (option (list Z * Z)) :=
  dir ← vfs_resolve v s path;
  if (dir =? 0) || negb (has_flag (be_flags s dir) VFS_DIRECTORY) then Some None
  else if negb (be_has_ops s dir) then Some None
  else be_readdir s dir index.
End core.

(** ** The ramfs backend *)

#[export] Instance ramfs_backend {H : Type} `{AllocOps H} : VfsBackend (H * ramfs) := {
  be_flags s a := n_flags (node_at s.2 a);
  be_size s a := n_size (node_at s.2 a);
  be_set_size s a n := (s.1, set_node s.2 a (with_size (node_at s.2 a) n));
  be_has_ops s a := n_ops (node_at s.2 a);
  be_lookup s a name := ramfs_lookup s.2 a name;
  be_readdir s a i := ramfs_readdir s.2 a i;
  be_read w s a off size buf := ramfs_read w s.2 a off size buf;
  be_write w s a off size buf :=
    '(rc, w', h', fs') ← ramfs_write w s.1 s.2 a off size buf; Some (rc, w', (h', fs'));
  be_create w s a name flags :=
    '(n, w', h', fs') ← ramfs_create w s.1 s.2 a name flags; Some (n, w', (h', fs'));
}.

(** [ramfs_init]; [msg] is the address of the welcome message. *)
Definition ramfs_init {H : Type} `{AllocOps H} (w : machine) (h : H) (fs : ramfs) (v : vfs) (msg : Z)
  : option (machine * H * ramfs * vfs) :=
  '(root, w1, h1, fs1) ← alloc_node w h fs (bytes_of "/") VFS_DIRECTORY;
  if root =? 0 then
    Some (emit w1 [VgaSetColor VGA_COLOR_LIGHT_RED VGA_COLOR_BLACK; VgaPuts (line "  ERROR: ramfs root allocation failed")], h1, fs1, v)
  else
    let v1 := vfs_set_root v root in
    '(_, w2, h2, fs2) ← ramfs_create w1 h1 fs1 root (bytes_of "tmp") VFS_DIRECTORY;
    '(_, w3, h3, fs3) ← ramfs_create w2 h2 fs2 root (bytes_of "dev") VFS_DIRECTORY;
    '(_, w4, h4, fs4) ← ramfs_create w3 h3 fs3 root (bytes_of "etc") VFS_DIRECTORY;
    etc ← ramfs_lookup fs4 root (bytes_of "etc");
    '(w5, h5, fs5) ←
      (if negb (etc =? 0) then
         '(motd, w', h', fs') ← ramfs_create w4 h4 fs4 etc (bytes_of "motd") VFS_FILE;
         if negb (motd =? 0) then
           '(_, w'', h'', fs'') ← ramfs_write w' h' fs' motd 0 25 msg;
           Some (w'', h'', fs'')
         else Some (w', h', fs')
       else Some (w4, h4, fs4));
    Some (emit w5 [VgaSetColor VGA_COLOR_LIGHT_GREEN VGA_COLOR_BLACK; VgaPuts (line "  [OK] ramfs mounted at /");
                   VgaPuts (line "  [OK] Default dirs: /tmp /dev /etc");
                   VgaPuts (line "  [OK] /etc/motd created" ++ nl)], h5, fs5, v1).

(** ** Specification *)

(** The components of a path: the maximal runs of bytes other than ['/']; [acc] is
    the run so far, reversed. *)
Fixpoint components_from (acc : list Z) (p : list Z) : list (list Z) :=
  match p with
  | [] => match acc with [] => [] | _ => [rev acc] end
  | c :: p' =>
      if c =? slash then (match acc with [] => [] | _ => [rev acc] end) ++ components_from [] p'
      else components_from (c :: acc) p'
  end.

Definition components (p : list Z) : list (list Z) := components_from [] p.

(** Following names from a node. *)
Fixpoint descend {B : Type} `{VfsBackend B} (s : B) (cur : Z) (names : list (list Z)) : option Z :=
  match names with
  | [] => Some cur
  | name :: names' =>
      if negb (has_flag (be_flags s cur) VFS_DIRECTORY) || negb (be_has_ops s cur) then Some 0
      else
        c ← be_lookup s cur name;
        if c =? 0 then Some 0 else descend s c names'
  end.

(** What the core needs of a filesystem: a state [be_ok] in which every operation
    on a node returns, gives nodes or null, and keeps the state [be_ok]. *)
Class VfsLaws (B : Type) `{VfsBackend B} := {
  be_ok : machine -> B -> Prop;
  be_node : B -> Z -> Prop;
  lookup_law w s d name :
    be_ok w s -> be_node s d -> exists c, be_lookup s d name = Some c /\ (c = 0 \/ be_node s c);
  create_law w s d name flags :
    be_ok w s -> be_node s d ->
    exists c w' s', be_create w s d name flags = Some (c, w', s') /\ be_ok w' s' /\
      (c = 0 \/ be_node s' c) /\ forall x, be_node s x -> be_node s' x;
  truncate_law w s a :
    be_ok w s -> be_node s a ->
    be_ok w (be_set_size s a 0) /\ forall x, be_node s x -> be_node (be_set_size s a 0) x;
}.

(** The descriptor table has its size, and the root and every open descriptor
    are nodes. *)
Record vfs_inv {B : Type} `{VfsLaws B} (v : vfs) (s : B) : Prop := {
  inv_table : length (fd_table v) = Z.to_nat VFS_MAX_FDS;
  inv_root : root_node v <> 0 -> be_node s (root_node v);
  inv_fds : forall fd, 0 <= fd < VFS_MAX_FDS -> fd_used (get_fd v fd) = true ->
    fd_node (get_fd v fd) <> 0 /\ be_node s (fd_node (get_fd v fd));
}.

(** [fd] is open on [node] at [off]. *)
Definition open_at (v : vfs) (fd node off : Z) : Prop :=
  0 <= fd < VFS_MAX_FDS /\ fd_used (get_fd v fd) = true /\ fd_node (get_fd v fd) = node /\
  fd_offset (get_fd v fd) = off.

(** ** Paths *)

Lemma skip_slashes_components p : components p = components (skip_slashes p).
Proof.
  induction p as [|c p IH]; [done|]. unfold components in *. cbn [components_from skip_slashes].
  destruct (Z.eqb_spec c slash) as [->|]; [done|]. cbn [components_from].
  by destruct (Z.eqb_spec c slash).
Qed.

Lemma skip_slashes_spec p :
  (length (skip_slashes p) <= length p)%nat /\
  (skip_slashes p = [] \/ exists c p', skip_slashes p = c :: p' /\ c <> slash).
Proof.
  induction p as [|c p [IH1 IH2]]; cbn [skip_slashes length]; [by split; [|left]|].
  destruct (Z.eqb_spec c slash); [split; [lia|done]|]. split; [cbn; lia|]. right. by exists c, p.
Qed.

Lemma take_component_spec n p c r :
  take_component n p = (c, r) ->
  p = c ++ r /\ Forall (fun x => x <> slash) c /\ (length c <= n)%nat /\
  (r = [] \/ (exists r', r = slash :: r') \/ length c = n).
Proof.
  revert p c r. induction n as [|n IH]; intros p c r; cbn [take_component].
  { intros [= <- <-]. repeat split; [constructor|cbn; lia|]. by right; right. }
  destruct p as [|x p]; [intros [= <- <-]; repeat split; [constructor|cbn; lia|by left]|].
  destruct (Z.eqb_spec x slash) as [->|Hx].
  { intros [= <- <-]. repeat split; [constructor|cbn; lia|]. right; left. by exists p. }
  destruct (take_component n p) as [c' r'] eqn:E. intros [= <- <-].
  destruct (IH p c' r' E) as (-> & Hf & Hl & Hr). repeat split; [by constructor|cbn; lia|].
  destruct Hr as [->|[[r'' ->]|<-]]; [by left|right; left; by exists r''|by right; right].
Qed.

(** A run of bytes other than ['/'] that ends is one component. *)
Lemma components_from_run acc c r :
  Forall (fun x => x <> slash) c -> (r = [] \/ exists r', r = slash :: r') -> acc ++ c <> [] ->
  components_from acc (c ++ r) = (rev acc ++ c) :: components r.
Proof.
  revert acc. induction c as [|x c IH]; intros acc Hc Hr Hne.
  - rewrite app_nil_r in *. destruct acc as [|y acc]; [done|]. cbn [app].
    destruct Hr as [->|[r' ->]]; [done|]. unfold components. cbn [components_from]. by rewrite Z.eqb_refl.
  - inversion Hc; subst. cbn [app components_from]. destruct (Z.eqb_spec x slash); [done|].
    rewrite IH; [|done|done|done]. cbn [rev]. by rewrite <- app_assoc.
Qed.

(** A component in progress is never shorter than what was read of it. *)
Lemma components_from_prefix acc p :
  acc <> [] -> exists x l, components_from acc p = x :: l /\ (length acc <= length x)%nat.
Proof.
  revert acc. induction p as [|c p IH]; intros acc Hne; cbn [components_from].
  - destruct acc as [|y acc]; [done|]. exists (rev (y :: acc)), []. by rewrite length_rev.
  - destruct (c =? slash).
    + destruct acc as [|y acc]; [done|]. eexists (rev (y :: acc)), _. split; [reflexivity|].
      by rewrite length_rev.
    + destruct (IH (c :: acc)) as (x & l & -> & Hx); [done|]. exists x, l. split; [done|]. cbn in Hx. lia.
Qed.

Lemma components_from_noslash acc c r :
  Forall (fun x => x <> slash) c -> components_from acc (c ++ r) = components_from (rev c ++ acc) r.
Proof.
  revert acc. induction c as [|x c IH]; intros acc Hc; [done|]. inversion Hc; subst.
  cbn [app components_from rev]. destruct (Z.eqb_spec x slash); [done|]. rewrite IH by done.
  by rewrite <- app_assoc.
Qed.

(** What [next_component] takes off a path whose components are short enough. *)
Lemma next_component_ok p :
  Forall (fun c => (length c <= 63)%nat) (components p) ->
  match next_component p VFS_NAME_MAX with
  | None => components p = []
  | Some (c, r) => components p = c :: components r /\ (length r < length p)%nat
  end.
Proof.
  rewrite skip_slashes_components. unfold next_component. destruct (skip_slashes_spec p) as [Hl Hs].
  destruct Hs as [->|(x & q & E & Hx)]; [done|]. rewrite E in *. intros Hf.
  change (Z.to_nat (VFS_NAME_MAX - 1)) with 63%nat.
  destruct (take_component 63 (x :: q)) as [c r] eqn:Ht.
  destruct (take_component_spec _ _ _ _ Ht) as (Eq & Hc & Hlen & Hr). rewrite Eq in *.
  assert (Hne : c <> []).
  { intros ->. destruct Hr as [->|[[r' ->]|Hr]]; [done| |done]. by injection Eq. }
  rewrite length_app in Hl. assert (0 < length c)%nat by (destruct c; [done|cbn; lia]).
  split; [|lia]. unfold components.
  assert (Hr' : r = [] \/ exists r', r = slash :: r').
  { destruct Hr as [->|[Hr|Hr]]; [by left|by right|]. destruct r as [|y r]; [by left|right].
    destruct (Z.eq_dec y slash) as [->|Hy]; [by exists r|exfalso].
    unfold components in Hf. rewrite components_from_noslash in Hf by done. rewrite app_nil_r in Hf.
    cbn [components_from] in Hf. destruct (Z.eqb_spec y slash); [done|].
    destruct (components_from_prefix (y :: rev c) r) as (z & l & Ez & Hz); [done|]. rewrite Ez in Hf.
    inversion Hf; subst. cbn [length] in Hz. rewrite length_rev in Hz. lia. }
  by rewrite (components_from_run [] c r).
Qed.

Section paths.
Context {B : Type} `{VfsBackend B}.

Lemma resolve_loop_ok fuel (s : B) cur p :
  Forall (fun c => (length c <= 63)%nat) (components p) -> (length p < fuel)%nat ->
  resolve_loop fuel s cur p = descend s cur (components p).
Proof.
  revert cur p. induction fuel as [|fuel IH]; intros cur p Hf Hl; [lia|]. cbn [resolve_loop].
  pose proof (next_component_ok p Hf) as Hn. destruct (next_component p VFS_NAME_MAX) as [[c r]|].
  2:{ by rewrite Hn. }
  destruct Hn as [E Hr]. rewrite E in *. inversion Hf; subst. cbn [descend].
  destruct (has_flag (be_flags s cur) VFS_DIRECTORY); cbn [negb orb]; [|done].
  destruct (be_has_ops s cur); cbn [negb]; [|done].
  destruct (be_lookup s cur c) as [d|]; cbn [mbind option_bind]; [|done].
  destruct (d =? 0); [done|]. apply IH; [done|lia].
Qed.

(** C36: resolving a path whose components have at most 63 bytes follows its
    components from the root one by one, whatever the slashes between them; a
    missing name or a file in the middle gives null. *)
Theorem vfs_resolve_correct (v : vfs) (s : B) path :
  root_node v <> 0 -> Forall (fun c => (length c <= 63)%nat) (components path) ->
  vfs_resolve v s path = descend s (root_node v) (components path).
Proof.
  intros Hr Hf. unfold vfs_resolve. destruct (Z.eqb_spec (root_node v) 0); [done|].
  case_bool_decide as E; [by subst path|]. apply resolve_loop_ok; [done|lia].
Qed.

(** A longer component is cut in two: the name [a ++ b] directly under the root,
    [a] of 63 bytes, is looked up as the entry [b] of a directory [a]. *)
Theorem vfs_resolve_splits_long_names (v : vfs) (s : B) a b :
  root_node v <> 0 -> length a = 63%nat -> (0 < length b <= 63)%nat ->
  Forall (fun c => c <> slash) (a ++ b) ->
  components (slash :: a ++ b) = [a ++ b] /\
  vfs_resolve v s (slash :: a ++ b) = descend s (root_node v) [a; b].
Proof.
  intros Hr Ha Hb Hf. pose proof Hf as [Hfa Hfb]%Forall_app.
  assert (Hnb : b <> []) by (intros ->; cbn in Hb; lia).
  assert (Hna : a <> []) by (by intros ->).
  assert (Hcomp : components b = [b]).
  { pose proof (components_from_run [] b [] Hfb (or_introl eq_refl) Hnb) as E. by rewrite app_nil_r in E. }
  split.
  { pose proof (components_from_run [] (a ++ b) [] Hf (or_introl eq_refl)) as E.
    rewrite app_nil_r in E. change (components_from [] (a ++ b) = [a ++ b]). apply E. by destruct a. }
  unfold vfs_resolve. destruct (Z.eqb_spec (root_node v) 0); [done|].
  rewrite bool_decide_false by (by destruct a). cbn [length resolve_loop].
  assert (Hsk : skip_slashes (a ++ b) = a ++ b).
  { destruct a as [|x a]; [done|]. inversion Hfa; subst. cbn. by destruct (Z.eqb_spec x slash). }
  assert (Htk : forall l r, Forall (fun c => c <> slash) l -> take_component (length l) (l ++ r) = (l, r)).
  { induction l as [|x l IH]; intros r Hl; [done|]. inversion Hl; subst. cbn [length app take_component].
    destruct (Z.eqb_spec x slash); [done|]. by rewrite IH. }
  unfold next_component. change (Z.to_nat (VFS_NAME_MAX - 1)) with 63%nat.
  cbn [skip_slashes]. rewrite Z.eqb_refl, Hsk.
  destruct (a ++ b) as [|x q] eqn:Eab; [by destruct a|]. rewrite <- Eab, <- Ha, Htk, Ha by done.
  cbn [descend]. destruct (has_flag (be_flags s (root_node v)) VFS_DIRECTORY); cbn [negb orb]; [|done].
  destruct (be_has_ops s (root_node v)); cbn [negb]; [|done].
  destruct (be_lookup s (root_node v) a) as [d|]; cbn [mbind option_bind]; [|done].
  destruct (d =? 0); [done|]. change (resolve_loop (S (length (a ++ b))) s d b = descend s d [b]).
  rewrite resolve_loop_ok, Hcomp; [done| |].
  - rewrite Hcomp. constructor; [lia|constructor].
  - rewrite length_app. lia.
Qed.
End paths.

(** ** Descriptors *)

Lemma get_put_fd v fd e fd' :
  0 <= fd < VFS_MAX_FDS -> 0 <= fd' -> length (fd_table v) = Z.to_nat VFS_MAX_FDS ->
  get_fd (put_fd v fd e) fd' = if fd' =? fd then e else get_fd v fd'.
Proof.
  intros Hf Hf' Hl. unfold get_fd, put_fd, VFS_MAX_FDS in *. cbn [fd_table].
  destruct (Z.eqb_spec fd' fd) as [->|].
  - rewrite list_lookup_total_insert_eq; [done|lia].
  - rewrite list_lookup_total_insert_ne; [done|lia].
Qed.

(** [alloc_fd] returns the lowest free descriptor. *)
Lemma alloc_fd_loop_ok n v i :
  0 <= i -> i + Z.of_nat n = VFS_MAX_FDS ->
  (alloc_fd_loop n v i = -1 /\ forall j, i <= j < VFS_MAX_FDS -> fd_used (get_fd v j) = true) \/
  (i <= alloc_fd_loop n v i < VFS_MAX_FDS /\ fd_used (get_fd v (alloc_fd_loop n v i)) = false /\
   forall j, i <= j < alloc_fd_loop n v i -> fd_used (get_fd v j) = true).
Proof.
  revert i. induction n as [|n IH]; intros i Hi Hn; cbn [alloc_fd_loop]; [left; split; [done|lia]|].
  destruct (fd_used (get_fd v i)) eqn:E; cbn [negb].
  - assert (Hx : forall j, j = i -> fd_used (get_fd v j) = true) by congruence.
    destruct (IH (i + 1)) as [[-> Hu]|(Hr & Hf & Hu)]; [lia|lia|left|right].
    + split; [done|]. intros j Hj. destruct (Z.eq_dec j i); [by apply Hx|apply Hu; lia].
    + split; [lia|]. split; [done|]. intros j Hj. destruct (Z.eq_dec j i); [by apply Hx|apply Hu; lia].
  - right. split; [lia|]. split; [done|lia].
Qed.

Lemma alloc_fd_ok v :
  (alloc_fd v = -1 /\ forall j, 0 <= j < VFS_MAX_FDS -> fd_used (get_fd v j) = true) \/
  (0 <= alloc_fd v < VFS_MAX_FDS /\ fd_used (get_fd v (alloc_fd v)) = false /\
   forall j, 0 <= j < alloc_fd v -> fd_used (get_fd v j) = true).
Proof. by apply alloc_fd_loop_ok. Qed.

Lemma bad_fd_open_at v fd node off : open_at v fd node off -> bad_fd v fd = false.
Proof.
  intros (Hf & Hu & _). unfold bad_fd. rewrite Hu, Z.geb_leb.
  destruct (Z.ltb_spec fd 0), (Z.leb_spec VFS_MAX_FDS fd); try lia; done.
Qed.

Section descriptors.
Context {B : Type} `{VfsLaws B}.

Lemma vfs_inv_mono v (s s' : B) :
  (forall x, be_node s x -> be_node s' x) -> vfs_inv v s -> vfs_inv v s'.
Proof.
  intros Hm [I1 I2 I3]. split; [done|by intros ?; apply Hm, I2|].
  intros fd Hf Hu. destruct (I3 fd Hf Hu). split; [done|by apply Hm].
Qed.

Lemma vfs_inv_put v (s : B) fd e :
  vfs_inv v s -> 0 <= fd < VFS_MAX_FDS ->
  (fd_used e = true -> fd_node e <> 0 /\ be_node s (fd_node e)) -> vfs_inv (put_fd v fd e) s.
Proof.
  intros [I1 I2 I3] Hf He. split; [by cbn; rewrite length_insert|done|].
  intros fd' Hf'. rewrite get_put_fd by (done || lia). destruct (fd' =? fd); [done|by apply I3].
Qed.

Lemma resolve_loop_total w (s : B) fuel cur p :
  be_ok w s -> be_node s cur -> (length p < fuel)%nat ->
  exists c, resolve_loop fuel s cur p = Some c /\ (c = 0 \/ be_node s c).
Proof.
  intros Hok. revert cur p. induction fuel as [|fuel IH]; intros cur p Hc Hl; [lia|].
  cbn [resolve_loop]. unfold next_component.
  destruct (skip_slashes_spec p) as [Hls [->|(x & q & E & Hx)]]; [exists cur; split; [done|by right]|].
  rewrite E in *. destruct (take_component _ (x :: q)) as [c r] eqn:Ht.
  destruct (take_component_spec _ _ _ _ Ht) as (Eq & _ & _ & Hr).
  assert (Hne : c <> []).
  { intros ->. destruct Hr as [->|[[r' ->]|Hr]]; [done|by injection Eq|done]. }
  assert (Hlr : (length r < length p)%nat).
  { rewrite Eq, length_app in Hls. destruct c; [done|cbn in Hls; lia]. }
  destruct (has_flag (be_flags s cur) VFS_DIRECTORY); cbn [negb]; [|exists 0; by split; [|left]].
  destruct (be_has_ops s cur); cbn [negb]; [|exists 0; by split; [|left]].
  destruct (lookup_law w s cur c Hok Hc) as (d & -> & Hd). cbn [mbind option_bind].
  destruct (Z.eqb_spec d 0); [exists 0; by split; [|left]|].
  destruct Hd as [|Hd]; [done|]. apply IH; [done|lia].
Qed.

Lemma vfs_resolve_total w v (s : B) path :
  be_ok w s -> vfs_inv v s -> exists c, vfs_resolve v s path = Some c /\ (c = 0 \/ be_node s c).
Proof.
  intros Hok Hi. unfold vfs_resolve. destruct (Z.eqb_spec (root_node v) 0) as [|Hr].
  { exists 0. by split; [|left]. }
  pose proof (inv_root _ _ Hi Hr). case_bool_decide.
  - eexists. split; [done|by right].
  - apply (resolve_loop_total w); [done|done|lia].
Qed.

Lemma resolve_parent_total w v (s : B) path max :
  be_ok w s -> vfs_inv v s ->
  exists c leaf, resolve_parent v s path max = Some (c, leaf) /\ (c = 0 \/ be_node s c).
Proof.
  intros Hok Hi. unfold resolve_parent. destruct (negb _); [exists 0, []; by split; [|left]|].
  destruct (take _ _) as [|x leaf]; [exists 0, []; by split; [|left]|].
  destruct (_ =? 0).
  - eexists _, _. split; [reflexivity|]. destruct (Z.eq_dec (root_node v) 0); [by left|right].
    by apply (inv_root _ _ Hi).
  - destruct (_ >=? 256); [eexists 0, _; split; [reflexivity|by left]|].
    destruct (vfs_resolve_total w v s (take (Z.to_nat (last_slash_loop path 0 0)) path) Hok Hi)
      as (c & -> & Hc). by eexists c, _.
Qed.

Lemma vfs_create_file_total w v (s : B) path :
  be_ok w s -> vfs_inv v s ->
  exists c w' s', vfs_create_file w v s path = Some (c, w', s') /\ be_ok w' s' /\
    (c = 0 \/ be_node s' c) /\ forall x, be_node s x -> be_node s' x.
Proof.
  intros Hok Hi. unfold vfs_create_file.
  destruct (resolve_parent_total w v s path VFS_NAME_MAX Hok Hi) as (d & leaf & -> & Hd).
  cbn [mbind option_bind]. destruct (Z.eqb_spec d 0); cbn [orb].
  { exists 0, w, s. split; [done|]. split; [done|]. by split; [left|]. }
  destruct Hd as [|Hd]; [done|].
  destruct (negb (has_flag (be_flags s d) VFS_DIRECTORY)).
  { exists 0, w, s. split; [done|]. split; [done|]. by split; [left|]. }
  destruct (negb (be_has_ops s d)).
  { exists 0, w, s. split; [done|]. split; [done|]. by split; [left|]. }
  destruct (create_law w s d leaf VFS_FILE Hok Hd) as (c & w' & s' & -> & Hok' & Hc & Hm).
  by exists c, w', s'.
Qed.

(** A descriptor that [alloc_fd] gave and that was filled in can be closed once,
    and is then the lowest free one again. *)
Lemma close_allocated v (s : B) e :
  vfs_inv v s -> 0 <= alloc_fd v < VFS_MAX_FDS -> fd_used (get_fd v (alloc_fd v)) = false ->
  (forall j, 0 <= j < alloc_fd v -> fd_used (get_fd v j) = true) ->
  fd_used e = true -> fd_node e <> 0 -> be_node s (fd_node e) ->
  let fd := alloc_fd v in
  let v' := put_fd v fd e in
  vfs_inv v' s /\ fd_used (get_fd v' fd) = true /\ fd_flags (get_fd v' fd) = fd_flags e /\
  (forall j, 0 <= j -> j <> fd -> get_fd v' j = get_fd v j) /\
  exists v'', vfs_close v' fd = (0, v'') /\ vfs_close v'' fd = (-1, v'') /\ alloc_fd v'' = fd /\
    vfs_inv v'' s /\ forall j, 0 <= j -> j <> fd -> get_fd v'' j = get_fd v j.
Proof.
  intros Hi Hr Hfree Hlow He Hn0 Hn fd v'. fold fd in Hr, Hfree, Hlow.
  assert (Hi' : vfs_inv v' s) by (by apply vfs_inv_put).
  pose proof (inv_table _ _ Hi) as Hl. pose proof (inv_table _ _ Hi') as Hl'.
  assert (Hget : get_fd v' fd = e) by (unfold v'; rewrite get_put_fd, Z.eqb_refl; done || lia).
  assert (Hother : forall j, 0 <= j -> j <> fd -> get_fd v' j = get_fd v j).
  { intros j Hj Hne. unfold v'. rewrite get_put_fd by done. by destruct (Z.eqb_spec j fd). }
  split; [done|]. rewrite Hget. split; [done|]. split; [done|]. split; [done|].
  assert (Hop : open_at v' fd (fd_node e) (fd_offset e)) by (unfold open_at; by rewrite Hget).
  set (e' := {| fd_node := 0; fd_offset := fd_offset e; fd_flags := fd_flags e; fd_used := false |}).
  set (v'' := put_fd v' fd e'). exists v''.
  split; [unfold vfs_close; by rewrite (bad_fd_open_at _ _ _ _ Hop), Hget|].
  assert (Hfr : get_fd v'' fd = e') by (unfold v''; rewrite get_put_fd, Z.eqb_refl; done || lia).
  assert (Hoth2 : forall j, 0 <= j -> j <> fd -> get_fd v'' j = get_fd v j).
  { intros j Hj Hne. unfold v''. rewrite get_put_fd by done.
    destruct (Z.eqb_spec j fd); [done|by apply Hother]. }
  split; [unfold vfs_close, bad_fd; rewrite Hfr; cbn [fd_used negb e']; by rewrite orb_true_r|].
  split; [|split; [by apply vfs_inv_put|done]].
  destruct (alloc_fd_ok v'') as [[_ Hu]|(Hr' & Hf' & Hl'')].
  - specialize (Hu fd Hr). by rewrite Hfr in Hu.
  - destruct (Z.lt_trichotomy (alloc_fd v'') fd) as [Hlt|[|Hgt]]; [|done|].
    + rewrite Hoth2 in Hf' by lia. rewrite Hlow in Hf'; [done|lia].
    + specialize (Hl'' fd ltac:(lia)). by rewrite Hfr in Hl''.
Qed.

(** C35: [vfs_open] returns on every path and flag combination; it either gives
    -1 and leaves the descriptor table alone, or the lowest free descriptor, open
    on a node, every other descriptor unchanged; closing that descriptor succeeds
    once, frees it for the next [open], and touches no other. *)
Theorem vfs_open_close_correct w v (s : B) path flags :
  be_ok w s -> vfs_inv v s ->
  exists fd w' v' s', vfs_open w v s path flags = Some (fd, w', v', s') /\
    be_ok w' s' /\ vfs_inv v' s' /\
    ((fd = -1 /\ v' = v) \/
     (0 <= fd < VFS_MAX_FDS /\ fd_used (get_fd v fd) = false /\
      (forall j, 0 <= j < fd -> fd_used (get_fd v j) = true) /\
      fd_used (get_fd v' fd) = true /\ fd_flags (get_fd v' fd) = flags /\
      (forall j, 0 <= j -> j <> fd -> get_fd v' j = get_fd v j) /\
      exists v'', vfs_close v' fd = (0, v'') /\ vfs_close v'' fd = (-1, v'') /\ alloc_fd v'' = fd /\
        vfs_inv v'' s' /\ forall j, 0 <= j -> j <> fd -> get_fd v'' j = get_fd v j)).
Proof.
  intros Hok Hi. unfold vfs_open.
  destruct (vfs_resolve_total w v s path Hok Hi) as (n0 & -> & Hn0). cbn [mbind option_bind].
  assert (Hnode : exists node w1 s1,
    (if (n0 =? 0) && has_flag flags VFS_O_CREAT then vfs_create_file w v s path else Some (n0, w, s)) =
    Some (node, w1, s1) /\ be_ok w1 s1 /\ (node = 0 \/ be_node s1 node) /\
    forall x, be_node s x -> be_node s1 x).
  { destruct (_ && _); [by apply vfs_create_file_total|by exists n0, w, s]. }
  destruct Hnode as (node & w1 & s1 & -> & Hok1 & Hnode & Hm). cbn [mbind option_bind].
  pose proof (vfs_inv_mono _ _ _ Hm Hi) as Hi1.
  destruct (Z.eqb_spec node 0).
  { exists (-1), w1, v, s1. split; [done|]. split; [done|]. split; [done|by left]. }
  destruct Hnode as [|Hnode]; [done|].
  destruct (alloc_fd_ok v) as [[-> Hu]|(Hr & Hfree & Hlow)].
  { exists (-1), w1, v, s1. split; [done|]. split; [done|]. split; [done|by left]. }
  set (fd := alloc_fd v) in *. destruct (Z.ltb_spec fd 0); [lia|].
  set (e := {| fd_node := node; fd_offset := _; fd_flags := flags; fd_used := true |}).
  set (s2 := if has_flag flags VFS_O_TRUNC && be_has_ops s1 node then be_set_size s1 node 0 else s1).
  assert (Ht : be_ok w1 s2 /\ forall x, be_node s1 x -> be_node s2 x).
  { unfold s2. destruct (_ && _); [by apply truncate_law|done]. }
  destruct Ht as [Hok2 Hm2]. pose proof (vfs_inv_mono _ _ _ Hm2 Hi1) as Hi2.
  destruct (close_allocated v s2 e Hi2 Hr Hfree Hlow) as (Hi3 & Hrest); [done|done|by apply Hm2|].
  exists fd, w1, (put_fd v fd e), s2. split; [done|]. split; [done|]. split; [done|right].
  split; [done|]. split; [done|]. by split.
Qed.
End descriptors.

(** ** The ramfs meets the contract *)

Section ramfs_backend_laws.
Context {H : Type} `{AllocLaws H}.

Definition fs_ok (w : machine) (s : H * ramfs) : Prop :=
  exists lv, owns (ram w) s.1 lv /\ fs_inv s.2 lv.
Definition fs_node (s : H * ramfs) (a : Z) : Prop := is_Some (nodes s.2 !! a).

Lemma fs_lookup_law w (s : H * ramfs) d name :
  fs_ok w s -> fs_node s d -> exists c, be_lookup s d name = Some c /\ (c = 0 \/ fs_node s c).
Proof.
  destruct s as [h fs]. intros (lv & _ & Hi) [n Hn]. cbn [fst snd be_lookup ramfs_backend] in *.
  destruct (is_dir n) eqn:Hd.
  + destruct (inv_dirs _ _ Hi d n Hn) as [l Hl]. rewrite (lookup_ok _ _ _ _ name Hn Hd Hl).
    eexists. split; [done|]. destruct (first_named_spec fs name l) as [[E _]|[Hin _]].
    * apply List.Forall_forall. intros x Hx. by apply (siblings_nodes _ _ _ _ Hl).
    * by left.
    * right. by apply (siblings_nodes _ _ _ _ Hl).
  + exists 0. split; [|by left]. unfold ramfs_lookup. by rewrite (node_at_Some _ _ _ Hn), Hd.
Qed.

Lemma fs_create_law w (s : H * ramfs) d name flags :
  fs_ok w s -> fs_node s d ->
  exists c w' s', be_create w s d name flags = Some (c, w', s') /\ fs_ok w' s' /\
    (c = 0 \/ fs_node s' c) /\ forall x, fs_node s x -> fs_node s' x.
Proof.
  destruct s as [h fs]. unfold fs_node. intros (lv & Ho & Hi) [n Hn]. cbn [fst snd be_create ramfs_backend] in *.
  destruct (is_dir n) eqn:Hd.
  2:{ exists 0, w, (h, fs). unfold ramfs_create. rewrite (node_at_Some _ _ _ Hn), Hd.
      split; [done|]. split; [by exists lv|]. by split; [left|]. }
  destruct (inv_dirs _ _ Hi d n Hn) as [l Hl].
  destruct (ramfs_create_ok w h fs d n name flags lv l Ho Hi Hn Hd Hl) as
    [[-> _]|(_ & a & w' & h' & lv' & fd & -> & Ha & Hf & Ho' & Hi' & _)]; cbn [mbind option_bind].
  + exists 0, w, (h, fs). split; [done|]. split; [by exists lv|]. by split; [left|].
  + eexists a, w', _. split; [done|]. split; [by exists lv'|]. cbn [fst snd nodes add_node].
    split; [right|].
    * rewrite lookup_insert_ne by congruence. by rewrite lookup_insert_eq.
    * intros x Hx. destruct (Z.eq_dec d x) as [->|]; [by rewrite lookup_insert_eq|].
      rewrite lookup_insert_ne by done. destruct (Z.eq_dec a x) as [->|]; [by rewrite lookup_insert_eq|].
      by rewrite lookup_insert_ne.
Qed.

Lemma fs_truncate_law w (s : H * ramfs) a :
  fs_ok w s -> fs_node s a ->
  fs_ok w (be_set_size s a 0) /\ forall x, fs_node s x -> fs_node (be_set_size s a 0) x.
Proof.
  destruct s as [h fs]. unfold fs_node. intros (lv & Ho & Hi) [n Hn]. cbn [fst snd be_set_size ramfs_backend] in *.
  rewrite (node_at_Some _ _ _ Hn). split.
  + exists lv. split; [done|]. apply fs_inv_set_size; [done|done|]. intros Hd.
    destruct (inv_size _ _ Hi a n Hn Hd) as (f & Hf & Hs). exists f. split; [done|lia].
  + intros x Hx. cbn [nodes set_node]. destruct (Z.eq_dec a x) as [->|]; [by rewrite lookup_insert_eq|].
    by rewrite lookup_insert_ne.
Qed.

#[export] Instance ramfs_laws : VfsLaws (H * ramfs) := {
  be_ok := fs_ok; be_node := fs_node;
  lookup_law := fs_lookup_law; create_law := fs_create_law; truncate_law := fs_truncate_law;
}.
End ramfs_backend_laws.

(** ** Reading and writing through descriptors *)

Lemma advance_open_at v fd node off n :
  open_at v fd node off -> length (fd_table v) = Z.to_nat VFS_MAX_FDS -> 0 <= off -> 0 <= n ->
  (n = 0 \/ off + n < 2 ^ 32) ->
  open_at (advance v fd n) fd node (off + n) /\
  (forall j, 0 <= j -> j <> fd -> get_fd (advance v fd n) j = get_fd v j) /\
  length (fd_table (advance v fd n)) = Z.to_nat VFS_MAX_FDS /\ root_node (advance v fd n) = root_node v.
Proof.
  intros (Hf & Hu & Hn & Ho) Hl H0 Hn0 Hb. unfold advance, open_at. rewrite Z.gtb_ltb.
  destruct (Z.ltb_spec 0 n).
  - assert (Hg : forall j, 0 <= j -> get_fd (put_fd v fd (with_offset (get_fd v fd) (fd_offset (get_fd v fd) +₃₂ n))) j
      = if j =? fd then with_offset (get_fd v fd) (fd_offset (get_fd v fd) +₃₂ n) else get_fd v j).
    { intros j Hj. by apply get_put_fd. }
    rewrite Hg, Z.eqb_refl by lia. cbn [fd_used fd_node fd_offset with_offset]. rewrite Ho.
    rewrite u32_small by lia. split; [done|]. split; [|by cbn; rewrite length_insert].
    intros j Hj Hne. rewrite Ho in Hg. rewrite u32_small in Hg by lia. rewrite Hg by done.
    by destruct (Z.eqb_spec j fd).
  - replace n with 0 by lia. rewrite Z.add_0_r. done.
Qed.

Lemma open_at_ext v v' fd node off : get_fd v' fd = get_fd v fd -> open_at v fd node off -> open_at v' fd node off.
Proof. intros E. unfold open_at. by rewrite E. Qed.

Section ramfs_descriptors.
Context {H : Type} `{AllocLaws H}.

Lemma vfs_inv_advance v (s s' : H * ramfs) fd node off n :
  vfs_inv v s -> open_at v fd node off -> 0 <= off -> 0 <= n -> (n = 0 \/ off + n < 2 ^ 32) ->
  (forall x, be_node s x -> be_node s' x) -> vfs_inv (advance v fd n) s'.
Proof.
  intros Hi Hop Ho Hn Hb Hm. pose proof (inv_table _ _ Hi) as Hl.
  destruct (advance_open_at v fd node off n Hop Hl Ho Hn Hb) as ((Hf & Hu & En & _) & Hoth & Hl' & Er).
  split; [done|rewrite Er; intros Hr; by apply Hm, (inv_root _ _ Hi)|].
  intros j Hj Hju. destruct (Z.eq_dec j fd) as [->|Hne].
  - rewrite En. destruct Hop as (_ & Hu0 & <- & _). destruct (inv_fds _ _ Hi fd Hj Hu0). split; [done|by apply Hm].
  - rewrite Hoth in * by lia. destruct (inv_fds _ _ Hi j Hj Hju). split; [done|by apply Hm].
Qed.

Lemma regular_ops fs a : regular fs a -> n_ops (node_at fs a) = true.
Proof. intros (n & Hn & _ & Ho & _). by rewrite (node_at_Some _ _ _ Hn). Qed.

Lemma advance_root v fd n : root_node (advance v fd n) = root_node v.
Proof. unfold advance. by destruct (n >? 0). Qed.

Lemma vfs_read_root w v (s : H * ramfs) fd buf sz : root_node (vfs_read w v s fd buf sz).2 = root_node v.
Proof. unfold vfs_read. repeat case_match; cbn [snd]; by rewrite ?advance_root. Qed.

(** Paths lead to the same nodes in the same tree. *)
Lemma resolve_loop_tree fuel (h h' : H) fs fs' cur p :
  same_tree fs fs' -> resolve_loop fuel (h', fs') cur p = resolve_loop fuel (h, fs) cur p.
Proof.
  intros E. revert cur p. induction fuel as [|fuel IH]; intros cur p; [done|]. cbn [resolve_loop].
  destruct (next_component p VFS_NAME_MAX) as [[comp rest]|]; [|done].
  cbn [be_flags be_has_ops be_lookup ramfs_backend snd].
  pose proof (same_tree_node _ _ cur E) as [= _ -> _ -> _ _ _ _].
  assert (ramfs_lookup fs cur comp = ramfs_lookup fs' cur comp) as -> by (by setoid_rewrite E).
  destruct (negb _); [done|]. destruct (negb _); [done|].
  destruct (ramfs_lookup fs' cur comp) as [c|]; [|done]. cbn [mbind option_bind]. destruct (c =? 0); [done|]. apply IH.
Qed.

Lemma vfs_resolve_tree v v' (h h' : H) fs fs' path :
  same_tree fs fs' -> root_node v' = root_node v -> vfs_resolve v' (h', fs') path = vfs_resolve v (h, fs) path.
Proof.
  intros E Hr. unfold vfs_resolve. rewrite Hr. destruct (root_node v =? 0); [done|]. case_bool_decide; [done|].
  by apply resolve_loop_tree.
Qed.

(** Reading a regular file through a descriptor. *)
Lemma vfs_read_ok w v (h : H) fs lv fd a off buf sz :
  owns (ram w) h lv -> fs_inv fs lv -> vfs_inv v (h, fs) -> regular fs a -> open_at v fd a off ->
  a <> 0 -> 0 <= off < 2 ^ 32 -> 0 <= sz -> (buf + sz <= HEAP_START \/ HEAP_END <= buf) ->
  let got := pread (content (ram w) fs a) off sz in
  exists w' v', vfs_read w v (h, fs) fd buf sz = (Z.of_nat (length got), w', v') /\
    bytes_at (ram w') buf (length got) = got /\ open_at v' fd a (off + Z.of_nat (length got)) /\
    (forall j, 0 <= j -> j <> fd -> get_fd v' j = get_fd v j) /\ vfs_inv v' (h, fs) /\ owns (ram w') h lv /\
    (forall b, regular fs b -> content (ram w') fs b = content (ram w) fs b) /\
    same_outside buf (buf + Z.of_nat (length got)) (ram w) (ram w') /\ con w' = con w.
Proof.
  intros Hown Hinv Hi Hreg Hop Ha Ho Hs Hbuf got. pose proof Hop as (Hf & Hu & Hn & Hoff).
  unfold vfs_read. rewrite (bad_fd_open_at _ _ _ _ Hop), Hn, Hoff.
  destruct (Z.eqb_spec a 0); [done|]. cbn [be_has_ops be_read ramfs_backend snd orb].
  rewrite regular_ops by done. cbn [negb].
  destruct (read_content w h fs a off sz buf lv Hown Hinv Hreg) as (w' & E & Hb & Hout & Hown' & Hc); [lia|done|done|].
  assert (Hcon : con w' = con w) by (by pose proof (ramfs_read_con w fs a off sz buf) as Hc0; rewrite E in Hc0).
  rewrite E. exists w', (advance v fd (Z.of_nat (length got))). split; [done|]. split; [done|].
  assert (Hroom : Z.of_nat (length got) = 0 \/ off + Z.of_nat (length got) < 2 ^ 32).
  { destruct (regular_file _ _ _ Hinv Hreg) as (n' & f & Hn' & _ & _ & Hf' & Hsz).
    unfold got, pread. rewrite (content_eq _ _ _ _ _ Hn' Hf'), length_take, length_drop, length_bytes_at.
    destruct (inv_buffer _ _ Hinv _ f Hf') as [[_ E0]|(_ & k & Hk & Hle)]; [left; lia|].
    pose proof (owns_bounds _ _ _ _ _ Hown Hk). unfold HEAP_END, HEAP_INITIAL, HEAP_START in *. lia. }
  destruct (advance_open_at v fd a off (Z.of_nat (length got)) Hop (inv_table _ _ Hi)) as (H1' & H2' & _); [lia|lia|done|].
  split; [done|]. split; [done|]. split; [|done].
  eapply vfs_inv_advance; [exact Hi|exact Hop|lia|lia|done|done].
Qed.

(** Writing to a regular file through a descriptor. *)
Lemma vfs_write_ok w v (h : H) fs lv fd a off buf sz :
  owns (ram w) h lv -> fs_inv fs lv -> vfs_inv v (h, fs) -> regular fs a -> open_at v fd a off ->
  0 <= off <= Z.of_nat (length (content (ram w) fs a)) -> 0 <= sz -> off + sz <= 2 ^ 30 ->
  (buf + sz <= HEAP_START \/ HEAP_END <= buf) ->
  (vfs_write w v (h, fs) fd buf sz = Some (-1, w, v, (h, fs)) /\
   no_room w h (file_at fs (n_fs_data (node_at fs a))) (off + sz)) \/
  exists w' h' fs' lv', vfs_write w v (h, fs) fd buf sz = Some (sz, w', advance v fd sz, (h', fs')) /\
    owns (ram w') h' lv' /\ fs_inv fs' lv' /\ vfs_inv (advance v fd sz) (h', fs') /\
    open_at (advance v fd sz) fd a (off + sz) /\
    (forall j, 0 <= j -> j <> fd -> get_fd (advance v fd sz) j = get_fd v j) /\
    content (ram w') fs' a = pwrite (content (ram w) fs a) off (bytes_at (ram w) buf (Z.to_nat sz)) /\
    (forall b, b <> a -> regular fs b -> content (ram w') fs' b = content (ram w) fs b) /\
    (forall b, regular fs b -> regular fs' b) /\ same_outside HEAP_START HEAP_END (ram w) (ram w') /\
    con w' = con w /\ same_tree fs fs' /\ fs_frame fs fs' lv lv' (ram w) (ram w').
Proof.
  intros Hown Hinv Hi Hreg Hop Ho Hs Hb Hbuf. pose proof Hop as (Hf & Hu & Hn & Hoff).
  destruct (inv_fds _ _ Hi fd Hf Hu) as [Ha _]. rewrite Hn in Ha.
  unfold vfs_write. rewrite (bad_fd_open_at _ _ _ _ Hop), Hn, Hoff.
  destruct (Z.eqb_spec a 0); [done|]. cbn [be_has_ops be_write ramfs_backend fst snd orb].
  rewrite regular_ops by done. cbn [negb].
  destruct (write_content w h fs a off sz buf lv Hown Hinv Hreg Ho Hs Hb Hbuf) as
    [[-> Hno]|(w' & h' & fs' & lv' & -> & Hown' & Hinv' & Ec & Eo & Hr & Hnodes & Hout)];
    cbn [mbind option_bind]; [by left|right].
  destruct (advance_open_at v fd a off sz Hop (inv_table _ _ Hi)) as (Hadv & Hoth & _); [lia|lia|lia|].
  exists w', h', fs', lv'. split; [done|]. split; [done|]. split; [done|].
  split; [eapply vfs_inv_advance; [exact Hi|exact Hop|lia|lia|lia|exact Hnodes]|]. done.
Qed.

(** A write at the end of a file appends the bytes, or nothing when the allocator
    has no room for them. *)
Lemma vfs_append w v (h : H) fs lv fd a buf sz :
  let old := content (ram w) fs a in
  let off := Z.of_nat (length old) in
  owns (ram w) h lv -> fs_inv fs lv -> vfs_inv v (h, fs) -> regular fs a -> open_at v fd a off ->
  0 <= sz -> off + sz <= 2 ^ 30 -> (buf + sz <= HEAP_START \/ HEAP_END <= buf) ->
  exists rc w' v' h' fs' lv' data, vfs_write w v (h, fs) fd buf sz = Some (rc, w', v', (h', fs')) /\
    content (ram w') fs' a = old ++ data /\
    (data = bytes_at (ram w) buf (Z.to_nat sz) \/
     data = [] /\ no_room w h (file_at fs (n_fs_data (node_at fs a))) (off + sz)) /\
    owns (ram w') h' lv' /\ fs_inv fs' lv' /\ vfs_inv v' (h', fs') /\
    open_at v' fd a (off + Z.of_nat (length data)) /\ root_node v' = root_node v /\
    (forall j, 0 <= j -> j <> fd -> get_fd v' j = get_fd v j) /\
    (forall b, b <> a -> regular fs b -> content (ram w') fs' b = content (ram w) fs b) /\
    (forall b, regular fs b -> regular fs' b) /\ same_outside HEAP_START HEAP_END (ram w) (ram w') /\
    con w' = con w /\ same_tree fs fs' /\ fs_frame fs fs' lv lv' (ram w) (ram w').
Proof.
  intros old off Hown Hinv Hi Hreg Hop Hs Hb Hbuf.
  destruct (vfs_write_ok w v h fs lv fd a off buf sz Hown Hinv Hi Hreg Hop ltac:(unfold off, old; lia) Hs Hb Hbuf) as
    [[E Hno]|(w' & h' & fs' & lv' & E & Hown' & Hinv' & Hi' & Hop' & Hoth & Ec & Hoc & Hr & Hout & Hcon & Ht & Hfr)].
  - exists (-1), w, v, h, fs, lv, []. rewrite app_nil_r, Z.add_0_r. split; [done|]. split; [done|]. split; [by right|].
    split_and!; done || apply same_outside_refl || apply fs_frame_refl.
  - exists sz, w', (advance v fd sz), h', fs', lv', (bytes_at (ram w) buf (Z.to_nat sz)).
    rewrite length_bytes_at, Z2Nat.id, advance_root by done. rewrite pwrite_end in Ec. split; [done|]. split; [done|].
    split; [by left|]. by split_and!.
Qed.

(** Closing an open descriptor. *)
Lemma vfs_close_ok v (s : H * ramfs) fd a off :
  vfs_inv v s -> open_at v fd a off ->
  exists v', vfs_close v fd = (0, v') /\ vfs_inv v' s /\ fd_used (get_fd v' fd) = false /\
    root_node v' = root_node v /\ (forall j, 0 <= j -> j <> fd -> get_fd v' j = get_fd v j).
Proof.
  intros Hi Hop. pose proof Hop as (Hf & _). unfold vfs_close. rewrite (bad_fd_open_at _ _ _ _ Hop).
  eexists. split; [done|]. split; [by apply vfs_inv_put|]. pose proof (inv_table _ _ Hi) as Hl. split; [|split; [done|]].
  - by rewrite get_put_fd, Z.eqb_refl by (done || lia).
  - intros j Hj Hne. rewrite get_put_fd by done. by destruct (Z.eqb_spec j fd).
Qed.

(** Opening an existing node without appending. *)
Lemma vfs_open_existing w v (h : H) fs path flags a :
  vfs_inv v (h, fs) -> vfs_resolve v (h, fs) path = Some a -> a <> 0 -> regular fs a -> 0 <= alloc_fd v ->
  has_flag flags VFS_O_APPEND = false ->
  let fd := alloc_fd v in
  let fs' := if has_flag flags VFS_O_TRUNC then set_node fs a (with_size (node_at fs a) 0) else fs in
  exists v', vfs_open w v (h, fs) path flags = Some (fd, w, v', (h, fs')) /\ vfs_inv v' (h, fs) /\
    open_at v' fd a 0 /\ root_node v' = root_node v /\ fd_used (get_fd v fd) = false /\
    (forall j, 0 <= j -> j <> fd -> get_fd v' j = get_fd v j).
Proof.
  intros Hi Hres Ha Hreg Hfd Hap. cbv zeta. pose proof (regular_ops _ _ Hreg) as Hops.
  unfold vfs_open. rewrite Hres. cbn [mbind option_bind]. destruct (Z.eqb_spec a 0); [done|].
  cbn [andb mbind option_bind]. destruct (Z.eqb_spec a 0); [done|].
  destruct (alloc_fd_ok v) as [[E _]|(Hr & Hfree & _)]; [lia|]. set (fd := alloc_fd v) in *.
  destruct (Z.ltb_spec fd 0); [lia|]. cbn [be_has_ops be_size be_set_size ramfs_backend fst snd].
  rewrite Hap, Hops, andb_true_r. eexists. split; [by destruct (has_flag flags VFS_O_TRUNC)|].
  pose proof (inv_table _ _ Hi) as Hl. split; [|split; [|split; [done|split; [done|]]]].
  - apply vfs_inv_put; [done|done|]. intros _. cbn [fd_node]. split; [done|].
    destruct Hreg as (n' & Hn' & _). by exists n'.
  - unfold open_at. by rewrite get_put_fd, Z.eqb_refl by (done || lia).
  - intros j Hj Hne. rewrite get_put_fd by done. by destruct (Z.eqb_spec j fd).
Qed.

(** C13: two descriptors of one file share its bytes and have offsets of their
    own: what is written through one, at its offset, is what the other reads from
    its own offset on; each operation moves its own descriptor by the count it
    returns, and no other.  The write ends below 2^30, and the callers' buffers are
    outside the heap. *)
Theorem vfs_write_read_shared w v (h : H) fs lv fd fd' a off off' buf sz :
  owns (ram w) h lv -> fs_inv fs lv -> vfs_inv v (h, fs) -> regular fs a -> fd <> fd' ->
  open_at v fd a off -> open_at v fd' a off' ->
  0 <= off <= Z.of_nat (length (content (ram w) fs a)) -> 0 <= off' < 2 ^ 32 -> 0 <= sz ->
  off + sz <= 2 ^ 30 -> (buf + sz <= HEAP_START \/ HEAP_END <= buf) ->
  (vfs_write w v (h, fs) fd buf sz = Some (-1, w, v, (h, fs)) /\
   no_room w h (file_at fs (n_fs_data (node_at fs a))) (off + sz)) \/
  exists w' v' h' fs', vfs_write w v (h, fs) fd buf sz = Some (sz, w', v', (h', fs')) /\
    be_ok w' (h', fs') /\ vfs_inv v' (h', fs') /\ open_at v' fd a (off + sz) /\
    (forall j, 0 <= j -> j <> fd -> get_fd v' j = get_fd v j) /\
    forall buf' sz', 0 <= sz' -> (buf' + sz' <= HEAP_START \/ HEAP_END <= buf') ->
      let got := pread (pwrite (content (ram w) fs a) off (bytes_at (ram w) buf (Z.to_nat sz))) off' sz' in
      exists w'' v'', vfs_read w' v' (h', fs') fd' buf' sz' = (Z.of_nat (length got), w'', v'') /\
        bytes_at (ram w'') buf' (length got) = got /\
        open_at v'' fd' a (off' + Z.of_nat (length got)) /\ open_at v'' fd a (off + sz).
Proof.
  intros Hown Hinv Hi Hreg Hne Hop Hop' Ho Ho' Hs Hb Hbuf. pose proof Hop as (Hf & Hu & Hn & _).
  pose proof Hop' as (Hf' & _). destruct (inv_fds _ _ Hi fd Hf Hu) as [Ha _]. rewrite Hn in Ha.
  destruct (vfs_write_ok w v h fs lv fd a off buf sz Hown Hinv Hi Hreg Hop Ho Hs Hb Hbuf) as
    [|(w' & h' & fs' & lv' & -> & Hown' & Hinv' & Hi' & Hadv & Hoth & Ec & _ & Hr & _)]; [by left|right].
  exists w', (advance v fd sz), h', fs'. split; [done|]. split; [by exists lv'|].
  split; [done|]. split; [done|]. split; [done|]. intros buf' sz' Hs' Hbuf'.
  set (got := pread _ off' sz').
  assert (Hop2 : open_at (advance v fd sz) fd' a off').
  { eapply open_at_ext; [|exact Hop']. apply Hoth; [lia|done]. }
  destruct (vfs_read_ok w' (advance v fd sz) h' fs' lv' fd' a off' buf' sz' Hown' Hinv' Hi' (Hr a Hreg) Hop2
    Ha Ho' Hs' Hbuf') as (w'' & v'' & E & Eb & Hop3 & Hoth3 & _). rewrite Ec in E, Eb, Hop3. fold got in E, Eb, Hop3.
  exists w'', v''. split; [done|]. split; [done|]. split; [done|].
  eapply open_at_ext; [|exact Hadv]. apply Hoth3; [lia|done].
Qed.

(** Opening with both [VFS_O_TRUNC] and [VFS_O_APPEND] takes the offset before
    the size is reset: the file is empty after the [open], and the first write
    brings the whole old contents back before its own bytes. *)
Theorem vfs_trunc_append_restores w v (h : H) fs lv path flags a buf sz :
  owns (ram w) h lv -> fs_inv fs lv -> vfs_inv v (h, fs) ->
  vfs_resolve v (h, fs) path = Some a -> a <> 0 -> regular fs a -> 0 <= alloc_fd v ->
  has_flag flags VFS_O_TRUNC = true -> has_flag flags VFS_O_APPEND = true ->
  0 < sz -> Z.of_nat (length (content (ram w) fs a)) + sz <= 2 ^ 30 ->
  (buf + sz <= HEAP_START \/ HEAP_END <= buf) ->
  exists fd v1 fs1, vfs_open w v (h, fs) path flags = Some (fd, w, v1, (h, fs1)) /\
    content (ram w) fs1 a = [] /\
    ((exists s2, vfs_write w v1 (h, fs1) fd buf sz = Some (-1, w, v1, s2)) \/
     exists w2 v2 h2 fs2, vfs_write w v1 (h, fs1) fd buf sz = Some (sz, w2, v2, (h2, fs2)) /\
       content (ram w2) fs2 a = content (ram w) fs a ++ bytes_at (ram w) buf (Z.to_nat sz)).
Proof.
  intros Hown Hinv Hi Hres Ha Hreg Hfd Ht Hap Hs Hb Hbuf.
  destruct (regular_file _ _ _ Hinv Hreg) as (n & f & Hn & Hfl & Hd & Hf & Hsz).
  pose proof (regular_ops _ _ Hreg) as Hops. rewrite (content_eq _ _ _ _ _ Hn Hf) in *.
  rewrite length_bytes_at in Hb. rewrite (node_at_Some _ _ _ Hn) in Hops.
  unfold vfs_open. rewrite Hres. cbn [mbind option_bind]. destruct (Z.eqb_spec a 0); [done|].
  cbn [andb mbind option_bind]. rewrite Ht, Hap. destruct (Z.eqb_spec a 0); [done|].
  destruct (alloc_fd_ok v) as [[E _]|(Hr & _)]; [lia|]. set (fd := alloc_fd v) in *.
  destruct (Z.ltb_spec fd 0); [lia|]. cbn [be_has_ops be_size be_set_size ramfs_backend fst snd].
  rewrite (node_at_Some _ _ _ Hn), Hops. cbn [andb].
  set (e := {| fd_node := a; fd_offset := n_size n; fd_flags := flags; fd_used := true |}).
  set (fs1 := set_node fs a (with_size n 0)).
  assert (Hn1 : nodes fs1 !! a = Some (with_size n 0)) by apply lookup_insert_eq.
  assert (Hinv1 : fs_inv fs1 lv).
  { apply fs_inv_set_size; [done|done|]. intros _. exists f. split; [done|lia]. }
  exists fd, (put_fd v fd e), fs1. split; [done|].
  split; [by rewrite (content_eq _ _ _ _ _ Hn1 Hf)|].
  assert (Hop : open_at (put_fd v fd e) fd a (n_size n)).
  { unfold open_at. rewrite get_put_fd, Z.eqb_refl; [done|done|lia|apply (inv_table _ _ Hi)]. }
  pose proof Hop as (_ & _ & En & Eo). unfold vfs_write. rewrite (bad_fd_open_at _ _ _ _ Hop), En, Eo.
  destruct (Z.eqb_spec a 0); [done|]. cbn [be_has_ops be_write ramfs_backend fst snd orb].
  rewrite (node_at_Some _ _ _ Hn1). cbn [n_ops with_size]. rewrite Hops. cbn [negb].
  destruct (ramfs_write_ok w h fs1 a (with_size n 0) f (n_size n) sz buf lv) as
    [[-> _]|(w' & h' & fs' & lv' & f' & -> & _ & _ & En' & Ef' & Hc & Hc' & Hby & _)];
    [done..|lia|lia|lia|done|left|right]; cbn [mbind option_bind].
  - by eexists.
  - eexists _, _, _, _. split; [reflexivity|]. cbn [n_size n_fs_data with_size] in *.
    assert (Hn' : nodes fs' !! a = Some (with_size (with_size n 0) (Z.max 0 (n_size n + sz)))).
    { rewrite En'. apply lookup_insert_eq. }
    assert (Hf' : files fs' !! n_fs_data n = Some f') by (rewrite Ef'; apply lookup_insert_eq).
    rewrite (content_eq _ _ _ _ _ Hn' Hf'). cbn [n_size with_size].
    replace (Z.to_nat (Z.max 0 (n_size n + sz))) with (Z.to_nat (n_size n) + Z.to_nat sz)%nat by lia.
    rewrite bytes_at_app. f_equal.
    + apply bytes_at_ext2. intros i Hi'. fold (byte_at (ram w') f' i). rewrite Hby by lia.
      zcases; try lia; done.
    + apply bytes_at_ext2. intros i Hi'.
      replace (f_data f' + Z.of_nat (Z.to_nat (n_size n)) + i) with (f_data f' + (n_size n + i)) by lia.
      fold (byte_at (ram w') f' (n_size n + i)). rewrite Hby by lia.
      destruct (Z.leb_spec (n_size n) (n_size n + i)), (Z.ltb_spec (n_size n + i) (n_size n + sz)); try lia.
      cbn [andb]. f_equal. lia.
Qed.
End ramfs_descriptors.

(** ** Witnesses *)

(** Two descriptors open on the file of [demo_store]. *)
Definition demo_vfs : vfs :=
  {| fd_table := [Fd demo_file 0 0 true; Fd demo_file 0 0 true] ++ replicate 30 free_fd;
     root_node := demo_root |}.

Lemma demo_vfs_inv (h : heap) : vfs_inv demo_vfs (h, demo_store).
Proof.
  split; [reflexivity|intros _; by eexists|]. intros fd Hf Hu.
  assert (Hfd : fd = 0 \/ fd = 1).
  { destruct (Z.eq_dec fd 0); [by left|]. destruct (Z.eq_dec fd 1); [by right|exfalso].
    unfold get_fd in Hu. cbn [demo_vfs fd_table] in Hu. rewrite lookup_total_app_r in Hu by (cbn; lia).
    rewrite lookup_total_replicate_2 in Hu; [done|]. cbn [length]. unfold VFS_MAX_FDS in Hf. lia. }
  by destruct Hfd as [-> | ->]; (split; [|eexists]).
Qed.

Lemma vfs_resolve_correct_witness :
  vfs_resolve demo_vfs (Heap 0 0 0, demo_store) (bytes_of "//a/") = Some demo_file.
Proof.
  rewrite vfs_resolve_correct; [reflexivity|discriminate|].
  change (components (bytes_of "//a/")) with [bytes_of "a"]. constructor; [cbn; lia|constructor].
Defined.

Lemma vfs_resolve_splits_long_names_witness :
  vfs_resolve demo_vfs (Heap 0 0 0, demo_store) (slash :: replicate 63 120 ++ [121]) = Some 0.
Proof.
  destruct (vfs_resolve_splits_long_names demo_vfs (Heap 0 0 0, demo_store) (replicate 63 120) [121])
    as [_ ->]; [discriminate|reflexivity|cbn; lia| |reflexivity].
  rewrite Forall_app. split; [by apply Forall_replicate|by repeat constructor].
Defined.

Lemma vfs_open_close_correct_witness :
  exists w h fd w' v' s', demo_fs_heap = Some (w, h) /\
    vfs_open w demo_vfs (h, demo_store) (bytes_of "/new") VFS_O_CREAT = Some (fd, w', v', s').
Proof.
  destruct demo_fs_owns as (w & h & E & Ho).
  destruct (vfs_open_close_correct w demo_vfs (h, demo_store) (bytes_of "/new") VFS_O_CREAT)
    as (fd & w' & v' & s' & R & _).
  - exists (live demo_blocks). exact (conj Ho demo_fs_inv).
  - apply demo_vfs_inv.
  - exists w, h, fd, w', v', s'. exact (conj E R).
Defined.

Lemma vfs_write_read_shared_witness :
  exists w h, demo_fs_heap = Some (w, h) /\
    (vfs_write w demo_vfs (h, demo_store) 0 4096 5 = Some (-1, w, demo_vfs, (h, demo_store)) \/
     exists w' v' s', vfs_write w demo_vfs (h, demo_store) 0 4096 5 = Some (5, w', v', s')).
Proof.
  destruct demo_fs_owns as (w & h & E & Ho). exists w, h. split; [exact E|].
  destruct (vfs_write_read_shared w demo_vfs h demo_store _ 0 1 demo_file 0 0 4096 5 Ho demo_fs_inv
    (demo_vfs_inv h) demo_regular) as [[R _]|(w' & v' & h' & fs' & R & _)].
  - discriminate.
  - by repeat split.
  - by repeat split.
  - vm_compute. split; discriminate.
  - lia.
  - lia.
  - lia.
  - left. vm_compute. discriminate.
  - left. exact R.
  - right. exists w', v', (h', fs'). exact R.
Defined.

Lemma vfs_trunc_append_restores_witness :
  exists w h fd v1 fs1, demo_fs_heap = Some (w, h) /\
    vfs_open w demo_vfs (h, demo_store) (bytes_of "/a") 0x601 = Some (fd, w, v1, (h, fs1)).
Proof.
  destruct demo_fs_owns as (w & h & E & Ho).
  destruct (vfs_trunc_append_restores w demo_vfs h demo_store _ (bytes_of "/a") 0x601 demo_file 4096 5
    Ho demo_fs_inv (demo_vfs_inv h)) as (fd & v1 & fs1 & R & _).
  - reflexivity.
  - discriminate.
  - exact demo_regular.
  - vm_compute. discriminate.
  - reflexivity.
  - reflexivity.
  - lia.
  - vm_compute. discriminate.
  - left. vm_compute. discriminate.
  - exists w, h, fd, v1, fs1. exact (conj E R).
Defined.
