(* ===== verification/FsFrame.v ===== *)
(** * The filesystem calls on any argument

    [Vfs] states what the calls do on regular files.  Here every call is followed
    on whatever node a path leads to (a missing one, a directory, a file without
    a payload): it returns, keeps the filesystem consistent and confined to the
    heap, and leaves alone the live payloads that belong to others. *)
From stdpp Require Import base numbers list gmap strings.
From Stdlib Require Import ZArith Lia.
From S2P Require Import Prelude.
From S2P Require Import Machine.
From S2P Require Import Alloc.
From S2P Require Import Ramfs.
From S2P Require Import Vfs.

Section moves.
Context {H : Type} `{AllocLaws H}.

(** From [w] and [fs], over the live payloads [lv], to a consistent filesystem:
    others' payloads and the memory outside the heap are as they were. *)
Record fs_moves (w : machine) (fs : ramfs) (lv : list (Z * Z))
  (w' : machine) (h' : H) (fs' : ramfs) (lv' : list (Z * Z)) : Prop := {
  mv_owns : owns (ram w') h' lv';
  mv_inv : fs_inv fs' lv';
  mv_frame : fs_frame fs fs' lv lv' (ram w) (ram w');
  mv_nodes : forall a, is_Some (nodes fs !! a) -> is_Some (nodes fs' !! a);
  mv_data : forall a n n', nodes fs !! a = Some n -> nodes fs' !! a = Some n' -> n_fs_data n' = n_fs_data n;
  mv_out : same_outside HEAP_START HEAP_END (ram w) (ram w');
  mv_con : con w' = con w;
}.

Lemma fs_moves_refl w h fs lv : owns (ram w) h lv -> fs_inv fs lv -> fs_moves w fs lv w h fs lv.
Proof. intros Ho Hi. split; try done. congruence. Qed.

Lemma fs_moves_trans w fs lv w1 h1 fs1 lv1 w2 h2 fs2 lv2 :
  fs_moves w fs lv w1 h1 fs1 lv1 -> fs_moves w1 fs1 lv1 w2 h2 fs2 lv2 -> fs_moves w fs lv w2 h2 fs2 lv2.
Proof.
  intros [A1 A2 A3 A4 A5 A6 A7] [B1 B2 B3 B4 B5 B6 B7]. split; [done|done|by eapply fs_frame_trans|auto| | |congruence].
  - intros a n n2 Hn Hn2. destruct (A4 a (ex_intro _ n Hn)) as [n1 Hn1]. rewrite (B5 a n1 n2 Hn1 Hn2). by eapply A5.
  - by eapply same_outside_trans.
Qed.

(** The state is that of the contract. *)
Lemma moves_ok w fs lv w' h' fs' lv' : fs_moves w fs lv w' h' fs' lv' -> be_ok w' (h', fs').
Proof. intros M. exists lv'. by destruct M. Qed.

Lemma moves_vfs w (h : H) fs lv w' h' fs' lv' v :
  fs_moves w fs lv w' h' fs' lv' -> vfs_inv v (h, fs) -> vfs_inv v (h', fs').
Proof. intros M. apply vfs_inv_mono. intros x. apply (mv_nodes _ _ _ _ _ _ _ M). Qed.

(** ** The ramfs *)

Lemma create_moves w h fs lv d name flags :
  owns (ram w) h lv -> fs_inv fs lv -> is_Some (nodes fs !! d) ->
  exists c w' h' fs' lv', ramfs_create w h fs d name flags = Some (c, w', h', fs') /\
    fs_moves w fs lv w' h' fs' lv' /\ (c = 0 \/ is_Some (nodes fs' !! c)).
Proof.
  intros Ho Hi [n Hn]. destruct (is_dir n) eqn:Hd.
  2:{ exists 0, w, h, fs, lv. unfold ramfs_create. rewrite (node_at_Some _ _ _ Hn), Hd.
      split; [done|]. split; [by apply fs_moves_refl|by left]. }
  destruct (inv_dirs _ _ Hi d n Hn) as [l Hl].
  destruct (ramfs_create_ok w h fs d n name flags lv l Ho Hi Hn Hd Hl) as
    [[-> _]|(_ & a & w' & h' & lv' & fd & -> & Ha & Hf & Ho' & Hi' & _ & _ & _ & _ & Hout & Hcon & Hfr)].
  { exists 0, w, h, fs, lv. split; [done|]. split; [by apply fs_moves_refl|by left]. }
  eexists a, w', h', _, lv'. split; [done|]. split; [split; [done|done|done| | |done|done]|right].
  - intros x Hx. cbn [nodes add_node]. destruct (Z.eq_dec d x) as [->|]; [by rewrite lookup_insert_eq|].
    rewrite lookup_insert_ne by done. destruct (Z.eq_dec a x) as [->|]; [by rewrite lookup_insert_eq|].
    by rewrite lookup_insert_ne.
  - intros x m m' Hm. cbn [nodes add_node]. destruct (Z.eq_dec d x) as [->|].
    + rewrite lookup_insert_eq. intros [= <-]. assert (m = n) as -> by congruence. done.
    + rewrite lookup_insert_ne by done. destruct (Z.eq_dec a x) as [->|]; [congruence|]. rewrite lookup_insert_ne by done. congruence.
  - cbn [nodes add_node]. rewrite lookup_insert_ne by congruence. by rewrite lookup_insert_eq.
Qed.

(** A new size is no new payload. *)
Lemma size_data fs a n sz x m m' :
  nodes fs !! a = Some n -> nodes fs !! x = Some m -> <[a := with_size n sz]> (nodes fs) !! x = Some m' ->
  n_fs_data m' = n_fs_data m.
Proof.
  intros Hn Hm. destruct (Z.eq_dec a x) as [->|]; [|rewrite lookup_insert_ne by done; congruence].
  rewrite lookup_insert_eq. intros [= <-]. assert (m = n) as -> by congruence. done.
Qed.

Lemma truncate_moves w h fs lv a :
  owns (ram w) h lv -> fs_inv fs lv -> is_Some (nodes fs !! a) ->
  fs_moves w fs lv w h (set_node fs a (with_size (node_at fs a) 0)) lv.
Proof.
  intros Ho Hi [n Hn]. rewrite (node_at_Some _ _ _ Hn). split; [done| | | | |done|done].
  - apply fs_inv_set_size; [done|done|]. intros Hd. destruct (inv_size _ _ Hi a n Hn Hd) as (f & Hf & Hs).
    exists f. split; [done|lia].
  - intros p k Hp (F1 & F2 & F3). split; [done|]. split; [|done]. split; [|done]. cbn [nodes set_node].
    rewrite lookup_insert_ne; [done|congruence].
  - intros x Hx. cbn [nodes set_node]. destruct (Z.eq_dec a x) as [->|]; [by rewrite lookup_insert_eq|by rewrite lookup_insert_ne].
  - intros x m m' Hm. cbn [nodes set_node]. by apply size_data.
Qed.

(** A buffer is a payload of the heap. *)
Lemma capacity_bound m (h : H) fs lv a f :
  owns m h lv -> fs_inv fs lv -> files fs !! a = Some f -> f_capacity f <= HEAP_INITIAL.
Proof.
  intros Ho Hi Hf. destruct (inv_buffer _ _ Hi a f Hf) as [[_ ->]|(_ & k & Hk & Hle)]; [unfold HEAP_INITIAL; lia|].
  pose proof (owns_bounds _ _ _ _ _ Ho Hk). unfold HEAP_END in *. lia.
Qed.

(** A write: all of the bytes, or none and -1. *)
Lemma write_moves w h fs lv a off sz buf :
  owns (ram w) h lv -> fs_inv fs lv -> is_Some (nodes fs !! a) -> 0 <= off -> 0 <= sz -> off + sz <= 2 ^ 30 ->
  (buf + sz <= HEAP_START \/ HEAP_END <= buf) ->
  exists rc w' h' fs' lv', ramfs_write w h fs a off sz buf = Some (rc, w', h', fs') /\
    fs_moves w fs lv w' h' fs' lv' /\ (rc = -1 \/ rc = sz /\ off + sz <= HEAP_INITIAL).
Proof.
  intros Ho Hi [n Hn] Hoff Hsz Hb Hbuf.
  assert (Hnone : ramfs_write w h fs a off sz buf = Some (-1, w, h, fs) -> exists rc w' h' fs' lv',
    ramfs_write w h fs a off sz buf = Some (rc, w', h', fs') /\ fs_moves w fs lv w' h' fs' lv' /\
    (rc = -1 \/ rc = sz /\ off + sz <= HEAP_INITIAL)).
  { intros ->. exists (-1), w, h, fs, lv. split; [done|]. split; [by apply fs_moves_refl|by left]. }
  destruct (is_file n) eqn:Hfl; [|apply Hnone; unfold ramfs_write; by rewrite (node_at_Some _ _ _ Hn), Hfl].
  destruct (Z.eq_dec (n_fs_data n) 0) as [E0|Hd].
  { apply Hnone. unfold ramfs_write. by rewrite (node_at_Some _ _ _ Hn), Hfl, E0. }
  destruct (inv_size _ _ Hi a n Hn Hd) as (f & Hf & _).
  destruct (ramfs_write_ok w h fs a n f off sz buf lv) as
    [[E _]|(w' & h' & fs' & lv' & f' & -> & Ho' & Hi' & En & Ef & Hcap & _ & _ & _ & Hout & Hcon & Hfr)]; [done..|by apply Hnone|].
  exists sz, w', h', fs', lv'. split; [done|]. split; [split; [done|done|done| | |done|done]|].
  - intros x Hx. rewrite En. destruct (Z.eq_dec a x) as [->|]; [by rewrite lookup_insert_eq|by rewrite lookup_insert_ne].
  - intros x m m' Hm. rewrite En. by apply size_data.
  - right. split; [done|]. pose proof (capacity_bound _ _ _ _ (n_fs_data n) f' Ho' Hi' ltac:(by rewrite Ef, lookup_insert_eq)). lia.
Qed.

(** ** Paths *)

Lemma resolve_parent_node w v (h : H) fs lv path max :
  owns (ram w) h lv -> fs_inv fs lv -> vfs_inv v (h, fs) ->
  exists d leaf, resolve_parent v (h, fs) path max = Some (d, leaf) /\ (d = 0 \/ is_Some (nodes fs !! d)).
Proof.
  intros Ho Hi Hv. assert (Hok : be_ok w (h, fs)) by (by exists lv).
  exact (resolve_parent_total w v (h, fs) path max Hok Hv).
Qed.

(** Creating a node of either kind at a path. *)
Lemma create_at_moves w (h : H) fs lv flags (d : Z) (leaf : list Z) :
  owns (ram w) h lv -> fs_inv fs lv -> (d = 0 \/ is_Some (nodes fs !! d)) ->
  exists c w' h' fs' lv',
    (if (d =? 0) || negb (has_flag (be_flags (h, fs) d) VFS_DIRECTORY) then Some (0, w, (h, fs))
     else if negb (be_has_ops (h, fs) d) then Some (0, w, (h, fs))
     else be_create w (h, fs) d leaf flags) = Some (c, w', (h', fs')) /\
    fs_moves w fs lv w' h' fs' lv' /\ (c = 0 \/ is_Some (nodes fs' !! c)).
Proof.
  intros Ho Hi Hd.
  assert (Hno : exists c w' h' fs' lv', Some (0, w, (h, fs)) = Some (c, w', (h', fs')) /\
    fs_moves w fs lv w' h' fs' lv' /\ (c = 0 \/ is_Some (nodes fs' !! c))).
  { exists 0, w, h, fs, lv. split; [done|]. split; [by apply fs_moves_refl|by left]. }
  destruct (Z.eqb_spec d 0); [done|]. destruct Hd as [|Hd]; [done|]. cbn [orb].
  destruct (negb _); [done|]. destruct (negb _); [done|].
  destruct (create_moves w h fs lv d leaf flags Ho Hi Hd) as (c & w' & h' & fs' & lv' & E & M & Hc).
  exists c, w', h', fs', lv'. cbn [be_create ramfs_backend fst snd]. by rewrite E.
Qed.

Lemma create_file_moves w v (h : H) fs lv path :
  owns (ram w) h lv -> fs_inv fs lv -> vfs_inv v (h, fs) ->
  exists c w' h' fs' lv', vfs_create_file w v (h, fs) path = Some (c, w', (h', fs')) /\
    fs_moves w fs lv w' h' fs' lv' /\ (c = 0 \/ is_Some (nodes fs' !! c)).
Proof.
  intros Ho Hi Hv. unfold vfs_create_file.
  destruct (resolve_parent_node w v h fs lv path VFS_NAME_MAX Ho Hi Hv) as (d & leaf & -> & Hd).
  cbn [mbind option_bind]. by apply create_at_moves.
Qed.

Lemma mkdir_moves w v (h : H) fs lv path :
  owns (ram w) h lv -> fs_inv fs lv -> vfs_inv v (h, fs) ->
  exists rc w' h' fs' lv', vfs_mkdir w v (h, fs) path = Some (rc, w', (h', fs')) /\ fs_moves w fs lv w' h' fs' lv'.
Proof.
  intros Ho Hi Hv. unfold vfs_mkdir.
  destruct (resolve_parent_node w v h fs lv path VFS_NAME_MAX Ho Hi Hv) as (d & leaf & -> & Hd). cbn [mbind option_bind].
  destruct (create_at_moves w h fs lv VFS_DIRECTORY d leaf Ho Hi Hd) as (c & w' & h' & fs' & lv' & E & M & _).
  destruct (_ || _); [by eexists _, w, h, fs, lv; split; [|apply fs_moves_refl]|].
  destruct (negb _); [by eexists _, w, h, fs, lv; split; [|apply fs_moves_refl]|].
  rewrite E. cbn [mbind option_bind]. by eexists _, w', h', fs', lv'.
Qed.

(** ** Descriptors *)

(** The size of a file is at most that of its buffer. *)
Lemma size_bound m (h : H) fs lv a n :
  owns m h lv -> fs_inv fs lv -> nodes fs !! a = Some n -> n_fs_data n <> 0 -> 0 <= n_size n <= HEAP_INITIAL.
Proof.
  intros Ho Hi Hn Hd. destruct (inv_size _ _ Hi a n Hn Hd) as (f & Hf & Hs). pose proof (capacity_bound _ _ _ _ _ _ Ho Hi Hf). lia.
Qed.

(** Opening a path: a failure, or a new descriptor; with [O_APPEND] its offset is the
    size the file had. *)
Lemma open_cases w v (h : H) fs lv path flags :
  owns (ram w) h lv -> fs_inv fs lv -> vfs_inv v (h, fs) ->
  exists fd w' v' h' fs' lv', vfs_open w v (h, fs) path flags = Some (fd, w', v', (h', fs')) /\
    fs_moves w fs lv w' h' fs' lv' /\ vfs_inv v' (h', fs') /\
    (fd = -1 /\ v' = v \/ 0 <= fd < VFS_MAX_FDS /\ exists e, v' = put_fd v fd e /\ fd_used e = true /\
       (has_flag flags VFS_O_APPEND = false -> fd_offset e = 0) /\
       forall n, nodes fs' !! fd_node e = Some n -> n_fs_data n <> 0 -> 0 <= fd_offset e <= HEAP_INITIAL).
Proof.
  intros Ho Hi Hv. unfold vfs_open.
  destruct (vfs_resolve_total w v (h, fs) path) as (n0 & -> & Hn0); [by exists lv|done|]. cbn [mbind option_bind].
  assert (Hnode : exists node w1 h1 fs1 lv1,
    (if (n0 =? 0) && has_flag flags VFS_O_CREAT then vfs_create_file w v (h, fs) path else Some (n0, w, (h, fs))) =
    Some (node, w1, (h1, fs1)) /\ fs_moves w fs lv w1 h1 fs1 lv1 /\ (node = 0 \/ is_Some (nodes fs1 !! node))).
  { destruct (_ && _); [by apply create_file_moves|]. exists n0, w, h, fs, lv. split; [done|]. split; [by apply fs_moves_refl|done]. }
  destruct Hnode as (node & w1 & h1 & fs1 & lv1 & -> & M1 & Hnode). cbn [mbind option_bind].
  pose proof (moves_vfs _ _ _ _ _ _ _ _ v M1 Hv) as Hv1.
  destruct (Z.eqb_spec node 0); [eexists (-1), w1, v, h1, fs1, lv1; split; [done|]; split; [done|]; split; [done|by left]|].
  destruct Hnode as [|Hnode]; [done|].
  destruct (alloc_fd_ok v) as [[-> _]|(Hr & Hfree & _)];
    [eexists (-1), w1, v, h1, fs1, lv1; split; [done|]; split; [done|]; split; [done|by left]|].
  set (fd := alloc_fd v) in *. destruct (Z.ltb_spec fd 0); [lia|].
  set (off := if has_flag flags VFS_O_APPEND then be_size (h1, fs1) node else 0).
  set (e := {| fd_node := node; fd_offset := off; fd_flags := flags; fd_used := true |}).
  destruct M1 as [A1 A2 A3 A4 A5 A6 A7].
  assert (Ht : exists fs2, (if has_flag flags VFS_O_TRUNC && be_has_ops (h1, fs1) node then be_set_size (h1, fs1) node 0
                            else (h1, fs1)) = (h1, fs2) /\ fs_moves w1 fs1 lv1 w1 h1 fs2 lv1).
  { destruct (_ && _); eexists; (split; [reflexivity|]); [by apply truncate_moves|by apply fs_moves_refl]. }
  destruct Ht as (fs2 & -> & M2). exists fd, w1, (put_fd v fd e), h1, fs2, lv1. split; [done|].
  pose proof (moves_vfs _ _ _ _ _ _ _ _ v M2 Hv1) as Hv2.
  split; [eapply fs_moves_trans; [|exact M2]; by split|]. split.
  - apply vfs_inv_put; [done|done|]. intros _. cbn [fd_node e]. split; [done|]. by apply (mv_nodes _ _ _ _ _ _ _ M2).
  - right. split; [lia|]. exists e. split; [done|]. split; [done|]. split; [unfold e, off; cbn [fd_offset]; by intros ->|].
    intros k Hn Hd. cbn [fd_node fd_offset e] in *. destruct Hnode as [n1 Hn1].
    rewrite (mv_data _ _ _ _ _ _ _ M2 _ _ _ Hn1 Hn) in Hd. unfold off. destruct (has_flag _ _); [|unfold HEAP_INITIAL; lia].
    cbn [be_size ramfs_backend snd]. rewrite (node_at_Some _ _ _ Hn1). by eapply size_bound.
Qed.

(** Without [O_APPEND]. *)
Lemma open_moves w v (h : H) fs lv path flags :
  owns (ram w) h lv -> fs_inv fs lv -> vfs_inv v (h, fs) -> has_flag flags VFS_O_APPEND = false ->
  exists fd w' v' h' fs' lv', vfs_open w v (h, fs) path flags = Some (fd, w', v', (h', fs')) /\
    fs_moves w fs lv w' h' fs' lv' /\ vfs_inv v' (h', fs') /\
    (fd = -1 /\ v' = v \/ exists node, open_at v' fd node 0).
Proof.
  intros Ho Hi Hv Hap. destruct (open_cases w v h fs lv path flags Ho Hi Hv) as
    (fd & w' & v' & h' & fs' & lv' & E & M & Hv' & Hc). exists fd, w', v', h', fs', lv'. split; [done|]. split; [done|]. split; [done|].
  destruct Hc as [Hc|(Hr & e & -> & Hu & Hoff & _)]; [by left|right]. exists (fd_node e). unfold open_at.
  rewrite get_put_fd, Z.eqb_refl by (done || lia || apply (inv_table _ _ Hv)). split; [done|]. split; [done|]. by split; [|apply Hoff].
Qed.

(** Writing through an open descriptor. *)
Lemma vfs_write_moves w v (h : H) fs lv fd node off buf sz :
  owns (ram w) h lv -> fs_inv fs lv -> vfs_inv v (h, fs) -> open_at v fd node off ->
  0 <= off -> 0 <= sz -> off + sz <= 2 ^ 30 -> (buf + sz <= HEAP_START \/ HEAP_END <= buf) ->
  exists rc w' v' h' fs' lv' off', vfs_write w v (h, fs) fd buf sz = Some (rc, w', v', (h', fs')) /\
    fs_moves w fs lv w' h' fs' lv' /\ vfs_inv v' (h', fs') /\ open_at v' fd node off' /\ off <= off' <= off + sz.
Proof.
  intros Ho Hi Hv Hop Hoff Hsz Hb Hbuf. pose proof Hop as (Hf & Hu & Hn & Eo).
  unfold vfs_write. rewrite (bad_fd_open_at _ _ _ _ Hop), Hn, Eo.
  destruct (inv_fds _ _ Hv fd Hf Hu) as [Ha Hnode]. rewrite Hn in Ha, Hnode.
  destruct (Z.eqb_spec node 0); [done|]. cbn [orb].
  destruct (negb _).
  { exists (-1), w, v, h, fs, lv, off. split; [done|]. split; [by apply fs_moves_refl|]. split; [done|]. split; [done|lia]. }
  cbn [be_write ramfs_backend fst snd].
  destruct (write_moves w h fs lv node off sz buf) as (rc & w' & h' & fs' & lv' & -> & M & Hrc);
    [done..|]. cbn [mbind option_bind].
  pose proof (moves_vfs _ _ _ _ _ _ _ _ v M Hv) as Hv'. destruct Hrc as [-> | [-> Hcap]].
  - exists (-1), w', v, h', fs', lv', off. split; [done|]. split; [done|]. split; [done|]. split; [done|lia].
  - destruct (advance_open_at v fd node off sz Hop (inv_table _ _ Hv)) as (Hop' & _); [lia|lia|lia|].
    exists sz, w', (advance v fd sz), h', fs', lv', (off + sz). split; [done|]. split; [done|].
    split; [eapply vfs_inv_advance; [exact Hv'|exact Hop|lia|lia|lia|done]|]. split; [done|lia].
Qed.

(** A node that is not a regular file cannot be read. *)
Lemma read_irregular w v (h : H) fs fd node off buf sz :
  is_Some (nodes fs !! node) -> ~ regular fs node -> open_at v fd node off ->
  vfs_read w v (h, fs) fd buf sz = (-1, w, v).
Proof.
  intros [n Hn] Hirr Hop. pose proof Hop as (_ & _ & En & _). unfold vfs_read.
  rewrite (bad_fd_open_at _ _ _ _ Hop), En. destruct (node =? 0); [done|].
  cbn [orb be_has_ops be_read ramfs_backend snd]. rewrite (node_at_Some _ _ _ Hn).
  destruct (n_ops n) eqn:Hops; [|done]. cbn [negb]. unfold ramfs_read. rewrite (node_at_Some _ _ _ Hn).
  destruct (is_file n) eqn:Hfl; [|done]. destruct (Z.eqb_spec (n_fs_data n) 0); [done|].
  exfalso. apply Hirr. by exists n.
Qed.

Lemma regular_dec fs lv a : fs_inv fs lv -> regular fs a \/ ~ regular fs a.
Proof.
  intros _. unfold regular. destruct (nodes fs !! a) as [n|] eqn:Hn; [|right; intros (n & E & _); congruence].
  destruct (is_file n) eqn:Hf; [|right; intros (n' & E & E' & _); congruence].
  destruct (n_ops n) eqn:Ho; [|right; intros (n' & E & _ & E' & _); congruence].
  destruct (Z.eq_dec (n_fs_data n) 0); [right; intros (n' & E & _ & _ & E'); congruence|left; by exists n].
Qed.

(** The children of a directory are nodes in the heap, so there are few. *)
Lemma siblings_bound m (h : H) fs lv c l :
  owns m h lv -> fs_inv fs lv -> siblings fs c l -> Z.of_nat (length l) <= HEAP_INITIAL + 1.
Proof.
  intros Ho Hi Hs. assert (Hsub : l ⊆+ seqZ HEAP_START (HEAP_INITIAL + 1)).
  { apply NoDup_submseteq; [by eapply siblings_NoDup|]. intros x Hx%list_elem_of_In.
    destruct (siblings_nodes _ _ _ _ Hs Hx) as [[n Hn] _]. destruct (inv_node_live _ _ Hi x n Hn) as [k Hk].
    pose proof (owns_bounds _ _ _ _ _ Ho Hk). apply elem_of_seqZ. unfold HEAP_END in *. lia. }
  apply submseteq_length in Hsub. rewrite length_seqZ in Hsub. unfold HEAP_INITIAL in *. lia.
Qed.

(** ** Mounting *)

(** The root directory in an empty filesystem. *)
Lemma root_moves w h lv i name :
  owns (ram w) h lv ->
  alloc_node w h (Ramfs ∅ ∅ i) name VFS_DIRECTORY = Some (0, w, h, Ramfs ∅ ∅ i) \/
  exists root w' h' fs' lv', alloc_node w h (Ramfs ∅ ∅ i) name VFS_DIRECTORY = Some (root, w', h', fs') /\ root <> 0 /\
    is_Some (nodes fs' !! root) /\ fs_moves w (Ramfs ∅ ∅ i) lv w' h' fs' lv'.
Proof.
  intros Ho. unfold alloc_node, sizeof_node.
  destruct (kmalloc_law w h lv 96 Ho) as
    [E|(a & sz & lv1 & w1 & h1 & E & Ho1 & Hcon & _ & Ha & Hsz & Hend & Hap & Hkp & Hout & Hlv)]; [lia|lia|..];
    rewrite E; cbn [mbind option_bind]; [by left|right].
  destruct (Z.eqb_spec a 0) as [E0|Ha0]; [unfold HEAP_START in Ha; lia|].
  change (has_flag VFS_DIRECTORY VFS_FILE) with false. cbv iota.
  set (n := {| n_name := _ |}). set (fs1 := set_next_inode (set_node (Ramfs ∅ ∅ i) a n) _).
  assert (Hn : forall b n', nodes fs1 !! b = Some n' -> b = a /\ n' = n).
  { intros b n' Hb. cbn [fs1 set_next_inode set_node nodes] in Hb. rewrite lookup_insert_Some, lookup_empty in Hb.
    by destruct Hb as [[-> <-]|[_ Hb]]. }
  exists a, w1, h1, fs1, lv1. split; [done|]. split; [done|]. split; [by apply lookup_insert_is_Some'; left|].
  split; [done| | | | |done|done].
  - split; cbn [files fs1 set_next_inode set_node]; try (intros b f Hf; by rewrite lookup_empty in Hf).
    + intros b n' Hb. destruct (Hn b n' Hb) as [-> _]. exists sz. apply Hlv. by right.
    + intros b n' Hb. destruct (Hn b n' Hb) as [_ ->]. done.
    + intros b c nb nc Hb Hc. destruct (Hn b nb Hb) as [-> _], (Hn c nc Hc) as [-> _]. done.
    + intros b n' Hb. destruct (Hn b n' Hb) as [_ ->]. by exists [].
  - intros q k Hq _. split; [apply Hlv; by left|]. split; [|intros x Hx; by apply (Hkp q k)].
    split; [|split; [done|]].
    + cbn [fs1 set_next_inode set_node nodes]. rewrite lookup_insert_ne; [done|]. intros <-. specialize (Hap a k Hq).
      pose proof (owns_unique _ _ _ _ _ _ Ho1 (proj2 (Hlv _ _) (or_introl Hq)) (proj2 (Hlv _ _) (or_intror eq_refl))) as ->. lia.
    + intros b f Hf. cbn [fs1 set_next_inode set_node files] in Hf. by rewrite lookup_empty in Hf.
  - intros b [n' Hb]. cbn [nodes] in Hb. by rewrite lookup_empty in Hb.
  - intros b n' n2 Hb. cbn [nodes] in Hb. by rewrite lookup_empty in Hb.
Qed.

Lemma set_root_inv v (h : H) fs root :
  vfs_inv v (h, fs) -> is_Some (nodes fs !! root) -> vfs_inv (vfs_set_root v root) (h, fs).
Proof. intros [T R F] Hr. split; [done|done|]. intros fd. exact (F fd). Qed.

(** [ramfs_init] leaves a consistent filesystem, whether or not the heap sufficed. *)
Lemma ramfs_init_moves w (h : H) lv i v msg :
  owns (ram w) h lv -> vfs_inv v (h, Ramfs ∅ ∅ i) -> (msg + 25 <= HEAP_START \/ HEAP_END <= msg) ->
  exists w' h' fs' v' lv' cs, ramfs_init w h (Ramfs ∅ ∅ i) v msg = Some (emit w' cs, h', fs', v') /\
    fs_moves w (Ramfs ∅ ∅ i) lv w' h' fs' lv' /\ vfs_inv v' (h', fs').
Proof.
  intros Ho Hv Hm.
  assert (Hi0 : fs_inv (Ramfs ∅ ∅ i) lv).
  { split; cbn [nodes files]; intros b ?; intros; by rewrite lookup_empty in *. }
  unfold ramfs_init. destruct (root_moves w h lv i (bytes_of "/") Ho) as [->|(root & w1 & h1 & fs1 & lv1 & -> & Hr0 & Hr & M1)];
    cbn [mbind option_bind].
  { eexists w, h, _, v, lv, _. split; [done|]. split; [by apply fs_moves_refl|done]. }
  destruct (Z.eqb_spec root 0); [done|].
  destruct (create_moves w1 h1 fs1 lv1 root (bytes_of "tmp") VFS_DIRECTORY) as (c2 & w2 & h2 & fs2 & lv2 & -> & M2 & _);
    [apply M1|apply M1|done|]. cbn [mbind option_bind].
  destruct (create_moves w2 h2 fs2 lv2 root (bytes_of "dev") VFS_DIRECTORY) as (c3 & w3 & h3 & fs3 & lv3 & -> & M3 & _);
    [apply M2|apply M2|by apply M2|]. cbn [mbind option_bind].
  destruct (create_moves w3 h3 fs3 lv3 root (bytes_of "etc") VFS_DIRECTORY) as (c4 & w4 & h4 & fs4 & lv4 & -> & M4 & _);
    [apply M3|apply M3|by apply M3, M2|]. cbn [mbind option_bind].
  assert (M : fs_moves w (Ramfs ∅ ∅ i) lv w4 h4 fs4 lv4).
  { eapply fs_moves_trans; [exact M1|]. eapply fs_moves_trans; [exact M2|]. eapply fs_moves_trans; [exact M3|exact M4]. }
  assert (Hr4 : is_Some (nodes fs4 !! root)) by (by apply M4, M3, M2). clear M1 M2 M3 M4.
  destruct (fs_lookup_law w4 (h4, fs4) root (bytes_of "etc")) as (etc & El & Hetc); [exists lv4; by destruct M|done|].
  cbn [be_lookup ramfs_backend snd] in El. rewrite El. cbn [mbind option_bind].
  assert (Hfin : forall w5 h5 fs5 lv5, fs_moves w4 fs4 lv4 w5 h5 fs5 lv5 ->
    fs_moves w (Ramfs ∅ ∅ i) lv w5 h5 fs5 lv5 /\ vfs_inv (vfs_set_root v root) (h5, fs5)).
  { intros w5 h5 fs5 lv5 M5. pose proof (fs_moves_trans _ _ _ _ _ _ _ _ _ _ _ M M5) as M'. split; [done|].
    apply set_root_inv; [by eapply moves_vfs|by apply M5]. }
  assert (Hstay : fs_moves w4 fs4 lv4 w4 h4 fs4 lv4) by (apply fs_moves_refl; apply M).
  destruct (Z.eqb_spec etc 0) as [->|Hne]; cbn [negb mbind option_bind].
  { destruct (Hfin _ _ _ _ Hstay) as [F1 F2]. by eexists w4, h4, fs4, _, lv4, _. }
  destruct Hetc as [|Hetc]; [done|].
  destruct (create_moves w4 h4 fs4 lv4 etc (bytes_of "motd") VFS_FILE) as (c5 & w5 & h5 & fs5 & lv5 & -> & M5 & Hc5);
    [apply M|apply M|done|]. cbn [mbind option_bind].
  destruct (Z.eqb_spec c5 0) as [->|Hne5]; cbn [negb mbind option_bind].
  { destruct (Hfin _ _ _ _ M5) as [F1 F2]. by eexists w5, h5, fs5, _, lv5, _. }
  destruct Hc5 as [|Hc5]; [done|].
  destruct (write_moves w5 h5 fs5 lv5 c5 0 25 msg) as (rc & w6 & h6 & fs6 & lv6 & -> & M6 & _); [apply M5|apply M5|done|lia|lia|lia|done|].
  cbn [mbind option_bind]. destruct (Hfin _ _ _ _ (fs_moves_trans _ _ _ _ _ _ _ _ _ _ _ M5 M6)) as [F1 F2].
  by eexists w6, h6, fs6, _, lv6, _.
Qed.
End moves.
