(* ===== verification/FsCalls.v ===== *)
(** * Programs of filesystem calls

    The calls of [vfs.h] as data, with an interpreter over the whole state: the
    machine, the descriptor table and a ramfs over any allocator with the laws of
    [Alloc].  The state is well formed when the ramfs and the descriptor table are
    consistent and no descriptor of a file is further than the heap is long; every
    sequence of calls, on any paths, flags and descriptors, keeps it so and gets
    results in the documented ranges. *)
From stdpp Require Import base numbers list gmap strings.
From Stdlib Require Import ZArith Lia.
From S2P Require Import Prelude.
From S2P Require Import Machine.
From S2P Require Import Alloc.
From S2P Require Import Heap.
From S2P Require Import Ramfs.
From S2P Require Import Vfs.
From S2P Require Import FsFrame.

(** ** Calls and results *)

Inductive vfs_call :=
  | COpen (path : list Z) (flags : Z)
  | CClose (fd : Z)
  | CRead (fd buf size : Z)
  | CWrite (fd buf size : Z)
  | CMkdir (path : list Z)
  | CReaddir (path : list Z) (index : Z).

(** An integer, or what [vfs_readdir] leaves in its [vfs_dirent]. *)
Inductive vfs_result :=
  | RInt (n : Z)
  | REntry (e : option (list Z * Z)).

Section calls.
Context {H : Type} `{AllocLaws H}.

Definition fs_world : Type := machine * vfs * (H * ramfs).

Definition vfs_do (st : fs_world) (c : vfs_call) : option (vfs_result * fs_world) :=
  let '(w, v, s) := st in
  match c with
  | COpen path flags => '(fd, w', v', s') ← vfs_open w v s path flags; Some (RInt fd, (w', v', s'))
  | CClose fd => let '(rc, v') := vfs_close v fd in Some (RInt rc, (w, v', s))
  | CRead fd buf size => let '(n, w', v') := vfs_read w v s fd buf size in Some (RInt n, (w', v', s))
  | CWrite fd buf size => '(n, w', v', s') ← vfs_write w v s fd buf size; Some (RInt n, (w', v', s'))
  | CMkdir path => '(rc, w', s') ← vfs_mkdir w v s path; Some (RInt rc, (w', v, s'))
  | CReaddir path index => e ← vfs_readdir v s path index; Some (REntry e, st)
  end.

Fixpoint vfs_run (st : fs_world) (cs : list vfs_call) : option (list vfs_result * fs_world) :=
  match cs with
  | [] => Some ([], st)
  | c :: cs' => '(r, st1) ← vfs_do st c; '(rs, st2) ← vfs_run st1 cs'; Some (r :: rs, st2)
  end.

(** ** Well-formed states and arguments *)

(** How far the descriptors of files are. *)
Definition offsets_ok (v : vfs) (fs : ramfs) : Prop :=
  forall fd n, 0 <= fd < VFS_MAX_FDS -> fd_used (get_fd v fd) = true ->
    nodes fs !! fd_node (get_fd v fd) = Some n -> n_fs_data n <> 0 -> 0 <= fd_offset (get_fd v fd) <= HEAP_INITIAL.

Definition fs_wf (st : fs_world) : Prop :=
  let '(w, v, (h, fs)) := st in
  exists lv, owns (ram w) h lv /\ fs_inv fs lv /\ vfs_inv v (h, fs) /\ offsets_ok v fs.

(** The caller's buffer is not in the heap; sizes and indices are unsigned. *)
Definition call_ok (c : vfs_call) : Prop :=
  match c with
  | CRead _ buf size => 0 <= size < 2 ^ 32 /\ (buf + size <= HEAP_START \/ HEAP_END <= buf)
  | CWrite _ buf size => 0 <= size <= 2 ^ 29 /\ (buf + size <= HEAP_START \/ HEAP_END <= buf)
  | CReaddir _ index => 0 <= index
  | _ => True
  end.

(** The results a call can have. *)
Definition result_ok (c : vfs_call) (r : vfs_result) : Prop :=
  match c, r with
  | COpen _ _, RInt fd => -1 <= fd < VFS_MAX_FDS
  | CClose _, RInt rc | CMkdir _, RInt rc => rc = 0 \/ rc = -1
  | CRead _ _ size, RInt n => -1 <= n <= size
  | CWrite _ _ size, RInt n => n = size \/ n = -1
  | CReaddir _ _, REntry _ => True
  | _, _ => False
  end.

(** ** The descriptors *)

Lemma offsets_moves w (h : H) fs lv w' h' fs' lv' v :
  fs_moves w fs lv w' h' fs' lv' -> vfs_inv v (h, fs) -> offsets_ok v fs -> offsets_ok v fs'.
Proof.
  intros M Hv Ho fd n' Hr Hu Hn' Hd. destruct (inv_fds _ _ Hv fd Hr Hu) as [_ [n Hn]]. apply (Ho fd n Hr Hu Hn).
  by rewrite <- (mv_data _ _ _ _ _ _ _ M _ _ _ Hn Hn').
Qed.

Lemma offsets_put v fs fd e :
  length (fd_table v) = Z.to_nat VFS_MAX_FDS -> 0 <= fd < VFS_MAX_FDS -> offsets_ok v fs ->
  (forall n, fd_used e = true -> nodes fs !! fd_node e = Some n -> n_fs_data n <> 0 -> 0 <= fd_offset e <= HEAP_INITIAL) ->
  offsets_ok (put_fd v fd e) fs.
Proof.
  intros Hl Hf Ho He fd' n Hr. rewrite get_put_fd by (done || lia). destruct (fd' =? fd); [by intros; eapply He|by apply Ho].
Qed.

(** A transfer through a descriptor of a file. *)
Lemma offsets_advance v fs fd k :
  length (fd_table v) = Z.to_nat VFS_MAX_FDS -> 0 <= fd < VFS_MAX_FDS -> offsets_ok v fs ->
  (k > 0 -> 0 <= fd_offset (get_fd v fd) + k <= HEAP_INITIAL) -> offsets_ok (advance v fd k) fs.
Proof.
  intros Hl Hf Ho Hk. unfold advance. rewrite Z.gtb_ltb. destruct (Z.ltb_spec 0 k); [|done].
  apply offsets_put; [done|done|done|]. intros n _ _ _. cbn [fd_offset with_offset]. specialize (Hk ltac:(lia)).
  unfold HEAP_INITIAL in *. rewrite u32_small by lia. done.
Qed.

(** ** The calls *)

Lemma open_wf w v (h : H) fs path flags :
  fs_wf (w, v, (h, fs)) -> exists r st', vfs_do (w, v, (h, fs)) (COpen path flags) = Some (r, st') /\
    result_ok (COpen path flags) r /\ fs_wf st'.
Proof.
  intros (lv & Ho & Hi & Hv & Hoff). destruct (open_cases w v h fs lv path flags Ho Hi Hv) as
    (fd & w' & v' & h' & fs' & lv' & E & M & Hv' & Hc). cbn [vfs_do]. rewrite E. cbn [mbind option_bind].
  eexists _, _. split; [done|]. pose proof (offsets_moves _ _ _ _ _ _ _ _ _ M Hv Hoff) as Hoff'.
  destruct Hc as [[-> ->]|(Hr & e & -> & Hu & _ & He)]; (split; [unfold result_ok, VFS_MAX_FDS in *; lia|]);
    exists lv'; (split; [apply M|]; split; [apply M|]; split; [done|]); [done|].
  apply offsets_put; [apply (inv_table _ _ Hv)|done|done|]. intros n _. apply He.
Qed.

Lemma bad_fd_cases v fd : bad_fd v fd = true \/ bad_fd v fd = false /\ 0 <= fd < VFS_MAX_FDS /\ fd_used (get_fd v fd) = true.
Proof.
  destruct (bad_fd v fd) eqn:E; [by left|right]. split; [done|]. unfold bad_fd in E. rewrite Z.geb_leb in E.
  destruct (Z.ltb_spec fd 0), (Z.leb_spec VFS_MAX_FDS fd), (fd_used (get_fd v fd)); done.
Qed.

Lemma close_wf w v (h : H) fs fd :
  fs_wf (w, v, (h, fs)) -> exists r st', vfs_do (w, v, (h, fs)) (CClose fd) = Some (r, st') /\
    result_ok (CClose fd) r /\ fs_wf st'.
Proof.
  intros (lv & Ho & Hi & Hv & Hoff). cbn [vfs_do]. unfold vfs_close.
  destruct (bad_fd_cases v fd) as [->|(-> & Hr & Hu)]; eexists _, _; (split; [done|]).
  { split; [by right|]. by exists lv. }
  split; [by left|]. exists lv. split; [done|]. split; [done|]. split.
  - by apply vfs_inv_put.
  - by apply offsets_put; [apply (inv_table _ _ Hv)|..].
Qed.

Lemma mkdir_wf w v (h : H) fs path :
  fs_wf (w, v, (h, fs)) -> exists r st', vfs_do (w, v, (h, fs)) (CMkdir path) = Some (r, st') /\
    result_ok (CMkdir path) r /\ fs_wf st'.
Proof.
  intros (lv & Ho & Hi & Hv & Hoff). destruct (mkdir_moves w v h fs lv path Ho Hi Hv) as (rc & w' & h' & fs' & lv' & E & M).
  cbn [vfs_do]. rewrite E. cbn [mbind option_bind]. eexists _, _. split; [done|]. split.
  - cbn [result_ok]. unfold vfs_mkdir in E. destruct (resolve_parent v (h, fs) path VFS_NAME_MAX) as [[d leaf]|]; [|done]. cbn [mbind option_bind] in E.
    destruct (_ || _); [right; congruence|]. destruct (negb _); [right; congruence|].
    destruct (be_create _ _ _ _ _) as [[[c ?] ?]|]; [|done]. cbn [mbind option_bind] in E. destruct (c =? 0); cbn [negb] in E; [right|left]; congruence.
  - exists lv'. split; [apply M|]. split; [apply M|]. split; [by eapply moves_vfs|by eapply offsets_moves].
Qed.
(** A descriptor of a node without a payload transfers nothing. *)
Lemma node_cases fs a :
  is_Some (nodes fs !! a) ->
  regular fs a \/ (forall w (h : H) lv off size buf, fs_inv fs lv -> n_ops (node_at fs a) = true ->
    ramfs_read w fs a off size buf = (-1, w) /\ ramfs_write w h fs a off size buf = Some (-1, w, h, fs)) \/
  n_ops (node_at fs a) = false.
Proof.
  intros [n Hn]. rewrite (node_at_Some _ _ _ Hn). destruct (n_ops n) eqn:Hops; [|by right; right].
  destruct (is_file n) eqn:Hf.
  - destruct (Z.eq_dec (n_fs_data n) 0) as [E|Hd]; [right; left|left; by exists n].
    intros w h lv off size buf _ _. unfold ramfs_read, ramfs_write. by rewrite (node_at_Some _ _ _ Hn), Hf, E.
  - right; left. intros w h lv off size buf _ _. unfold ramfs_read, ramfs_write. by rewrite (node_at_Some _ _ _ Hn), Hf.
Qed.

Lemma read_wf w v (h : H) fs fd buf size :
  fs_wf (w, v, (h, fs)) -> call_ok (CRead fd buf size) ->
  exists r st', vfs_do (w, v, (h, fs)) (CRead fd buf size) = Some (r, st') /\ result_ok (CRead fd buf size) r /\ fs_wf st'.
Proof.
  intros (lv & Ho & Hi & Hv & Hoff) [Hs Hbuf]. cbn [vfs_do]. set (node := fd_node (get_fd v fd)).
  assert (Hno : vfs_read w v (h, fs) fd buf size = (-1, w, v) -> exists r st',
    (let '(n, w', v') := vfs_read w v (h, fs) fd buf size in Some (RInt n, (w', v', (h, fs)))) = Some (r, st') /\
    result_ok (CRead fd buf size) r /\ fs_wf st').
  { intros ->. eexists _, _. split; [done|]. split; [cbn [result_ok]; lia|]. by exists lv. }
  destruct (bad_fd_cases v fd) as [E|(E & Hr & Hu)]; [apply Hno; unfold vfs_read; by rewrite E|].
  destruct (inv_fds _ _ Hv fd Hr Hu) as [Hn0 Hn]. fold node in Hn0, Hn. change (is_Some (nodes fs !! node)) in Hn. pose proof Hn as [n En].
  destruct (node_cases fs node Hn) as [Hreg|[Hirr|Hirr]].
  - pose proof Hreg as (n' & En' & Hfl & _ & Hd). assert (n' = n) as -> by congruence.
    pose proof (Hoff fd n Hr Hu En Hd) as Hob. set (off := fd_offset (get_fd v fd)) in *.
    assert (Hop : open_at v fd node off) by done.
    destruct (vfs_read_ok w v h fs lv fd node off buf size Ho Hi Hv Hreg Hop Hn0) as
      (w' & v' & E' & _ & Hop' & Hoth & Hv' & Ho' & _ & _ & _); [unfold HEAP_INITIAL in Hob; lia|lia|done|].
    rewrite E'. set (got := pread _ _ _) in *.
    assert (Hg : 0 <= Z.of_nat (length got) <= size /\ off + Z.of_nat (length got) <= HEAP_INITIAL).
    { unfold got, pread. rewrite length_take, length_drop.
      pose proof (size_bound _ _ _ _ _ _ Ho Hi En Hd) as Hsz.
      assert (length (content (ram w) fs node) = Z.to_nat (n_size n)) as ->.
      { unfold content. rewrite (node_at_Some _ _ _ En). by rewrite length_bytes_at. }
      unfold HEAP_INITIAL in *. lia. }
    eexists _, _. split; [done|]. split; [cbn [result_ok]; lia|]. exists lv. do 3 (split; [done|]).
    intros fd' m Hr' Hu' Hm Hd'. destruct (Z.eq_dec fd' fd) as [->|Hne].
    + destruct Hop' as (_ & _ & _ & ->). lia.
    + rewrite Hoth in * by lia. by apply (Hoff fd' m).
  - apply Hno. unfold vfs_read. rewrite E. fold node. destruct (_ || _) eqn:Eb; [done|].
    apply orb_false_iff in Eb as [_ Eb]. apply negb_false_iff in Eb. cbn [be_read ramfs_backend snd be_has_ops] in *.
    by rewrite (proj1 (Hirr w h lv _ size buf Hi Eb)).
  - apply Hno. unfold vfs_read. rewrite E. fold node. cbn [be_has_ops ramfs_backend snd]. by rewrite Hirr, orb_true_r.
Qed.

Lemma write_wf w v (h : H) fs fd buf size :
  fs_wf (w, v, (h, fs)) -> call_ok (CWrite fd buf size) ->
  exists r st', vfs_do (w, v, (h, fs)) (CWrite fd buf size) = Some (r, st') /\ result_ok (CWrite fd buf size) r /\ fs_wf st'.
Proof.
  intros (lv & Ho & Hi & Hv & Hoff) [Hs Hbuf]. cbn [vfs_do]. set (node := fd_node (get_fd v fd)).
  assert (Hno : vfs_write w v (h, fs) fd buf size = Some (-1, w, v, (h, fs)) -> exists r st',
    ('(n, w', v', s') ← vfs_write w v (h, fs) fd buf size; Some (RInt n, (w', v', s'))) = Some (r, st') /\
    result_ok (CWrite fd buf size) r /\ fs_wf st').
  { intros ->. eexists _, _. split; [done|]. split; [by right|]. by exists lv. }
  destruct (bad_fd_cases v fd) as [E|(E & Hr & Hu)]; [apply Hno; unfold vfs_write; by rewrite E|].
  destruct (inv_fds _ _ Hv fd Hr Hu) as [Hn0 Hn]. fold node in Hn0, Hn. change (is_Some (nodes fs !! node)) in Hn. pose proof Hn as [n En].
  destruct (node_cases fs node Hn) as [Hreg|[Hirr|Hirr]].
  - pose proof Hreg as (n' & En' & Hfl & Hops & Hd). assert (n' = n) as -> by congruence.
    pose proof (Hoff fd n Hr Hu En Hd) as Hob. set (off := fd_offset (get_fd v fd)) in *.
    destruct (write_moves w h fs lv node off size buf Ho Hi Hn) as (rc & w' & h' & fs' & lv' & Ew & M & Hrc);
      [unfold HEAP_INITIAL in *; lia..|done|].
    unfold vfs_write. rewrite E. fold node off. destruct (Z.eqb_spec node 0); [done|]. cbn [orb be_has_ops be_write ramfs_backend snd fst].
    rewrite (node_at_Some _ _ _ En), Hops, Ew. cbn [negb mbind option_bind]. eexists _, _. split; [done|].
    split; [cbn [result_ok]; destruct Hrc as [->|[-> _]]; [by right|by left]|].
    pose proof (moves_vfs _ _ _ _ _ _ _ _ v M Hv) as Hv'. pose proof (offsets_moves _ _ _ _ _ _ _ _ _ M Hv Hoff) as Hoff'.
    exists lv'. split; [apply M|]. split; [apply M|]. split.
    + unfold advance. destruct (rc >? 0); [|done]. apply vfs_inv_put; [done|done|]. intros _.
      destruct (inv_fds _ _ Hv' fd Hr Hu). done.
    + apply offsets_advance; [apply (inv_table _ _ Hv)|done|done|]. fold off. destruct Hrc as [->|[-> Hc]]; lia.
  - apply Hno. unfold vfs_write. rewrite E. fold node. destruct (_ || _) eqn:Eb; [done|].
    apply orb_false_iff in Eb as [_ Eb]. apply negb_false_iff in Eb. cbn [be_write ramfs_backend snd fst be_has_ops] in *.
    by rewrite (proj2 (Hirr w h lv _ size buf Hi Eb)).
  - apply Hno. unfold vfs_write. rewrite E. fold node. cbn [be_has_ops ramfs_backend snd]. by rewrite Hirr, orb_true_r.
Qed.

Lemma readdir_wf w v (h : H) fs path index :
  fs_wf (w, v, (h, fs)) -> call_ok (CReaddir path index) ->
  exists r st', vfs_do (w, v, (h, fs)) (CReaddir path index) = Some (r, st') /\ result_ok (CReaddir path index) r /\ fs_wf st'.
Proof.
  intros Hwf Hindex. pose proof Hwf as (lv & Ho & Hi & Hv & _). cbn [vfs_do]. unfold vfs_readdir.
  destruct (vfs_resolve_total w v (h, fs) path) as (d & -> & Hd); [by exists lv|done|]. cbn [mbind option_bind].
  destruct (Z.eqb_spec d 0) as [|Hd0]; [by eexists _, _|]. destruct Hd as [|[n Hn]]; [done|]. cbn [snd] in Hn. cbn [orb].
  destruct (negb _); [by eexists _, _|]. destruct (negb _); [by eexists _, _|].
  cbn [be_readdir ramfs_backend snd]. unfold ramfs_readdir. rewrite (node_at_Some _ _ _ Hn).
  destruct (negb _); [by eexists _, _|]. destruct (inv_dirs _ _ Hi d n Hn) as [l Hl].
  pose proof (siblings_bound _ _ _ _ _ _ Ho Hi Hl) as Hb.
  rewrite (readdir_loop_ok _ _ _ l) by (done || lia || (by eapply siblings_fuel) || (unfold HEAP_INITIAL in Hb; lia)).
  cbn [mbind option_bind]. by eexists _, _.
Qed.

Lemma vfs_do_wf st c :
  fs_wf st -> call_ok c -> exists r st', vfs_do st c = Some (r, st') /\ result_ok c r /\ fs_wf st'.
Proof.
  destruct st as [[w v] [h fs]]. intros Hwf Hc. destruct c.
  - by apply open_wf.
  - by apply close_wf.
  - by apply read_wf.
  - by apply write_wf.
  - by apply mkdir_wf.
  - by apply readdir_wf.
Qed.

(** C5: every sequence of filesystem calls runs to its end, whatever the paths,
    flags, descriptors, offsets and nodes it meets (writes of up to 512 MB at a
    time, buffers outside the heap).  The state stays well formed: ramfs tree,
    file buffers and descriptor table are consistent over the allocator's payloads,
    and no descriptor of a file gets further than the heap is long; and every
    result is in the range its call documents. *)
Theorem vfs_calls_wellformed (st : fs_world) (cs : list vfs_call)
  (Hwf : fs_wf st) (Hcs : Forall call_ok cs) :
  exists rs st', vfs_run st cs = Some (rs, st') /\ Forall2 result_ok cs rs /\ fs_wf st'.
Proof.
  revert st Hwf. induction Hcs as [|c cs Hc _ IH]; intros st Hwf; cbn [vfs_run].
  { eexists _, _. split; [done|]. split; [constructor|done]. }
  destruct (vfs_do_wf st c Hwf Hc) as (r & st1 & -> & Hr & Hwf1). cbn [mbind option_bind].
  destruct (IH st1 Hwf1) as (rs & st2 & -> & Hrs & Hwf2). cbn [mbind option_bind].
  eexists _, _. split; [done|]. split; [by constructor|done].
Qed.
End calls.

(** A program on the file of [Vfs]: open it for appending, write, list, close. *)
Lemma vfs_calls_wellformed_witness :
  exists w h rs st', demo_fs_heap = Some (w, h) /\
    vfs_run (w, demo_vfs, (h, demo_store))
      [COpen (bytes_of "/a") VFS_O_APPEND; CWrite 2 4096 5; CMkdir (bytes_of "/d"); CReaddir (bytes_of "/") 0; CClose 2;
       CRead 7 4096 10] = Some (rs, st') /\ fs_wf st'.
Proof.
  destruct demo_fs_owns as (w & h & E & Ho).
  destruct (vfs_calls_wellformed (w, demo_vfs, (h, demo_store))
    [COpen (bytes_of "/a") VFS_O_APPEND; CWrite 2 4096 5; CMkdir (bytes_of "/d"); CReaddir (bytes_of "/") 0; CClose 2; CRead 7 4096 10])
    as (rs & st' & R & _ & Hwf).
  - exists (live demo_blocks). split; [exact Ho|]. split; [exact demo_fs_inv|]. split; [apply demo_vfs_inv|].
    intros fd n Hr Hu _ _. assert (Hz : forallb (fun k => fd_offset (get_fd demo_vfs k) =? 0) (seqZ 0 VFS_MAX_FDS) = true)
      by (vm_compute; reflexivity).
    pose proof (forallb_below _ _ fd Hz Hr) as Hf. cbv beta in Hf. apply Z.eqb_eq in Hf. rewrite Hf. unfold HEAP_INITIAL. lia.
  - unfold call_ok, HEAP_START. repeat constructor; lia.
  - exists w, h, rs, st'. exact (conj E (conj R Hwf)).
Defined.
