(* ===== verification/Shell.v ===== *)
(** * [kernel/shell.c]: the debug shell

    [sys] is the state the commands reach.  A command gets the address of its
    arguments in the line buffer and returns the new state; [None] is a command
    that does not come back (a busy wait that outlasts [polls], or a routine below
    it that does not).  Output is the machine's console calls, which [Vga]
    replays.  Strings are bytes in memory up to a NUL; paths are handed to
    [Vfs] as lists of bytes.  A line and its parts have less than [CMD_MAX] bytes,
    which bounds every scan of it.

    Static and local arrays are given by their addresses: [line_buf], the buffer
    of [cmd_cat] ([cat_buf]) and the literal ["\n"] of [cmd_write] ([newline]).
    The characters that the calls of [keyboard_getchar] return are a list. *)
From stdpp Require Import base numbers list gmap strings.
From Stdlib Require Import ZArith Lia Ascii.
From S2P Require Import Prelude.
From S2P Require Import Machine.
From S2P Require Import CString.
From S2P Require Import Io.
From S2P Require Import Net.
From S2P Require Import Alloc.
From S2P Require Import Pmm.
From S2P Require Import Heap.
From S2P Require Import Vmm.
From S2P Require Import E1000.
From S2P Require Import Task.
From S2P Require Import Timer.
From S2P Require Import Syscall.
From S2P Require Import Ramfs.
From S2P Require Import Vfs.

Definition CMD_MAX : Z := 256.

Record sys := Sys {
  y_machine : machine;
  y_ticks : Z;
  y_sched : sched;
  y_pmm : pmm;
  y_heap : heap;
  y_vmm : vmm;
  y_vfs : vfs;
  y_ramfs : ramfs;
  y_net : net;
  y_e1000 : e1000;
  y_io : io;
  (** the processor has been halted *)
  y_halted : bool;
}.

Definition with_y_machine (y : sys) (w : machine) : sys :=
  {| y_machine := w; y_ticks := y_ticks y; y_sched := y_sched y; y_pmm := y_pmm y; y_heap := y_heap y;
     y_vmm := y_vmm y; y_vfs := y_vfs y; y_ramfs := y_ramfs y; y_net := y_net y; y_e1000 := y_e1000 y;
     y_io := y_io y; y_halted := y_halted y |}.
(** The parts the filesystem changes. *)
Definition with_y_fs (y : sys) (w : machine) (v : vfs) (s : heap * ramfs) : sys :=
  {| y_machine := w; y_ticks := y_ticks y; y_sched := y_sched y; y_pmm := y_pmm y; y_heap := s.1;
     y_vmm := y_vmm y; y_vfs := v; y_ramfs := s.2; y_net := y_net y; y_e1000 := y_e1000 y; y_io := y_io y;
     y_halted := y_halted y |}.
(** The parts task creation changes. *)
Definition with_y_task (y : sys) (w : machine) (h : heap) (v : vmm) (s : sched) : sys :=
  {| y_machine := w; y_ticks := y_ticks y; y_sched := s; y_pmm := y_pmm y; y_heap := h;
     y_vmm := v; y_vfs := y_vfs y; y_ramfs := y_ramfs y; y_net := y_net y; y_e1000 := y_e1000 y; y_io := y_io y;
     y_halted := y_halted y |}.
Definition with_y_e1000 (y : sys) (e : e1000) : sys :=
  {| y_machine := y_machine y; y_ticks := y_ticks y; y_sched := y_sched y; y_pmm := y_pmm y; y_heap := y_heap y;
     y_vmm := y_vmm y; y_vfs := y_vfs y; y_ramfs := y_ramfs y; y_net := y_net y; y_e1000 := e; y_io := y_io y;
     y_halted := y_halted y |}.
(** The state once the processor is halted. *)
Definition halt (y : sys) (s : io) : sys :=
  {| y_machine := y_machine y; y_ticks := y_ticks y; y_sched := y_sched y; y_pmm := y_pmm y; y_heap := y_heap y;
     y_vmm := y_vmm y; y_vfs := y_vfs y; y_ramfs := y_ramfs y; y_net := y_net y; y_e1000 := y_e1000 y; y_io := s;
     y_halted := true |}.

Definition y_ram (y : sys) : memory := ram (y_machine y).
Definition y_fs (y : sys) : heap * ramfs := (y_heap y, y_ramfs y).
Definition out (y : sys) (cs : list out_call) : sys := with_y_machine y (emit (y_machine y) cs).

(** ** Helpers *)

(** [while (n > 0) { buf[i++] = '0' + (n % 10); n /= 10; }], at most [fuel] digits. *)
Fixpoint digits_rev (fuel : nat) (n : Z) : list Z :=
  match fuel with
  | O => []
  | S fuel' => if n >? 0 then (48 + n mod 10) :: digits_rev fuel' (n / 10) else []
  end.

(** A 64-bit number has at most 20 digits. *)
Definition print_uint (n : Z) : list out_call :=
  if n =? 0 then [VgaPutchar 48] else map VgaPutchar (rev (digits_rev 20 n)).

Definition print_size (bytes : Z) : list out_call :=
  if bytes >=? 1024 * 1024 * 1024 then print_uint (bytes / (1024 * 1024 * 1024)) ++ [VgaPuts " GB"]
  else if bytes >=? 1024 * 1024 then print_uint (bytes / (1024 * 1024)) ++ [VgaPuts " MB"]
  else if bytes >=? 1024 then print_uint (bytes / 1024) ++ [VgaPuts " KB"]
  else print_uint bytes ++ [VgaPuts " B"].

(** The string at [p], at most [n] bytes. *)
Fixpoint str_at (n : nat) (m : memory) (p : Z) : list Z :=
  match n with
  | O => []
  | S n' => if load8 m p =? 0 then [] else load8 m p :: str_at n' m (p + 1)
  end.
Definition line_str (m : memory) (p : Z) : list Z := str_at (Z.to_nat CMD_MAX) m p.
Definition puts (l : list Z) : out_call := VgaPuts (string_of l).

(** [while ( *s == ' ') s++;], at most [n] steps. *)
Fixpoint skip_loop (n : nat) (m : memory) (s : Z) : option Z :=
  match n with
  | O => None
  | S n' => if load8 m s =? 32 then skip_loop n' m (s + 1) else Some s
  end.
Definition skip_spaces (m : memory) (s : Z) : option Z := skip_loop (Z.to_nat CMD_MAX) m s.

Definition print_hex32 (v : Z) : out_call := puts (hex_chars 8 v).

(** ** Commands *)

Definition command_table : list (string * string) :=
  [("help", "Show available commands"); ("clear", "Clear the screen"); ("meminfo", "Display memory statistics");
   ("uptime", "Show system uptime"); ("ps", "List kernel tasks"); ("virt", "Virtual memory info");
   ("ls", "List directory [path]"); ("cat", "Show file contents"); ("mkdir", "Create directory");
   ("touch", "Create empty file"); ("write", "Write text: write PATH text"); ("net", "Network status");
   ("syscall", "Run user-mode syscall demo"); ("echo", "Print text to screen"); ("reboot", "Restart the system")]%string.

Section shell.
Context (line_buf cat_buf newline user_demo_entry : Z) (polls : nat).

Definition cmd_help (y : sys) (args : Z) : option sys :=
  Some (out y ([VgaSetColor VGA_COLOR_YELLOW VGA_COLOR_BLACK; VgaPuts (line "Available commands:"); VgaSetColor VGA_COLOR_LIGHT_GREY VGA_COLOR_BLACK] ++
    flat_map (fun c : string * string =>
      [VgaPuts "  "; VgaSetColor VGA_COLOR_WHITE VGA_COLOR_BLACK; VgaPuts c.1] ++
      replicate (10 - String.length c.1) (VgaPutchar 32) ++
      [VgaSetColor VGA_COLOR_LIGHT_GREY VGA_COLOR_BLACK; VgaPuts c.2; VgaPutchar 10]) command_table)).

Definition cmd_clear (y : sys) (args : Z) : option sys := Some (out y [VgaClear VGA_COLOR_LIGHT_GREY VGA_COLOR_BLACK]).

Definition stat_line (label : string) (n : Z) : list out_call := [VgaPuts label] ++ print_size n ++ [VgaPutchar 10].

Definition cmd_meminfo (y : sys) (args : Z) : option sys :=
  let ps := pmm_get_stats (y_pmm y) in
  let '(h_total, h_used, h_free) := heap_get_stats (y_heap y) in
  Some (out y ([VgaSetColor VGA_COLOR_YELLOW VGA_COLOR_BLACK; VgaPuts (line "Physical Memory:"); VgaSetColor VGA_COLOR_LIGHT_GREY VGA_COLOR_BLACK] ++
    stat_line "  Total: " (st_total_memory ps) ++ stat_line "  Free:  " (st_free_memory ps) ++
    stat_line "  Used:  " (st_used_memory ps) ++
    [VgaSetColor VGA_COLOR_YELLOW VGA_COLOR_BLACK; VgaPuts (line "Kernel Heap:"); VgaSetColor VGA_COLOR_LIGHT_GREY VGA_COLOR_BLACK] ++
    stat_line "  Total: " h_total ++ stat_line "  Used:  " h_used ++ stat_line "  Free:  " h_free)).

Definition cmd_uptime (y : sys) (args : Z) : option sys :=
  let t := Timer (y_ticks y) (y_io y) (y_sched y) in
  let ticks := timer_get_ticks t in
  let sec := timer_get_uptime_sec t in
  let d := sec / 86400 in let sec1 := sec mod 86400 in
  let h := sec1 / 3600 in let sec2 := sec1 mod 3600 in
  let m := sec2 / 60 in let sec3 := sec2 mod 60 in
  Some (out y ([VgaSetColor VGA_COLOR_LIGHT_GREY VGA_COLOR_BLACK; VgaPuts "Uptime: "] ++ print_uint d ++ [VgaPuts "d "] ++ print_uint h ++
    [VgaPuts "h "] ++ print_uint m ++ [VgaPuts "m "] ++ print_uint sec3 ++ [VgaPuts "s ("] ++ print_uint ticks ++
    [VgaPuts (line " ticks)")])).

(** One line of the task list. *)
Definition ps_line (id : Z) (name : string) (st : task_state) : list out_call :=
  [VgaPuts "  "] ++ print_uint id ++ replicate (Z.to_nat (5 - (if id >=? 10 then 2 else 1))) (VgaPutchar 32) ++
  (match st with
   | TASK_RUNNING => [VgaSetColor VGA_COLOR_LIGHT_GREEN VGA_COLOR_BLACK; VgaPuts "RUNNING    "]
   | TASK_READY => [VgaSetColor VGA_COLOR_LIGHT_CYAN VGA_COLOR_BLACK; VgaPuts "READY      "]
   | TASK_TERMINATED => [VgaSetColor VGA_COLOR_DARK_GREY VGA_COLOR_BLACK; VgaPuts "TERMINATED "]
   end) ++ [VgaSetColor VGA_COLOR_LIGHT_GREY VGA_COLOR_BLACK; VgaPuts name; VgaPutchar 10].

Fixpoint ps_loop (n : nat) (s : sched) (i : Z) : list out_call :=
  match n with
  | O => []
  | S n' =>
      (match task_get_info s i with None => [] | Some (id, name, st) => ps_line id name st end) ++ ps_loop n' s (i + 1)
  end.

Definition cmd_ps (y : sys) (args : Z) : option sys :=
  Some (out y ([VgaSetColor VGA_COLOR_YELLOW VGA_COLOR_BLACK; VgaPuts (line "  PID  STATE       NAME"); VgaSetColor VGA_COLOR_LIGHT_GREY VGA_COLOR_BLACK] ++
    ps_loop (Z.to_nat (task_count (y_sched y))) (y_sched y) 0)).

Definition cmd_virt (y : sys) (args : Z) : option sys :=
  let '(mapped, tables, id_end) := vmm_get_stats (y_vmm y) in
  Some (out y ([VgaSetColor VGA_COLOR_YELLOW VGA_COLOR_BLACK; VgaPuts (line "Virtual Memory (32-bit paging)"); VgaSetColor VGA_COLOR_LIGHT_GREY VGA_COLOR_BLACK;
      VgaPuts "  Mapped pages:   "] ++ print_uint mapped ++ [VgaPuts " ("] ++ print_size (u64 (mapped * 4096)) ++
    [VgaPuts (line ")"); VgaPuts "  Page tables:    "] ++ print_uint tables ++
    [VgaPutchar 10; VgaPuts "  Identity end:   0x"; print_hex32 id_end; VgaPutchar 10;
     VgaPuts "  CR3:            0x"; print_hex32 (cr3 (y_vmm y)); VgaPutchar 10])).

(** A message with a path, in red. *)
Definition complain (y : sys) (msg : string) (path : list Z) : sys :=
  out y [VgaSetColor VGA_COLOR_LIGHT_RED VGA_COLOR_BLACK; VgaPuts msg; puts path; VgaPutchar 10].

(** [for (i = ...; vfs_readdir(path, i, name, &type) == 0; i++)], at most [n] times. *)
Fixpoint ls_loop (n : nat) (y : sys) (path : list Z) (i : Z) : option sys :=
  match n with
  | O => None
  | S n' =>
      entry ← vfs_readdir (y_vfs y) (y_fs y) path i;
      match entry with
      | None => Some y
      | Some (name, type) =>
          let y1 := if has_flag type VFS_DIRECTORY then out y [VgaSetColor VGA_COLOR_LIGHT_CYAN VGA_COLOR_BLACK; puts name; VgaPutchar 47]
                    else out y [VgaSetColor VGA_COLOR_LIGHT_GREY VGA_COLOR_BLACK; puts name] in
          ls_loop n' (out y1 [VgaPuts "  "]) path (i + 1)
      end
  end.

Definition cmd_ls (y : sys) (args : Z) : option sys :=
  p ← skip_spaces (y_ram y) args;
  let path := if load8 (y_ram y) p =? 0 then [slash] else line_str (y_ram y) p in
  dir ← vfs_resolve (y_vfs y) (y_fs y) path;
  if dir =? 0 then Some (complain y "ls: not found: " path)
  else
    let node := node_at (y_ramfs y) dir in
    if negb (has_flag (n_flags node) VFS_DIRECTORY)
    then Some (out y ([puts (n_name node); VgaPuts "  "] ++ print_uint (n_size node) ++ [VgaPuts (line " B")]))
    else
      y1 ← ls_loop (S (walk_fuel (y_ramfs y))) y path 0;
      Some (out y1 [VgaSetColor VGA_COLOR_LIGHT_GREY VGA_COLOR_BLACK; VgaPutchar 10]).

(** [while ((n = vfs_read(fd, buf, sizeof(buf) - 1)) > 0)], at most [k] reads. *)
Fixpoint cat_loop (k : nat) (y : sys) (fd : Z) : option sys :=
  match k with
  | O => None
  | S k' =>
      let '(n, w, v) := vfs_read (y_machine y) (y_vfs y) (y_fs y) fd cat_buf 127 in
      let y1 := with_y_fs y w v (y_fs y) in
      if n >? 0 then
        let y2 := with_y_machine y1 (set_ram w (store8 (ram w) (cat_buf + n) 0)) in
        cat_loop k' (out y2 [puts (str_at 128 (y_ram y2) cat_buf)]) fd
      else Some y1
  end.

(** Reads enough for every file that fits the heap. *)
Definition CAT_FUEL : nat := S (Z.to_nat HEAP_INITIAL).

Definition cmd_cat (y : sys) (args : Z) : option sys :=
  p ← skip_spaces (y_ram y) args;
  if load8 (y_ram y) p =? 0 then Some (out y [VgaPuts (line "Usage: cat <path>")])
  else
    let path := line_str (y_ram y) p in
    '(fd, w, v, s) ← vfs_open (y_machine y) (y_vfs y) (y_fs y) path VFS_O_RDONLY;
    let y1 := with_y_fs y w v s in
    if fd <? 0 then Some (complain y1 "cat: not found: " path)
    else
      y2 ← cat_loop CAT_FUEL (out y1 [VgaSetColor VGA_COLOR_LIGHT_GREY VGA_COLOR_BLACK]) fd;
      Some (with_y_fs y2 (y_machine y2) (vfs_close (y_vfs y2) fd).2 (y_fs y2)).

Definition cmd_mkdir (y : sys) (args : Z) : option sys :=
  p ← skip_spaces (y_ram y) args;
  if load8 (y_ram y) p =? 0 then Some (out y [VgaPuts (line "Usage: mkdir <path>")])
  else
    let path := line_str (y_ram y) p in
    '(rc, w, s) ← vfs_mkdir (y_machine y) (y_vfs y) (y_fs y) path;
    let y1 := with_y_fs y w (y_vfs y) s in
    Some (if rc <? 0 then complain y1 "mkdir: failed: " path else y1).

Definition cmd_touch (y : sys) (args : Z) : option sys :=
  p ← skip_spaces (y_ram y) args;
  if load8 (y_ram y) p =? 0 then Some (out y [VgaPuts (line "Usage: touch <path>")])
  else
    let path := line_str (y_ram y) p in
    '(node, w, s) ← vfs_create_file (y_machine y) (y_vfs y) (y_fs y) path;
    let y1 := with_y_fs y w (y_vfs y) s in
    Some (if node =? 0 then complain y1 "touch: failed: " path else y1).

(** [while ( *p && *p != ' ' && i < sizeof(path) - 1) path[i++] = *p++;], [n] bytes of
    room: the bytes taken and the place reached. *)
Fixpoint take_token (n : nat) (m : memory) (p : Z) : list Z * Z :=
  match n with
  | O => ([], p)
  | S n' =>
      let c := load8 m p in
      if (c =? 0) || (c =? 32) then ([], p)
      else let '(l, q) := take_token n' m (p + 1) in (c :: l, q)
  end.

Definition cmd_write (y : sys) (args : Z) : option sys :=
  p ← skip_spaces (y_ram y) args;
  let usage := Some (out y [VgaPuts (line "Usage: write <path> <text>")]) in
  if load8 (y_ram y) p =? 0 then usage
  else
    let '(path, p1) := take_token 127 (y_ram y) p in
    text ← skip_spaces (y_ram y) p1;
    if load8 (y_ram y) text =? 0 then usage
    else
      '(fd, w, v, s) ← vfs_open (y_machine y) (y_vfs y) (y_fs y) path
                         (Z.lor (Z.lor VFS_O_WRONLY VFS_O_CREAT) VFS_O_TRUNC);
      let y1 := with_y_fs y w v s in
      if fd <? 0 then Some (complain y1 "write: cannot open: " path)
      else
        len ← strlen (Z.to_nat CMD_MAX) (ram w) text;
        '(_, w2, v2, s2) ← vfs_write w v s fd text len;
        '(_, w3, v3, s3) ← vfs_write w2 v2 s2 fd newline 1;
        Some (with_y_fs y w3 (vfs_close v3 fd).2 s3).

(** The bytes of an address, separated by dots. *)
Definition put_ip (ip : list Z) : list out_call :=
  print_uint (ip !!! 0%nat) ++ [VgaPutchar 46] ++ print_uint (ip !!! 1%nat) ++ [VgaPutchar 46] ++
  print_uint (ip !!! 2%nat) ++ [VgaPutchar 46] ++ print_uint (ip !!! 3%nat).

Definition cmd_net (y : sys) (args : Z) : option sys :=
  let y1 := out y ([VgaSetColor VGA_COLOR_YELLOW VGA_COLOR_BLACK; VgaPuts (line "Network Status"); VgaSetColor VGA_COLOR_LIGHT_GREY VGA_COLOR_BLACK; VgaPuts "  MAC:    "] ++
    put_mac 6 (mac_addr (y_e1000 y)) 0 ++ [VgaPutchar 10; VgaPuts "  IP:     "] ++ put_ip (our_ip (y_net y)) ++
    [VgaPutchar 10; VgaPuts "  Link:   "]) in
  let '(up, e1) := e1000_link_up (y_e1000 y1) in
  Some (out (with_y_e1000 y1 e1)
    ((if up then [VgaSetColor VGA_COLOR_LIGHT_GREEN VGA_COLOR_BLACK; VgaPuts "UP"] else [VgaSetColor VGA_COLOR_LIGHT_RED VGA_COLOR_BLACK; VgaPuts "DOWN"]) ++
     [VgaSetColor VGA_COLOR_LIGHT_GREY VGA_COLOR_BLACK; VgaPutchar 10; VgaPuts "  RX:     "] ++ print_uint (e1000_packets_rx e1) ++
     [VgaPuts (line " packets"); VgaPuts "  TX:     "] ++ print_uint (e1000_packets_tx e1) ++
     [VgaPuts (line " packets")])).

Definition cmd_syscall (y : sys) (args : Z) : option sys :=
  let y1 := out y [VgaSetColor VGA_COLOR_YELLOW VGA_COLOR_BLACK; VgaPuts (line "Spawning user-mode (ring 3) task..."); VgaSetColor VGA_COLOR_LIGHT_GREY VGA_COLOR_BLACK] in
  '(id, w, h, v, s) ← task_create_user (y_machine y1) (y_heap y1) (y_vmm y1) (y_sched y1) user_demo_entry "user_demo";
  let y2 := with_y_task y1 w h v s in
  Some (if id =? u32 (-1) then out y2 [VgaSetColor VGA_COLOR_LIGHT_RED VGA_COLOR_BLACK; VgaPuts (line "  ERROR: failed to create user task")]
        else out y2 ([VgaPuts "  Task created (id="] ++ print_uint id ++
                     [VgaPuts (line "), will run on next schedule tick")])).

Definition cmd_echo (y : sys) (args : Z) : option sys :=
  Some (out y [VgaSetColor VGA_COLOR_LIGHT_GREY VGA_COLOR_BLACK; puts (line_str (y_ram y) args); VgaPutchar 10]).

(** [do status = inb(0x64); while (status & 0x02);], then the reset: at most [n] polls. *)
Fixpoint reboot_ports (n : nat) (s : io) : option io :=
  match n with
  | O => None
  | S n' =>
      let '(status, s1) := inb s 0x64 in
      if negb (Z.land status 0x02 =? 0) then reboot_ports n' s1 else Some (outb s1 0x64 0xFE)
  end.
Definition cmd_reboot (y : sys) (args : Z) : option sys :=
  let y1 := out y [VgaPuts (line "Rebooting...")] in
  s ← reboot_ports polls (y_io y1);
  Some (halt y1 s).

Definition handlers : list (sys -> Z -> option sys) :=
  [cmd_help; cmd_clear; cmd_meminfo; cmd_uptime; cmd_ps; cmd_virt; cmd_ls; cmd_cat; cmd_mkdir; cmd_touch; cmd_write;
   cmd_net; cmd_syscall; cmd_echo; cmd_reboot].
Definition commands : list (string * (sys -> Z -> option sys)) := zip (map fst command_table) handlers.

(** ** Reading a line *)

(** One character of the loop: the machine, [line_len], and whether the line is
    complete. *)
Definition readline_char (w : machine) (len c : Z) : machine * Z * bool :=
  if c =? 10 then (emit (set_ram w (store8 (ram w) (line_buf + len) 0)) [VgaPutchar 10], len, true)
  else if c =? 8 then
    if len >? 0 then (emit w [VgaPutchar 8; VgaPutchar 32; VgaPutchar 8], len - 1, false) else (w, len, false)
  else if (c >=? 32) && (c <=? 126) && (len <? CMD_MAX - 1)
  then (emit (set_ram w (store8 (ram w) (line_buf + len) c)) [VgaPutchar c], len + 1, false)
  else (w, len, false).

(** The characters not yet read are left over. *)
Fixpoint readline_loop (cs : list Z) (w : machine) (len : Z) : option (machine * Z * list Z) :=
  match cs with
  | [] => None
  | c :: cs' =>
      let '(w1, len1, over) := readline_char w len c in
      if over then Some (w1, len1, cs') else readline_loop cs' w1 len1
  end.
Definition shell_readline (cs : list Z) (w : machine) : option (machine * Z * list Z) := readline_loop cs w 0.

(** ** Running a line *)

(** [while ( *p && *p != ' ') p++;], at most [n] steps. *)
Fixpoint word_end (n : nat) (m : memory) (p : Z) : option Z :=
  match n with
  | O => None
  | S n' => if (load8 m p =? 0) || (load8 m p =? 32) then Some p else word_end n' m (p + 1)
  end.

(** [strncmp] ([CString]) of a string literal, its bytes up to the NUL, with memory. *)
Fixpoint strncmp_lit_loop (n : nat) (lit : list Z) (m : memory) (p : Z) : Z :=
  let c := hd 0 lit in
  match n with
  | O => c - load8 m p
  | S n' => if negb (c =? 0) && (c =? load8 m p) then strncmp_lit_loop n' (tl lit) m (p + 1) else c - load8 m p
  end.
Definition strncmp_lit (lit : list Z) (m : memory) (p : Z) (n : nat) : Z :=
  match n with
  | O => 0
  | S n' => strncmp_lit_loop n' lit m p
  end.

(** The loop over the table, for the word of [len] bytes at [cmd_start]. *)
Fixpoint find_command (l : list (string * (sys -> Z -> option sys))) (m : memory) (cmd_start len : Z)
  : option (sys -> Z -> option sys) :=
  match l with
  | [] => None
  | (n, h) :: l' =>
      if (Z.of_nat (String.length n) =? len) && (strncmp_lit (bytes_of n) m cmd_start (Z.to_nat len) =? 0) then Some h
      else find_command l' m cmd_start len
  end.

Definition shell_execute (y : sys) : option sys :=
  cmd_start ← skip_spaces (y_ram y) line_buf;
  if load8 (y_ram y) cmd_start =? 0 then Some y
  else
    p ← word_end (Z.to_nat CMD_MAX) (y_ram y) cmd_start;
    let cmd_name_len := p - cmd_start in
    let name := bytes_at (y_ram y) cmd_start (Z.to_nat cmd_name_len) in
    args ← skip_spaces (y_ram y) p;
    match find_command commands (y_ram y) cmd_start cmd_name_len with
    | Some handler => handler y args
    | None =>
        Some (out y ([VgaSetColor VGA_COLOR_LIGHT_RED VGA_COLOR_BLACK; VgaPuts "Unknown command: "] ++ map (fun c => VgaPutchar (s8 c)) name ++
          [VgaPutchar 10; VgaSetColor VGA_COLOR_LIGHT_GREY VGA_COLOR_BLACK; VgaPuts (line "Type 'help' for available commands.")]))
    end.

Definition shell_prompt (y : sys) : sys := out y [VgaSetColor VGA_COLOR_LIGHT_GREEN VGA_COLOR_BLACK; VgaPuts "mshka> "; VgaSetColor VGA_COLOR_WHITE VGA_COLOR_BLACK].

(** One round of the shell: the prompt, a line, its command. *)
Definition shell_round (cs : list Z) (y : sys) : option (list Z * sys) :=
  let y1 := shell_prompt y in
  '(w, _, cs') ← shell_readline cs (y_machine y1);
  y2 ← shell_execute (with_y_machine y1 w);
  Some (cs', y2).

(** At most [n] rounds of the loop, which only a halt ends. *)
Fixpoint shell_loop (n : nat) (cs : list Z) (y : sys) : option (list Z * sys) :=
  match n with
  | O => Some (cs, y)
  | S n' => if y_halted y then Some (cs, y) else '(cs', y1) ← shell_round cs y; shell_loop n' cs' y1
  end.

Definition shell_run (n : nat) (cs : list Z) (y : sys) : option (list Z * sys) :=
  shell_loop n cs (out y [VgaSetColor VGA_COLOR_LIGHT_CYAN VGA_COLOR_BLACK; VgaPuts (line "MatryoshkaOS Shell v0.1"); VgaSetColor VGA_COLOR_LIGHT_GREY VGA_COLOR_BLACK;
                          VgaPuts ("Type 'help' for available commands." ++ nl ++ nl)]).
End shell.

(** ** Numbers *)

(** The value of a list of decimal digits, most significant first. *)
Definition decimal (ds : list Z) : Z := fold_left (fun a d => 10 * a + (d - 48)) ds 0.

Lemma decimal_snoc ds d : decimal (ds ++ [d]) = 10 * decimal ds + (d - 48).
Proof. unfold decimal. by rewrite fold_left_app. Qed.

Lemma digits_rev_ok fuel n :
  0 <= n < 10 ^ Z.of_nat fuel ->
  decimal (rev (digits_rev fuel n)) = n /\ Forall (fun d => 48 <= d <= 57) (rev (digits_rev fuel n)) /\
  (0 < n -> exists d ds, rev (digits_rev fuel n) = d :: ds /\ d <> 48).
Proof.
  revert n. induction fuel as [|fuel IH]; intros n Hn; cbn [digits_rev].
  { change (10 ^ Z.of_nat 0) with 1 in Hn. assert (n = 0) as -> by lia. repeat split; [by constructor|lia]. }
  rewrite Nat2Z.inj_succ, Z.pow_succ_r in Hn by lia. rewrite Z.gtb_ltb. destruct (Z.ltb_spec 0 n) as [Hpos|].
  2:{ assert (n = 0) as -> by lia. repeat split; [by constructor|lia]. }
  destruct (IH (n / 10)) as (Hv & Hf & Hd).
  { split; [apply Z.div_pos; lia|apply Z.div_lt_upper_bound; lia]. }
  cbn [rev]. rewrite decimal_snoc, Hv. pose proof (Z.mod_pos_bound n 10). split; [|split].
  - pose proof (Z.div_mod n 10). lia.
  - apply Forall_app. split; [done|]. constructor; [lia|done].
  - intros _. destruct (Z_le_gt_dec n 9) as [Hs|Hb].
    + exists (48 + n mod 10), []. replace (n / 10) with 0 in * by (symmetry; apply Z.div_small; lia).
      destruct fuel; cbn [digits_rev rev app Z.gtb Z.compare]; rewrite Z.mod_small by lia; split; done || lia.
    + destruct Hd as (d & ds & E & Hne); [apply Z.div_str_pos; lia|]. exists d, (ds ++ [48 + n mod 10]). by rewrite E.
Qed.

(** [print_uint] prints the decimal representation of every 64-bit number:
    digits only, no leading zero, and with that number's value. *)
Theorem print_uint_correct n :
  0 <= n < 2 ^ 64 ->
  exists ds, print_uint n = map VgaPutchar ds /\ Forall (fun d => 48 <= d <= 57) ds /\ decimal ds = n /\
    (ds = [48] \/ hd 48 ds <> 48).
Proof.
  intros Hn. unfold print_uint. destruct (Z.eqb_spec n 0) as [->|Hne].
  { exists [48]. split; [done|]. split; [constructor; [lia|done]|]. by split; [|left]. }
  destruct (digits_rev_ok 20 n) as (Hv & Hf & Hd); [change (10 ^ Z.of_nat 20) with 100000000000000000000; lia|].
  exists (rev (digits_rev 20 n)). split; [done|]. split; [done|]. split; [done|]. right.
  destruct Hd as (d & ds & -> & Hd); [lia|]. done.
Qed.

Lemma print_uint_correct_witness :
  exists ds, print_uint 18446744073709551615 = map VgaPutchar ds /\ decimal ds = 18446744073709551615.
Proof.
  destruct (print_uint_correct 18446744073709551615 ltac:(lia)) as (ds & E & _ & V & _).
  exists ds. exact (conj E V).
Defined.

(** ** Reading a line *)

(** What a character does to the text typed so far. *)
Definition edit (l : list Z) (c : Z) : list Z :=
  if c =? 8 then removelast l
  else if (32 <=? c) && (c <=? 126) && (Z.of_nat (length l) <? CMD_MAX - 1) then l ++ [c] else l.

(** What it shows. *)
Definition echo (l : list Z) (c : Z) : list out_call :=
  if c =? 8 then match l with [] => [] | _ => [VgaPutchar 8; VgaPutchar 32; VgaPutchar 8] end
  else if (32 <=? c) && (c <=? 126) && (Z.of_nat (length l) <? CMD_MAX - 1) then [VgaPutchar c] else [].

(** The calls for a whole sequence of characters. *)
Fixpoint echoes (l : list Z) (cs : list Z) : list out_call :=
  match cs with
  | [] => []
  | c :: cs' => echo l c ++ echoes (edit l c) cs'
  end.

Definition printable (c : Z) : Prop := 32 <= c <= 126.

(** The buffer holds the text. *)
Definition typed_in (line_buf : Z) (m : memory) (l : list Z) : Prop :=
  bytes_at m line_buf (length l) = l /\ Forall printable l /\ Z.of_nat (length l) < CMD_MAX.

Lemma bytes_at_snoc m a n : bytes_at m a (S n) = bytes_at m a n ++ [load8 m (a + Z.of_nat n)].
Proof. replace (S n) with (n + 1)%nat by lia. apply bytes_at_app. Qed.

Lemma typed_in_cstr line_buf m l : typed_in line_buf m l -> load8 m (line_buf + Z.of_nat (length l)) = 0 -> cstr m line_buf l.
Proof.
  intros (Hb & Hp & _). revert line_buf Hb. induction l as [|c l IH]; intros a Hb H0; cbn [cstr length bytes_at] in *.
  { by rewrite Z.add_0_r in H0. }
  injection Hb as E Hb. apply Forall_cons_1 in Hp as [Hc Hp]. unfold printable in Hc.
  split; [done|]. split; [lia|]. apply IH; [done|done|]. rewrite <- H0. f_equal. lia.
Qed.

Section line.
Context (line_buf : Z).

Lemma readline_char_ok w l c :
  typed_in line_buf (ram w) l -> c <> 10 ->
  exists w', readline_char line_buf w (Z.of_nat (length l)) c = (w', Z.of_nat (length (edit l c)), false) /\
    typed_in line_buf (ram w') (edit l c) /\ con w' = con w ++ echo l c /\
    same_outside line_buf (line_buf + CMD_MAX) (ram w) (ram w').
Proof.
  intros (Hb & Hp & Hl) Hc. unfold readline_char, edit, echo. rewrite Z.gtb_ltb, Z.geb_leb.
  destruct (Z.eqb_spec c 10); [done|]. destruct (Z.eqb_spec c 8) as [->|H8].
  - destruct l as [|x l _] using rev_ind.
    { exists w. split; [done|]. split; [done|]. rewrite app_nil_r. split; [done|apply same_outside_refl]. }
    rewrite removelast_last, length_app in *. cbn [length] in *.
    destruct (Z.ltb_spec 0 (Z.of_nat (length l + 1))); [|lia].
    exists (emit w [VgaPutchar 8; VgaPutchar 32; VgaPutchar 8]). split; [f_equal; f_equal; lia|]. split; [|split].
    + split; [|split].
      * replace (length l + 1)%nat with (S (length l)) in Hb by lia. rewrite bytes_at_snoc in Hb.
        apply app_inj_2 in Hb as [Hb _]; [done|done].
      * by apply Forall_app in Hp as [Hp _].
      * lia.
    + by destruct l.
    + apply same_outside_refl.
  - destruct ((32 <=? c) && (c <=? 126) && (Z.of_nat (length l) <? CMD_MAX - 1)) eqn:Hg.
    2:{ exists w. split; [done|]. split; [done|]. rewrite app_nil_r. split; [done|apply same_outside_refl]. }
    apply andb_true_iff in Hg as [Hg Hlt%Z.ltb_lt]. apply andb_true_iff in Hg as [Hlo%Z.leb_le Hhi%Z.leb_le].
    eexists. split; [rewrite length_app; cbn [length]; f_equal; f_equal; lia|]. split; [|split].
    + cbn [ram emit set_ram]. split; [|split].
      * rewrite length_app. cbn [length]. replace (length l + 1)%nat with (S (length l)) by lia.
        rewrite bytes_at_snoc, load8_store8_eq, u8_small by lia. f_equal.
        transitivity (bytes_at (ram w) line_buf (length l)); [|done].
        apply bytes_at_ext. intros b Hbb. apply load8_store8_ne. lia.
      * apply Forall_app. split; [done|]. by constructor.
      * rewrite length_app. cbn [length]. lia.
    + done.
    + intros a Ha. cbn [ram emit set_ram]. apply load8_store8_ne. lia.
Qed.

Lemma readline_loop_ok cs rest w l :
  Forall (fun c => c <> 10) cs -> typed_in line_buf (ram w) l ->
  let text := fold_left edit cs l in
  exists w', readline_loop line_buf (cs ++ 10 :: rest) w (Z.of_nat (length l)) = Some (w', Z.of_nat (length text), rest) /\
    cstr (ram w') line_buf text /\ Forall printable text /\ Z.of_nat (length text) < CMD_MAX /\
    con w' = con w ++ echoes l cs ++ [VgaPutchar 10] /\ same_outside line_buf (line_buf + CMD_MAX) (ram w) (ram w').
Proof.
  intros Hcs. revert w l. induction Hcs as [|c cs Hc _ IH]; intros w l Ht; cbn [app readline_loop fold_left echoes].
  - unfold readline_char. cbn [Z.eqb Pos.eqb]. eexists. split; [done|]. cbn [ram con emit set_ram].
    pose proof Ht as (Hb & Hp & Hl). split; [|split; [done|split; [done|split; [done|]]]].
    + apply typed_in_cstr; [|by rewrite load8_store8_eq]. split; [|done].
      transitivity (bytes_at (ram w) line_buf (length l)); [|done]. apply bytes_at_ext.
      intros b Hbb. apply load8_store8_ne. lia.
    + intros a Ha. apply load8_store8_ne. lia.
  - destruct (readline_char_ok w l c Ht Hc) as (w1 & -> & Ht1 & Hc1 & Ho1).
    destruct (IH w1 (edit l c) Ht1) as (w' & E & Hs & Hp & Hl & Hcon & Ho). exists w'. split; [done|].
    split; [done|]. split; [done|]. split; [done|]. split; [|by eapply same_outside_trans].
    rewrite Hcon, Hc1, <- !app_assoc. done.
Qed.
End line.

(** C26: [shell_readline] returns at the first newline, with the rest of the
    input unread.  The buffer then holds, terminated, the text that the editing
    rules give: printable characters are appended while there is room, a
    backspace removes the last one, everything else is ignored; the text never
    outgrows the buffer, memory outside it is untouched, and exactly the edits are
    echoed. *)
Theorem shell_readline_correct line_buf w cs rest
  (Hcs : Forall (fun c => c <> 10) cs) :
  let text := fold_left edit cs [] in
  exists w', shell_readline line_buf (cs ++ 10 :: rest) w = Some (w', Z.of_nat (length text), rest) /\
    cstr (ram w') line_buf text /\ Forall printable text /\ Z.of_nat (length text) < CMD_MAX /\
    con w' = con w ++ echoes [] cs ++ [VgaPutchar 10] /\ same_outside line_buf (line_buf + CMD_MAX) (ram w) (ram w').
Proof. by apply (readline_loop_ok line_buf cs rest w []). Qed.

Lemma shell_readline_correct_witness :
  exists w', shell_readline 0x5000 ([108; 120; 8; 115] ++ [10; 99]) (Machine ∅ []) = Some (w', 2, [99]) /\
    cstr (ram w') 0x5000 [108; 115].
Proof.
  destruct (shell_readline_correct 0x5000 (Machine ∅ []) [108; 120; 8; 115] [99]) as (w' & E & Hs & _).
  - repeat constructor; lia.
  - exists w'. exact (conj E Hs).
Defined.

(** ** Running a line *)

Fixpoint drop_spaces (l : list Z) : list Z :=
  match l with
  | c :: l' => if c =? 32 then drop_spaces l' else l
  | [] => []
  end.

(** The first word and what follows it. *)
Fixpoint split_word (l : list Z) : list Z * list Z :=
  match l with
  | c :: l' => if c =? 32 then ([], l) else let '(a, b) := split_word l' in (c :: a, b)
  | [] => ([], [])
  end.

Lemma split_word_app l : (split_word l).1 ++ (split_word l).2 = l.
Proof.
  induction l as [|c l IH]; [done|]. cbn [split_word]. destruct (c =? 32); [done|].
  destruct (split_word l) as [a b]. cbn [fst snd app] in *. by rewrite IH.
Qed.

Lemma drop_spaces_length l : (length (drop_spaces l) <= length l)%nat.
Proof. induction l as [|c l IH]; cbn [drop_spaces length]; [lia|]. destruct (c =? 32); cbn [length]; lia. Qed.

Lemma skip_loop_ok n m p l :
  cstr m p l -> (length l < n)%nat ->
  exists q, skip_loop n m p = Some q /\ cstr m q (drop_spaces l) /\
    p <= q /\ q + Z.of_nat (length (drop_spaces l)) = p + Z.of_nat (length l).
Proof.
  revert p l. induction n as [|n IH]; intros p l Hs Hn; [lia|]. cbn [skip_loop].
  destruct l as [|c l]; cbn [cstr drop_spaces length] in *.
  - rewrite Hs. exists p. split; [done|]. split; [done|]. cbn. lia.
  - destruct Hs as (E & Hc & Hl). rewrite E. destruct (Z.eqb_spec c 32) as [->|].
    + destruct (IH (p + 1) l Hl ltac:(lia)) as (q & Eq & Hq & H1 & H2). exists q. split; [done|]. split; [done|]. lia.
    + exists p. split; [done|]. split; [done|]. cbn [length]. lia.
Qed.

Lemma skip_spaces_ok m p l :
  cstr m p l -> Z.of_nat (length l) < CMD_MAX ->
  exists q, skip_spaces m p = Some q /\ cstr m q (drop_spaces l) /\
    p <= q /\ q + Z.of_nat (length (drop_spaces l)) = p + Z.of_nat (length l).
Proof. intros Hs Hl. apply skip_loop_ok; [done|lia]. Qed.

Lemma word_end_ok n m p l :
  cstr m p l -> (length l < n)%nat ->
  let '(a, b) := split_word l in
  word_end n m p = Some (p + Z.of_nat (length a)) /\ bytes_at m p (length a) = a /\
  cstr m (p + Z.of_nat (length a)) b.
Proof.
  revert p l. induction n as [|n IH]; intros p l Hs Hn; [lia|]. cbn [word_end].
  destruct l as [|c l]; cbn [cstr split_word length] in *.
  - rewrite Hs, Z.add_0_r. done.
  - destruct Hs as (E & Hc & Hl). rewrite E. destruct (Z.eqb_spec c 0); [done|]. cbn [orb].
    destruct (Z.eqb_spec c 32) as [->|].
    + rewrite Z.add_0_r. split; [done|]. split; [done|]. cbn [cstr]. done.
    + specialize (IH (p + 1) l Hl ltac:(lia)). destruct (split_word l) as [a b]. cbn [length bytes_at].
      destruct IH as (-> & Hb & Hr). rewrite E, Hb.
      replace (p + 1 + Z.of_nat (length a)) with (p + Z.of_nat (S (length a))) in * by lia. done.
Qed.

Lemma cstr_head_zero m p l : cstr m p l -> (load8 m p =? 0) = match l with [] => true | _ => false end.
Proof.
  destruct l as [|c l]; cbn [cstr]; [intros ->; done|]. intros (-> & Hc & _). by destruct (Z.eqb_spec c 0).
Qed.

Lemma length_bytes_of s : length (bytes_of s) = String.length s.
Proof. unfold bytes_of. rewrite length_map. induction s; cbn; [done|]. by f_equal. Qed.

(** Names without NUL, of equal length: [strncmp] gives 0 for equal ones only. *)
Lemma strncmp_lit_loop_zero n : forall lit m p,
  length lit = S n -> Forall (fun c => c <> 0) lit ->
  (strncmp_lit_loop n lit m p =? 0) = bool_decide (lit = bytes_at m p (S n)).
Proof.
  induction n as [|n IH]; intros [|c lit] m p Hl Hnz; try discriminate Hl; injection Hl as Hl; cbn [strncmp_lit_loop hd tl].
  - destruct lit; [|discriminate Hl]. cbn [bytes_at]. destruct (Z.eqb_spec (c - load8 m p) 0).
    + rewrite bool_decide_eq_true_2; [done|]. f_equal. lia.
    + rewrite bool_decide_eq_false_2; [done|]. intros [= ->]. lia.
  - apply Forall_cons_iff in Hnz as [Hc Hnz]. destruct (Z.eqb_spec c 0) as [|_]; [done|]. cbn [negb andb].
    change (bytes_at m p (S (S n))) with (load8 m p :: bytes_at m (p + 1) (S n)).
    destruct (Z.eqb_spec c (load8 m p)) as [->|Hne].
    + rewrite IH by done. apply bool_decide_ext. split; [by intros ->|by intros [= ->]].
    + rewrite bool_decide_eq_false_2 by (by intros [= ->]). destruct (Z.eqb_spec (c - load8 m p) 0); [lia|done].
Qed.

Lemma name_matches m p n name :
  bytes_at m p (length name) = name -> Forall (fun c => c <> 0) (bytes_of n) ->
  (Z.of_nat (String.length n) =? Z.of_nat (length name)) && (strncmp_lit (bytes_of n) m p (Z.to_nat (Z.of_nat (length name))) =? 0) =
    bool_decide (bytes_of n = name).
Proof.
  intros Hb Hnz. rewrite Nat2Z.id, <- length_bytes_of. destruct (Z.eqb_spec (Z.of_nat (length (bytes_of n))) (Z.of_nat (length name))) as [E|E].
  - apply Nat2Z.inj in E. cbn [andb]. destruct (length name) as [|k] eqn:Ek; rewrite <- Hb.
    + destruct (bytes_of n); [done|discriminate E].
    + by apply strncmp_lit_loop_zero.
  - rewrite bool_decide_eq_false_2; [done|]. intros F. by rewrite F in E.
Qed.

(** The names of a table have no NUL. *)
Definition plain_names (l : list (string * (sys -> Z -> option sys))) : Prop :=
  Forall (fun c => Forall (fun b => b <> 0) (bytes_of c.1)) l.

Lemma find_command_spec l m p name :
  plain_names l -> bytes_at m p (length name) = name ->
  match find_command l m p (Z.of_nat (length name)) with
  | Some h => exists i n, l !! i = Some (n, h) /\ bytes_of n = name
  | None => forall i n h, l !! i = Some (n, h) -> bytes_of n <> name
  end.
Proof.
  intros Hl Hb. induction l as [|[n h] l IH]; cbn [find_command]; [done|]. apply Forall_cons_iff in Hl as [Hn Hl].
  rewrite name_matches by done. case_bool_decide as E; [by exists 0%nat, n|]. specialize (IH Hl).
  destruct (find_command l m p _) as [h'|].
  - destruct IH as (i & n' & Hi & F). by exists (S i), n'.
  - intros [|i] n' h' Hi; [injection Hi as <- <-; done|]. by apply (IH i n' h').
Qed.

(** The names of the commands are distinct. *)
Lemma command_names_distinct : NoDup (map (fun c : string * string => bytes_of c.1) command_table).
Proof. apply (bool_decide_unpack _). vm_compute. exact I. Qed.

Section run.
Context (line_buf cat_buf newline user_demo_entry : Z) (polls : nat).
Abbreviation commands := (commands cat_buf newline user_demo_entry polls).
Abbreviation shell_execute := (shell_execute line_buf cat_buf newline user_demo_entry polls).

Lemma commands_plain : plain_names commands.
Proof.
  unfold plain_names, Shell.commands, command_table, handlers. cbn [map fst zip zip_with].
  repeat (constructor; [cbn; repeat (constructor; [discriminate|]); constructor|]). constructor.
Qed.

Lemma find_command_unique i n h m p :
  commands !! i = Some (n, h) -> bytes_at m p (length (bytes_of n)) = bytes_of n ->
  find_command commands m p (Z.of_nat (length (bytes_of n))) = Some h.
Proof.
  intros Hi Hb. pose proof (find_command_spec commands m p (bytes_of n) commands_plain Hb) as Hf.
  destruct (find_command commands m p _) as [h'|]; [|by apply Hf in Hi].
  destruct Hf as (j & n' & Hj & E). enough (i = j) as -> by congruence.
  assert (Hname : forall k s g, commands !! k = Some (s, g) ->
    map (fun c : string * string => bytes_of c.1) command_table !! k = Some (bytes_of s)).
  { intros k s g Hk. unfold Shell.commands in Hk. apply lookup_zip_with_Some in Hk as (x & z & [= <- <-] & Hx & _).
    pose proof (list_lookup_fmap fst command_table k) as F1.
    pose proof (list_lookup_fmap (fun c : string * string => bytes_of c.1) command_table k) as F2.
    change (map fst command_table !! k = Some s) in Hx. setoid_rewrite F1 in Hx. etransitivity; [exact F2|].
    destruct (command_table !! k) as [q|]; [|done]. cbn in Hx |- *. by injection Hx as ->. }
  apply (NoDup_lookup _ _ _ _ command_names_distinct (Hname i n h Hi)).
  rewrite (Hname j n' h' Hj). by rewrite E.
Qed.

(** What [shell_execute] does with a line, and where it finds the arguments. *)
Lemma shell_execute_ok y l :
  cstr (y_ram y) line_buf l -> Z.of_nat (length l) < CMD_MAX ->
  let '(name, rest) := split_word (drop_spaces l) in
  (name = [] -> shell_execute y = Some y) /\
  (name <> [] -> exists args, cstr (y_ram y) args (drop_spaces rest) /\ line_buf <= args /\
    args + Z.of_nat (length (drop_spaces rest)) = line_buf + Z.of_nat (length l) /\
    (forall i n h, commands !! i = Some (n, h) -> bytes_of n = name -> shell_execute y = h y args) /\
    ((forall i n h, commands !! i = Some (n, h) -> bytes_of n <> name) ->
     shell_execute y = Some (out y (
         [VgaSetColor VGA_COLOR_LIGHT_RED VGA_COLOR_BLACK; VgaPuts "Unknown command: "] ++ prints name ++
         [VgaPutchar 10; VgaSetColor VGA_COLOR_LIGHT_GREY VGA_COLOR_BLACK; VgaPuts (line "Type 'help' for available commands.")])))).
Proof.
  intros Hline Hlen. destruct (skip_spaces_ok _ _ _ Hline Hlen) as (q & Eq & Hq & Hql & Hlq).
  pose proof (drop_spaces_length l) as Hdl.
  pose proof (word_end_ok (Z.to_nat CMD_MAX) _ _ _ Hq ltac:(lia)) as Hw.
  pose proof (split_word_app (drop_spaces l)) as Happ. pose proof (cstr_head_zero _ _ _ Hq) as Hz.
  unfold Shell.shell_execute. rewrite Eq. cbn [mbind option_bind]. rewrite Hz.
  destruct (split_word (drop_spaces l)) as [name rest] eqn:Esp. cbn [fst snd] in Happ. destruct Hw as (Ew & Hb & Hr).
  split.
  { intros ->. cbn [app] in Happ. destruct (drop_spaces l) as [|c l'] eqn:Ed; [done|].
    exfalso. clear -Esp Ed. cbn [split_word] in Esp.
    destruct (Z.eqb_spec c 32) as [->|]; [|by destruct (split_word l')]. revert Ed. clear.
    induction l as [|c l IH]; cbn [drop_spaces]; [done|]. destruct (Z.eqb_spec c 32); [done|]. intros [= -> _]. done. }
  intros Hne. apply (f_equal length) in Happ. rewrite length_app in Happ.
  destruct (drop_spaces l) as [|c l'] eqn:Ed; [by destruct name|].
  destruct (skip_spaces_ok _ _ _ Hr ltac:(lia)) as (args & Ea & Ha & Hal & Hla). exists args. split; [done|].
  split; [lia|]. split; [lia|].
  rewrite Ew. cbn [mbind option_bind]. replace (q + Z.of_nat (length name) - q) with (Z.of_nat (length name)) by lia.
  rewrite Nat2Z.id, Hb, Ea. cbn [mbind option_bind]. split.
  - intros i n h Hi <-. by rewrite (find_command_unique i n h _ _ Hi Hb).
  - intros Hno. pose proof (find_command_spec commands _ _ name commands_plain Hb) as Hf.
    destruct (find_command commands _ _ _) as [h|]; [destruct Hf as (i & n & Hi & E); by apply Hno in Hi|]. done.
Qed.

(** C27: [shell_execute] splits the line at spaces.  A line without a word does
    nothing.  Otherwise the first word, in full, selects the command of that name
    in the table, which is called once with what follows the word, leading spaces
    removed; if the table has no such name nothing runs and the error names the
    word. *)
Theorem shell_execute_correct y l
  (Hline : cstr (y_ram y) line_buf l) (Hlen : Z.of_nat (length l) < CMD_MAX) :
  let '(name, rest) := split_word (drop_spaces l) in
  (name = [] -> shell_execute y = Some y) /\
  (name <> [] -> exists args, cstr (y_ram y) args (drop_spaces rest) /\
    (forall i n h, commands !! i = Some (n, h) -> bytes_of n = name -> shell_execute y = h y args) /\
    ((forall i n h, commands !! i = Some (n, h) -> bytes_of n <> name) ->
     exists y', shell_execute y = Some y' /\ y_ram y' = y_ram y /\
       con (y_machine y') = con (y_machine y) ++
         [VgaSetColor VGA_COLOR_LIGHT_RED VGA_COLOR_BLACK; VgaPuts "Unknown command: "] ++ prints name ++
         [VgaPutchar 10; VgaSetColor VGA_COLOR_LIGHT_GREY VGA_COLOR_BLACK; VgaPuts (line "Type 'help' for available commands.")])).
Proof.
  pose proof (shell_execute_ok y l Hline Hlen) as Hx. destruct (split_word (drop_spaces l)) as [name rest].
  destruct Hx as [H1 H2]. split; [done|]. intros Hne. destruct (H2 Hne) as (args & Ha & _ & _ & Hc & Hu). exists args.
  split; [done|]. split; [done|]. intros Hno. eexists. split; [by apply Hu|]. done.
Qed.
End run.

(** ** Files *)

(** What [vga_puts] prints of a buffer: the bytes before the first NUL. *)
Fixpoint until_nul (l : list Z) : list Z :=
  match l with
  | c :: l' => if c =? 0 then [] else c :: until_nul l'
  | [] => []
  end.

Lemma until_nul_id l : Forall (fun c => c <> 0) l -> until_nul l = l.
Proof. induction 1 as [|c l Hc _ IH]; [done|]. cbn [until_nul]. destruct (Z.eqb_spec c 0); [done|]. by rewrite IH. Qed.

Lemma str_at_ok n m p l :
  bytes_at m p (length l) = l -> load8 m (p + Z.of_nat (length l)) = 0 -> (length l < n)%nat ->
  str_at n m p = until_nul l.
Proof.
  revert p l. induction n as [|n IH]; intros p l Hb Hz Hn; [lia|]. cbn [str_at].
  destruct l as [|c l]; cbn [until_nul bytes_at length] in *; [by rewrite Z.add_0_r in Hz; rewrite Hz|].
  injection Hb as -> Hb. destruct (c =? 0); [done|]. f_equal. apply IH; [done| |lia]. rewrite <- Hz. f_equal. lia.
Qed.

Lemma cstr_str_at n m p l : cstr m p l -> (length l < n)%nat -> str_at n m p = l.
Proof.
  revert p l. induction n as [|n IH]; intros p l Hs Hn; [lia|]. cbn [str_at].
  destruct l as [|c l]; cbn [cstr length] in *; [by rewrite Hs|]. destruct Hs as (-> & Hc & Hl).
  destruct (Z.eqb_spec c 0); [done|]. f_equal. apply IH; [done|lia].
Qed.

Lemma line_str_ok m p l : cstr m p l -> Z.of_nat (length l) < CMD_MAX -> line_str m p = l.
Proof. intros Hs Hl. apply cstr_str_at; [done|lia]. Qed.

(** A prefix and the rest. *)
Lemma take_length_drop {A : Type} n (l : list A) : take n l ++ drop (length (take n l)) l = l.
Proof.
  rewrite length_take. destruct (Nat.le_ge_cases n (length l)).
  - by rewrite Nat.min_l, take_drop by done.
  - by rewrite Nat.min_r, take_ge, drop_all, app_nil_r by done.
Qed.

(** The filesystem, its descriptors and the heap under it are consistent. *)
Definition fs_state (y : sys) (lv : list (Z * Z)) : Prop :=
  owns (y_ram y) (y_heap y) lv /\ fs_inv (y_ramfs y) lv /\ vfs_inv (y_vfs y) (y_fs y).

Definition file_content (y : sys) (a : Z) : list Z := content (y_ram y) (y_ramfs y) a.

(** A path names a regular file, and a descriptor is free. *)
Definition openable (y : sys) (path : list Z) (a : Z) : Prop :=
  vfs_resolve (y_vfs y) (y_fs y) path = Some a /\ a <> 0 /\ regular (y_ramfs y) a /\ 0 <= alloc_fd (y_vfs y).

(** The open descriptors are the same. *)
Definition same_fds (v v' : vfs) : Prop :=
  root_node v' = root_node v /\
  forall j, 0 <= j -> fd_used (get_fd v' j) = fd_used (get_fd v j) /\ (fd_used (get_fd v j) = true -> get_fd v' j = get_fd v j).

Lemma content_length y lv a :
  fs_state y lv -> regular (y_ramfs y) a -> Z.of_nat (length (file_content y a)) <= HEAP_INITIAL.
Proof.
  intros (Hown & Hinv & _) Hreg. destruct (regular_file _ _ _ Hinv Hreg) as (n & f & Hn & _ & _ & Hf & Hsz).
  unfold file_content. rewrite (content_eq _ _ _ _ _ Hn Hf), length_bytes_at.
  destruct (inv_buffer _ _ Hinv _ f Hf) as [[_ E0]|(_ & k & Hk & Hle)]; [unfold HEAP_INITIAL; lia|].
  pose proof (owns_bounds _ _ _ _ _ Hown Hk). unfold HEAP_END in *. lia.
Qed.

(** Memory outside the heap is not part of the filesystem. *)
Lemma fs_state_outside y w lv :
  fs_state y lv -> (forall x, HEAP_START <= x < HEAP_END -> load8 (ram w) x = load8 (y_ram y) x) ->
  fs_state (with_y_machine y w) lv /\
  forall b, regular (y_ramfs y) b -> file_content (with_y_machine y w) b = file_content y b.
Proof.
  intros (Hown & Hinv & Hi) Hout. split; [split; [by eapply owns_outside|by split]|].
  intros b Hb. by eapply content_outside.
Qed.

Section cat.
Context (cat_buf : Z) (Hcat : cat_buf + 128 <= HEAP_START \/ HEAP_END <= cat_buf).

(** The rest of a file, printed in pieces of at most 127 bytes. *)
Lemma cat_loop_ok k y lv fd a off :
  fs_state y lv -> regular (y_ramfs y) a -> a <> 0 -> open_at (y_vfs y) fd a off -> 0 <= off ->
  off <= Z.of_nat (length (file_content y a)) < off + Z.of_nat k ->
  exists y' cs, cat_loop cat_buf k y fd = Some y' /\ concat cs = drop (Z.to_nat off) (file_content y a) /\
    Forall (fun c => 0 < length c <= 127)%nat cs /\
    con (y_machine y') = con (y_machine y) ++ map (fun c => puts (until_nul c)) cs /\
    fs_state y' lv /\ y_fs y' = y_fs y /\ (exists off', open_at (y_vfs y') fd a off') /\
    root_node (y_vfs y') = root_node (y_vfs y) /\
    (forall j, 0 <= j -> j <> fd -> get_fd (y_vfs y') j = get_fd (y_vfs y) j) /\
    (forall b, regular (y_ramfs y) b -> file_content y' b = file_content y b) /\
    same_outside cat_buf (cat_buf + 128) (y_ram y) (y_ram y').
Proof.
  revert y off. induction k as [|k IH]; intros y off Hst Hreg Ha Hop Ho Hk; [lia|].
  pose proof Hst as (Hown & Hinv & Hi). pose proof (content_length y lv a Hst Hreg) as Hlen.
  unfold HEAP_INITIAL in Hlen. cbn [cat_loop].
  destruct (vfs_read_ok (y_machine y) (y_vfs y) (y_heap y) (y_ramfs y) lv fd a off cat_buf 127) as
    (w' & v' & E & Hb & Hop' & Hoth & Hi' & Hown' & Hc' & Hout & Hcon); [done..|lia|lia|lia|].
  pose proof (vfs_read_root (y_machine y) (y_vfs y) (y_fs y) fd cat_buf 127) as Hroot.
  change (content (ram (y_machine y)) (y_ramfs y) a) with (file_content y a) in *.
  change (y_heap y, y_ramfs y) with (y_fs y) in *. rewrite E in Hroot |- *.
  cbn [snd] in Hroot. set (got := pread (file_content y a) off 127) in *.
  assert (Egot : length got = Z.to_nat (Z.min 127 (Z.of_nat (length (file_content y a)) - off))).
  { unfold got, pread. rewrite length_take, length_drop. lia. }
  rewrite Z.gtb_ltb. destruct (Z.ltb_spec 0 (Z.of_nat (length got))) as [Hpos|Hz].
  2:{ exists (with_y_fs y w' v' (y_fs y)), []. split; [done|]. split; [by rewrite drop_ge by lia|].
      split; [done|]. split; [cbn [map y_machine with_y_fs]; by rewrite app_nil_r|].
      split; [done|]. split; [done|]. split; [by eexists|]. split; [done|]. split; [done|]. split; [done|].
      eapply same_outside_mono; [..|exact Hout]; lia. }
  set (m2 := store8 (ram w') (cat_buf + Z.of_nat (length got)) 0).
  assert (Hm2 : same_outside cat_buf (cat_buf + 128) (ram w') m2) by (intros x Hx; apply load8_store8_ne; lia).
  assert (Hpr : str_at 128 m2 cat_buf = until_nul got).
  { apply str_at_ok; [|by apply load8_store8_eq|lia]. rewrite <- Hb at 2. apply bytes_at_ext.
    intros x Hx. apply load8_store8_ne. lia. }
  set (y2 := with_y_machine (with_y_fs y w' v' (y_fs y)) (set_ram w' m2)).
  destruct (fs_state_outside (with_y_fs y w' v' (y_fs y)) (set_ram w' m2) lv) as [Hst2 Hc2]; [done| |].
  { intros x Hx. apply Hm2. lia. }
  assert (Ec2 : forall b, regular (y_ramfs y) b -> file_content y2 b = file_content y b).
  { intros b Hb'. etransitivity; [by apply Hc2|by apply Hc']. }
  destruct (IH (out y2 [puts (str_at 128 (y_ram y2) cat_buf)]) (off + Z.of_nat (length got))) as
    (y' & cs & -> & Hcs & Hfor & Hcon' & Hst' & Hfs' & Hop2 & Hr2 & Hoth2 & Hc3 & Hout2); [done..|lia| |].
  { change (file_content (out y2 _) a) with (file_content y2 a). rewrite Ec2 by done. lia. }
  change (file_content (out y2 _)) with (file_content y2) in *. rewrite Ec2 in Hcs by done.
  exists y', (got :: cs). split; [done|]. split; [|split; [|split; [|split; [done|split; [done|split; [done|]]]]]].
  - cbn [concat]. rewrite Hcs. replace (Z.to_nat (off + Z.of_nat (length got))) with (Z.to_nat off + length got)%nat by lia.
    rewrite <- drop_drop. apply take_length_drop.
  - constructor; [lia|done].
  - rewrite Hcon'. change (con (y_machine (out y2 _))) with (con w' ++ [puts (str_at 128 m2 cat_buf)]).
    by rewrite Hcon, Hpr, <- app_assoc.
  - split; [by rewrite Hr2|]. split; [|split].
    + intros j Hj Hne. rewrite Hoth2 by done. by apply Hoth.
    + intros b Hb'. rewrite Hc3 by done. by apply Ec2.
    + eapply same_outside_trans; [|exact Hout2]. eapply same_outside_trans; [|exact Hm2].
      eapply same_outside_mono; [..|exact Hout]; lia.
Qed.

(** [cat] of a regular file. *)
Lemma cmd_cat_ok y lv args l a :
  fs_state y lv -> cstr (y_ram y) args l -> Z.of_nat (length l) < CMD_MAX -> drop_spaces l <> [] ->
  openable y (drop_spaces l) a ->
  exists y' cs, cmd_cat cat_buf y args = Some y' /\ concat cs = file_content y a /\
    Forall (fun c => 0 < length c <= 127)%nat cs /\
    con (y_machine y') = con (y_machine y) ++ [VgaSetColor VGA_COLOR_LIGHT_GREY VGA_COLOR_BLACK] ++ map (fun c => puts (until_nul c)) cs /\
    fs_state y' lv /\ y_fs y' = y_fs y /\ same_fds (y_vfs y) (y_vfs y') /\
    (forall b, regular (y_ramfs y) b -> file_content y' b = file_content y b) /\
    same_outside cat_buf (cat_buf + 128) (y_ram y) (y_ram y').
Proof.
  intros Hst Hs Hl Hne (Hres & Ha & Hreg & Hfd). pose proof Hst as (Hown & Hinv & Hi).
  destruct (skip_spaces_ok _ _ _ Hs Hl) as (p & Ep & Hp & _ & Hlp). pose proof (drop_spaces_length l).
  unfold cmd_cat. rewrite Ep. cbn [mbind option_bind]. rewrite (cstr_head_zero _ _ _ Hp).
  destruct (drop_spaces l) as [|c l'] eqn:Ed; [done|]. rewrite <- Ed in *. clear Ed. rewrite (line_str_ok _ _ _ Hp) by lia.
  destruct (vfs_open_existing (y_machine y) (y_vfs y) (y_heap y) (y_ramfs y) (drop_spaces l) VFS_O_RDONLY a) as
    (v1 & Eo & Hi1 & Hop & Hroot & Hfree & Hoth); [done..|].
  change (has_flag VFS_O_RDONLY VFS_O_TRUNC) with false in Eo. cbn [mbind option_bind] in *.
  change (y_heap y, y_ramfs y) with (y_fs y) in Eo. cbv zeta. rewrite Eo. cbn [mbind option_bind]. destruct (Z.ltb_spec (alloc_fd (y_vfs y)) 0); [lia|].
  set (fd := alloc_fd (y_vfs y)) in *. set (y1 := out (with_y_fs y _ v1 _) _).
  assert (Hst1 : fs_state y1 lv) by (by split; [|split]).
  pose proof (content_length y lv a Hst Hreg) as Hlen.
  destruct (cat_loop_ok CAT_FUEL y1 lv fd a 0) as
    (y2 & cs & -> & Hcs & Hfor & Hcon & (Hown2 & Hinv2 & Hi2) & Hfs & [off Hop2] & Hr2 & Hoth2 & Hc2 & Hout);
    [done..| |].
  { change (file_content y1 a) with (file_content y a). unfold CAT_FUEL. rewrite Nat2Z.inj_succ, Z2Nat.id by done. lia. }
  cbn [mbind option_bind]. destruct (vfs_close_ok (y_vfs y2) (y_fs y2) fd a off Hi2 Hop2) as
    (v3 & -> & Hi3 & Hu3 & Hr3 & Hoth3). cbn [snd].
  eexists _, cs. split; [done|]. split; [done|]. split; [done|].
  split; [cbn [y_machine with_y_fs]; by rewrite Hcon, app_assoc|].
  split; [by split; [|split]|]. split; [done|]. split; [|by split].
  cbn [y_vfs with_y_fs y1 out with_y_machine] in *. split; [congruence|]. intros j Hj. destruct (Z.eq_dec j fd) as [->|Hne'].
  - by rewrite Hu3, Hfree.
  - by rewrite Hoth3, Hoth2, Hoth.
Qed.
End cat.

(** [write] to an existing file. *)
Section write.
Context (newline : Z) (Hnl : newline + 1 <= HEAP_START \/ HEAP_END <= newline).

Lemma take_token_ok n m p l :
  cstr m p l -> let '(a, _) := split_word l in
  (length a <= n)%nat -> take_token n m p = (a, p + Z.of_nat (length a)).
Proof.
  revert p l. induction n as [|n IH]; intros p l Hs.
  { destruct (split_word l) as [[|] b]; cbn [length take_token]; intros; [by rewrite Z.add_0_r|lia]. }
  destruct l as [|c l]; cbn [split_word take_token cstr] in *; [by rewrite Hs, Z.add_0_r|].
  destruct Hs as (-> & Hc & Hl). destruct (Z.eqb_spec c 0); [done|]. cbn [orb].
  destruct (Z.eqb_spec c 32) as [->|]; [by rewrite Z.add_0_r|].
  specialize (IH (p + 1) l Hl). destruct (split_word l) as [a b]. cbn [length]. intros Hn.
  rewrite IH by lia. f_equal. lia.
Qed.

Lemma cstr_bytes m p l : cstr m p l -> bytes_at m p (length l) = l.
Proof.
  revert p. induction l as [|c l IH]; intros p; cbn [cstr bytes_at length]; [done|]. intros (-> & _ & Hl). by rewrite IH.
Qed.

Lemma open_trunc_ok y lv path a :
  fs_state y lv -> openable y path a ->
  let fd := alloc_fd (y_vfs y) in
  exists v1 fs1, vfs_open (y_machine y) (y_vfs y) (y_fs y) path (Z.lor (Z.lor VFS_O_WRONLY VFS_O_CREAT) VFS_O_TRUNC) =
      Some (fd, y_machine y, v1, (y_heap y, fs1)) /\
    fs_inv fs1 lv /\ vfs_inv v1 (y_heap y, fs1) /\ open_at v1 fd a 0 /\ content (y_ram y) fs1 a = [] /\
    n_fs_data (node_at fs1 a) = n_fs_data (node_at (y_ramfs y) a) /\ files fs1 = files (y_ramfs y) /\
    same_tree (y_ramfs y) fs1 /\ (forall b, regular (y_ramfs y) b -> regular fs1 b) /\
    (forall b, b <> a -> content (y_ram y) fs1 b = file_content y b) /\ root_node v1 = root_node (y_vfs y) /\
    fd_used (get_fd (y_vfs y) fd) = false /\ (forall j, 0 <= j -> j <> fd -> get_fd v1 j = get_fd (y_vfs y) j).
Proof.
  intros (Hown & Hinv & Hi) (Hres & Ha & Hreg & Hfd). cbv zeta. set (flags := Z.lor _ VFS_O_TRUNC).
  destruct (vfs_open_existing (y_machine y) (y_vfs y) (y_heap y) (y_ramfs y) path flags a) as
    (v1 & Eo & Hi1 & Hop & Hroot & Hfree & Hoth); [done..|].
  change (has_flag flags VFS_O_TRUNC) with true in Eo. cbn iota in Eo.
  destruct (truncate_ok (y_ram y) (y_ramfs y) a lv Hinv Hreg) as (Hinv1 & Hc1 & Ht1 & Hr1 & Hoc1 & Hn1).
  eexists v1, _. split; [exact Eo|]. split; [done|].
  split; [exact (vfs_inv_mono v1 (y_heap y, y_ramfs y) (y_heap y, _) Hn1 Hi1)|].
  split_and!; try done. by rewrite node_at_set, Z.eqb_refl.
Qed.

(** The text and the newline appended to an empty file, and the descriptor closed. *)
Lemma write_text_ok w v (h : heap) fs lv fd a text len :
  owns (ram w) h lv -> fs_inv fs lv -> vfs_inv v (h, fs) -> regular fs a -> open_at v fd a 0 ->
  content (ram w) fs a = [] -> 0 <= len <= CMD_MAX -> (text + len <= HEAP_START \/ HEAP_END <= text) ->
  load8 (ram w) newline = 10 ->
  exists rc w2 v2 h2 fs2 rc' w3 v3 h3 fs3 lv3 v4 d1 d2, vfs_write w v (h, fs) fd text len = Some (rc, w2, v2, (h2, fs2)) /\
    vfs_write w2 v2 (h2, fs2) fd newline 1 = Some (rc', w3, v3, (h3, fs3)) /\ vfs_close v3 fd = (0, v4) /\
    content (ram w3) fs3 a = d1 ++ d2 /\
    (d1 = bytes_at (ram w) text (Z.to_nat len) \/ d1 = [] /\ no_room w h (file_at fs (n_fs_data (node_at fs a))) len) /\
    (d2 = [10] \/ d2 = [] /\ no_room w2 h2 (file_at fs2 (n_fs_data (node_at fs2 a))) (Z.of_nat (length d1) + 1)) /\
    owns (ram w3) h3 lv3 /\ fs_inv fs3 lv3 /\ vfs_inv v4 (h3, fs3) /\ root_node v4 = root_node v /\
    fd_used (get_fd v4 fd) = false /\ (forall j, 0 <= j -> j <> fd -> get_fd v4 j = get_fd v j) /\
    (forall b, b <> a -> regular fs b -> content (ram w3) fs3 b = content (ram w) fs b) /\
    (forall b, regular fs b -> regular fs3 b) /\ same_outside HEAP_START HEAP_END (ram w) (ram w3) /\
    con w3 = con w /\ same_tree fs fs3 /\ fs_frame fs fs3 lv lv3 (ram w) (ram w3).
Proof.
  intros Hown Hinv Hi Hreg Hop Hc Hlen Hbuf H10. unfold CMD_MAX in Hlen.
  pose proof (vfs_append w v h fs lv fd a text len) as A1. cbv zeta in A1. rewrite Hc in A1.
  destruct A1 as (rc & w2 & v2 & h2 & fs2 & lv2 & d1 & E1 & Ec1 & Hd1 & Hown2 & Hinv2 & Hi2 & Hop2 & Hr2 & Hoth2 &
    Hoc2 & Hrg2 & Hout2 & Hcon2 & Ht2 & Hfr2); [done..|lia|cbn; lia|done|]. cbn [app length Z.of_nat Z.add] in *.
  assert (Hd1l : Z.of_nat (length d1) <= 256) by (destruct Hd1 as [->|[-> _]]; rewrite ?length_bytes_at; cbn; lia).
  pose proof (vfs_append w2 v2 h2 fs2 lv2 fd a newline 1) as A2. cbv zeta in A2. rewrite Ec1 in A2.
  destruct A2 as (rc' & w3 & v3 & h3 & fs3 & lv3 & d2 & E2 & Ec2 & Hd2 & Hown3 & Hinv3 & Hi3 & Hop3 & Hr3 & Hoth3 &
    Hoc3 & Hrg3 & Hout3 & Hcon3 & Ht3 & Hfr3); [by auto..|lia|lia|done|].
  destruct (vfs_close_ok v3 (h3, fs3) fd a _ Hi3 Hop3) as (v4 & E4 & Hi4 & Hu4 & Hr4 & Hoth4).
  exists rc, w2, v2, h2, fs2, rc', w3, v3, h3, fs3, lv3, v4, d1, d2. split; [exact E1|]. split; [exact E2|]. split; [exact E4|].
  split; [done|]. split; [done|]. split; [|split_and!; try done || congruence].
  - destruct Hd2 as [->|[-> Hno]]; [left|by right]. change (Z.to_nat 1) with 1%nat. cbn [bytes_at].
    by rewrite Hout2, H10 by lia.
  - intros j Hj Hne. by rewrite Hoth4, Hoth3, Hoth2.
  - intros b Hb Hrb. rewrite Hoc3; [by apply Hoc2|done|by apply Hrg2].
  - auto.
  - by eapply same_outside_trans.
  - by eapply fs_frame_trans.
Qed.

(** [w2], [h2] and [fs2] are what [write] has left after it opened the file and wrote
    the text, which is in memory as part of the line. *)
Definition text_written (y : sys) (path text : list Z) (w2 : machine) (h2 : heap) (fs2 : ramfs) : Prop :=
  exists p fd w1 v1 s1 rc v2, cstr (y_ram y) p text /\
    vfs_open (y_machine y) (y_vfs y) (y_fs y) path (Z.lor (Z.lor VFS_O_WRONLY VFS_O_CREAT) VFS_O_TRUNC) = Some (fd, w1, v1, s1) /\
    vfs_write w1 v1 s1 fd p (Z.of_nat (length text)) = Some (rc, w2, v2, (h2, fs2)).

Lemma cmd_write_ok y lv args l path rest a :
  let text := drop_spaces rest in
  let f := file_at (y_ramfs y) (n_fs_data (node_at (y_ramfs y) a)) in
  fs_state y lv -> cstr (y_ram y) args l -> Z.of_nat (length l) < CMD_MAX ->
  (args + CMD_MAX <= HEAP_START \/ HEAP_END <= args) -> load8 (y_ram y) newline = 10 ->
  split_word (drop_spaces l) = (path, rest) -> path <> [] -> (length path <= 127)%nat -> text <> [] ->
  openable y path a ->
  exists y' lv' d1 d2 w2 h2 fs2, cmd_write newline y args = Some y' /\ text_written y path text w2 h2 fs2 /\
    file_content y' a = d1 ++ d2 /\
    (d1 = text \/ d1 = [] /\ no_room (y_machine y) (y_heap y) f (Z.of_nat (length text))) /\
    (d2 = [10] \/ d2 = [] /\ no_room w2 h2 (file_at fs2 (n_fs_data (node_at fs2 a))) (Z.of_nat (length d1) + 1)) /\
    fs_state y' lv' /\ same_tree (y_ramfs y) (y_ramfs y') /\ same_fds (y_vfs y) (y_vfs y') /\
    (forall b, b <> a -> regular (y_ramfs y) b -> file_content y' b = file_content y b) /\
    (forall b, regular (y_ramfs y) b -> regular (y_ramfs y') b) /\
    same_outside HEAP_START HEAP_END (y_ram y) (y_ram y') /\ con (y_machine y') = con (y_machine y).
Proof.
  intros text f Hst Hs Hl Hargs H10 Hsp Hpath Hplen Htext (Hres & Ha & Hreg & Hfd). pose proof Hst as (Hown & Hinv & Hi).
  destruct (skip_spaces_ok _ _ _ Hs Hl) as (p & Ep & Hp & Hpa & Hlp). pose proof (drop_spaces_length l) as Hdl.
  pose proof (take_token_ok 127 _ _ _ Hp) as Htok. pose proof (word_end_ok (Z.to_nat CMD_MAX) _ _ _ Hp ltac:(lia)) as Hw.
  pose proof (f_equal length (split_word_app (drop_spaces l))) as Happ. rewrite length_app in Happ.
  rewrite Hsp in Htok, Hw, Happ. destruct Hw as (_ & _ & Hrest). cbn [fst snd] in Happ.
  destruct (skip_spaces_ok _ _ _ Hrest ltac:(lia)) as (q & Eq & Hq & Hqa & Hlq). pose proof (drop_spaces_length rest) as Hdr.
  fold text in Hq, Hlq, Hdr. unfold cmd_write. rewrite Ep. cbn [mbind option_bind].
  rewrite (cstr_head_zero _ _ _ Hp), (Htok Hplen). cbv zeta. rewrite Eq. cbn [mbind option_bind].
  rewrite (cstr_head_zero _ _ _ Hq). destruct (drop_spaces l) as [|c0 l0]; [by injection Hsp as <- _|].
  destruct text as [|c1 text'] eqn:Et; [done|]. rewrite <- Et in *. clear Hpath Htext.
  destruct (open_trunc_ok y lv path a Hst ltac:(done)) as
    (v1 & fs1 & Eo & Hinv1 & Hi1 & Hop & Hc1 & Hd1 & Hf1 & Ht1 & Hr1 & Hoc1 & Hroot & Hfree & Hoth).
  set (fd := alloc_fd (y_vfs y)) in *. rewrite Eo. cbn [mbind option_bind]. destruct (Z.ltb_spec fd 0); [lia|].
  unfold strlen. rewrite (strlen_loop_ok _ q text) by (rewrite ?Z.add_0_r; done || unfold CMD_MAX in *; lia).
  cbn [mbind option_bind].
  destruct (write_text_ok (y_machine y) v1 (y_heap y) fs1 lv fd a q (0 + Z.of_nat (length text))) as
    (rc & w2 & v2 & h2 & fs2 & rc' & w3 & v3 & h3 & fs3 & lv3 & v4 & d1 & d2 & E2 & E3 & E4 & Ec & Hd & Hd' & Hown3 & Hinv3 &
     Hi4 & Hr4 & Hu4 & Hoth4 & Hoc3 & Hr3 & Hout3 & Hcon3 & Ht3 & Hfr3); [by auto..|lia|lia|done|].
  rewrite E2. cbn [mbind option_bind]. rewrite E3. cbn [mbind option_bind]. rewrite E4. cbn [snd].
  eexists _, lv3, d1, d2, w2, h2, fs2. split; [done|]. split.
  { exists q, fd. eexists _, _, _, rc, v2. split; [exact Hq|]. split; [exact Eo|]. exact E2. }
  split; [done|]. split.
  { unfold y_ram in Hq. rewrite Z.add_0_l, Nat2Z.id, (cstr_bytes _ _ _ Hq) in Hd. unfold f. unfold file_at in Hd |- *. by rewrite Hd1, Hf1 in Hd. }
  split; [done|]. split; [by split; [|split]|]. split; [cbn; by etransitivity|]. split; [|split_and!; try done].
  - split; [cbn; congruence|]. intros j Hj. cbn. destruct (Z.eq_dec j fd) as [->|Hne']; [by rewrite Hu4, Hfree|].
    by rewrite Hoth4, Hoth.
  - intros b Hb Hrb. rewrite <- Hoc1 by done. apply Hoc3; auto.
  - intros b Hrb. apply Hr3, Hr1, Hrb.
Qed.
End write.

Lemma cstr_no_nul m p l : cstr m p l -> Forall (fun c => c <> 0) l.
Proof. intros H. apply List.Forall_forall. intros c Hc. pose proof (cstr_nonzero m p l c H Hc). lia. Qed.

Lemma drop_spaces_suffix l : exists k, l = replicate k 32 ++ drop_spaces l.
Proof.
  induction l as [|c l [k IH]]; [by exists 0%nat|]. cbn [drop_spaces]. destruct (Z.eqb_spec c 32) as [->|].
  - exists (S k). cbn [replicate app]. by rewrite <- IH.
  - by exists 0%nat.
Qed.

(** A free descriptor stays free. *)
Lemma same_fds_alloc v v' : same_fds v v' -> 0 <= alloc_fd v -> 0 <= alloc_fd v'.
Proof.
  intros [_ Hs] Hv. destruct (alloc_fd_ok v) as [[E _]|(Hr & Hfree & _)]; [lia|].
  destruct (alloc_fd_ok v') as [[_ Hall]|(Hr' & _)]; [|lia].
  destruct (Hs (alloc_fd v)) as [E _]; [lia|]. rewrite Hall in E by done. congruence.
Qed.

Section files.
Context (cat_buf newline : Z).
Context (Hcat : cat_buf + 128 <= HEAP_START \/ HEAP_END <= cat_buf).
Context (Hnl : newline + 1 <= HEAP_START \/ HEAP_END <= newline).

(** [cat] of a regular file ends, and prints exactly its bytes, in order, in
    pieces of at most 127 that each stop at a NUL byte.  It changes no file, leaves
    the open descriptors as they were and writes to its buffer only. *)
Theorem cmd_cat_correct y lv args l a
  (Hst : fs_state y lv) (Hargs : cstr (y_ram y) args l) (Hlen : Z.of_nat (length l) < CMD_MAX)
  (Hpath : drop_spaces l <> []) (Hopen : openable y (drop_spaces l) a) :
  exists y' cs, cmd_cat cat_buf y args = Some y' /\ concat cs = file_content y a /\
    Forall (fun c => 0 < length c <= 127)%nat cs /\
    con (y_machine y') = con (y_machine y) ++ [VgaSetColor VGA_COLOR_LIGHT_GREY VGA_COLOR_BLACK] ++ map (fun c => puts (until_nul c)) cs /\
    fs_state y' lv /\ y_fs y' = y_fs y /\ same_fds (y_vfs y) (y_vfs y') /\
    (forall b, regular (y_ramfs y) b -> file_content y' b = file_content y b) /\
    same_outside cat_buf (cat_buf + 128) (y_ram y) (y_ram y').
Proof. by eapply cmd_cat_ok. Qed.

(** C17: what [write] puts into an existing file is what [cat] then prints: the text
    of the line followed by a newline, in place of the old contents, and nothing of
    any other file changes.  [write] prints nothing, also when the allocator fails.
    The text is missing from the file only if the file's buffer is too small for it
    and the allocator has no larger one in the state in which [write] starts; the
    newline only if that is so for one byte more in the very state that writing the
    text has left. *)
Theorem shell_write_cat_roundtrip y lv args l path rest a
  (text := drop_spaces rest) (f := file_at (y_ramfs y) (n_fs_data (node_at (y_ramfs y) a)))
  (Hst : fs_state y lv) (Hargs : cstr (y_ram y) args l) (Hlen : Z.of_nat (length l) < CMD_MAX)
  (Hoff : args + CMD_MAX <= HEAP_START \/ HEAP_END <= args) (H10 : load8 (y_ram y) newline = 10)
  (Hsp : split_word (drop_spaces l) = (path, rest)) (Hpath : path <> []) (Hplen : (length path <= 127)%nat)
  (Htext : text <> []) (Hopen : openable y path a) :
  exists y' d1 d2 w2 h2 fs2, cmd_write newline y args = Some y' /\ text_written y path text w2 h2 fs2 /\ con (y_machine y') = con (y_machine y) /\
    (d1 = text \/ d1 = [] /\ no_room (y_machine y) (y_heap y) f (Z.of_nat (length text))) /\
    (d2 = [10] \/ d2 = [] /\ no_room w2 h2 (file_at fs2 (n_fs_data (node_at fs2 a))) (Z.of_nat (length d1) + 1)) /\
    (forall b, b <> a -> regular (y_ramfs y) b -> file_content y' b = file_content y b) /\
    forall args' l', cstr (y_ram y') args' l' -> Z.of_nat (length l') < CMD_MAX -> drop_spaces l' = path ->
      exists y'' cs, cmd_cat cat_buf y' args' = Some y'' /\ concat cs = d1 ++ d2 /\
        con (y_machine y'') = con (y_machine y) ++ [VgaSetColor VGA_COLOR_LIGHT_GREY VGA_COLOR_BLACK] ++ map puts cs.
Proof.
  destruct (cmd_write_ok newline Hnl y lv args l path rest a) as
    (y' & lv' & d1 & d2 & w2 & h2 & fs2 & E & Ew & Ec & Hd1 & Hd2 & Hst' & Ht & Hfds & Hoc & Hr & _ & Hcon); try done.
  exists y', d1, d2, w2, h2, fs2. do 6 (split; [done|]).
  intros args' l' Hs' Hl' Hp'. destruct Hopen as (Hres & Ha & Hreg & Hfd).
  destruct (cmd_cat_ok cat_buf Hcat y' lv' args' l' a) as (y'' & cs & E' & Ecs & _ & Hcon' & _); try done.
  { by rewrite Hp'. }
  { rewrite Hp'. split; [|split; [done|split; [by apply Hr|by eapply same_fds_alloc]]].
    rewrite <- Hres. apply vfs_resolve_tree; [done|apply Hfds]. }
  exists y'', cs. rewrite Ec in Ecs. split; [done|]. split; [done|]. rewrite Hcon', Hcon. do 2 f_equal.
  apply map_ext_Forall. eapply Forall_impl; [intros c; exact (fun H => f_equal puts (until_nul_id c H))|].
  apply Forall_concat. rewrite Ecs. apply Forall_app. split.
  - destruct Hd1 as [->|[-> _]]; [|done]. pose proof (cstr_no_nul _ _ _ Hargs) as Hnz.
    destruct (drop_spaces_suffix l) as [k El]. rewrite El, <- (split_word_app (drop_spaces l)), Hsp in Hnz. cbn [fst snd] in Hnz.
    destruct (drop_spaces_suffix rest) as [k' Er]. fold text in Er. rewrite Er in Hnz.
    by apply Forall_app in Hnz as [_ [_ [_ Hnz]%Forall_app]%Forall_app].
  - destruct Hd2 as [->|[-> _]]; [by repeat constructor|done].
Qed.
End files.

(** ** Witnesses *)

Lemma cstr_store_bytes m p l :
  Forall (fun c => 0 < c < 256) l -> cstr (store_bytes m p (l ++ [0])) p l.
Proof.
  intros Hf. revert m p. induction Hf as [|c l Hc Hf IH]; intros m p; cbn [app store_bytes cstr].
  - by rewrite load8_store8_eq.
  - split; [|split; [lia|apply IH]]. rewrite store_bytes_load.
    + zcases; try lia. cbn [andb]. rewrite load8_store8_eq. apply u8_small. lia.
    + apply Forall_app. split; [|by repeat constructor]. eapply Forall_impl; [|exact Hf]. cbn. lia.
Qed.

(** A state with the demonstration filesystem, a line and a newline in memory. *)
Definition demo_sys (w : machine) (h : heap) (text : list Z) : sys :=
  Sys (set_ram w (store_bytes (store8 (ram w) 0x6000 10) 0x5000 (text ++ [0]))) 7 demo_sched3 demo_pmm h
    (Vmm 0 0 0 0 0 0 false ∅) demo_vfs demo_store demo_net demo_e1000 (Io [] []) false.

Lemma demo_sys_ok w h text :
  owns (ram w) h (live demo_blocks) -> Forall (fun c => 0 < c < 256) text -> (length text < 256)%nat ->
  let y := demo_sys w h text in
  fs_state y (live demo_blocks) /\ cstr (y_ram y) 0x5000 text /\ load8 (y_ram y) 0x6000 = 10.
Proof.
  intros Ho Hf Hl y. assert (Hb : Forall (fun b => 0 <= b < 256) (text ++ [0])).
  { apply Forall_app. split; [|by repeat constructor]. eapply Forall_impl; [|exact Hf]. cbn. lia. }
  split; [|split; [by apply cstr_store_bytes|]].
  - split; [|split; [exact demo_fs_inv|apply demo_vfs_inv]].
    apply (owns_outside (ram w)); [done|]. intros x Hx. unfold y_ram. cbn [y_machine y demo_sys ram set_ram].
    rewrite store_bytes_load, length_app by done. cbn [length]. unfold HEAP_START in Hx. zcases; try lia; apply load8_store8_ne; lia.
  - unfold y_ram. cbn [y_machine y demo_sys ram set_ram]. rewrite store_bytes_load, length_app by done.
    cbn [length]. zcases; try lia. apply load8_store8_eq.
Qed.

Lemma demo_openable w h text : openable (demo_sys w h text) (bytes_of "/a") demo_file.
Proof. split; [reflexivity|]. split; [discriminate|]. split; [exact demo_regular|]. vm_compute. discriminate. Qed.

Lemma cmd_cat_correct_witness :
  exists w h y', demo_fs_heap = Some (w, h) /\ cmd_cat 0x7000 (demo_sys w h (bytes_of " /a")) 0x5000 = Some y' /\
    con (y_machine y') = con w ++ [VgaSetColor VGA_COLOR_LIGHT_GREY VGA_COLOR_BLACK].
Proof.
  destruct demo_fs_owns as (w & h & E & Ho).
  destruct (demo_sys_ok w h (bytes_of " /a") Ho) as (Hst & Hs & _); [repeat constructor; lia|cbn; lia|].
  destruct (cmd_cat_correct 0x7000 ltac:(left; vm_compute; discriminate) (demo_sys w h (bytes_of " /a")) _ 0x5000 _ demo_file
    Hst Hs) as (y' & cs & R & Hcs & Hne & Hcon & _).
  - reflexivity.
  - discriminate.
  - apply demo_openable.
  - exists w, h, y'. split; [exact E|]. split; [exact R|]. rewrite Hcon.
    destruct Hne as [|c cs [Hc _] _]; [reflexivity|]. exfalso.
    change (file_content _ demo_file) with (@nil Z) in Hcs. by destruct c; [apply Nat.lt_irrefl in Hc|].
Defined.

Lemma shell_write_cat_roundtrip_witness :
  exists w h y', demo_fs_heap = Some (w, h) /\ cmd_write 0x6000 (demo_sys w h (bytes_of "/a hi")) 0x5000 = Some y' /\
    con (y_machine y') = con w.
Proof.
  destruct demo_fs_owns as (w & h & E & Ho).
  destruct (demo_sys_ok w h (bytes_of "/a hi") Ho) as (Hst & Hs & H10); [repeat constructor; lia|cbn; lia|].
  destruct (shell_write_cat_roundtrip 0x7000 0x6000 ltac:(left; vm_compute; discriminate)
    ltac:(left; vm_compute; discriminate) (demo_sys w h (bytes_of "/a hi")) _ 0x5000 _ (bytes_of "/a") (bytes_of " hi")
    demo_file Hst Hs) as (y' & d1 & d2 & w2 & h2 & fs2 & R & _ & Hcon & _).
  - reflexivity.
  - left. vm_compute. discriminate.
  - exact H10.
  - reflexivity.
  - discriminate.
  - cbn. lia.
  - discriminate.
  - apply demo_openable.
  - exists w, h, y'. exact (conj E (conj R Hcon)).
Defined.

Lemma shell_execute_correct_witness :
  exists y y', y_ram y = y_ram (demo_sys (Machine ∅ []) (Heap 0 0 0) (bytes_of " echo  hi")) /\
    shell_execute 0x5000 0x7000 0x6000 0 1 y = Some y' /\ con (y_machine y') = [VgaSetColor VGA_COLOR_LIGHT_GREY VGA_COLOR_BLACK; VgaPuts "hi"; VgaPutchar 10].
Proof.
  set (y := demo_sys (Machine ∅ []) (Heap 0 0 0) (bytes_of " echo  hi")).
  assert (Hs : cstr (y_ram y) 0x5000 (bytes_of " echo  hi")) by (apply cstr_store_bytes; repeat constructor; lia).
  destruct (shell_execute_correct 0x5000 0x7000 0x6000 0 1 y _ Hs ltac:(reflexivity)) as [_ Hex].
  destruct Hex as (args & Ha & Hcmd & _); [discriminate|].
  exists y, (out y [VgaSetColor VGA_COLOR_LIGHT_GREY VGA_COLOR_BLACK; puts (bytes_of "hi"); VgaPutchar 10]). split; [reflexivity|]. split; [|reflexivity].
  rewrite (Hcmd 13%nat "echo"%string cmd_echo eq_refl eq_refl). unfold cmd_echo.
  by rewrite (line_str_ok _ _ _ Ha).
Defined.
