(* ===== verification/Kernel.v ===== *)
(** * [kernel/kernel.c]: start-up

    [kernel_main] brings the components up in order, tests the two allocators and
    enters the shell.  [boot] is the whole state: the parts the shell reaches
    ([Shell.sys]), the descriptor tables, the keyboard and the PCI ports.  The
    console calls of the machine are those that follow [vga_init]
    ([boot_screen] replays them).

    [kernel_main] is cut at its blank-line headings into [boot_memory],
    [pmm_test], [heap_test], [boot_interrupts], [boot_devices] and [boot_tasks].
    [None] is a call that does not return; [y_halted] is the [halt] label.
    Addresses of static and local arrays, of task entry points and of interrupt
    stubs are parameters, as are the interrupts seen by the two sleeps and what
    interrupts and the other tasks do from the first [task_create] on
    ([meanwhile]). *)
From stdpp Require Import base numbers list gmap strings.
From Stdlib Require Import ZArith Lia Ascii.
From S2P Require Import Prelude.
From S2P Require Import Machine.
From S2P Require Import Io.
From S2P Require Import Vga.
From S2P Require Import Pic.
From S2P Require Import Serial.
From S2P Require Import Keyboard.
From S2P Require Import Net.
From S2P Require Import Pci.
From S2P Require Import Multiboot.
From S2P Require Import Alloc.
From S2P Require Import Pmm.
From S2P Require Import Heap.
From S2P Require Import Vmm.
From S2P Require Import E1000.
From S2P Require Import NetStack.
From S2P Require Import Gdt.
From S2P Require Import Task.
From S2P Require Import Timer.
From S2P Require Import Idt.
From S2P Require Import Syscall.
From S2P Require Import Ramfs.
From S2P Require Import Vfs.
From S2P Require Import Shell.

(** ** Sizes *)

(** The characters of [format_memory_size], before they are stored as [char]s. *)
Definition size_chars (bytes : Z) : list Z :=
  if bytes >=? 1024 * 1024 * 1024 then
    let gb := bytes / (1024 * 1024 * 1024) in
    [48 + gb / 10; 48 + gb mod 10] ++ bytes_of " GB" ++ [0]
  else if bytes >=? 1024 * 1024 then
    let mb := bytes / (1024 * 1024) in
    if mb >=? 1000 then
      [48 + mb / 1000; 48 + (mb / 100) mod 10; 48 + (mb / 10) mod 10; 48 + mb mod 10] ++ bytes_of " MB" ++ [0]
    else if mb >=? 100 then [48 + mb / 100; 48 + (mb / 10) mod 10; 48 + mb mod 10] ++ bytes_of " MB" ++ [0]
    else [48 + mb / 10; 48 + mb mod 10] ++ bytes_of " MB" ++ [0]
  else
    let kb := bytes / 1024 in
    [48 + kb / 1000; 48 + (kb / 100) mod 10; 48 + (kb / 10) mod 10; 48 + kb mod 10] ++ bytes_of " KB" ++ [0].

Definition format_memory_size (m : memory) (bytes buffer : Z) : memory := store_bytes m buffer (size_chars bytes).

(** [format_memory_size(bytes, buffer); vga_puts(buffer);], the buffer having 16 bytes. *)
Definition put_size (w : machine) (buffer bytes : Z) : machine :=
  let m := format_memory_size (ram w) bytes buffer in
  emit (set_ram w m) [puts (str_at 16 m buffer)].

(** ** The allocator tests *)

Definition say (w : machine) (s : string) : machine := emit w [VgaPuts s].
Definition say_if (b : bool) (w : machine) (s : string) : machine := if b then say w s else w.

(** The addresses of the three frames, and the state after them. *)
Definition pmm_test (w : machine) (p : pmm) : list Z * machine * pmm :=
  let w0 := emit w [VgaSetColor VGA_COLOR_LIGHT_CYAN VGA_COLOR_BLACK; VgaPuts (line "Testing PMM..."); VgaSetColor VGA_COLOR_LIGHT_GREY VGA_COLOR_BLACK] in
  let '(frame1, m1, p1) := pmm_alloc_frame (ram w0) p in
  let w1 := say_if (negb (frame1 =? 0)) (set_ram w0 m1) (line "  [OK] Allocated frame 1") in
  let '(frame2, m2, p2) := pmm_alloc_frame (ram w1) p1 in
  let w2 := say_if (negb (frame2 =? 0)) (set_ram w1 m2) (line "  [OK] Allocated frame 2") in
  let '(m3, p3) := pmm_free_frame (ram w2) p2 frame1 in
  let w3 := say (set_ram w2 m3) (line "  [OK] Freed frame 1") in
  let '(frame3, m4, p4) := pmm_alloc_frame (ram w3) p3 in
  let w4 := say_if (negb (frame3 =? 0)) (set_ram w3 m4) (line "  [OK] Re-allocated frame (should reuse frame 1)") in
  let '(m5, p5) := pmm_free_frame (ram w4) p4 frame2 in
  let '(m6, p6) := pmm_free_frame m5 p5 frame3 in
  ([frame1; frame2; frame3], say (set_ram w4 m6) nl, p6).

(** [for (i = 0; i < 4; i++) if (numbers[i] != 0) { all_zero = false; break; }] *)
Fixpoint all_zero (n : nat) (m : memory) (numbers : Z) : bool :=
  match n with
  | O => true
  | S n' => if negb (load32 m numbers =? 0) then false else all_zero n' m (numbers + 4)
  end.

Section heap_test.
Context (buffer : Z).

(** Test 1 with its pointer. *)
Definition heap_test_string (w : machine) (str1 : Z) : machine :=
  if str1 =? 0 then w
  else
    let w1 := say w (line "  [OK] Allocated 64 bytes") in
    let m := store8 (store_bytes (ram w1) str1 (bytes_of "Hello from heap!")) (str1 + 16) 0 in
    emit (set_ram w1 m) [VgaPuts "  [OK] Wrote to allocated memory: "; puts (str_at 64 m str1); VgaPuts nl].

Definition heap_test (w : machine) (h : heap) : option (machine * heap) :=
  let w0 := emit w [VgaSetColor VGA_COLOR_LIGHT_CYAN VGA_COLOR_BLACK; VgaPuts (line "Testing Heap Allocator..."); VgaSetColor VGA_COLOR_LIGHT_GREY VGA_COLOR_BLACK;
                    VgaPuts (line "  Test 1: Basic allocation...")] in
  '(str1, w1, h1) ← kmalloc w0 h 64;
  let w2 := say (heap_test_string w1 str1) (line "  Test 2: Multiple allocations...") in
  '(ptr1, w3, h3) ← kmalloc w2 h1 128;
  '(ptr2, w4, h4) ← kmalloc w3 h3 256;
  '(ptr3, w5, h5) ← kmalloc w4 h4 512;
  let w6 := say_if (negb (ptr1 =? 0) && negb (ptr2 =? 0) && negb (ptr3 =? 0)) w5
              (line "  [OK] Multiple allocations (128, 256, 512 bytes)") in
  '(numbers, w7, h7) ← kzalloc (say w6 (line "  Test 3: kzalloc...")) h5 16;
  let w8 := say_if (negb (numbers =? 0) && all_zero 4 (ram w7) numbers) w7
              (line "  [OK] kzalloc properly zeroed memory") in
  '(w9, h9) ← kfree (say w8 (line "  Test 4: Free and reallocation...")) h7 ptr2;
  '(ptr4, w10, h10) ← kmalloc (say w9 (line "  [OK] Freed middle allocation")) h9 128;
  let w11 := say_if (negb (ptr4 =? 0)) w10 (line "  [OK] Re-allocated freed memory") in
  let '(total, used, free) := heap_get_stats h10 in
  let w12 := emit w11 [VgaPuts (line "  Test 5: Heap statistics..."); VgaPuts "  Heap Stats: "] in
  let w13 := put_size (say (put_size w12 buffer used) " used / ") buffer total in
  let w14 := emit w13 [VgaPuts (" total" ++ nl ++ nl)%string; VgaPuts (line "  Cleaning up test allocations...")] in
  '(w15, h15) ← kfree w14 h10 str1;
  '(w16, h16) ← kfree w15 h15 ptr1;
  '(w17, h17) ← kfree w16 h16 ptr3;
  '(w18, h18) ← kfree w17 h17 ptr4;
  '(w19, h19) ← kfree w18 h18 numbers;
  Some (say w19 (line "  [OK] All tests completed!" ++ nl), h19).
End heap_test.

(** ** Start-up *)

(** [while (t > 0) { tmp[len++] = '0' + (t % 10); t /= 10; }], copied in reverse. *)
Definition tick_chars (t : Z) : list Z := if t =? 0 then [48] else rev (digits_rev 20 t).

(** The state, over the PCI ports [P]. *)
Record boot (P : Type) := Boot {
  b_sys : sys;
  b_gdt : gdt_state;
  b_idt : idt_state;
  b_kbd : kbd;
  b_pci : P;
}.
Arguments Boot {P} _ _ _ _ _.
Arguments b_sys {P} _.
Arguments b_gdt {P} _.
Arguments b_idt {P} _.
Arguments b_kbd {P} _.
Arguments b_pci {P} _.

Definition b_machine {P : Type} (b : boot P) : machine := y_machine (b_sys b).
Definition with_sys {P : Type} (b : boot P) (y : sys) : boot P := Boot y (b_gdt b) (b_idt b) (b_kbd b) (b_pci b).
Definition b_emit {P : Type} (b : boot P) (cs : list out_call) : boot P := with_sys b (out (b_sys b) cs).
(** [halt: cli; while (1) hlt;] *)
Definition b_halt {P : Type} (b : boot P) : boot P := with_sys b (halt (b_sys b) (y_io (b_sys b))).

(** The screen, which [vga_init] prepares. *)
Definition boot_screen {P : Type} (v : vga) (b : boot P) : vga := console_run (vga_init v) (con (b_machine b)).

(** Memory and the frame allocator, and the other parts. *)
Definition with_memory (y : sys) (w : machine) (p : pmm) (h : heap) : sys :=
  {| y_machine := w; y_ticks := y_ticks y; y_sched := y_sched y; y_pmm := p; y_heap := h; y_vmm := y_vmm y;
     y_vfs := y_vfs y; y_ramfs := y_ramfs y; y_net := y_net y; y_e1000 := y_e1000 y; y_io := y_io y;
     y_halted := y_halted y |}.
Definition with_timer (y : sys) (w : machine) (t : timer) : sys :=
  {| y_machine := w; y_ticks := timer_ticks t; y_sched := timer_sched t; y_pmm := y_pmm y; y_heap := y_heap y;
     y_vmm := y_vmm y; y_vfs := y_vfs y; y_ramfs := y_ramfs y; y_net := y_net y; y_e1000 := y_e1000 y;
     y_io := timer_io t; y_halted := y_halted y |}.
Definition with_paging (y : sys) (w : machine) (p : pmm) (v : vmm) : sys :=
  {| y_machine := w; y_ticks := y_ticks y; y_sched := y_sched y; y_pmm := p; y_heap := y_heap y; y_vmm := v;
     y_vfs := y_vfs y; y_ramfs := y_ramfs y; y_net := y_net y; y_e1000 := y_e1000 y; y_io := y_io y;
     y_halted := y_halted y |}.
Definition with_net (y : sys) (w : machine) (n : net) : sys :=
  {| y_machine := w; y_ticks := y_ticks y; y_sched := y_sched y; y_pmm := y_pmm y; y_heap := y_heap y;
     y_vmm := y_vmm y; y_vfs := y_vfs y; y_ramfs := y_ramfs y; y_net := n; y_e1000 := y_e1000 y; y_io := y_io y;
     y_halted := y_halted y |}.
Definition y_timer (y : sys) : timer := Timer (y_ticks y) (y_io y) (y_sched y).

(** A background round of [net_task]: [net_poll] over the driver ([NetStack]); the
    [task_yield] after it is [Task]'s yield interrupt.  [card] is what the card does
    to memory while the driver waits for a transmission. *)
Definition net_task_round (rx_descs tx_descs rx_buffers buf reply arp_reply : Z) (card : list (memory -> memory))
  (y : sys) : option sys :=
  '(w, e, n) ← net_round rx_descs tx_descs rx_buffers buf reply arp_reply card (y_machine y) (y_e1000 y) (y_net y);
  Some (with_y_e1000 (with_net y w n) e).

(** [demo_task_a] and [demo_task_b]: [wakes] are the interrupts seen by each of the
    sleeps. *)
Fixpoint demo_task_loop (colour : Z) (msg : string) (wakes : list (list nat)) (n : nat) (i : Z) (y : sys) : option sys :=
  match n with
  | O => Some y
  | S n' =>
      let y1 := out y [VgaSetColor colour VGA_COLOR_BLACK; VgaPuts msg; VgaPutchar (48 + i); VgaPutchar 10] in
      t ← timer_sleep_ms (hd [] wakes) (y_timer y1) 80;
      demo_task_loop colour msg (tl wakes) n' (i + 1) (with_timer y1 (y_machine y1) t)
  end.
Definition demo_task_a (wakes : list (list nat)) (y : sys) : option sys := demo_task_loop VGA_COLOR_LIGHT_CYAN "[Task A] tick " wakes 5 0 y.
Definition demo_task_b (wakes : list (list nat)) (y : sys) : option sys := demo_task_loop VGA_COLOR_LIGHT_MAGENTA "[Task B] tock " wakes 5 0 y.

Section main.
Context {P : Type} `{Ports P}.
(** linker symbols, static arrays and code *)
Context (gdt_addr tss_addr bitmap_location idt_addr : Z) (stub : Z -> Z).
Context (motd rx_descs tx_descs rx_buffers : Z).
Context (demo_a demo_b net_entry task_exit task_yield : Z).
Context (line_buf cat_buf newline user_demo_entry buffer : Z).
(** bounds of loops that the boot loader and devices end *)
Context (mbi_fuel flush_fuel polls : nat).
(** what happens at interrupts: those of the two sleeps, what the other tasks do
    during the second, and the waits inside system calls *)
Context (wakes wakes' : list nat) (meanwhile : nat -> boot P -> boot P) (waits : list (kernel -> kernel)).

Definition banner : list out_call :=
  [Klog "MatryoshkaOS booting..."; VgaSetColor VGA_COLOR_LIGHT_CYAN VGA_COLOR_BLACK; VgaPuts (line "MatryoshkaOS v1.0"); VgaSetColor VGA_COLOR_WHITE VGA_COLOR_BLACK;
   VgaPuts ("====================================" ++ nl ++ nl)%string; VgaSetColor VGA_COLOR_LIGHT_GREEN VGA_COLOR_BLACK;
   VgaPuts ("Kernel booted successfully!" ++ nl ++ nl)%string; VgaSetColor VGA_COLOR_LIGHT_GREY VGA_COLOR_BLACK;
   VgaPuts (line "System Information:"); VgaPuts (line "  - Architecture: x86_64");
   VgaPuts (line "  - Bootloader: GRUB2 Multiboot2");
   VgaPuts ("  - VGA Mode: 80x25 text mode" ++ nl ++ nl)%string].

(** A label and a size on a line of the memory report. *)
Definition report (w : machine) (label : string) (bytes : Z) (end_ : string) : machine :=
  say (put_size (say w label) buffer bytes) end_.

Definition boot_memory (b : boot P) (mbi : Z) : option (boot P) :=
  let y := b_sys b in
  '(w, p) ← pmm_init bitmap_location mbi_fuel
      (emit (y_machine y) [VgaSetColor VGA_COLOR_YELLOW VGA_COLOR_BLACK; VgaPuts (line "Initializing Memory Management...")]) (y_pmm y) mbi;
  let st := pmm_get_stats p in
  let w1 := report (emit w [VgaSetColor VGA_COLOR_LIGHT_GREY VGA_COLOR_BLACK]) "  Total Memory: " (st_total_memory st) nl in
  let w2 := report w1 "  Free Memory:  " (st_free_memory st) nl in
  let w3 := report w2 "  Used Memory:  " (st_used_memory st) (nl ++ nl)%string in
  let '(_, w4, p4) := pmm_test w3 p in
  let '(w5, h) := heap_init w4 in
  '(w6, h6) ← heap_test buffer w5 h;
  Some (with_sys b (with_memory y w6 p4 h6)).

Definition boot_interrupts (b : boot P) : option (boot P) :=
  let y := b_sys b in
  let w := emit (y_machine y) [VgaSetColor VGA_COLOR_LIGHT_CYAN VGA_COLOR_BLACK; VgaPuts (line "About to initialize IDT..."); VgaSetColor VGA_COLOR_LIGHT_GREY VGA_COLOR_BLACK] in
  let '(w1, d1) := idt_init w (b_idt b) stub idt_addr in
  let w2 := emit w1 [VgaSetColor VGA_COLOR_LIGHT_CYAN VGA_COLOR_BLACK; VgaPuts (line "IDT initialized, testing..."); VgaSetColor VGA_COLOR_LIGHT_GREY VGA_COLOR_BLACK] in
  let '(w3, s3) := pic_init w2 (y_io y) in
  let '(w4, s4, irq) := timer_init w3 s3 in
  let d4 := idt_register_handler d1 irq timer_isr in
  let w5 := emit w4 [VgaSetColor VGA_COLOR_LIGHT_GREEN VGA_COLOR_BLACK; VgaPuts ("  [OK] Interrupts enabled (STI)" ++ nl ++ nl)%string] in
  t ← timer_sleep_ms wakes (Timer (y_ticks y) s4 (y_sched y)) 50;
  let w6 := emit w5 [VgaSetColor VGA_COLOR_LIGHT_CYAN VGA_COLOR_BLACK; VgaPuts "Timer test: "; puts (tick_chars (timer_get_ticks t));
                     VgaPuts (" ticks counted - interrupts working!" ++ nl ++ nl)%string] in
  Some (Boot (with_timer y w6 t) (b_gdt b) d4 (b_kbd b) (b_pci b)).

(** The keyboard, paging, the filesystem, the network, the scheduler and system
    calls; [y_halted] when paging fails. *)
Definition boot_devices (b : boot P) : option (boot P) :=
  '(w1, k1, irq) ← keyboard_init flush_fuel (b_machine b) (b_kbd b);
  let d1 := idt_register_handler (b_idt b) irq keyboard_isr in
  let '(rc, w2, p2, v2) := vmm_init w1 (y_pmm (b_sys b)) (y_vmm (b_sys b)) in
  let d2 := if isr14 v2 then idt_register_handler d1 14 page_fault_isr else d1 in
  let y2 := with_paging (b_sys b) w2 p2 v2 in
  let b2 := Boot y2 (b_gdt b) d2 k1 (b_pci b) in
  if negb (rc =? 0) then Some (b_halt (b_emit b2 [VgaSetColor VGA_COLOR_LIGHT_RED VGA_COLOR_BLACK; VgaPuts (line "ERROR: Failed to initialize VMM!")]))
  else
    let '(w3, f3) := vfs_init w2 (y_vfs y2) in
    '(w4, h4, fs4, f4) ← ramfs_init w3 (y_heap y2) (y_ramfs y2) f3 motd;
    let '(rc5, w5, s5, p5, v5, e5) := e1000_init rx_descs tx_descs rx_buffers w4 (b_pci b) p2 v2 (y_e1000 y2) in
    let '(w6, n6) := if rc5 =? 0 then net_init w5 (y_net y2) (mac_addr e5) else (w5, y_net y2) in
    let '(w7, sc7) := task_init w6 (y_sched y2) in
    let '(w8, d8) := syscall_init polls waits w7 (idt_register_handler d2 129 yield_isr) in
    let y8 := {| y_machine := w8; y_ticks := y_ticks y2; y_sched := sc7; y_pmm := p5; y_heap := h4; y_vmm := v5;
                 y_vfs := f4; y_ramfs := fs4; y_net := n6; y_e1000 := e5; y_io := y_io y2;
                 y_halted := y_halted y2 |} in
    Some (Boot y8 (b_gdt b) d8 (keyboard_set_wait_func k1 task_yield) s5).

(** One [task_create]; its result is not looked at. *)
Definition spawn (y : sys) (entry : Z) (name : string) : option sys :=
  '(_, w, h, s) ← task_create task_exit (y_machine y) (y_heap y) (y_sched y) entry name;
  Some (with_y_task y w h (y_vmm y) s).

(** Interrupts are enabled: [meanwhile n] is what they and the other tasks do between
    two calls, and during the sleep. *)
Definition boot_tasks (b : boot P) : option (boot P) :=
  let b0 := meanwhile 0 b in
  y1 ← spawn (b_sys b0) demo_a "demo_a";
  let b1 := meanwhile 1 (with_sys b0 y1) in
  y2 ← spawn (b_sys b1) demo_b "demo_b";
  let b2 := meanwhile 2 (with_sys b1 y2) in
  let y3 := out (b_sys b2) [VgaSetColor VGA_COLOR_YELLOW VGA_COLOR_BLACK; VgaPuts (line "Running preemptive multitasking demo..."); VgaSetColor VGA_COLOR_LIGHT_GREY VGA_COLOR_BLACK] in
  t ← timer_sleep_ms wakes' (y_timer y3) 1000;
  let b4 := b_emit (meanwhile 3 (with_sys b2 (with_timer y3 (y_machine y3) t)))
              [VgaSetColor VGA_COLOR_LIGHT_GREEN VGA_COLOR_BLACK; VgaPuts ("Demo complete. Entering shell." ++ nl ++ nl)%string] in
  let '(up, e) := e1000_link_up (y_e1000 (b_sys b4)) in
  let b5 := meanwhile 4 (with_sys b4 (with_y_e1000 (b_sys b4) e)) in
  y6 ← (if up then spawn (b_sys b5) net_entry "net" else Some (b_sys b5));
  Some (b_emit (meanwhile 5 (with_sys b5 y6)) [Klog "Boot complete, entering shell"]).

(** [kernel_main]: start-up, then [n] rounds of the shell on the characters [cs]. *)
Definition kernel_main (n : nat) (cs : list Z) (b : boot P) (mbi : Z) : option (boot P) :=
  let '(_, s1) := serial_init (y_io (b_sys b)) in
  let y := b_sys b in
  let y1 := {| y_machine := emit (y_machine y) banner; y_ticks := y_ticks y; y_sched := y_sched y; y_pmm := y_pmm y;
               y_heap := y_heap y; y_vmm := y_vmm y; y_vfs := y_vfs y; y_ramfs := y_ramfs y; y_net := y_net y;
               y_e1000 := y_e1000 y; y_io := s1; y_halted := y_halted y |} in
  let '(w2, g2) := gdt_init gdt_addr tss_addr (y_machine y1) (b_gdt b) in
  let b2 := Boot (with_y_machine y1 w2) g2 (b_idt b) (b_kbd b) (b_pci b) in
  if mbi =? 0 then
    Some (b_halt (b_emit b2 [VgaSetColor VGA_COLOR_LIGHT_RED VGA_COLOR_BLACK; VgaPuts (line "ERROR: No Multiboot information received!");
                             VgaPuts ("Multiboot address is NULL" ++ nl ++ nl)%string]))
  else
    b3 ← boot_memory b2 mbi;
    b4 ← boot_interrupts b3;
    b5 ← boot_devices b4;
    if y_halted (b_sys b5) then Some b5
    else
      b6 ← boot_tasks b5;
      '(_, y7) ← shell_run line_buf cat_buf newline user_demo_entry polls n cs (b_sys b6);
      Some (with_sys b6 y7).
End main.

(** ** Sizes *)

(** The unit a size is shown in, and its name. *)
Definition size_unit (bytes : Z) : Z * string :=
  if bytes <? 2 ^ 20 then (2 ^ 10, " KB"%string)
  else if bytes <? 2 ^ 30 then (2 ^ 20, " MB"%string) else (2 ^ 30, " GB"%string).

Definition digit (d : Z) : Prop := 48 <= d <= 57.

(** The digits of numbers of up to four places. *)
Lemma decimal_4 n :
  0 <= n < 10000 ->
  let ds := [48 + n / 1000; 48 + (n / 100) mod 10; 48 + (n / 10) mod 10; 48 + n mod 10] in
  Forall digit ds /\ decimal ds = n.
Proof. intros Hn. split; [unfold digit; repeat constructor; dlia|]. cbn. dlia. Qed.

Lemma decimal_3 n :
  0 <= n < 1000 ->
  let ds := [48 + n / 100; 48 + (n / 10) mod 10; 48 + n mod 10] in Forall digit ds /\ decimal ds = n.
Proof. intros Hn. split; [unfold digit; repeat constructor; dlia|]. cbn. dlia. Qed.

Lemma decimal_2 n : 0 <= n < 100 -> let ds := [48 + n / 10; 48 + n mod 10] in Forall digit ds /\ decimal ds = n.
Proof. intros Hn. split; [unfold digit; repeat constructor; dlia|]. cbn. dlia. Qed.

Lemma size_chars_ok bytes :
  0 <= bytes < 100 * 2 ^ 30 ->
  let '(unit, name) := size_unit bytes in
  exists ds, size_chars bytes = (ds ++ bytes_of name) ++ [0] /\ Forall digit ds /\ decimal ds = bytes / unit /\
    (length ds <= 4)%nat.
Proof.
  intros Hb. unfold size_unit, size_chars. rewrite !Z.geb_leb.
  change (1024 * 1024 * 1024) with (2 ^ 30). change (1024 * 1024) with (2 ^ 20). change 1024 with (2 ^ 10) at 1.
  destruct (Z.ltb_spec bytes (2 ^ 20)).
  { destruct (Z.leb_spec (2 ^ 30) bytes), (Z.leb_spec (2 ^ 20) bytes); try lia.
    destruct (decimal_4 (bytes / 2 ^ 10)) as [Hd Hv]; [dlia|]. eexists. split; [by rewrite <- app_assoc|].
    cbn [length]. split_and!; done || lia. }
  destruct (Z.ltb_spec bytes (2 ^ 30)).
  - destruct (Z.leb_spec (2 ^ 30) bytes), (Z.leb_spec (2 ^ 20) bytes); try lia. cbv zeta.
    set (mb := bytes / 2 ^ 20). assert (Hmb : 0 <= mb < 1024) by (unfold mb; dlia).
    destruct (Z.leb_spec 1000 mb); [|destruct (Z.leb_spec 100 mb)].
    + destruct (decimal_4 mb) as [Hd Hv]; [lia|]. eexists. split; [by rewrite <- app_assoc|]. cbn [length]. split_and!; done || lia.
    + destruct (decimal_3 mb) as [Hd Hv]; [lia|]. eexists. split; [by rewrite <- app_assoc|]. cbn [length]. split_and!; done || lia.
    + destruct (decimal_2 mb) as [Hd Hv]; [lia|]. eexists. split; [by rewrite <- app_assoc|]. cbn [length]. split_and!; done || lia.
  - destruct (Z.leb_spec (2 ^ 30) bytes); [|lia]. cbv zeta.
    destruct (decimal_2 (bytes / 2 ^ 30)) as [Hd Hv]; [dlia|]. eexists. split; [by rewrite <- app_assoc|]. cbn [length].
    split_and!; done || lia.
Qed.

Lemma format_memory_size_ok m bytes buffer :
  0 <= bytes < 100 * 2 ^ 30 ->
  str_at 16 (format_memory_size m bytes buffer) buffer = removelast (size_chars bytes) /\
  same_outside buffer (buffer + 8) m (format_memory_size m bytes buffer).
Proof.
  intros Hb. pose proof (size_chars_ok bytes Hb) as Hc. destruct (size_unit bytes) as [unit name] eqn:Eu.
  destruct Hc as (ds & E & Hd & _ & Hl). unfold format_memory_size. rewrite E, removelast_last.
  assert (Hn : Forall (fun c => 0 < c < 256) (bytes_of name) /\ length (bytes_of name) = 3%nat).
  { unfold size_unit in Eu. repeat case_match; injection Eu as _ <-; (split; [repeat constructor; lia|done]). }
  destruct Hn as [Hn Hn3].
  assert (Ht : Forall (fun c => 0 < c < 256) (ds ++ bytes_of name)).
  { apply Forall_app. split; [|done]. eapply Forall_impl; [|exact Hd]. unfold digit. cbn. lia. }
  split; [apply cstr_str_at; [by apply cstr_store_bytes|rewrite length_app; lia]|]. intros a Ha. rewrite store_bytes_load.
  - rewrite !length_app, Hn3. cbn [length]. zcases; done || lia.
  - apply Forall_app. split; [|by repeat constructor]. eapply Forall_impl; [|exact Ht]. cbn. lia.
Qed.

(** [format_memory_size] writes, for every size below 100 GB, a terminated
    string of at most seven characters: the size in whole KB, MB or GB, whichever
    is the largest unit that fits, as a decimal number.  It writes to eight bytes of
    its buffer at most, which has sixteen. *)
Theorem format_memory_size_correct m bytes buffer (Hbytes : 0 <= bytes < 100 * 2 ^ 30) :
  let '(unit, name) := size_unit bytes in
  let m' := format_memory_size m bytes buffer in
  exists ds, str_at 16 m' buffer = ds ++ bytes_of name /\ Forall digit ds /\ decimal ds = bytes / unit /\
    (length ds <= 4)%nat /\ same_outside buffer (buffer + 8) m m'.
Proof.
  pose proof (size_chars_ok bytes Hbytes) as Hc. pose proof (format_memory_size_ok m bytes buffer Hbytes) as [Hs Ho].
  destruct (size_unit bytes) as [unit name]. destruct Hc as (ds & E & Hd & Hv & Hl). cbv zeta.
  exists ds. rewrite Hs, E, removelast_last. by split_and!.
Qed.

(** ** The test of the frame allocator *)

(** The messages of a test that finds what it expects. *)
Definition pmm_test_log : list out_call :=
  [VgaSetColor VGA_COLOR_LIGHT_CYAN VGA_COLOR_BLACK; VgaPuts (line "Testing PMM..."); VgaSetColor VGA_COLOR_LIGHT_GREY VGA_COLOR_BLACK; VgaPuts (line "  [OK] Allocated frame 1");
   VgaPuts (line "  [OK] Allocated frame 2"); VgaPuts (line "  [OK] Freed frame 1");
   VgaPuts (line "  [OK] Re-allocated frame (should reuse frame 1)"); VgaPuts nl].

(** Allocation when a frame other than 0 is free. *)
Lemma alloc_frame_free m p g :
  pmm_inv m p -> ~ frame_free m p 0 -> frame_free m p g -> g < searched p ->
  exists f m' p', pmm_alloc_frame m p = (f * PMM_FRAME_SIZE, m', p') /\ 0 < f /\ frame_free m p f /\ f < searched p /\
    (forall k, frame_free m p k -> f <= k) /\ pmm_becomes m p m' p' (fun k => (k =? f) || bitmap_test m p k).
Proof.
  intros Hinv H0 Hg Hs. destruct (alloc_frame_cases m p Hinv) as [(f & Hf & Hfs & Hl & E)|[Hn _]]; [|by apply Hn in Hg; lia].
  eexists f, _, _. split; [exact E|]. assert (f <> 0) by (intros ->; done). destruct Hf as [Hr Hb].
  split; [lia|]. split; [done|]. split; [done|]. split; [done|]. by apply becomes_set.
Qed.

(** The frame allocator after a sequence of calls that restores the bitmap. *)
Lemma becomes_same m p m' p' :
  pmm_inv m p -> pmm_becomes m p m' p' (bitmap_test m p) -> p' = p.
Proof.
  intros [_ Hu] (E & Hb & _ & [_ Hu']). assert (Et : total_frames p' = total_frames p) by (by rewrite E).
  assert (used_frames p' = used_frames p) as Eu.
  { rewrite Hu', Hu, Et. apply count_below_ext. intros f _. apply Hb. }
  rewrite E, Eu. by destruct p.
Qed.

Lemma frame_addr f : 0 <= f -> PMM_ADDR_TO_FRAME (f * PMM_FRAME_SIZE) = f.
Proof. intros Hf. unfold PMM_ADDR_TO_FRAME, PMM_FRAME_SIZE. apply Z.div_mul. lia. Qed.

Lemma becomes_free m p m' p' used k :
  pmm_becomes m p m' p' used -> frame_free m' p' k <-> 0 <= k < total_frames p /\ used k = false.
Proof. intros Hb. pose proof (becomes_total _ _ _ _ _ Hb) as Et. destruct Hb as (_ & Hb & _). unfold frame_free. by rewrite Et, Hb. Qed.

Lemma becomes_searched m p m' p' used : pmm_becomes m p m' p' used -> searched p' = searched p.
Proof. intros Hb. unfold searched. by rewrite (becomes_total _ _ _ _ _ Hb). Qed.

(** Freeing an allocated frame, given by its number. *)
Lemma free_frame_ok m p f :
  pmm_inv m p -> 0 <= f < total_frames p ->
  exists m' p', pmm_free_frame m p (f * PMM_FRAME_SIZE) = (m', p') /\
    pmm_becomes m p m' p' (fun k => negb (k =? f) && bitmap_test m p k).
Proof.
  intros Hinv Hf. pose proof (free_frame_becomes m p (f * PMM_FRAME_SIZE) Hinv ltac:(unfold PMM_FRAME_SIZE; lia)) as Hb.
  rewrite frame_addr in Hb by lia. destruct (pmm_free_frame m p (f * PMM_FRAME_SIZE)) as [m' p']. exists m', p'.
  split; [done|]. eapply becomes_ext; [|exact Hb]. intros k. cbn [fst snd].
  destruct (Z.eqb_spec k f) as [->|]; [|done]. by destruct (Z.ltb_spec f (total_frames p)); [|lia].
Qed.

(** A freed frame below all free ones is the next one handed out. *)
Lemma free_alloc_same m p f :
  pmm_inv m p -> ~ frame_free m p 0 -> 0 < f < searched p -> bitmap_test m p f = true ->
  (forall k, frame_free m p k -> f <= k) ->
  exists m1 p1 m2 p2, pmm_free_frame m p (f * PMM_FRAME_SIZE) = (m1, p1) /\
    pmm_alloc_frame m1 p1 = (f * PMM_FRAME_SIZE, m2, p2) /\ pmm_becomes m p m2 p2 (bitmap_test m p).
Proof.
  intros Hinv H0 Hf Hb Hl. pose proof (searched_le p ltac:(destruct Hinv; lia)) as Hs.
  destruct (free_frame_ok m p f) as (m1 & p1 & E & B1); [done|lia|].
  assert (Hfree : forall k, frame_free m1 p1 k <-> k = f \/ frame_free m p k).
  { intros k. rewrite (becomes_free _ _ _ _ _ _ B1). unfold frame_free. destruct (Z.eqb_spec k f) as [->|]; cbn; split.
    - by left.
    - intros _. split; [lia|done].
    - by right.
    - by intros [?|?]. }
  destruct (alloc_frame_free m1 p1 f) as (f' & m2 & p2 & E2 & _ & Hf' & _ & Hl' & B2).
  { by eapply becomes_inv. }
  { rewrite Hfree. intros [?|?]; [lia|done]. }
  { apply Hfree. by left. }
  { rewrite (becomes_searched _ _ _ _ _ B1). lia. }
  assert (f' = f) as ->.
  { apply Hfree in Hf' as [->|Hf']; [done|]. apply Z.le_antisymm; [|by apply Hl]. apply Hl', Hfree. by left. }
  exists m1, p1, m2, p2. split; [done|]. split; [done|].
  eapply becomes_ext; [|exact (becomes_trans _ _ _ _ _ _ _ _ B1 B2)]. destruct B1 as (_ & T1 & _). intros k. cbv beta.
  rewrite T1. by destruct (Z.eqb_spec k f) as [->|].
Qed.

Lemma pmm_test_ok w p f g :
  pmm_inv (ram w) p -> ~ frame_free (ram w) p 0 ->
  frame_free (ram w) p f -> frame_free (ram w) p g -> f < g < searched p ->
  exists f1 f2 w', pmm_test w p = ([f1 * PMM_FRAME_SIZE; f2 * PMM_FRAME_SIZE; f1 * PMM_FRAME_SIZE], w', p) /\
    0 < f1 /\ f1 <> f2 /\ frame_free (ram w) p f1 /\ frame_free (ram w) p f2 /\
    pmm_becomes (ram w) p (ram w') p (bitmap_test (ram w) p) /\ con w' = con w ++ pmm_test_log.
Proof.
  intros Hinv H0 Hf Hg Hne. unfold pmm_test. cbn [ram emit].
  destruct (alloc_frame_free (ram w) p f) as (f1 & m1 & p1 & -> & Hf1 & Hfree1 & _ & Hl1 & B1); [done..|lia|].
  assert (Hz : forall k, 0 < k -> negb (k * PMM_FRAME_SIZE =? 0) = true).
  { intros k Hk. unfold PMM_FRAME_SIZE. by destruct (Z.eqb_spec (k * 4096) 0); [lia|]. }
  rewrite (Hz f1 Hf1). cbn [say_if say ram emit set_ram].
  assert (Hfree : exists k, frame_free m1 p1 k /\ k < searched p1).
  { rewrite (becomes_searched _ _ _ _ _ B1). destruct Hf as [Hfr Hfb], Hg as [Hgr Hgb].
    destruct (Z.eq_dec f f1) as [->|]; [exists g|exists f]; rewrite (becomes_free _ _ _ _ _ _ B1);
      (split; [|lia]); rewrite ?Hfb, ?Hgb; split; try lia; zcases; done || lia. }
  destruct Hfree as (k & Hk & Hks).
  destruct (alloc_frame_free m1 p1 k) as (f2 & m2 & p2 & -> & Hf2 & Hfree2 & _ & _ & B2);
    [by eapply becomes_inv| |done|done|].
  { rewrite (becomes_free _ _ _ _ _ _ B1). intros [Hr Hb]. apply H0. split; [done|]. by apply orb_false_iff in Hb as [_ ?]. }
  rewrite (Hz f2 Hf2). cbn [say_if say ram emit set_ram]. rewrite (becomes_free _ _ _ _ _ _ B1) in Hfree2.
  destruct Hfree2 as [Hr2 [Hne2%Z.eqb_neq Hb2]%orb_false_iff]. destruct Hfree1 as [Hr1 Hb1].
  pose proof (becomes_trans _ _ _ _ _ _ _ _ B1 B2) as B2'. pose proof (becomes_total _ _ _ _ _ B2') as T2.
  destruct B1 as (_ & T1 & _), B2 as (_ & T2' & _). destruct (free_alloc_same m2 p2 f1) as (m3 & p3 & m4 & p4 & -> & E4 & B4).
  { by eapply becomes_inv. }
  { rewrite (becomes_free _ _ _ _ _ _ B2'), T1. intros [Hr [_ [_ Hb]%orb_false_iff]%orb_false_iff]. by apply H0. }
  { rewrite (becomes_searched _ _ _ _ _ B2'). pose proof (Hl1 f Hf). lia. }
  { by rewrite T2', T1, Z.eqb_refl, orb_true_r. }
  { intros j. rewrite (becomes_free _ _ _ _ _ _ B2'), T1. intros [Hr [_ [_ Hb]%orb_false_iff]%orb_false_iff]. by apply Hl1. }
  cbn [say ram emit set_ram]. rewrite E4, (Hz f1 Hf1). cbn [say_if say ram emit set_ram].
  pose proof (becomes_trans _ _ _ _ _ _ _ _ B2' B4) as B4'. pose proof (becomes_total _ _ _ _ _ B4') as T4.
  destruct (free_frame_ok m4 p4 f2) as (m5 & p5 & -> & B5); [by eapply becomes_inv|lia|].
  pose proof (becomes_trans _ _ _ _ _ _ _ _ B4' B5) as B5'. pose proof (becomes_total _ _ _ _ _ B5') as T5.
  destruct (free_frame_ok m5 p5 f1) as (m6 & p6 & -> & B6); [by eapply becomes_inv|lia|].
  pose proof (becomes_trans _ _ _ _ _ _ _ _ B5' B6) as B6'.
  assert (B : pmm_becomes (ram w) p m6 p6 (bitmap_test (ram w) p)).
  { eapply becomes_ext; [|exact B6']. destruct B4 as (_ & T4' & _), B5 as (_ & T5' & _). intros j. cbv beta.
    rewrite T5', T4', T2', T1.
    destruct (Z.eqb_spec j f1), (Z.eqb_spec j f2); subst; cbn; done || congruence. }
  pose proof (becomes_same _ _ _ _ Hinv B) as ->. eexists f1, f2, _. split; [done|]. split; [done|]. split; [done|].
  split; [done|]. split; [done|]. split; [done|]. cbn [con emit set_ram say]. by rewrite <- !app_assoc.
Qed.

(** With two frames to spare and frame 0 reserved, the start-up test of the frame
    allocator hands out two distinct frames, gets the first one back after freeing
    it, reports success at every step and leaves the allocator as it was: the same
    frames are free and the same number is in use. *)
Theorem pmm_test_correct w p f g
  (Hinv : pmm_inv (ram w) p) (H0 : ~ frame_free (ram w) p 0) (Hf : frame_free (ram w) p f)
  (Hg : frame_free (ram w) p g) (Hfg : f < g < searched p) :
  exists f1 f2 w', pmm_test w p = ([f1 * PMM_FRAME_SIZE; f2 * PMM_FRAME_SIZE; f1 * PMM_FRAME_SIZE], w', p) /\
    0 < f1 /\ f1 <> f2 /\ frame_free (ram w) p f1 /\ frame_free (ram w) p f2 /\
    pmm_inv (ram w') p /\ (forall k, bitmap_test (ram w') p k = bitmap_test (ram w) p k) /\
    same_outside (frame_bitmap p) (bitmap_end p) (ram w) (ram w') /\ con w' = con w ++ pmm_test_log.
Proof.
  destruct (pmm_test_ok w p f g) as (f1 & f2 & w' & E & H1 & H2 & H3 & H4 & (_ & H5 & H6 & H7) & H8); [done..|].
  exists f1, f2, w'. by split_and!.
Qed.

Lemma free_zero m p :
  pmm_inv m p -> 0 < total_frames p ->
  exists m' p', pmm_free_frame m p 0 = (m', p') /\ frame_free m' p' 0 /\ pmm_inv m' p' /\ total_frames p' = total_frames p.
Proof.
  intros Hinv Ht. destruct (free_frame_ok m p 0 Hinv ltac:(lia)) as (m' & p' & E & B). rewrite Z.mul_0_l in E.
  exists m', p'. split; [done|]. split; [by apply (becomes_free _ _ _ _ _ _ B)|].
  split; [by eapply becomes_inv|by eapply becomes_total].
Qed.

(** When no frame is left the test frees frame 0, whose address is the failure
    value: the frame stays free, so that a later allocation would return it as a
    failure. *)
Theorem pmm_test_exhausted w p
  (Hinv : pmm_inv (ram w) p) (Htotal : 0 < total_frames p) (H0 : bitmap_test (ram w) p 0 = true)
  (Hnone : forall g, frame_free (ram w) p g -> searched p <= g) :
  exists w' p', pmm_test w p = ([0; 0; 0], w', p') /\ frame_free (ram w') p' 0 /\ pmm_inv (ram w') p'.
Proof.
  assert (Efail : pmm_alloc_frame (ram w) p = (0, ram w, p)).
  { destruct (alloc_frame_cases (ram w) p Hinv) as [(f & Hf & Hfs & _)|[_ ->]]; [apply Hnone in Hf; lia|done]. }
  unfold pmm_test. cbn [ram emit]. rewrite Efail. cbn [Z.eqb negb say_if ram set_ram emit]. rewrite Efail.
  cbn [Z.eqb negb say_if ram set_ram emit say].
  destruct (free_zero (ram w) p Hinv Htotal) as (m1 & p1 & -> & Hfree & Hinv1 & T1). cbn [say ram set_ram emit].
  assert (Halloc : exists m2 p2, pmm_alloc_frame m1 p1 = (0, m2, p2) /\ pmm_inv m2 p2 /\ total_frames p2 = total_frames p1).
  { destruct (alloc_frame_cases m1 p1 Hinv1) as [(f & Hf & _ & Hl & ->)|[_ ->]]; [|by eexists _, _].
    assert (f = 0) as -> by (apply Hl in Hfree; destruct Hf; lia). pose proof (becomes_set m1 p1 0 Hinv1 Hfree) as B2.
    eexists _, _. split; [done|]. split; [by eapply becomes_inv|done]. }
  destruct Halloc as (m2 & p2 & -> & Hinv2 & T2). cbn [Z.eqb negb say_if ram set_ram emit say].
  destruct (free_zero m2 p2 Hinv2 ltac:(lia)) as (m3 & p3 & -> & _ & Hinv3 & T3).
  destruct (free_zero m3 p3 Hinv3 ltac:(lia)) as (m4 & p4 & -> & Hfree4 & Hinv4 & _).
  by eexists _, p4.
Qed.

(** ** The test of the heap *)

(** What an allocator call does besides its result: the blocks, no output, and
    nothing outside the heap. *)
Definition quiet (w w' : machine) (h' : heap) (bs' : list block) : Prop :=
  heap_inv (ram w') h' bs' /\ con w' = con w /\ same_outside HEAP_START HEAP_END (ram w) (ram w').

Lemma kmalloc_quiet w h bs n ptr bs' :
  heap_inv (ram w) h bs -> 0 < n -> alloc_blocks (align8 n) bs = Some (ptr, bs') ->
  exists w' h', kmalloc w h n = Some (ptr, w', h') /\ quiet w w' h' bs'.
Proof.
  intros Hi Hn E. pose proof (kmalloc_promise w h bs n Hi Hn) as Hk. rewrite E in Hk.
  destruct Hk as (w' & h' & _ & Hk & Hi' & Hc & _ & _ & _ & _ & _ & _ & Ho & _). by exists w', h'.
Qed.

Lemma kfree_quiet w h bs ptr bs' :
  heap_inv (ram w) h bs -> free_blocks ptr bs = Some bs' -> exists w' h', kfree w h ptr = Some (w', h') /\ quiet w w' h' bs'.
Proof.
  intros Hi E. destruct (kfree_promise w h bs ptr bs' Hi E) as (w' & h' & Hk & Hi' & Hc & _ & _ & Ho & _). by exists w', h'.
Qed.

Lemma kzalloc_quiet w h bs n ptr bs' :
  heap_inv (ram w) h bs -> 0 < n -> n + 7 < 2 ^ 32 -> alloc_blocks (align8 n) bs = Some (ptr, bs') ->
  exists w' h', kzalloc w h n = Some (ptr, w', h') /\ quiet w w' h' bs' /\
    forall i, 0 <= i < n -> load8 (ram w') (ptr + i) = 0.
Proof.
  intros Hi Hn Hb E. pose proof (kzalloc_promise w h bs n Hi Hn Hb) as Hk. rewrite E in Hk.
  destruct Hk as (w' & h' & Hk & Hi' & Hz & _ & Hc & Ho). by exists w', h'.
Qed.

Lemma all_zero_ok n m a : (forall i, 0 <= i < 4 * Z.of_nat n -> load8 m (a + i) = 0) -> all_zero n m a = true.
Proof.
  revert a. induction n as [|n IH]; intros a Hz; [done|]. cbn [all_zero].
  assert (Hl : load32 m a = 0).
  { unfold load32. cbn [load_le]. replace a with (a + 0) at 1 by lia. rewrite <- !Z.add_assoc, !Hz by (cbn; lia). done. }
  rewrite Hl. cbn [Z.eqb negb]. apply IH. intros i Hi. rewrite <- Z.add_assoc. apply Hz. lia.
Qed.

(** The messages of a test that finds what it expects. *)
Definition heap_test_log : list out_call :=
  [VgaSetColor VGA_COLOR_LIGHT_CYAN VGA_COLOR_BLACK; VgaPuts (line "Testing Heap Allocator..."); VgaSetColor VGA_COLOR_LIGHT_GREY VGA_COLOR_BLACK;
   VgaPuts (line "  Test 1: Basic allocation..."); VgaPuts (line "  [OK] Allocated 64 bytes");
   VgaPuts "  [OK] Wrote to allocated memory: "; VgaPuts "Hello from heap!"; VgaPuts nl;
   VgaPuts (line "  Test 2: Multiple allocations...");
   VgaPuts (line "  [OK] Multiple allocations (128, 256, 512 bytes)"); VgaPuts (line "  Test 3: kzalloc...");
   VgaPuts (line "  [OK] kzalloc properly zeroed memory"); VgaPuts (line "  Test 4: Free and reallocation...");
   VgaPuts (line "  [OK] Freed middle allocation"); VgaPuts (line "  [OK] Re-allocated freed memory");
   VgaPuts (line "  Test 5: Heap statistics..."); VgaPuts "  Heap Stats: "; VgaPuts "0000 KB"; VgaPuts " used / ";
   VgaPuts "01 MB"; VgaPuts (" total" ++ nl ++ nl)%string; VgaPuts (line "  Cleaning up test allocations...");
   VgaPuts (line "  [OK] All tests completed!" ++ nl)%string].

Section heap_test_proof.
Context (buffer : Z) (Hbuffer : buffer + 16 <= HEAP_START \/ HEAP_END <= buffer).

Lemma put_size_ok w h bs bytes :
  heap_inv (ram w) h bs -> 0 <= bytes < 100 * 2 ^ 30 ->
  heap_inv (ram (put_size w buffer bytes)) h bs /\
  con (put_size w buffer bytes) = con w ++ [puts (removelast (size_chars bytes))] /\
  same_outside buffer (buffer + 16) (ram w) (ram (put_size w buffer bytes)).
Proof.
  intros Hi Hb. destruct (format_memory_size_ok (ram w) bytes buffer Hb) as [Hs Ho]. unfold put_size.
  cbn [ram con emit set_ram]. rewrite Hs. split; [|split; [done|eapply same_outside_mono; [..|exact Ho]; lia]].
  eapply heap_inv_outside; [exact Hi|]. intros x Hx. apply Ho. lia.
Qed.

Lemma heap_test_string_ok w h bs ptr :
  heap_inv (ram w) h bs -> In (ptr, 64) (live bs) -> ptr <> 0 ->
  let w' := heap_test_string w ptr in
  heap_inv (ram w') h bs /\ same_outside ptr (ptr + 64) (ram w) (ram w') /\
  con w' = con w ++ [VgaPuts (line "  [OK] Allocated 64 bytes"); VgaPuts "  [OK] Wrote to allocated memory: ";
                     VgaPuts "Hello from heap!"; VgaPuts nl].
Proof.
  intros Hi Hl Hp. unfold heap_test_string. destruct (Z.eqb_spec ptr 0); [done|]. cbn [ram con emit set_ram say].
  change (ptr + 16) with (ptr + Z.of_nat (length (bytes_of "Hello from heap!"))). rewrite <- store_bytes_snoc.
  set (text := bytes_of "Hello from heap!").
  assert (Hs : str_at 64 (store_bytes (ram w) ptr (text ++ [0])) ptr = text).
  { apply cstr_str_at; [apply cstr_store_bytes; repeat constructor; lia|cbn; lia]. }
  assert (Ho : same_outside ptr (ptr + 64) (ram w) (store_bytes (ram w) ptr (text ++ [0]))).
  { intros a Ha. rewrite store_bytes_load by (repeat constructor; lia). cbn [length app text bytes_of]. cbn.
    zcases; done || lia. }
  rewrite Hs. split; [by eapply heap_inv_payload|]. split; [done|]. by rewrite <- app_assoc.
Qed.

(** The state of an allocator is determined by its blocks. *)
Lemma heap_inv_unique m m' h h' bs : heap_inv m h bs -> heap_inv m' h' bs -> h' = h.
Proof. intros (E1 & E2 & _ & _ & E3) (E1' & E2' & _ & _ & E3'). destruct h, h'. cbn in *. congruence. Qed.

(** The blocks before the clean-up, and the five calls of it. *)
Definition test_blocks : list block :=
  [(64, false); (128, false); (128, false); (112, true); (512, false); (16, false); (1047504, true)].

Lemma heap_cleanup_ok w h :
  heap_inv (ram w) h test_blocks ->
  exists w1 h1 w2 h2 w3 h3 w4 h4 w5 h5,
    kfree w h 2097168 = Some (w1, h1) /\ kfree w1 h1 2097248 = Some (w2, h2) /\ kfree w2 h2 2097664 = Some (w3, h3) /\
    kfree w3 h3 2097392 = Some (w4, h4) /\ kfree w4 h4 2098192 = Some (w5, h5) /\
    quiet w w5 h5 [(HEAP_INITIAL - sizeof_block, true)].
Proof.
  intros Hi.
  destruct (kfree_quiet w h _ 2097168 [(64, true); (128, false); (128, false); (112, true); (512, false); (16, false); (1047504, true)] Hi)
    as (w1 & h1 & E1 & Hi1 & Hc1 & Ho1); [by vm_compute|].
  destruct (kfree_quiet w1 h1 _ 2097248 [(208, true); (128, false); (112, true); (512, false); (16, false); (1047504, true)] Hi1)
    as (w2 & h2 & E2 & Hi2 & Hc2 & Ho2); [by vm_compute|].
  destruct (kfree_quiet w2 h2 _ 2097664 [(208, true); (128, false); (640, true); (16, false); (1047504, true)] Hi2)
    as (w3 & h3 & E3 & Hi3 & Hc3 & Ho3); [by vm_compute|].
  destruct (kfree_quiet w3 h3 _ 2097392 [(1008, true); (16, false); (1047504, true)] Hi3)
    as (w4 & h4 & E4 & Hi4 & Hc4 & Ho4); [by vm_compute|].
  destruct (kfree_quiet w4 h4 _ 2098192 [(1048560, true)] Hi4)
    as (w5 & h5 & E5 & Hi5 & Hc5 & Ho5); [by vm_compute|].
  exists w1, h1, w2, h2, w3, h3, w4, h4, w5, h5. do 5 (split; [done|]). split; [done|]. split; [congruence|].
  do 4 (eapply same_outside_trans; [eassumption|]). done.
Qed.

Lemma heap_test_ok w h :
  heap_inv (ram w) h [(HEAP_INITIAL - sizeof_block, true)] ->
  exists w', heap_test buffer w h = Some (w', h) /\ heap_inv (ram w') h [(HEAP_INITIAL - sizeof_block, true)] /\
    con w' = con w ++ heap_test_log /\
    forall x, ~ (HEAP_START <= x < HEAP_END) -> ~ (buffer <= x < buffer + 16) -> load8 (ram w') x = load8 (ram w) x.
Proof.
  intros Hi0. unfold heap_test. set (w0 := emit w _).
  destruct (kmalloc_quiet w0 h _ 64 2097168 [(64, false); (1048480, true)] Hi0)
    as (w1 & h1 & -> & Hi1 & Hc1 & Ho1); [lia|by vm_compute|]. cbn [mbind option_bind].
  destruct (heap_test_string_ok w1 h1 _ 2097168 Hi1) as (Hi2 & Ho2 & Hc2); [by left|done|].
  set (w2 := say (heap_test_string w1 2097168) _).
  destruct (kmalloc_quiet w2 h1 _ 128 2097248 [(64, false); (128, false); (1048336, true)] Hi2)
    as (w3 & h3 & -> & Hi3 & Hc3 & Ho3); [lia|by vm_compute|]. cbn [mbind option_bind].
  destruct (kmalloc_quiet w3 h3 _ 256 2097392 [(64, false); (128, false); (256, false); (1048064, true)] Hi3)
    as (w4 & h4 & -> & Hi4 & Hc4 & Ho4); [lia|by vm_compute|]. cbn [mbind option_bind].
  destruct (kmalloc_quiet w4 h4 _ 512 2097664 [(64, false); (128, false); (256, false); (512, false); (1047536, true)] Hi4)
    as (w5 & h5 & -> & Hi5 & Hc5 & Ho5); [lia|by vm_compute|]. cbn [mbind option_bind].
  cbn [Z.eqb negb andb say_if]. set (w6 := say (say w5 _) _).
  destruct (kzalloc_quiet w6 h5 _ 16 2098192 [(64, false); (128, false); (256, false); (512, false); (16, false); (1047504, true)] Hi5)
    as (w7 & h7 & -> & (Hi7 & Hc7 & Ho7) & Hz); [lia|lia|by vm_compute|]. cbn [mbind option_bind].
  rewrite all_zero_ok by exact Hz. cbn [Z.eqb negb andb say_if]. set (w8 := say (say w7 _) _).
  destruct (kfree_quiet w8 h7 _ 2097392 [(64, false); (128, false); (256, true); (512, false); (16, false); (1047504, true)] Hi7)
    as (w9 & h9 & -> & Hi9 & Hc9 & Ho9); [by vm_compute|]. cbn [mbind option_bind].
  set (w9' := say w9 _).
  destruct (kmalloc_quiet w9' h9 _ 128 2097392 [(64, false); (128, false); (128, false); (112, true); (512, false); (16, false); (1047504, true)] Hi9)
    as (w10 & h10 & -> & Hi10 & Hc10 & Ho10); [lia|by vm_compute|]. cbn [mbind option_bind].
  cbn [Z.eqb negb say_if]. unfold heap_get_stats. pose proof Hi10 as (_ & Et & _ & _ & Eu). rewrite Et, Eu.
  set (used := sizeof_block + _). assert (Eused : used = 944) by (unfold used; by vm_compute). set (w12 := emit (say w10 _) _).
  destruct (put_size_ok w12 h10 test_blocks used Hi10 ltac:(lia)) as (Hi12 & Hc12 & Ho12).
  set (w12' := say (put_size w12 buffer used) _).
  destruct (put_size_ok w12' h10 test_blocks HEAP_INITIAL Hi12 ltac:(unfold HEAP_INITIAL; lia)) as (Hi13 & Hc13 & Ho13).
  set (w14 := emit (put_size w12' buffer HEAP_INITIAL) _).
  destruct (heap_cleanup_ok w14 h10 Hi13) as (w15 & h15 & w16 & h16 & w17 & h17 & w18 & h18 & w19 & h19 & -> & E16 & E17 &
    E18 & E19 & Hi19 & Hc19 & Ho19).
  cbn [mbind option_bind]. rewrite E16. cbn [mbind option_bind]. rewrite E17. cbn [mbind option_bind]. rewrite E18.
  cbn [mbind option_bind]. rewrite E19. cbn [mbind option_bind]. pose proof (heap_inv_unique _ _ _ _ _ Hi0 Hi19) as E.
  rewrite E in *. eexists. split; [reflexivity|]. split; [exact Hi19|]. split.
  - cbn [con say emit]. rewrite Hc19. cbn [con emit w14]. rewrite Hc13. cbn [con emit say w12']. rewrite Hc12, Eused.
    cbn [con emit say w12]. rewrite Hc10. cbn [con emit say w9']. rewrite Hc9. cbn [con emit say w8]. rewrite Hc7.
    cbn [con emit say w6]. rewrite Hc5, Hc4, Hc3. cbn [con emit say w2]. rewrite Hc2, Hc1. cbn [con emit w0].
    rewrite <- !app_assoc. done.
  - intros x Hx Hb. cbn [ram emit say]. rewrite Ho19, Ho13, Ho12, Ho10, Ho9, Ho7, Ho5, Ho4, Ho3 by lia.
    cbn [ram emit say w2]. rewrite Ho2, Ho1 by (unfold HEAP_END, HEAP_INITIAL, HEAP_START in *; lia). done.
Qed.
End heap_test_proof.

(** The start-up test of the heap, on the fresh heap, gets every block it asks
    for, finds its string and its zeroes in them, reports success at every step, and
    leaves the heap as it was: one free block of the whole size. *)
Theorem heap_test_correct buffer w h
  (Hbuffer : buffer + 16 <= HEAP_START \/ HEAP_END <= buffer)
  (Hinv : heap_inv (ram w) h [(HEAP_INITIAL - sizeof_block, true)]) :
  exists w', heap_test buffer w h = Some (w', h) /\ heap_inv (ram w') h [(HEAP_INITIAL - sizeof_block, true)] /\
    con w' = con w ++ heap_test_log /\
    forall x, ~ (HEAP_START <= x < HEAP_END) -> ~ (buffer <= x < buffer + 16) -> load8 (ram w') x = load8 (ram w) x.
Proof. by apply heap_test_ok. Qed.

(** ** The allocators after start-up *)

Lemma size_chars_length bytes : (length (size_chars bytes) <= 8)%nat.
Proof. unfold size_chars. repeat case_match; cbn; lia. Qed.

Lemma report_ok buffer w label bytes e :
  same_outside buffer (buffer + 16) (ram w) (ram (report buffer w label bytes e)) /\
  exists cs, con (report buffer w label bytes e) = con w ++ cs.
Proof.
  split.
  - cbn [report say put_size ram emit set_ram]. pose proof (size_chars_length bytes).
    eapply same_outside_mono; [..|apply store_bytes_outside]; lia.
  - eexists. cbn [report say put_size con emit set_ram]. by rewrite <- !app_assoc.
Qed.

Lemma heap_init_outside w :
  same_outside HEAP_START HEAP_END (ram w) (ram (heap_init w).1) /\ exists cs, con (heap_init w).1 = con w ++ cs.
Proof.
  split.
  - intros x Hx. cbn [heap_init fst ram emit set_ram]. unfold set_magic, set_size, set_is_free, set_next, store32.
    unfold HEAP_END, HEAP_INITIAL, HEAP_START in *.
    rewrite store_le_outside, load8_store8_ne, !store_le_outside by lia. done.
  - eexists. cbn [heap_init fst con emit set_ram]. by rewrite <- app_assoc.
Qed.

Section boot_memory.
Context {P : Type} `{Ports P}.
Context (loc buffer : Z) (mbi_fuel : nat) (b : boot P) (mbi tag count : Z) (es : list mmap_entry).

(** What the boot loader and the linker provide: a memory map, static data whose
    places do not collide, and two frames to spare. *)
Let frames : Z := frames_of (foldl measure_entry (0, 0) es).2.
Let bits_end : Z := loc + bitmap_bytes frames.
Definition usable (f : Z) : Prop :=
  0 <= f < frames /\ existsb (entry_frames f) es = true /\ last_reserved bits_end < f.
Record good_layout : Prop := {
  gl_map : memory_map loc mbi_fuel (ram (b_machine b)) mbi tag count es;
  gl_boot : y_pmm (b_sys b) = pmm_boot;
  gl_loc : 0 < loc;
  gl_bits : bits_end <= HEAP_START \/ HEAP_END <= loc;
  gl_buffer : buffer + 16 <= HEAP_START \/ HEAP_END <= buffer;
  gl_buffer_bits : buffer + 16 <= loc \/ bits_end <= buffer;
  gl_spare : exists f g, f < g < frames / 32 * 32 /\ usable f /\ usable g;
}.

Lemma boot_memory_ok :
  good_layout ->
  exists w p h, boot_memory loc buffer mbi_fuel b mbi = Some (with_sys b (with_memory (b_sys b) w p h)) /\
    pmm_inv (ram w) p /\ (forall f, frame_free (ram w) p f <-> usable f) /\
    heap_inv (ram w) h [(HEAP_INITIAL - sizeof_block, true)] /\
    (exists cs cs', con w = con (b_machine b) ++ cs ++ pmm_test_log ++ cs' ++ heap_test_log) /\
    frame_bitmap p = loc /\ total_frames p = frames /\ total_memory p = (foldl measure_entry (0, 0) es).1 /\
    (forall f, usable f -> bits_end <= f * PMM_FRAME_SIZE).
Proof.
  intros [Hmap Hboot Hloc Hbits Hbuf Hbb (f & g & Hfg & Hf & Hg)]. unfold boot_memory. rewrite Hboot.
  destruct (pmm_init_ok loc mbi_fuel (emit (b_machine b) [VgaSetColor VGA_COLOR_YELLOW VGA_COLOR_BLACK; VgaPuts (line "Initializing Memory Management...")])
    mbi tag count es Hmap) as (w & p & E & Hinv & Hcon & Hfb & Htot & Htm & Hfree & Hmin).
  fold frames in Htot, Hfree, Hmin. fold bits_end in Hfree, Hmin. fold (b_machine b). rewrite E. cbn [mbind option_bind].
  assert (Hend : bitmap_end p = bits_end) by (unfold bitmap_end, bits_end; by rewrite Hfb, Htot).
  set (w1 := report buffer (emit w _) _ _ _). set (w2 := report buffer w1 _ _ _). set (w3 := report buffer w2 _ _ _).
  assert (Hrep : same_outside buffer (buffer + 16) (ram w) (ram w3) /\ exists cs, con w3 = con w ++ cs).
  { destruct (report_ok buffer (emit w [VgaSetColor VGA_COLOR_LIGHT_GREY VGA_COLOR_BLACK]) "  Total Memory: " (st_total_memory (pmm_get_stats p)) nl)
      as [O1 [c1 E1]], (report_ok buffer w1 "  Free Memory:  " (st_free_memory (pmm_get_stats p)) nl) as [O2 [c2 E2]],
      (report_ok buffer w2 "  Used Memory:  " (st_used_memory (pmm_get_stats p)) (nl ++ nl)) as [O3 [c3 E3]].
    fold w1 in O1, E1. fold w2 in O2, E2. fold w3 in O3, E3. split.
    - eapply same_outside_trans; [exact O1|]. eapply same_outside_trans; [exact O2|exact O3].
    - eexists. rewrite E3, E2, E1. cbn [con emit]. by rewrite <- !app_assoc. }
  destruct Hrep as (Ho3 & c3 & Hc3).
  destruct (pmm_ext (ram w) (ram w3) p) as [Hinv3 Hfree3]; [intros x Hx; apply Ho3; lia|done|].
  assert (Hfree3' : forall k, frame_free (ram w3) p k <-> usable k) by (intros k; by rewrite Hfree3, Hfree).
  destruct (pmm_test_ok w3 p f g) as (f1 & f2 & w4 & -> & _ & _ & _ & _ & (_ & Hb4 & _ & Hinv4) & Hc4).
  { done. }
  { intros H0%Hfree3%Hmin. pose proof (bitmap_bytes_nonneg frames ltac:(rewrite <- Htot; apply Hinv)). unfold bits_end in *. lia. }
  { by apply Hfree3'. }
  { by apply Hfree3'. }
  { unfold searched. by rewrite Htot. }
  pose proof (heap_init_inv w4) as Hh. destruct (heap_init_outside w4) as (Ho5 & c5 & Hc5).
  destruct (heap_init w4) as [w5 h5]. cbn [fst snd] in Hh, Ho5, Hc5.
  destruct (heap_test_ok buffer Hbuf w5 h5 Hh) as (w6 & -> & Hh6 & Hc6 & Ho6). cbn [mbind option_bind].
  destruct (pmm_ext (ram w4) (ram w6) p) as [Hinv6 Hfree6]; [|done|].
  { intros x Hx. rewrite Ho6 by lia. apply Ho5. lia. }
  assert (Hall : forall k, frame_free (ram w6) p k <-> usable k).
  { intros k. rewrite Hfree6, <- Hfree3'. unfold frame_free. by rewrite Hb4. }
  eexists w6, p, h5. split; [reflexivity|]. split; [exact Hinv6|]. split; [exact Hall|]. split; [exact Hh6|].
  split; [|split; [done|split; [done|split; [done|intros k Hk; by apply Hmin, Hfree]]]].
  exists ([VgaSetColor VGA_COLOR_YELLOW VGA_COLOR_BLACK; VgaPuts (line "Initializing Memory Management...")] ++ c3), c5.
  rewrite Hc6, Hc5, Hc4, Hc3, Hcon. cbn [con emit]. by rewrite <- !app_assoc.
Qed.

(** C15: with a usable memory map, [kernel_main]'s memory phase comes through: the two
    allocators' invariants hold together, the free frames are exactly those the
    memory map and the reservation leave (both tests gave back what they took), the
    heap is one free block, and the log holds the success messages of both tests. *)
Theorem boot_memory_correct (Hlayout : good_layout) :
  exists b', boot_memory loc buffer mbi_fuel b mbi = Some b' /\
    let y := b_sys b' in
    pmm_inv (y_ram y) (y_pmm y) /\ (forall f, frame_free (y_ram y) (y_pmm y) f <-> usable f) /\
    heap_inv (y_ram y) (y_heap y) [(HEAP_INITIAL - sizeof_block, true)] /\
    exists cs cs', con (b_machine b') = con (b_machine b) ++ cs ++ pmm_test_log ++ cs' ++ heap_test_log.
Proof.
  destruct (boot_memory_ok Hlayout) as (w & p & h & -> & H1 & H2 & H3 & H4 & _). eexists. split; [reflexivity|]. by split_and!.
Qed.
End boot_memory.

(** ** Witnesses *)

Lemma format_memory_size_correct_witness :
  exists ds, str_at 16 (format_memory_size ∅ 0x8000000 0x5000) 0x5000 = ds ++ bytes_of " MB" /\ decimal ds = 128.
Proof.
  destruct (format_memory_size_correct ∅ 0x8000000 0x5000 ltac:(lia)) as (ds & E & _ & V & _). exists ds. exact (conj E V).
Defined.

Lemma pmm_test_correct_witness :
  exists f1 f2 w', pmm_test (Machine demo_pmm_ram []) demo_pmm =
    ([f1 * PMM_FRAME_SIZE; f2 * PMM_FRAME_SIZE; f1 * PMM_FRAME_SIZE], w', demo_pmm) /\ con w' = pmm_test_log.
Proof.
  destruct (pmm_test_correct (Machine demo_pmm_ram []) demo_pmm 3 4) as (f1 & f2 & w' & E & _ & _ & _ & _ & _ & _ & _ & C).
  - exact demo_pmm_inv.
  - intros [_ H]. vm_compute in H. discriminate H.
  - split; [cbn; lia|vm_compute; reflexivity].
  - split; [cbn; lia|vm_compute; reflexivity].
  - vm_compute. split; reflexivity.
  - exists f1, f2, w'. exact (conj E C).
Defined.

Lemma pmm_test_exhausted_witness :
  exists w' p', pmm_test (Machine demo_full_ram []) demo_full = ([0; 0; 0], w', p') /\ frame_free (ram w') p' 0.
Proof.
  destruct (pmm_test_exhausted (Machine demo_full_ram []) demo_full) as (w' & p' & E & F & _).
  - exact demo_full_inv.
  - cbn. lia.
  - vm_compute. reflexivity.
  - intros g [Hg Hb]. destruct (Z.leb_spec (searched demo_full) g); [done|exfalso].
    assert (Hall : forallb (fun f => bitmap_test demo_full_ram demo_full f) (seqZ 0 32) = true) by (vm_compute; reflexivity).
    change (searched demo_full) with 32 in *. cbn [ram] in Hb. by rewrite (forallb_below _ _ g Hall) in Hb by lia.
  - exists w', p'. exact (conj E F).
Defined.

Lemma heap_test_correct_witness :
  exists w', heap_test 0x5000 (heap_init (Machine ∅ [])).1 (heap_init (Machine ∅ [])).2 =
    Some (w', (heap_init (Machine ∅ [])).2).
Proof.
  destruct (heap_test_correct 0x5000 (heap_init (Machine ∅ [])).1 (heap_init (Machine ∅ [])).2) as (w' & E & _).
  - left. vm_compute. discriminate.
  - apply heap_init_inv.
  - exists w'. exact E.
Defined.

Definition demo_start : boot io :=
  Boot (Sys (Machine demo_mbi []) 0 demo_sched3 pmm_boot (Heap 0 0 0) (Vmm 0 0 0 0 0 0 false ∅) demo_vfs demo_store demo_net
    demo_e1000 (Io [] []) false) gdt_boot demo_idt demo_kbd (Io [] []).

Lemma boot_memory_correct_witness :
  exists b', boot_memory 0x400000 0x5000 3 demo_start 4096 = Some b' /\
    pmm_inv (y_ram (b_sys b')) (y_pmm (b_sys b')) /\ frame_free (y_ram (b_sys b')) (y_pmm (b_sys b')) 1280.
Proof.
  assert (Hu : forall f, f = 1280 \/ f = 1281 -> usable 0x400000 [MmapEntry 0x500000 0x1B00000 1] f).
  { intros f [-> | ->]; (split; [vm_compute; split; [discriminate|reflexivity]|split; vm_compute; reflexivity]). }
  destruct (boot_memory_correct 0x400000 0x5000 3 demo_start 4096 4120 1 [MmapEntry 0x500000 0x1B00000 1])
    as (b' & E & Hinv & Hfree & _).
  - split.
    + exact demo_memory_map.
    + reflexivity.
    + lia.
    + right. vm_compute. discriminate.
    + left. vm_compute. discriminate.
    + left. vm_compute. discriminate.
    + exists 1280, 1281. split; [vm_compute; split; reflexivity|]. split; apply Hu; [by left|by right].
  - exists b'. split; [exact E|]. split; [exact Hinv|]. apply Hfree, Hu. by left.
Defined.
