(* ===== verification/System.v ===== *)
(** * The kernel as a whole: what every command of the shell keeps

    [sys_inv] puts the components' invariants together over one memory and one
    heap: the filesystem, the task stacks and the rest share the live payloads
    [lv] without sharing a payload, and page tables, frame bitmap and the static
    arrays [statics] that the code writes to are apart from the heap and from
    each other.  Every command the shell can run, on every argument, returns in
    a state with this invariant and with the bytes of every task's stack
    unchanged. *)
From stdpp Require Import base numbers list gmap strings relations.
From Stdlib Require Import ZArith Lia.
From S2P Require Import Prelude.
From S2P Require Import Machine.
From S2P Require Import CString.
From S2P Require Import Io.
From S2P Require Import Net.
From S2P Require Import Alloc.
From S2P Require Import Pmm.
From S2P Require Import Heap.
From S2P Require Import Vmm.
From S2P Require Import E1000.
From S2P Require Import NetStack.
From S2P Require Import Gdt.
From S2P Require Import Task.
From S2P Require Import Timer.
From S2P Require Import Ramfs.
From S2P Require Import Vfs.
From S2P Require Import FsFrame.
From S2P Require Import Shell.

(** ** Task stacks *)

Definition task_stacks (t : task) : list Z := filter (fun p => p <> 0) [stack_base t; user_stack_base t].

(** The stacks of the tasks, kernel and user ones. *)
Definition stacks (s : sched) : list Z :=
  flat_map (fun i => task_stacks (get_task s (Z.of_nat i))) (seq 0 (Z.to_nat (count s))).

(** Stacks depend on the tasks only through their bases. *)
Lemma stacks_ext s s' :
  count s' = count s ->
  (forall i, 0 <= i < count s -> stack_base (get_task s' i) = stack_base (get_task s i) /\
     user_stack_base (get_task s' i) = user_stack_base (get_task s i)) ->
  stacks s' = stacks s.
Proof.
  intros Hc Hb. unfold stacks. rewrite Hc, !flat_map_concat_map. f_equal. apply map_ext_in. intros i Hi%in_seq.
  destruct (Hb (Z.of_nat i)) as [E1 E2]; [lia|]. unfold task_stacks. by rewrite E1, E2.
Qed.

(** A new last task. *)
Lemma stacks_new s s' :
  0 <= count s -> count s' = count s + 1 -> (forall i, 0 <= i < count s -> get_task s' i = get_task s i) ->
  stacks s' = stacks s ++ task_stacks (get_task s' (count s)).
Proof.
  intros H0 Hc Hg. unfold stacks. rewrite Hc. replace (Z.to_nat (count s + 1)) with (S (Z.to_nat (count s))) by lia.
  rewrite seq_S, flat_map_app. cbn [flat_map Nat.add]. rewrite app_nil_r, Z2Nat.id by done. f_equal.
  rewrite !flat_map_concat_map. f_equal. apply map_ext_in. intros i Hi%in_seq. by rewrite Hg by lia.
Qed.

(** ** Listing a directory *)

(** [cat_loop] changes memory, the console and the descriptors. *)
Lemma cat_loop_parts cat_buf k y fd y' :
  cat_loop cat_buf k y fd = Some y' -> y' = with_y_fs y (y_machine y') (y_vfs y') (y_fs y).
Proof.
  revert y. induction k as [|k IH]; intros y; [done|]. cbn [cat_loop].
  destruct (vfs_read _ _ _ _ _ _) as [[n w] v]. destruct (n >? 0); [|by intros [= <-]].
  intros E. by rewrite (IH _ E) at 1.
Qed.

Lemma out_out y a b : out (out y a) b = out y (a ++ b).
Proof. unfold out, with_y_machine, emit. cbn. by rewrite <- app_assoc. Qed.

Lemma out_nil y : out y [] = y.
Proof. destruct y as [[r c] ? ? ? ? ? ? ? ? ? ? ?]. unfold out, with_y_machine, emit. cbn. by rewrite app_nil_r. Qed.

Lemma cat_loop_stop cat_buf k y fd :
  vfs_read (y_machine y) (y_vfs y) (y_fs y) fd cat_buf 127 = (-1, y_machine y, y_vfs y) ->
  cat_loop cat_buf (S k) y fd = Some y.
Proof. intros E. cbn [cat_loop]. rewrite E. cbn. by destruct y. Qed.

(** What [ls] prints for a child: directories in cyan with a slash. *)
Definition ls_entry (fs : ramfs) (a : Z) : list out_call :=
  let n := node_at fs a in
  (if is_dir n then [VgaSetColor VGA_COLOR_LIGHT_CYAN VGA_COLOR_BLACK; puts (n_name n); VgaPutchar 47] else [VgaSetColor VGA_COLOR_LIGHT_GREY VGA_COLOR_BLACK; puts (n_name n)]) ++
  [VgaPuts "  "].

Section ls.
Context (y : sys) (lv : list (Z * Z)) (Hst : fs_state y lv).
Context (path : list Z) (d : Z) (n : vnode) (l : list Z).
Context (Hres : vfs_resolve (y_vfs y) (y_fs y) path = Some d) (Hd0 : d <> 0).
Context (Hn : nodes (y_ramfs y) !! d = Some n) (Hdir : is_dir n = true) (Hl : siblings (y_ramfs y) (n_children n) l).

(** An entry of the directory, by its index. *)
Lemma readdir_ok cs i :
  n_ops n = true -> 0 <= i ->
  vfs_readdir (y_vfs (out y cs)) (y_fs (out y cs)) path i =
    Some (x ← l !! Z.to_nat i; Some (n_name (node_at (y_ramfs y) x), n_flags (node_at (y_ramfs y) x))).
Proof.
  intros Hops Hi. destruct Hst as (Ho & Hinv & Hv). pose proof (siblings_bound _ _ _ _ _ _ Ho Hinv Hl) as Hb.
  unfold vfs_readdir. change (y_vfs (out y cs)) with (y_vfs y). change (y_fs (out y cs)) with (y_fs y). rewrite Hres.
  cbn [mbind option_bind]. destruct (Z.eqb_spec d 0); [done|].
  cbn [orb be_flags be_has_ops be_readdir ramfs_backend y_fs snd]. unfold is_dir in Hdir.
  rewrite (node_at_Some _ _ _ Hn), Hdir, Hops. cbn [negb]. unfold ramfs_readdir. rewrite (node_at_Some _ _ _ Hn).
  unfold is_dir. rewrite Hdir. cbn [negb].
  rewrite (readdir_loop_ok _ _ _ l) by (done || lia || (by eapply siblings_fuel) || (unfold HEAP_INITIAL in Hb; lia)).
  destruct (Z.leb_spec 0 i); [|lia]. by rewrite Z.sub_0_r.
Qed.

Lemma ls_loop_ok k cs i :
  n_ops n = true -> (i <= length l < i + k)%nat ->
  ls_loop k (out y cs) path (Z.of_nat i) = Some (out y (cs ++ concat (map (ls_entry (y_ramfs y)) (drop i l)))).
Proof.
  intros Hops. revert cs i. induction k as [|k IH]; intros cs i Hk; [lia|].
  cbn [ls_loop]. rewrite readdir_ok by (done || lia). rewrite Nat2Z.id. cbn [mbind option_bind].
  destruct (l !! i) as [x|] eqn:Ex; cbn [mbind option_bind].
  - apply lookup_lt_Some in Ex as Hlt.
    rewrite (drop_S _ _ _ Ex). cbn [map concat]. replace (Z.of_nat i + 1) with (Z.of_nat (S i)) by lia.
    unfold ls_entry at 1. unfold is_dir.
    destruct (has_flag (n_flags (node_at (y_ramfs y) x)) VFS_DIRECTORY); rewrite !out_out, IH by lia;
      by rewrite <- !app_assoc.
  - rewrite drop_ge by (by apply lookup_ge_None). by rewrite app_nil_r.
Qed.
End ls.

(** The whole command on a directory. *)
Lemma cmd_ls_dir y lv args l path d n kids :
  fs_state y lv -> cstr (y_ram y) args l -> Z.of_nat (length l) < CMD_MAX ->
  path = (if bool_decide (drop_spaces l = []) then [slash] else drop_spaces l) ->
  vfs_resolve (y_vfs y) (y_fs y) path = Some d -> d <> 0 ->
  nodes (y_ramfs y) !! d = Some n -> is_dir n = true -> siblings (y_ramfs y) (n_children n) kids ->
  cmd_ls y args = Some (out y ((if n_ops n then concat (map (ls_entry (y_ramfs y)) kids) else []) ++ [VgaSetColor VGA_COLOR_LIGHT_GREY VGA_COLOR_BLACK; VgaPutchar 10])).
Proof.
  intros Hst Hs Hl Hpath Hres Hd Hn Hdir Hk. destruct (skip_spaces_ok _ _ _ Hs Hl) as (p & Ep & Hp & _ & _).
  pose proof (drop_spaces_length l) as Hdl.
  unfold cmd_ls. rewrite Ep. cbn [mbind option_bind]. rewrite (cstr_head_zero _ _ _ Hp).
  assert (Epath : (if match drop_spaces l with [] => true | _ => false end then [slash] else line_str (y_ram y) p) = path).
  { rewrite Hpath. rewrite (line_str_ok _ _ _ Hp) by lia. by destruct (drop_spaces l). }
  rewrite Epath, Hres. cbn [mbind option_bind]. destruct (Z.eqb_spec d 0); [done|]. cbv zeta.
  rewrite (node_at_Some _ _ _ Hn). unfold is_dir in Hdir. rewrite Hdir. cbn [negb].
  destruct (n_ops n) eqn:Hops.
  - pose proof (siblings_fuel _ _ _ Hk). rewrite <- (out_nil y) at 2.
    rewrite (ls_loop_ok y lv Hst path d n kids Hres Hd Hn Hdir Hk _ [] 0 Hops) by lia.
    cbn [mbind option_bind app drop]. by rewrite out_out.
  - cbn [ls_loop]. unfold vfs_readdir. rewrite Hres. cbn [mbind option_bind]. destruct (Z.eqb_spec d 0); [done|].
    cbn [orb be_flags be_has_ops ramfs_backend y_fs snd]. rewrite (node_at_Some _ _ _ Hn), Hdir, Hops. done.
Qed.

(** The argument of [ls]: the rest of the line, [/] when there is none. *)
Definition ls_path (l : list Z) : list Z := if bool_decide (drop_spaces l = []) then [slash] else drop_spaces l.

Lemma cmd_ls_ok y lv args l :
  fs_state y lv -> cstr (y_ram y) args l -> Z.of_nat (length l) < CMD_MAX ->
  exists d, vfs_resolve (y_vfs y) (y_fs y) (ls_path l) = Some d /\
    if d =? 0 then cmd_ls y args = Some (complain y "ls: not found: " (ls_path l))
    else exists n, nodes (y_ramfs y) !! d = Some n /\
      if is_dir n then exists kids, siblings (y_ramfs y) (n_children n) kids /\
        cmd_ls y args = Some (out y ((if n_ops n then concat (map (ls_entry (y_ramfs y)) kids) else []) ++
          [VgaSetColor VGA_COLOR_LIGHT_GREY VGA_COLOR_BLACK; VgaPutchar 10]))
      else cmd_ls y args = Some (out y ([puts (n_name n); VgaPuts "  "] ++ print_uint (n_size n) ++ [VgaPuts (line " B")])).
Proof.
  intros Hst Hs Hl. pose proof Hst as (Ho & Hfs & Hv).
  destruct (vfs_resolve_total (y_machine y) (y_vfs y) (y_fs y) (ls_path l)) as (d & Hres & Hd); [by exists lv|done|].
  exists d. split; [done|].
  assert (Hcmd : cmd_ls y args = if d =? 0 then Some (complain y "ls: not found: " (ls_path l)) else
    if negb (is_dir (node_at (y_ramfs y) d)) then
      Some (out y ([puts (n_name (node_at (y_ramfs y) d)); VgaPuts "  "] ++ print_uint (n_size (node_at (y_ramfs y) d)) ++ [VgaPuts (line " B")]))
    else cmd_ls y args).
  { destruct (skip_spaces_ok _ _ _ Hs Hl) as (p & Ep & Hp & _ & _). pose proof (drop_spaces_length l) as Hdl.
    destruct ((d =? 0) || negb (is_dir (node_at (y_ramfs y) d))) eqn:Eb.
    2:{ apply orb_false_iff in Eb as [-> ->]. done. }
    unfold cmd_ls. rewrite Ep. cbn [mbind option_bind]. rewrite (cstr_head_zero _ _ _ Hp), (line_str_ok _ _ _ Hp) by lia.
    replace (if match drop_spaces l with [] => true | _ => false end then [slash] else drop_spaces l) with (ls_path l)
      by (unfold ls_path; by destruct (drop_spaces l)).
    rewrite Hres. cbn [mbind option_bind]. destruct (d =? 0); [done|]. cbn [orb] in Eb. cbv zeta. unfold is_dir in *. by rewrite Eb. }
  destruct (Z.eqb_spec d 0) as [->|Hd0]; [done|]. destruct Hd as [|[n Hn]]; [done|]. cbn [y_fs snd] in Hn.
  exists n. split; [done|]. rewrite (node_at_Some _ _ _ Hn) in Hcmd. destruct (is_dir n) eqn:Hdir; [|done].
  destruct (inv_dirs _ _ Hfs d n Hn) as [kids Hk]. exists kids. split; [done|]. by eapply cmd_ls_dir.
Qed.

(** C28: [ls] lists what is there.  On any argument it returns and changes nothing but
    the screen: the children of the directory the path leads to, in the order of its
    list and each once, directories with a slash; the name and size of a
    file; or the complaint that there is no such path. *)
Theorem cmd_ls_correct y lv args l
  (Hfs : fs_state y lv) (Harg : cstr (y_ram y) args l) (Hlen : Z.of_nat (length l) < CMD_MAX) :
  exists d, vfs_resolve (y_vfs y) (y_fs y) (ls_path l) = Some d /\
    if d =? 0 then cmd_ls y args = Some (complain y "ls: not found: " (ls_path l))
    else exists n, nodes (y_ramfs y) !! d = Some n /\
      if is_dir n then exists kids, siblings (y_ramfs y) (n_children n) kids /\ NoDup kids /\
        cmd_ls y args = Some (out y ((if n_ops n then concat (map (ls_entry (y_ramfs y)) kids) else []) ++
          [VgaSetColor VGA_COLOR_LIGHT_GREY VGA_COLOR_BLACK; VgaPutchar 10]))
      else cmd_ls y args = Some (out y ([puts (n_name n); VgaPuts "  "] ++ print_uint (n_size n) ++ [VgaPuts (line " B")])).
Proof.
  destruct (cmd_ls_ok y lv args l Hfs Harg Hlen) as (d & Hd & Hc). exists d. split; [done|]. destruct (d =? 0); [done|].
  destruct Hc as (n & Hn & Hc). exists n. split; [done|]. destruct (is_dir n); [|done]. destruct Hc as (kids & Hk & E).
  exists kids. split; [done|]. split; [by eapply siblings_NoDup|done].
Qed.

Lemma cmd_ls_correct_witness :
  exists w h d, demo_fs_heap = Some (w, h) /\
    vfs_resolve demo_vfs (h, demo_store) (bytes_of "/") = Some d /\
    exists n kids, nodes demo_store !! d = Some n /\ siblings demo_store (n_children n) kids /\
      cmd_ls (demo_sys w h (bytes_of " ")) 0x5000 =
        Some (out (demo_sys w h (bytes_of " ")) (concat (map (ls_entry demo_store) kids) ++ [VgaSetColor VGA_COLOR_LIGHT_GREY VGA_COLOR_BLACK; VgaPutchar 10])).
Proof.
  destruct demo_fs_owns as (w & h & E & Ho).
  destruct (demo_sys_ok w h (bytes_of " ") Ho) as (Hst & Hs & _); [repeat constructor; lia|cbn; lia|].
  destruct (cmd_ls_correct (demo_sys w h (bytes_of " ")) _ 0x5000 (bytes_of " ") Hst Hs ltac:(vm_compute; reflexivity))
    as (d & Hd & Hc). exists w, h, d. split; [exact E|]. split; [exact Hd|].
  assert (Hr : vfs_resolve demo_vfs (Heap 0 0 0, demo_store) (bytes_of "/") = Some d) by exact Hd.
  assert (Ed : d = root_node demo_vfs).
  { vm_compute in Hr. injection Hr as <-. reflexivity. }
  rewrite Ed in Hc. destruct Hc as (n & Hn & Hc). exists n. vm_compute in Hn. injection Hn as <-.
  destruct Hc as (kids & Hk & _ & Ec). exists kids. split; [rewrite Ed; reflexivity|]. split; [exact Hk|exact Ec].
Defined.

(** ** The invariant *)

Section system.
(** the arrays the code writes to *)
Context (statics : list (Z * Z)).

Record sys_inv (y : sys) (lv : list (Z * Z)) : Prop := {
  si_fs : fs_state y lv;
  si_sched : sched_inv (y_sched y);
  si_ready : scheduler_ready (y_sched y) = true;
  si_vmm : vmm_inv (y_ram y) (y_pmm y) (y_vmm y);
  si_off : off_heap (y_ram y) (y_pmm y) (y_vmm y);
  si_statics : forall a n, In (a, n) statics ->
    (a + n <= HEAP_START \/ HEAP_END <= a) /\ off_range a (a + n) (y_ram y) (y_pmm y) (y_vmm y);
  si_stacks : forall p, In p (stacks (y_sched y)) ->
    exists n, TASK_STACK_SIZE <= n /\ In (p, n) lv /\ foreign (y_ramfs y) p;
  si_distinct : NoDup (stacks (y_sched y));
  si_net : net_ok (y_net y);
  si_cursors : cursors_ok (y_e1000 y);
}.

(** Every task keeps its stacks, and every byte on them. *)
Definition stacks_kept (y : sys) (lv : list (Z * Z)) (y' : sys) (lv' : list (Z * Z)) : Prop :=
  forall p n, In p (stacks (y_sched y)) -> In (p, n) lv ->
    In p (stacks (y_sched y')) /\ In (p, n) lv' /\ forall x, p <= x < p + n -> load8 (y_ram y') x = load8 (y_ram y) x.

Definition safe_step (y : sys) (lv : list (Z * Z)) (y' : sys) (lv' : list (Z * Z)) : Prop :=
  sys_inv y' lv' /\ stacks_kept y lv y' lv'.

Lemma stacks_kept_refl y lv : stacks_kept y lv y lv.
Proof. by intros p n. Qed.

Lemma safe_refl y lv : sys_inv y lv -> safe_step y lv y lv.
Proof. intros Hi. split; [done|apply stacks_kept_refl]. Qed.

Lemma safe_trans y1 lv1 y2 lv2 y3 lv3 :
  safe_step y1 lv1 y2 lv2 -> safe_step y2 lv2 y3 lv3 -> safe_step y1 lv1 y3 lv3.
Proof.
  intros [_ K12] [I3 K23]. split; [done|]. intros p n Hp Hin. destruct (K12 p n Hp Hin) as (Hp2 & Hin2 & E2).
  destruct (K23 p n Hp2 Hin2) as (Hp3 & Hin3 & E3). split; [done|]. split; [done|]. intros x Hx. by rewrite E3, E2.
Qed.

(** Printing, and anything else that leaves memory and the invariant's parts. *)
Lemma safe_out y lv cs : sys_inv y lv -> safe_step y lv (out y cs) lv.
Proof. intros [I1 I2 I3 I4 I5 I6 I7 I8 I9 I10]. split; [by split|by intros p n]. Qed.

Lemma safe_e1000 y lv e : sys_inv y lv -> cursors_ok e -> safe_step y lv (with_y_e1000 y e) lv.
Proof. intros [I1 I2 I3 I4 I5 I6 I7 I8 I9 I10] He. split; [by split|by intros p n]. Qed.

Lemma safe_halt y lv s : sys_inv y lv -> safe_step y lv (halt y s) lv.
Proof. intros [I1 I2 I3 I4 I5 I6 I7 I8 I9 I10]. split; [by split|by intros p n]. Qed.

(** Writes to the static arrays. *)
Lemma safe_statics y lv w :
  sys_inv y lv -> same_except statics (y_ram y) (ram w) -> safe_step y lv (with_y_machine y w) lv.
Proof.
  intros [I1 I2 I3 I4 I5 I6 I7 I8 I9 I10] Ho.
  assert (Hheap : forall x, HEAP_START <= x < HEAP_END -> load8 (ram w) x = load8 (y_ram y) x).
  { intros x Hx. apply Ho. intros [a n] Hin Hw. destruct (I6 a n Hin) as [Hd _]. unfold within in Hw. cbn [fst snd] in Hw. lia. }
  destruct (vmm_inv_ext (y_ram y) (ram w) (y_pmm y) (y_vmm y) I4) as (V1 & V2 & _).
  { intros x Hx. apply Ho. intros [a n] Hin Hw. destruct (I6 a n Hin) as [_ Hr]. by eapply off_range_byte. }
  destruct (fs_state_outside y w lv I1 Hheap) as [F1 _]. split.
  - split; try done.
    + by apply V2.
    + intros a n Hin. destruct (I6 a n Hin). split; [done|by apply V2].
  - intros p n Hp Hin. split; [done|]. split; [done|]. intros x Hx. apply Hheap.
    pose proof (owns_bounds _ _ _ _ _ (proj1 I1) Hin). lia.
Qed.

(** What the filesystem does. *)
Lemma safe_fs y lv w h fs lv' v :
  sys_inv y lv -> fs_moves (y_machine y) (y_ramfs y) lv w h fs lv' -> vfs_inv v (h, fs) ->
  safe_step y lv (with_y_fs y w v (h, fs)) lv'.
Proof.
  intros [I1 I2 I3 I4 I5 I6 I7 I8 I9 I10] [M1 M2 M3 M4 _ M5 M6] Hv.
  destruct (vmm_inv_outside _ _ _ (ram w) _ _ I4 I5 M5) as (V1 & V2 & _). split.
  - split; try done.
    + by apply V2.
    + intros a n Hin. destruct (I6 a n Hin). split; [done|by apply V2].
    + intros p Hp. destruct (I7 p Hp) as (n & Hn & Hin & Hfor). destruct (M3 p n Hin Hfor) as (Hin' & Hfor' & _).
      by exists n.
  - intros p n Hp Hin. destruct (I7 p Hp) as (k & _ & _ & Hfor). destruct (M3 p n Hin Hfor) as (Hin' & _ & E). done.
Qed.

(** ** Creating tasks *)

Lemma fs_inv_incl fs lv lv' : (forall q, In q lv -> In q lv') -> fs_inv fs lv -> fs_inv fs lv'.
Proof.
  intros Hi [I1 I2 I3 I4 I5 I6 I7]. split; try done.
  - intros a n Hn. destruct (I1 a n Hn) as [k Hk]. eauto.
  - intros a f Hf. destruct (I2 a f Hf) as [k Hk]. eauto.
  - intros a f Hf. destruct (I3 a f Hf) as [|(Hc & k & Hk & Hle)]; [by left|right]. eauto.
Qed.

Lemma vfs_inv_heap v (h h' : heap) fs : vfs_inv v (h, fs) -> vfs_inv v (h', fs).
Proof. by apply vfs_inv_mono. Qed.

(** A fresh payload is nobody's. *)
Lemma fresh_foreign fs lv p : fs_inv fs lv -> p <> 0 -> (forall k, ~ In (p, k) lv) -> foreign fs p.
Proof.
  intros [I1 I2 I3 _ _ _ _] Hp Hf. split; [|split].
  - destruct (nodes fs !! p) as [n|] eqn:E; [|done]. destruct (I1 p n E) as [k Hk]. by apply Hf in Hk.
  - destruct (files fs !! p) as [f|] eqn:E; [|done]. destruct (I2 p f E) as [k Hk]. by apply Hf in Hk.
  - intros a f Hf' <-. destruct (I3 a f Hf') as [[? _]|(_ & k & Hk & _)]; [done|by apply Hf in Hk].
Qed.

(** New stacks beside the old ones; [news] are those of the new task. *)
Lemma stacks_grow y lv s' lv' news :
  sys_inv y lv -> (forall q, In q lv -> In q lv') -> stacks s' = stacks (y_sched y) ++ news -> NoDup news ->
  (forall p, In p news -> p <> 0 /\ (forall k, ~ In (p, k) lv) /\ exists n, TASK_STACK_SIZE <= n /\ In (p, n) lv') ->
  (forall p, In p (stacks s') -> exists n, TASK_STACK_SIZE <= n /\ In (p, n) lv' /\ foreign (y_ramfs y) p) /\
  NoDup (stacks s').
Proof.
  intros [I1 I2 I3 I4 I5 I6 I7 I8 I9 I10] Hsub -> Hnd Hnews. split.
  - intros p [Hp|Hp]%in_app_iff.
    + destruct (I7 p Hp) as (n & Hn & Hin & Hf). exists n. auto.
    + destruct (Hnews p Hp) as (H0 & Hfr & n & Hn & Hin). exists n. split; [done|]. split; [done|].
      by eapply fresh_foreign; [apply I1|..].
  - apply list_relations.list.NoDup_app. split; [done|]. split; [|done]. intros p Hp%list_elem_of_In Hp'%list_elem_of_In.
    destruct (I7 p Hp) as (n & _ & Hin & _). by apply (proj1 (proj2 (Hnews p Hp')) n).
Qed.

Lemma safe_create y lv task_exit entry name :
  sys_inv y lv -> 0 <= task_exit < 2 ^ 32 -> 0 <= entry < 2 ^ 32 ->
  exists id w h s lv', task_create task_exit (y_machine y) (y_heap y) (y_sched y) entry name = Some (id, w, h, s) /\
    safe_step y lv (with_y_task y w h (y_vmm y) s) lv'.
Proof.
  intros Hinv He Hen. pose proof Hinv as [I1 I2 I3 I4 I5 I6 I7 I8 I9 I10]. pose proof I1 as (Ho & Hfs & Hv).
  destruct (task_create_cases task_exit He (y_machine y) (y_heap y) (y_sched y) entry name lv Ho I2 Hen) as
    [E|(w & h & s & lv' & st & sz & Hlt & E & Ho' & Hk & Hap & Hlv & Hout & Hs & Hn & Hc & Hg & Ht)].
  { eexists _, _, _, _, lv. split; [exact E|]. split; [by split|by intros p n]. }
  destruct Ht as (_ & _ & _ & Hb & Hub & Hsz & _). pose proof (inv_count _ I2) as Hcnt.
  destruct (vmm_inv_outside _ _ _ (ram w) _ _ I4 I5 Hout) as (V1 & V2 & _).
  assert (Hsub : forall q, In q lv -> In q lv') by (intros [p n] Hq; apply Hlv; by left).
  assert (Hst : In (st, sz) lv') by (apply Hlv; by right).
  pose proof (owns_bounds _ _ _ _ _ Ho' Hst) as Hstb. unfold TASK_STACK_SIZE, HEAP_START in *.
  assert (Hfresh : forall k, ~ In (st, k) lv).
  { intros k Hk'. pose proof (owns_unique _ _ _ _ _ _ Ho' (Hsub _ Hk') Hst) as ->. specialize (Hap _ _ Hk'). lia. }
  assert (Estk : stacks s = stacks (y_sched y) ++ [st]).
  { rewrite (stacks_new (y_sched y) s) by (lia || done). unfold task_stacks. rewrite Hb, Hub.
    rewrite filter_cons_True by lia. by rewrite filter_cons_False by lia. }
  destruct (stacks_grow y lv s lv' [st] Hinv Hsub Estk) as [S1 S2]; [by apply NoDup_singleton| |].
  { intros p [<-|[]]. split; [lia|]. split; [done|]. exists sz. done. }
  eexists _, w, h, s, lv'. split; [exact E|]. split.
  - split; try done.
    + split; [done|]. split; [by eapply fs_inv_incl|by eapply vfs_inv_heap].
    + cbn [y_sched with_y_task]. rewrite <- I3. by eapply create_ready.
    + by apply V2.
    + intros a n Hin. destruct (I6 a n Hin). split; [done|by apply V2].
  - intros p n Hp Hin. cbn [y_sched with_y_task]. rewrite Estk. split; [apply in_app_iff; by left|].
    split; [by apply Hsub|]. intros x Hx. by apply (Hk p n).
Qed.

Lemma safe_create_user y lv entry name :
  sys_inv y lv -> 0 <= entry < 2 ^ 32 ->
  exists id w h v s lv', task_create_user (y_machine y) (y_heap y) (y_vmm y) (y_sched y) entry name = Some (id, w, h, v, s) /\
    safe_step y lv (with_y_task y w h v s) lv'.
Proof.
  intros Hinv Hen. pose proof Hinv as [I1 I2 I3 I4 I5 I6 I7 I8 I9 I10]. pose proof I1 as (Ho & Hfs & Hv).
  destruct (task_create_user_cases (y_machine y) (y_heap y) (y_pmm y) (y_vmm y) (y_sched y) entry name lv Ho I2 I4 I5 Hen)
    as (id & w & h & v & s & lv' & E & Ho' & Hk & Hvm & Hoff & Hr & Hc).
  pose proof (create_user_ready _ _ _ _ _ _ _ _ _ _ _ E) as Hrd. pose proof (inv_count _ I2) as Hcnt.
  eexists id, w, h, v, s, lv'. split; [exact E|].
  assert (Hst : (forall q, In q lv -> In q lv') /\ sched_inv s /\ (forall p, In p (stacks (y_sched y)) -> In p (stacks s)) /\
    (forall p, In p (stacks s) -> exists n, TASK_STACK_SIZE <= n /\ In (p, n) lv' /\ foreign (y_ramfs y) p) /\
    NoDup (stacks s)).
  { destruct Hc as [(_ & -> & Hlv & _)|(-> & Hlt & Hs & Hn & Hcu & Hg & (ksz & usz & Hks & Hus & Ha & Ha' & Hlv) & Ht)].
    - split; [by intros [p n] Hq; apply Hlv|]. split; [done|]. split; [done|]. split; [|done].
      intros p Hp. destruct (I7 p Hp) as (n & Hn & Hin & Hf). exists n. split; [done|]. split; [by apply Hlv|done].
    - set (t := get_task s (count (y_sched y))) in *.
      assert (Hsub : forall q, In q lv -> In q lv') by (intros [p n] Hq; apply Hlv; by left).
      assert (Hk' : In (stack_base t, ksz) lv') by (apply Hlv; right; by left).
      assert (Hu' : In (user_stack_base t, usz) lv') by (apply Hlv; right; by right).
      pose proof (owns_bounds _ _ _ _ _ Ho' Hk') as Hkb. pose proof (owns_bounds _ _ _ _ _ Ho' Hu') as Hub.
      unfold TASK_STACK_SIZE, HEAP_START in *.
      assert (Hfk : forall k, ~ In (stack_base t, k) lv).
      { intros k Hq. pose proof (owns_unique _ _ _ _ _ _ Ho' (Hsub _ Hq) Hk') as ->. specialize (Ha _ _ Hq). lia. }
      assert (Hfu : forall k, ~ In (user_stack_base t, k) lv).
      { intros k Hq. pose proof (owns_unique _ _ _ _ _ _ Ho' (Hsub _ Hq) Hu') as ->. specialize (Ha' _ _ (or_intror Hq)). lia. }
      pose proof (Ha' _ _ (or_introl eq_refl)) as Hne.
      assert (Estk : stacks s = stacks (y_sched y) ++ [stack_base t; user_stack_base t]).
      { rewrite (stacks_new (y_sched y) s) by (lia || done). fold t. unfold task_stacks.
        rewrite filter_cons_True by lia. by rewrite filter_cons_True by lia. }
      split; [done|]. split; [done|]. split; [intros p Hp; rewrite Estk; apply in_app_iff; by left|].
      apply (stacks_grow y lv s lv' _ Hinv Hsub Estk).
      + constructor; [|by apply NoDup_singleton]. rewrite list_elem_of_singleton. lia.
      + intros p [<-|[<-|[]]]; (split; [lia|]); (split; [done|]); [by exists ksz|by exists usz]. }
  destruct Hst as (Hsub & Hs & Hin & S1 & S2). split.
  - split; try done.
    + split; [done|]. split; [by eapply fs_inv_incl|by eapply vfs_inv_heap].
    + cbn [y_sched with_y_task]. congruence.
    + intros a n Ha. destruct (I6 a n Ha) as [Hd Hr']. split; [done|]. by apply Hr.
  - intros p n Hp Hq. split; [by apply Hin|]. split; [by apply Hsub|]. intros x Hx. by apply (Hk p n).
Qed.

(** ** The commands *)

Section commands.
Context (line_buf cat_buf newline user_demo_entry : Z) (polls : nat).
Context (Hline : In (line_buf, CMD_MAX) statics) (Hcatb : In (cat_buf, 128) statics).
Context (Hnl : newline + 1 <= HEAP_START \/ HEAP_END <= newline) (Hentry : 0 <= user_demo_entry < 2 ^ 32).

(** On every argument in the line buffer the command comes back safely. *)
Definition safe_command (h : sys -> Z -> option sys) : Prop :=
  forall y lv args l, sys_inv y lv -> cstr (y_ram y) args l -> line_buf <= args ->
    args + Z.of_nat (length l) < line_buf + CMD_MAX ->
    exists y' lv', h y args = Some y' /\ safe_step y lv y' lv' /\ y_halted y' = y_halted y.

Lemma safe_printer f : (forall y args, exists cs, f y args = Some (out y cs)) -> safe_command f.
Proof. intros Hf y lv args l Hi _ _ _. destruct (Hf y args) as [cs ->]. eexists _, lv. split; [done|]. split; [by apply safe_out|done]. Qed.

(** A path on the line. *)
Lemma arg_path y args l :
  cstr (y_ram y) args l -> line_buf <= args -> args + Z.of_nat (length l) < line_buf + CMD_MAX ->
  exists p, skip_spaces (y_ram y) args = Some p /\ cstr (y_ram y) p (drop_spaces l) /\
    line_str (y_ram y) p = drop_spaces l /\
    (load8 (y_ram y) p =? 0) = (match drop_spaces l with [] => true | _ => false end) /\
    line_buf <= p /\ p + Z.of_nat (length (drop_spaces l)) < line_buf + CMD_MAX.
Proof.
  intros Hs Hlo Hhi. destruct (skip_spaces_ok _ _ _ Hs) as (p & Ep & Hp & Hpl & Hpe); [lia|].
  pose proof (drop_spaces_length l). exists p. split; [done|]. split; [done|].
  split; [apply line_str_ok; [done|lia]|]. split; [by apply cstr_head_zero|lia].
Qed.

Lemma safe_complain y lv y1 lv1 msg path :
  safe_step y lv y1 lv1 -> safe_step y lv (complain y1 msg path) lv1.
Proof. intros S1. eapply safe_trans; [exact S1|]. apply safe_out, S1. Qed.

Lemma cmd_ls_safe : safe_command cmd_ls.
Proof.
  intros y lv args l Hi Hs Hlo Hhi. destruct (cmd_ls_ok y lv args l (si_fs _ _ Hi) Hs) as (d & _ & Hc); [lia|].
  assert (Hout : exists cs, cmd_ls y args = Some (out y cs)).
  { destruct (d =? 0); [by eexists|]. destruct Hc as (n & _ & Hc). destruct (is_dir n); [destruct Hc as (kids & _ & Hc)|]; by eexists. }
  destruct Hout as [cs ->]. eexists _, lv. split; [done|]. split; [by apply safe_out|done].
Qed.

Lemma cmd_mkdir_safe : safe_command cmd_mkdir.
Proof.
  intros y lv args l Hi Hs Hlo Hhi. destruct (arg_path y args l Hs Hlo Hhi) as (p & Ep & Hp & Es & Ez & _).
  pose proof (si_fs _ _ Hi) as (Ho & Hfs & Hv).
  unfold cmd_mkdir. rewrite Ep. cbn [mbind option_bind]. destruct (load8 (y_ram y) p =? 0).
  { eexists _, lv. split; [done|]. split; [by apply safe_out|done]. }
  rewrite Es. destruct (mkdir_moves (y_machine y) (y_vfs y) (y_heap y) (y_ramfs y) lv (drop_spaces l) Ho Hfs Hv)
    as (rc & w & h & fs & lv' & E & M). cbv zeta. unfold y_fs. rewrite E. cbn [mbind option_bind].
  assert (S1 : safe_step y lv (with_y_fs y w (y_vfs y) (h, fs)) lv') by (apply safe_fs; [done|done|by eapply moves_vfs]).
  eexists _, lv'. split; [done|]. destruct (rc <? 0); (split; [|done]); [by apply safe_complain|done].
Qed.

Lemma cmd_touch_safe : safe_command cmd_touch.
Proof.
  intros y lv args l Hi Hs Hlo Hhi. destruct (arg_path y args l Hs Hlo Hhi) as (p & Ep & Hp & Es & Ez & _).
  pose proof (si_fs _ _ Hi) as (Ho & Hfs & Hv).
  unfold cmd_touch. rewrite Ep. cbn [mbind option_bind]. destruct (load8 (y_ram y) p =? 0).
  { eexists _, lv. split; [done|]. split; [by apply safe_out|done]. }
  rewrite Es. destruct (create_file_moves (y_machine y) (y_vfs y) (y_heap y) (y_ramfs y) lv (drop_spaces l) Ho Hfs Hv)
    as (c & w & h & fs & lv' & E & M & _). cbv zeta. unfold y_fs. rewrite E. cbn [mbind option_bind].
  assert (S1 : safe_step y lv (with_y_fs y w (y_vfs y) (h, fs)) lv') by (apply safe_fs; [done|done|by eapply moves_vfs]).
  eexists _, lv'. split; [done|]. destruct (c =? 0); (split; [|done]); [by apply safe_complain|done].
Qed.

Lemma cmd_cat_safe : safe_command (cmd_cat cat_buf).
Proof.
  intros y lv args l Hi Hs Hlo Hhi. destruct (arg_path y args l Hs Hlo Hhi) as (p & Ep & Hp & Es & Ez & _).
  pose proof (si_fs _ _ Hi) as (Ho & Hfs & Hv). destruct (si_statics _ _ Hi _ _ Hcatb) as [Hcat _].
  unfold cmd_cat. rewrite Ep. cbn [mbind option_bind]. destruct (load8 (y_ram y) p =? 0).
  { eexists _, lv. split; [done|]. split; [by apply safe_out|done]. }
  rewrite Es. destruct (open_moves (y_machine y) (y_vfs y) (y_heap y) (y_ramfs y) lv (drop_spaces l) VFS_O_RDONLY Ho Hfs Hv eq_refl)
    as (fd & w & v & h & fs & lv' & E & M & Hv' & Hfd). change (y_heap y, y_ramfs y) with (y_fs y) in E. cbv zeta. rewrite E. cbn [mbind option_bind].
  pose proof (safe_fs y lv w h fs lv' v Hi M Hv') as S1. set (y1 := with_y_fs y w v (h, fs)) in *.
  destruct Hfd as [[-> _]|[node Hop]]; [cbn [Z.ltb Z.compare]; eexists _, lv'; split; [done|]; split; [by apply safe_complain|done]|].
  destruct (Z.ltb_spec fd 0); [destruct Hop; lia|]. set (y2 := out y1 [VgaSetColor VGA_COLOR_LIGHT_GREY VGA_COLOR_BLACK]).
  assert (S2 : safe_step y lv y2 lv') by (eapply safe_trans; [exact S1|]; apply safe_out, S1).
  destruct S1 as [I1 _]. pose proof (si_fs _ _ I1) as Hst1.
  pose proof Hop as (Hf & Hu & En & _). destruct (inv_fds _ _ Hv' fd Hf Hu) as [Hn0 Hnode]. rewrite En in Hn0, Hnode.
  assert (Hloop : exists y3 off', cat_loop cat_buf CAT_FUEL y2 fd = Some y3 /\ y_fs y3 = y_fs y2 /\
    open_at (y_vfs y3) fd node off' /\ vfs_inv (y_vfs y3) (y_fs y2) /\ y3 = with_y_fs y2 (y_machine y3) (y_vfs y3) (y_fs y2) /\
    same_outside cat_buf (cat_buf + 128) (y_ram y2) (y_ram y3)).
  { destruct (regular_dec fs lv' node (mv_inv _ _ _ _ _ _ _ M)) as [Hreg|Hirr].
    - pose proof (content_length y1 lv' node Hst1 Hreg) as Hlen.
      destruct (cat_loop_ok cat_buf Hcat CAT_FUEL y2 lv' fd node 0) as
        (y3 & cs & E3 & _ & _ & _ & Hst3 & Efs & (off' & Hop3) & _ & _ & _ & Hout); [done..|lia| |].
      { change (file_content y2 node) with (file_content y1 node). unfold CAT_FUEL. rewrite Nat2Z.inj_succ, Z2Nat.id by done. lia. }
      exists y3, off'. split; [done|]. split; [done|]. split; [done|]. split; [|split; [|done]].
      + rewrite <- Efs. apply Hst3.
      + by eapply cat_loop_parts.
    - exists y2, 0. split; [|by split].
      apply (cat_loop_stop cat_buf (Z.to_nat HEAP_INITIAL)).
      apply (read_irregular (y_machine y2) (y_vfs y2) h fs fd node 0 cat_buf 127 Hnode Hirr Hop). }
  destruct Hloop as (y3 & off' & -> & Efs & Hop3 & Hv3 & Ey3 & Hout). cbn [mbind option_bind].
  destruct (vfs_close_ok (y_vfs y3) (y_fs y3) fd node off') as (v4 & -> & Hv4 & _); [by rewrite Efs|done|]. cbn [snd].
  assert (S3 : safe_step y lv (with_y_machine y2 (y_machine y3)) lv').
  { eapply safe_trans; [exact S2|]. apply safe_statics; [apply S2|]. by eapply same_except_in. }
  eexists _, lv'. split; [done|]. split; [|cbn [y_halted with_y_fs]; by rewrite Ey3].
  eapply safe_trans; [exact S3|]. rewrite Ey3. destruct S3 as [[J1 J2 J3 J4 J5 J6 J7 J8 J9 J10] _].
  split; [|by intros q n]. rewrite Efs in Hv4. destruct J1 as (J1 & J1' & _). by split.
Qed.

Lemma take_token_any n m p l :
  cstr m p l -> let '(a, q) := take_token n m p in
  exists b, l = a ++ b /\ q = p + Z.of_nat (length a) /\ cstr m q b.
Proof.
  revert p l. induction n as [|n IH]; intros p l Hs; cbn [take_token].
  { exists l. rewrite Z.add_0_r. done. }
  destruct l as [|c l]; cbn [cstr] in Hs.
  { rewrite Hs. cbn [orb Z.eqb]. exists []. rewrite Z.add_0_r. done. }
  destruct Hs as (Ec & Hc & Hl). rewrite Ec. destruct (Z.eqb_spec c 0); [done|]. cbn [orb].
  destruct (c =? 32); [exists (c :: l); rewrite Z.add_0_r; by split; [|split; [|split; [|split]]]|].
  specialize (IH (p + 1) l Hl). destruct (take_token n m (p + 1)) as [a q]. destruct IH as (b & -> & -> & Hb).
  exists b. cbn [length app]. split; [done|]. split; [lia|done].
Qed.

Lemma cmd_write_safe : safe_command (cmd_write newline).
Proof.
  intros y lv args l Hi Hs Hlo Hhi. destruct (arg_path y args l Hs Hlo Hhi) as (p & Ep & Hp & _ & _ & Hpl & Hph).
  pose proof (si_fs _ _ Hi) as (Ho & Hfs & Hv). destruct (si_statics _ _ Hi _ _ Hline) as [Hoff _].
  unfold cmd_write. rewrite Ep. cbn [mbind option_bind]. destruct (load8 (y_ram y) p =? 0).
  { eexists _, lv. split; [done|]. split; [by apply safe_out|done]. }
  pose proof (take_token_any 127 _ _ _ Hp) as Ht. destruct (take_token 127 (y_ram y) p) as [path p1].
  destruct Ht as (rest & El & -> & Hrest). rewrite El, length_app in Hph.
  destruct (arg_path y _ rest Hrest) as (q & Eq & Hq & _ & _ & Hql & Hqh); [lia|lia|].
  rewrite Eq. cbn [mbind option_bind]. destruct (load8 (y_ram y) q =? 0).
  { eexists _, lv. split; [done|]. split; [by apply safe_out|done]. }
  set (text := drop_spaces rest) in *.
  destruct (open_moves (y_machine y) (y_vfs y) (y_heap y) (y_ramfs y) lv path
    (Z.lor (Z.lor VFS_O_WRONLY VFS_O_CREAT) VFS_O_TRUNC) Ho Hfs Hv eq_refl)
    as (fd & w & v & h & fs & lv1 & E & M & Hv1 & Hfd).
  change (y_heap y, y_ramfs y) with (y_fs y) in E. rewrite E. cbn [mbind option_bind]. cbv zeta.
  pose proof (safe_fs y lv w h fs lv1 v Hi M Hv1) as S1.
  destruct Hfd as [[-> _]|[node Hop]]; [cbn [Z.ltb Z.compare]; eexists _, lv1; split; [done|]; split; [by apply safe_complain|done]|].
  destruct (Z.ltb_spec fd 0); [destruct Hop; lia|].
  assert (Hq1 : cstr (ram w) q text).
  { eapply cstr_ext; [|exact Hq]. intros a Ha. apply (mv_out _ _ _ _ _ _ _ M). lia. }
  unfold strlen. rewrite (strlen_loop_ok _ q text) by (rewrite ?Z.add_0_r; done || unfold CMD_MAX in *; lia). cbn [mbind option_bind].
  unfold CMD_MAX in *.
  destruct (vfs_write_moves w v h fs lv1 fd node 0 q (0 + Z.of_nat (length text))) as
    (rc2 & w2 & v2 & h2 & fs2 & lv2 & o2 & -> & M2 & Hv2 & Hop2 & Ho2); [apply M|apply M|done|done|lia|lia|lia|lia|].
  cbn [mbind option_bind].
  destruct (vfs_write_moves w2 v2 h2 fs2 lv2 fd node o2 newline 1) as
    (rc3 & w3 & v3 & h3 & fs3 & lv3 & o3 & -> & M3 & Hv3 & Hop3 & Ho3); [apply M2|apply M2|done|done|lia|lia|lia|lia|].
  cbn [mbind option_bind]. destruct (vfs_close_ok v3 (h3, fs3) fd node o3 Hv3 Hop3) as (v4 & -> & Hv4 & _).
  eexists _, lv3. split; [done|]. split; [|done]. apply safe_fs; [done| |done].
  eapply fs_moves_trans; [exact M|]. eapply fs_moves_trans; [exact M2|exact M3].
Qed.

Lemma link_up_cursors e : cursors_ok e -> cursors_ok (e1000_link_up e).2.
Proof. unfold e1000_link_up. by destruct (negb (initialised e)). Qed.

Lemma cmd_net_safe : safe_command cmd_net.
Proof.
  intros y lv args l Hi _ _ _. unfold cmd_net. cbv zeta. set (y1 := out y _).
  assert (S1 : safe_step y lv y1 lv) by (by apply safe_out).
  pose proof (link_up_cursors _ (si_cursors _ _ Hi)) as Hc. change (y_e1000 y1) with (y_e1000 y).
  destruct (e1000_link_up (y_e1000 y)) as [up e]. cbn [snd] in Hc. eexists _, lv. split; [done|]. split; [|done].
  assert (S2 : safe_step y lv (with_y_e1000 y1 e) lv) by (eapply safe_trans; [exact S1|]; apply safe_e1000; [apply S1|done]).
  eapply safe_trans; [exact S2|]. apply safe_out, S2.
Qed.

Lemma cmd_syscall_safe : safe_command (cmd_syscall user_demo_entry).
Proof.
  intros y lv args l Hi _ _ _. unfold cmd_syscall. set (y1 := out y _).
  assert (S1 : safe_step y lv y1 lv) by (by apply safe_out).
  destruct (safe_create_user y1 lv user_demo_entry "user_demo" (proj1 S1) Hentry) as (id & w & h & v & s & lv' & E & S2).
  cbv zeta. rewrite E. cbn [mbind option_bind]. eexists _, lv'. split; [done|]. split; [|by destruct (id =? u32 (-1))].
  pose proof (safe_trans _ _ _ _ _ _ S1 S2) as S3.
  destruct (id =? u32 (-1)); (eapply safe_trans; [exact S3|]; apply safe_out, S3).
Qed.

(** Every command but [reboot]. *)
Lemma command_safe i n h :
  commands cat_buf newline user_demo_entry polls !! i = Some (n, h) -> n <> "reboot"%string -> safe_command h.
Proof.
  intros Hi Hn. destruct i as [|[|[|[|[|[|[|[|[|[|[|[|[|[|[|i]]]]]]]]]]]]]]]; try discriminate Hi; injection Hi as <- <-; try done.
  all: try (apply safe_printer; intros y args; unfold cmd_help, cmd_clear, cmd_meminfo, cmd_uptime, cmd_ps, cmd_virt, cmd_echo;
    repeat case_match; by eexists).
  - apply cmd_ls_safe.
  - apply cmd_cat_safe.
  - apply cmd_mkdir_safe.
  - apply cmd_touch_safe.
  - apply cmd_write_safe.
  - apply cmd_net_safe.
  - apply cmd_syscall_safe.
Qed.

(** A line whose first word is not [reboot]. *)
Definition reboots (l : list Z) : Prop := (split_word (drop_spaces l)).1 = bytes_of "reboot".

Abbreviation shell_execute := (shell_execute line_buf cat_buf newline user_demo_entry polls).

(** A word is a command of the table or it is not. *)
Lemma known_or_not name :
  (exists i n h, commands cat_buf newline user_demo_entry polls !! i = Some (n, h) /\ bytes_of n = name) \/
  (forall i n h, commands cat_buf newline user_demo_entry polls !! i = Some (n, h) -> bytes_of n <> name).
Proof.
  induction (commands cat_buf newline user_demo_entry polls) as [|[n h] l IH]; [by right|].
  destruct (decide (bytes_of n = name)); [left; by exists 0%nat, n, h|].
  destruct IH as [(i & n' & h' & Hi & E)|Hno]; [left; by exists (S i), n', h'|right].
  intros [|i] n' h' Hi; [by injection Hi as <- <-|by apply (Hno i n' h')].
Qed.

Lemma shell_execute_safe y lv l :
  sys_inv y lv -> cstr (y_ram y) line_buf l -> Z.of_nat (length l) < CMD_MAX ->
  (~ reboots l -> exists y' lv', shell_execute y = Some y' /\ safe_step y lv y' lv' /\ y_halted y' = y_halted y) /\
  (forall y', shell_execute y = Some y' -> exists lv', safe_step y lv y' lv').
Proof.
  intros Hi Hs Hl. pose proof (shell_execute_ok line_buf cat_buf newline user_demo_entry polls y l Hs Hl) as Hx.
  unfold reboots. destruct (split_word (drop_spaces l)) as [name rest] eqn:Esp. cbn [fst]. destruct Hx as [Hempty Hword].
  assert (Hgo : forall P : Prop, (exists y' lv', shell_execute y = Some y' /\ safe_step y lv y' lv' /\ y_halted y' = y_halted y) ->
    (P -> exists y' lv', shell_execute y = Some y' /\ safe_step y lv y' lv' /\ y_halted y' = y_halted y) /\
    (forall y', shell_execute y = Some y' -> exists lv', safe_step y lv y' lv')).
  { intros P (y' & lv' & E & S & Hh). split; [by exists y', lv'|]. rewrite E. intros y2 [= <-]. by exists lv'. }
  destruct (decide (name = [])) as [->|Hne].
  { apply Hgo. exists y, lv. split; [by apply Hempty|]. split; [by apply safe_refl|done]. }
  destruct (Hword Hne) as (args & Ha & Hlo & Hhi & Hcmd & Hunk).
  destruct (known_or_not name) as [(i & n & hd & Hin & En)|Hf].
  2:{ apply Hgo. eexists _, lv. split; [by apply Hunk|]. split; [by apply safe_out|done]. } rewrite (Hcmd i n hd Hin En). destruct (decide (n = "reboot"%string)) as [->|Hr].
  - split; [done|]. intros y' E. exists lv.
    assert (hd = cmd_reboot polls) as ->.
    { destruct i as [|[|[|[|[|[|[|[|[|[|[|[|[|[|[|i]]]]]]]]]]]]]]]; try discriminate Hin; by injection Hin as <-. }
    unfold cmd_reboot in E. destruct (reboot_ports _ _) as [s|]; [|done]. injection E as <-.
    pose proof (safe_out y lv [VgaPuts (line "Rebooting...")] Hi) as S1. eapply safe_trans; [exact S1|]. apply safe_halt, S1.
  - rewrite (Hcmd i n hd Hin En) in Hgo. apply Hgo. by apply (command_safe i n hd Hin Hr y lv args (drop_spaces rest)); [..|lia].
Qed.

(** ** The shell *)

Abbreviation shell_round := (shell_round line_buf cat_buf newline user_demo_entry polls).
Abbreviation shell_loop := (shell_loop line_buf cat_buf newline user_demo_entry polls).

Lemma shell_round_safe y lv keys rest :
  sys_inv y lv -> Forall (fun c => c <> 10) keys -> ~ reboots (fold_left edit keys []) ->
  exists y' lv', shell_round (keys ++ 10 :: rest) y = Some (rest, y') /\ safe_step y lv y' lv' /\ y_halted y' = y_halted y.
Proof.
  intros Hi Hk Hr. pose proof (safe_out y lv [VgaSetColor VGA_COLOR_LIGHT_GREEN VGA_COLOR_BLACK; VgaPuts "mshka> "; VgaSetColor VGA_COLOR_WHITE VGA_COLOR_BLACK] Hi) as S1.
  unfold Shell.shell_round. cbv zeta. unfold shell_prompt. set (y1 := out y _) in *.
  destruct (readline_loop_ok line_buf keys rest (y_machine y1) []) as (w & E & Hs & _ & Hl & _ & Ho); [done..|].
  unfold shell_readline. change (Z.of_nat (length [])) with 0 in E. rewrite E. cbn [mbind option_bind].
  assert (S2 : safe_step y1 lv (with_y_machine y1 w) lv).
  { apply safe_statics; [apply S1|]. by apply (same_except_in _ line_buf CMD_MAX). }
  destruct (shell_execute_safe (with_y_machine y1 w) lv (fold_left edit keys [])) as [Hx _]; [apply S2|done|done|].
  destruct (Hx Hr) as (y' & lv' & -> & S3 & Hh). cbn [mbind option_bind]. exists y', lv'. split; [done|]. split; [|done].
  eapply safe_trans; [exact S1|]. eapply safe_trans; [exact S2|exact S3].
Qed.

(** Lines typed one after the other. *)
Definition typed (lines : list (list Z)) : list Z := concat (map (fun l => l ++ [10]) lines).

Lemma shell_loop_safe y lv lines :
  sys_inv y lv -> y_halted y = false ->
  Forall (fun keys => Forall (fun c => c <> 10) keys /\ ~ reboots (fold_left edit keys [])) lines ->
  exists y' lv', shell_loop (length lines) (typed lines) y = Some ([], y') /\ safe_step y lv y' lv' /\ y_halted y' = false.
Proof.
  intros Hi Hh Hl. revert y lv Hi Hh. induction Hl as [|keys lines [Hk Hr] _ IH]; intros y lv Hi Hh.
  { exists y, lv. split; [done|]. split; [by apply safe_refl|done]. }
  cbn [length Shell.shell_loop]. rewrite Hh. unfold typed. cbn [map concat]. rewrite <- app_assoc. cbn [app]. fold (typed lines).
  destruct (shell_round_safe y lv keys (typed lines) Hi Hk Hr) as (y1 & lv1 & -> & S1 & Hh1). cbn [mbind option_bind].
  destruct (IH y1 lv1 (proj1 S1) ltac:(congruence)) as (y' & lv' & E & S2 & Hh'). exists y', lv'. split; [done|].
  split; [by eapply safe_trans|done].
Qed.
End commands.
End system.
