(* ===== verification/Live.v ===== *)
(** * The running system

    After start-up the kernel is driven from four sides: the line the user types
    into the shell, interrupts (the clock, the keyboard, system calls, yields), the
    Ethernet card, and the code of the task that has the processor.  [live_step]
    puts them together over one state: a round of the shell ([Shell]), a whole
    [isr_handler] with every handler registered ([Idt], [Timer], [Keyboard],
    [Syscall]) and the context switch it ends with ([Task]), a round of [net_task]
    ([NetStack]), what the card writes by itself, the exit of a task and the
    creation of one.

    Steps follow one another: an interrupt is taken between two of them, that is
    anywhere in the computations of a task but not inside a round of the shell, a
    poll of the network, the creation of a task or a system call.  The kernel runs
    most of this code with interrupts enabled and without locks, and an interrupt
    inside an allocation or a creation can break the invariant
    ([Heap.kmalloc_race], [Task.task_create_race]): it is outside the relation.  So are
    the system calls that [call_ok] excludes, whose arguments the kernel does not
    check: a [sys_read] to memory that is not the caller's, and a [sys_sbrk] that wraps
    around.

    The invariant of [System] holds in every state reached, and a step changes the
    stacks of no task but the one that was running. *)
From stdpp Require Import base numbers list gmap strings relations.
From Stdlib Require Import ZArith Lia.
From S2P Require Import Prelude.
From S2P Require Import Machine.
From S2P Require Import CString.
From S2P Require Import Io.
From S2P Require Import Pic.
From S2P Require Import Serial.
From S2P Require Import Keyboard.
From S2P Require Import Net.
From S2P Require Import Alloc.
From S2P Require Import Pmm.
From S2P Require Import Heap.
From S2P Require Import Vmm.
From S2P Require Import E1000.
From S2P Require Import NetStack.
From S2P Require Import Gdt.
From S2P Require Import Task.
From S2P Require Import Timer.
From S2P Require Import Idt.
From S2P Require Import Syscall.
From S2P Require Import Ramfs.
From S2P Require Import Vfs.
From S2P Require Import FsFrame.
From S2P Require Import Shell.
From S2P Require Import Kernel.
From S2P Require Import System.

(** ** The scheduler and the stacks *)

(** The task tables agree on who owns which stack. *)
Definition bases (t : task) : Z * Z := (stack_base t, user_stack_base t).
Definition same_bases (s s' : sched) : Prop :=
  count s' = count s /\ forall i, bases (get_task s' i) = bases (get_task s i).

#[export] Instance same_bases_preorder : PreOrder same_bases.
Proof.
  split; [by split|]. intros s1 s2 s3 [C1 B1] [C2 B2]. split; [congruence|]. intros i. by rewrite B2, B1.
Qed.

Lemma put_bases s i t : bases t = bases (get_task s i) -> same_bases s (put_task s i t).
Proof.
  intros Ht. split; [done|]. intros j. unfold get_task, put_task in *. cbn [tasks].
  destruct (decide (Z.to_nat i = Z.to_nat j)) as [<-|Hne].
  - destruct (decide (Z.to_nat i < length (tasks s))%nat).
    + by rewrite list_lookup_total_insert_eq by done.
    + by rewrite list_insert_ge by lia.
  - by rewrite list_lookup_total_insert_ne by done.
Qed.

Lemma exit_mark_bases s : same_bases s (task_exit_mark s).
Proof. by apply put_bases. Qed.

Lemma switch_bases s esp next : same_bases s (switch_to s esp next).
Proof.
  unfold switch_to. set (s2 := put_task s _ _). assert (H2 : same_bases s s2) by (by apply put_bases). cbv zeta.
  set (s3 := if bool_decide _ then _ else s2).
  assert (H3 : same_bases s2 s3) by (unfold s3; case_bool_decide; [by apply put_bases|done]). clearbody s3.
  etransitivity; [exact H2|]. etransitivity; [exact H3|]. apply (put_bases (set_current s3 next)). done.
Qed.

Lemma schedule_bases s g esp esp' s' g' : task_schedule_if_needed s g esp = (esp', s', g') -> same_bases s s'.
Proof.
  unfold task_schedule_if_needed. destruct (_ || _); [by intros [= _ <- _]|]. cbv zeta.
  destruct (_ =? _); [by intros [= _ <- _]|]. intros [= _ <- _]. apply (switch_bases (set_need s false)).
Qed.

Lemma same_bases_stacks s s' : same_bases s s' -> stacks s' = stacks s.
Proof. intros [Hc Hb]. apply stacks_ext; [done|]. intros i _. specialize (Hb i). by injection Hb. Qed.

Section live.
(** the arrays the code writes to, the boot stack among them *)
Context (statics : list (Z * Z)).
Abbreviation sys_inv := (sys_inv statics).
Abbreviation safe_step := (safe_step statics).

(** ** The running task and its memory *)

(** The stacks of the running task. *)
Definition mine (y : sys) : list Z := task_stacks (get_task (y_sched y) (current (y_sched y))).

(** The [n] bytes at [a] are the running task's: on one of its stacks, or static. *)
Definition owned (y : sys) (a n : Z) : Prop :=
  (exists p, In p (mine y) /\ p <= a /\ a + n <= p + TASK_STACK_SIZE) \/
  (exists p k, In (p, k) statics /\ p <= a /\ a + n <= p + k).

(** Every other task keeps its stacks, and every byte on them. *)
Definition others_kept (y : sys) (lv : list (Z * Z)) (y' : sys) (lv' : list (Z * Z)) : Prop :=
  forall p n, In p (stacks (y_sched y)) -> ~ In p (mine y) -> In (p, n) lv ->
    In p (stacks (y_sched y')) /\ In (p, n) lv' /\ forall x, p <= x < p + n -> load8 (y_ram y') x = load8 (y_ram y) x.

Definition run_step (y : sys) (lv : list (Z * Z)) (y' : sys) (lv' : list (Z * Z)) : Prop :=
  sys_inv y' lv' /\ others_kept y lv y' lv'.

Lemma safe_run y lv y' lv' : safe_step y lv y' lv' -> run_step y lv y' lv'.
Proof. intros [Hi Hk]. split; [done|]. intros p n Hp _ Hin. by apply Hk. Qed.

Lemma mine_stacks y : sched_inv (y_sched y) -> forall p, In p (mine y) -> In p (stacks (y_sched y)).
Proof.
  intros Hs p Hp. pose proof (inv_current _ Hs). unfold stacks. apply in_flat_map.
  exists (Z.to_nat (current (y_sched y))). split; [apply in_seq; lia|]. by rewrite Z2Nat.id by lia.
Qed.

(** The running task writes to its own memory. *)
Lemma run_write y lv w a n :
  sys_inv y lv -> owned y a n -> same_outside a (a + n) (y_ram y) (ram w) -> run_step y lv (with_y_machine y w) lv.
Proof.
  intros Hi [(p & Hp & Hlo & Hhi)|(p & k & Hin & Hlo & Hhi)] Ho.
  2:{ apply safe_run, safe_statics; [done|]. apply (same_except_in _ p k); [done|].
      eapply same_outside_mono; [..|exact Ho]; lia. }
  pose proof Hi as [(F1 & F2 & F3) I2 I3 I4 I5 I6 I7 I8 I9 I10].
  destruct (I7 p (mine_stacks y I2 p Hp)) as (k & Hk & Hin & _). pose proof (owns_bounds _ _ _ _ _ F1 Hin) as Hb.
  assert (Hout : same_outside HEAP_START HEAP_END (y_ram y) (ram w)) by (eapply same_outside_mono; [..|exact Ho]; lia).
  destruct (vmm_inv_outside _ _ _ (ram w) _ _ I4 I5 Hout) as (V1 & V2 & _). split.
  - split; try done.
    + split; [|done]. apply (owns_write (y_ram y) (ram w) _ lv p k F1 Hin). eapply same_outside_mono; [..|exact Ho]; lia.
    + by apply V2.
    + intros b m Hb'. destruct (I6 b m Hb'). split; [done|by apply V2].
  - intros q m Hq Hnot Hin'. split; [done|]. split; [done|]. intros x Hx. apply Ho.
    destruct (owns_apart _ _ _ _ _ _ _ F1 Hin Hin') as [[= -> ->]|Hd]; [done|lia].
Qed.

(** The scheduler's table changes, who owns which stack does not. *)
Definition with_y_sched (y : sys) (s : sched) : sys := with_y_task y (y_machine y) (y_heap y) (y_vmm y) s.

Lemma safe_sched y lv s :
  sys_inv y lv -> same_bases (y_sched y) s -> sched_inv s -> scheduler_ready s = true ->
  safe_step y lv (with_y_sched y s) lv.
Proof.
  intros [I1 I2 I3 I4 I5 I6 I7 I8 I9 I10] Hb Hs Hr. pose proof (same_bases_stacks _ _ Hb) as Es. split.
  - split; try done; cbn [y_sched with_y_sched with_y_task]; by rewrite Es.
  - intros p n Hp Hin. cbn [y_sched with_y_sched with_y_task]. by rewrite Es.
Qed.

Lemma run_safe y1 lv1 y2 lv2 y3 lv3 : run_step y1 lv1 y2 lv2 -> safe_step y2 lv2 y3 lv3 -> run_step y1 lv1 y3 lv3.
Proof.
  intros [_ K12] [I3 K23]. split; [done|]. intros p n Hp Hm Hin. destruct (K12 p n Hp Hm Hin) as (Hp2 & Hin2 & E2).
  destruct (K23 p n Hp2 Hin2) as (Hp3 & Hin3 & E3). split; [done|]. split; [done|]. intros x Hx. by rewrite E3, E2.
Qed.

(** Two steps of the same task. *)
Lemma run_run y1 lv1 y2 lv2 y3 lv3 :
  mine y2 = mine y1 -> run_step y1 lv1 y2 lv2 -> run_step y2 lv2 y3 lv3 -> run_step y1 lv1 y3 lv3.
Proof.
  intros Em [_ K12] [I3 K23]. split; [done|]. intros p n Hp Hm Hin. destruct (K12 p n Hp Hm Hin) as (Hp2 & Hin2 & E2).
  destruct (K23 p n Hp2 ltac:(congruence) Hin2) as (Hp3 & Hin3 & E3). split; [done|]. split; [done|].
  intros x Hx. by rewrite E3, E2.
Qed.

(** The invariant does not mention the clock, the ports and the console. *)
Record alike (y y' : sys) : Prop := {
  al_ram : y_ram y' = y_ram y;
  al_heap : y_heap y' = y_heap y;
  al_sched : y_sched y' = y_sched y;
  al_pmm : y_pmm y' = y_pmm y;
  al_vmm : y_vmm y' = y_vmm y;
  al_vfs : y_vfs y' = y_vfs y;
  al_ramfs : y_ramfs y' = y_ramfs y;
  al_net : y_net y' = y_net y;
  al_e1000 : y_e1000 y' = y_e1000 y;
}.

Lemma safe_alike y lv y' : sys_inv y lv -> alike y y' -> safe_step y lv y' lv.
Proof.
  intros [I1 I2 I3 I4 I5 I6 I7 I8 I9 I10] [E1 E2 E3 E4 E5 E6 E7 E8 E9]. unfold fs_state, y_fs in I1. split.
  - split; unfold fs_state, y_fs; rewrite ?E1, ?E2, ?E3, ?E4, ?E5, ?E6, ?E7, ?E8, ?E9; done.
  - intros p n Hp Hin. by rewrite E1, E3.
Qed.

(** A payload handed out. *)
Lemma safe_kmalloc y lv size ptr w h :
  sys_inv y lv -> 0 <= size < 2 ^ 32 - 7 -> kmalloc (y_machine y) (y_heap y) size = Some (ptr, w, h) ->
  exists lv', (forall q, In q lv -> In q lv') /\ safe_step y lv (with_y_task y w h (y_vmm y) (y_sched y)) lv'.
Proof.
  intros Hi Hs E. change (@kmalloc) with (@kmalloc_op heap _) in E.
  assert (Hno : (ptr, w, h) = (0, y_machine y, y_heap y) ->
    exists lv', (forall q, In q lv -> In q lv') /\ safe_step y lv (with_y_task y w h (y_vmm y) (y_sched y)) lv').
  { intros [= -> -> ->]. exists lv. split; [done|]. by apply safe_alike. }
  destruct (Z.eq_dec size 0) as [->|H0]; [rewrite kmalloc_zero in E; apply Hno; congruence|].
  pose proof Hi as [(F1 & F2 & F3) I2 I3 I4 I5 I6 I7 I8 I9 I10].
  destruct (kmalloc_law (y_machine y) (y_heap y) lv size F1 ltac:(lia) ltac:(lia)) as
    [E'|(ptr' & sz & lv' & w' & h' & E' & Ho' & Hc & H8 & Hlo & Hsz & He & Hap & Hk & Hso & Hiff)];
    rewrite E in E'; [apply Hno; congruence|]. injection E' as <- <- <-.
  assert (Hsub : forall q, In q lv -> In q lv') by (intros [q n] Hq; apply Hiff; by left).
  destruct (vmm_inv_outside _ _ _ (ram w) _ _ I4 I5 Hso) as (V1 & V2 & _).
  exists lv'. split; [done|]. split.
  - split; try done.
    + split; [done|]. split; [by eapply fs_inv_incl|by eapply vfs_inv_heap].
    + by apply V2.
    + intros b m Hb. destruct (I6 b m Hb). split; [done|by apply V2].
    + intros q Hq. destruct (I7 q Hq) as (n & Hn & Hin & Hf). exists n. auto.
  - intros q n Hq Hin. split; [done|]. split; [by apply Hsub|]. intros x Hx. by apply (Hk q n).
Qed.

Lemma owned_mine y y' a n : mine y' = mine y -> owned y a n -> owned y' a n.
Proof. intros Em [(p & Hp & Hb)|H]; [left|by right]. exists p. by rewrite Em. Qed.

Lemma owned_sub y a n b k : owned y a n -> a <= b -> b + k <= a + n -> owned y b k.
Proof.
  intros [(p & Hp & Hlo & Hhi)|(p & m & Hin & Hlo & Hhi)] H1 H2; [left; exists p|right; exists p, m]; (split; [done|lia]).
Qed.

(** ** Interrupts *)

(** The part of the state that [isr_handler] sees, and the state it leaves. *)
Definition kernel_of (y : sys) (g : gdt_state) (b : kbd) : kernel :=
  Kernel (y_machine y) (y_io y) (y_ticks y) b (y_sched y) g (y_heap y).
Definition sys_of (y : sys) (k : kernel) : sys :=
  {| y_machine := k_machine k; y_ticks := k_ticks k; y_sched := k_sched k; y_pmm := y_pmm y; y_heap := k_heap k;
     y_vmm := y_vmm y; y_vfs := y_vfs y; y_ramfs := y_ramfs y; y_net := y_net y; y_e1000 := y_e1000 y;
     y_io := k_io k; y_halted := y_halted y |}.

(** The handlers, over an empty table [s0].  A read that finds no key yields, which
    is a step of its own, and is tried again: here the key is there. *)
Context (polls : nat) (w0 : machine) (s0 : idt_state).
Context (Hs0 : forall i, 0 <= i < IDT_ENTRIES -> interrupt_handlers s0 !! Z.to_nat i = Some None).
Context (Hl0 : length (interrupt_handlers s0) = Z.to_nat IDT_ENTRIES).
Definition table : idt_state := all_handlers polls [] w0 s0.

(** What the kernel relies on in a system call and does not check: the buffer of a
    read is the caller's, an increment does not wrap around. *)
Definition call_ok (y : sys) (f : frame) : Prop :=
  f_int_no f = 128 ->
  (f_eax f = SYS_READ -> owned y (f_ecx f) 1) /\ (f_eax f = SYS_SBRK -> f_ebx f < 2 ^ 32 - 7).

Lemma write_loop_alike y n k fd p len r k1 :
  write_loop polls n k fd p len = Some (r, k1) -> alike (sys_of y k) (sys_of y k1) /\ k_gdt k1 = k_gdt k.
Proof.
  revert k p. induction n as [|n IH]; intros k p; cbn [write_loop]; [by intros [= _ <-]|].
  destruct (fd =? 1).
  { intros E. destruct (IH _ _ E) as [[A1 A2 A3 A4 A5 A6 A7 A8 A9] Eg]. by split. }
  destruct (fd =? 2); [|by intros [= _ <-]].
  destruct (serial_putc _ _ _) as [o|]; [|done]. cbn [mbind option_bind]. intros E.
  destruct (IH _ _ E) as [[A1 A2 A3 A4 A5 A6 A7 A8 A9] Eg]. by split.
Qed.

(** A system call up to its return value. *)
Lemma call_run y lv g b esp fn r k1 :
  sys_inv y lv -> f_int_no (frame_at (y_ram y) esp) = 128 -> call_ok y (frame_at (y_ram y) esp) ->
  syscall_table polls [] !! Z.to_nat (f_eax (frame_at (y_ram y) esp)) = Some fn ->
  fn (kernel_of y g b) esp = Some (Returns r k1) ->
  exists lv', (forall q, In q lv -> In q lv') /\ run_step y lv (sys_of y k1) lv' /\ k_gdt k1 = g /\
    (k_sched k1 = y_sched y \/ k_sched k1 = set_need (y_sched y) true).
Proof.
  intros Hi Hv Hok Hfn E. destruct (Hok Hv) as [Hread Hsbrk]. clear Hok.
  set (k := kernel_of y g b) in *. set (f := frame_at (y_ram y) esp) in *.
  assert (Hsame : alike y (sys_of y k)) by done.
  assert (H0 : 0 <= f_eax f) by apply load32_range.
  assert (Hdone : forall k2, alike y (sys_of y k2) -> k_gdt k2 = g -> k_sched k2 = y_sched y ->
    exists lv', (forall q, In q lv -> In q lv') /\ run_step y lv (sys_of y k2) lv' /\ k_gdt k2 = g /\
      (k_sched k2 = y_sched y \/ k_sched k2 = set_need (y_sched y) true)).
  { intros k2 Ha Eg Es. exists lv. split; [done|]. split; [by apply safe_run, safe_alike|]. split; [done|by left]. }
  destruct (Z.to_nat (f_eax f)) as [|[|[|[|[|[|[|i]]]]]]] eqn:En; try discriminate Hfn; injection Hfn as <-;
    [discriminate E|..]; unfold returning in E;
    match type of E with (?a ≫= _) = _ => destruct a as [[r' k']|] eqn:E'; [|discriminate E] end;
    cbn [mbind option_bind] in E; injection E as -> ->; rename E' into E.
  - unfold sys_write in E. destruct (_ || _); [injection E as _ <-; by apply Hdone|].
    destruct (write_loop_alike y _ _ _ _ _ _ _ E) as [Ha Eg]. apply Hdone; [by destruct Ha; split|done|apply Ha].
  - unfold sys_read in E. destruct (_ || _); [injection E as _ <-; by apply Hdone|]. cbn [getchar] in E.
    destruct (keyboard_getchar [] (k_kbd k)) as [[c b1]|]; [|done]. cbn [mbind option_bind] in E.
    destruct (c =? 0); [injection E as _ <-; by apply Hdone|]. injection E as _ <-.
    exists lv. split; [done|]. split; [|split; [done|by left]].
    set (w1 := set_ram (y_machine y) (store8 (y_ram y) (f_ecx f) c)).
    assert (S1 : run_step y lv (with_y_machine y w1) lv).
    { apply (run_write y lv w1 (f_ecx f) 1); [done|apply Hread; unfold SYS_READ; lia|apply same_outside_store8]. }
    eapply run_safe; [exact S1|]. apply safe_alike; [apply S1|done].
  - injection E as _ <-. by apply Hdone.
  - injection E as _ <-. by apply Hdone.
  - unfold sys_sbrk in E. change (f_ebx (frame_of k esp)) with (f_ebx f) in E.
    destruct (kmalloc (k_machine k) (k_heap k) (f_ebx f)) as [[[ptr w] h]|] eqn:Em; [|done]. cbn [mbind option_bind] in E.
    injection E as _ <-. assert (Hb : 0 <= f_ebx f) by apply load32_range.
    destruct (safe_kmalloc y lv (f_ebx f) ptr w h Hi ltac:(split; [done|apply Hsbrk; unfold SYS_SBRK; lia]) Em) as (lv' & Hsub & S1).
    exists lv'. split; [done|]. split; [|split; [done|by left]]. eapply run_safe; [by apply safe_run|].
    apply safe_alike; [apply S1|done].
  - injection E as _ <-. exists lv. split; [done|]. split; [|split; [done|by right]].
    assert (S1 : safe_step y lv (with_y_sched y (set_need (y_sched y) true)) lv).
    { apply safe_sched; [done|done|apply sched_inv_need, Hi|apply Hi]. }
    apply safe_run. eapply safe_trans; [exact S1|]. apply safe_alike; [apply S1|done].
Qed.

Lemma need_cases s s1 : s1 = s \/ s1 = set_need s true -> same_bases s s1 /\ current s1 = current s.
Proof. by intros [-> | ->]. Qed.

(** The handler of the vector, before the scheduler runs. *)
Lemma handler_run y lv g b esp (k1 : kernel) :
  sys_inv y lv -> owned y esp 64 -> call_ok y (frame_at (y_ram y) esp) ->
  (let n := f_int_no (frame_at (y_ram y) esp) in
   match interrupt_handlers table !! Z.to_nat n with
   | Some (Some h) => h (kernel_of y g b) esp
   | _ => if n <? 32 then None
          else if (n >=? 32) && (n <? 48) then Some (with_k_io (kernel_of y g b) (pic_send_eoi (y_io y) (u8 (n - 32))))
          else Some (kernel_of y g b)
   end) = Some k1 ->
  exists lv', run_step y lv (sys_of y k1) lv' /\ k_gdt k1 = g.
Proof.
  intros Hi Hown Hok. set (f := frame_at (y_ram y) esp) in *. set (n := f_int_no f) in *. cbv zeta.
  assert (Hn : 0 <= n) by apply load32_range. set (k := kernel_of y g b).
  assert (Hneed : safe_step y lv (with_y_sched y (set_need (y_sched y) true)) lv).
  { apply safe_sched; [done|done|apply sched_inv_need, Hi|apply Hi]. }
  destruct (Z.eq_dec n 128) as [E128|H128].
  - rewrite E128. unfold table, all_handlers, syscall_init, idt_register_handler. cbn [snd interrupt_handlers].
    rewrite list_lookup_insert_eq by (rewrite register_irqs_length, Hl0; unfold IDT_ENTRIES; lia). unfold syscall_handler, syscall_outcome.
    change (f_eax (frame_of k esp)) with (f_eax f).
    assert (Heax : forall y1 lv1 k2 v, run_step y lv (sys_of y k2) lv1 -> (forall q, In q lv -> In q lv1) -> k_gdt k2 = g ->
      (k_sched k2 = y_sched y \/ k_sched k2 = set_need (y_sched y) true) -> y1 = sys_of y (set_eax k2 esp v) ->
      exists lv', run_step y lv y1 lv' /\ k_gdt (set_eax k2 esp v) = g).
    { intros y1 lv1 k2 v S1 Hsub Eg Hs ->. exists lv1. split; [|done].
      assert (Em : mine (sys_of y k2) = mine y).
      { destruct (need_cases _ _ Hs) as [[_ Hb] Ec]. unfold mine. cbn [y_sched sys_of]. rewrite Ec. specialize (Hb (current (y_sched y))).
        unfold task_stacks. injection Hb as -> ->. done. }
      eapply run_run; [exact Em|exact S1|].
      set (w2 := set_ram (k_machine k2) (store32 (ram (k_machine k2)) (esp + 32) v)).
      assert (S2 : run_step (sys_of y k2) lv1 (with_y_machine (sys_of y k2) w2) lv1).
      { apply (run_write _ lv1 w2 (esp + 32) 4); [apply S1| |].
        - apply (owned_sub _ esp 64); [|lia..]. by apply (owned_mine y).
        - replace (esp + 32 + 4) with (esp + 36) by lia. apply (set_eax_outside k2 esp v). }
      eapply run_safe; [exact S2|]. apply safe_alike; [apply S2|done]. }
    assert (Hself : run_step y lv (sys_of y k) lv) by (by apply safe_run, safe_alike).
    destruct (_ >=? _); [intros [= <-]; by apply (Heax _ lv k _ Hself); [..|left|]|].
    destruct (syscall_table polls [] !! Z.to_nat (f_eax f)) as [fn|] eqn:Efn.
    2:{ intros [= <-]. by apply (Heax _ lv k _ Hself); [..|left|]. }
    destruct (fn k esp) as [[r k2|k2]|] eqn:Ef; [|done|done]. intros [= <-].
    destruct (call_run y lv g b esp fn r k2 Hi E128 Hok Efn Ef) as (lv1 & Hsub & S1 & Eg & Hs). by eapply Heax.
  - unfold table. rewrite all_handlers_lookup by done.
    destruct (Z.lt_ge_cases n IDT_ENTRIES) as [Hlt|Hge].
    2:{ rewrite lookup_ge_None_2 by (rewrite register_irqs_length, Hl0; lia). unfold IDT_ENTRIES in Hge.
        destruct (Z.ltb_spec n 32); [lia|]. destruct (Z.ltb_spec n 48); [lia|]. rewrite andb_false_r. intros [= <-].
        exists lv. split; [by apply safe_run, safe_alike|done]. }
    rewrite register_irqs_lookup by done.
    destruct (n =? 14); [done|]. destruct (n =? 32).
    { unfold timer_isr. intros [= <-]. exists lv. split; [|done]. apply safe_run. eapply safe_trans; [exact Hneed|].
      apply safe_alike; [apply Hneed|done]. }
    destruct (n =? 33).
    { unfold keyboard_isr. intros [= <-]. exists lv. split; [by apply safe_run, safe_alike|done]. }
    destruct (n =? 129).
    { unfold yield_isr. intros [= <-]. exists lv. split; [|done]. apply safe_run. eapply safe_trans; [exact Hneed|].
      apply safe_alike; [apply Hneed|done]. }
    destruct (n <? 32); [done|]. destruct (_ && _); intros [= <-]; (exists lv; split; [by apply safe_run, safe_alike|done]).
Qed.

(** A whole interrupt: the handler and the context switch. *)
Lemma isr_run y lv g b esp esp' k' :
  sys_inv y lv -> owned y esp 64 -> call_ok y (frame_at (y_ram y) esp) ->
  isr_handler table (kernel_of y g b) esp = Some (esp', k') -> exists lv', run_step y lv (sys_of y k') lv'.
Proof.
  intros Hi Hown Hok E. unfold isr_handler in E. cbv zeta in E.
  match type of E with (?h ≫= _) = _ => destruct h as [k1|] eqn:Eh end; [|done]. cbn [mbind option_bind] in E.
  destruct (handler_run y lv g b esp k1 Hi Hown Hok Eh) as (lv1 & S1 & Eg).
  destruct (task_schedule_if_needed (k_sched k1) (k_gdt k1) esp) as [[esp2 sc] g2] eqn:Es. injection E as <- <-.
  exists lv1. eapply run_safe; [exact S1|]. destruct S1 as [I1 _].
  pose proof (interrupt_ok (k_sched k1) (k_gdt k1) (EvOther esp) (si_sched _ _ _ I1) (si_ready _ _ _ I1)) as Hint.
  cbn [interrupt] in Hint. rewrite Es in Hint. destruct Hint as (Hs & Hr & _).
  pose proof (safe_sched _ lv1 sc I1 (schedule_bases _ _ _ _ _ _ Es) Hs Hr) as S2.
  eapply safe_trans; [exact S2|]. apply safe_alike; [apply S2|done].
Qed.

(** ** The network *)

(** Writes to several ranges that are the running task's. *)
Lemma run_except rs : forall y lv w,
  sys_inv y lv -> (forall a n, In (a, n) rs -> 0 <= n /\ owned y a n) -> same_except rs (y_ram y) (ram w) ->
  run_step y lv (with_y_machine y w) lv.
Proof.
  induction rs as [|[a n] rs IH]; intros y lv w Hi Hown Ho.
  { apply safe_run, safe_statics; [done|]. eapply same_except_incl; [|exact Ho]. by intros ? []. }
  destruct (Hown a n (or_introl eq_refl)) as [H0 Hn].
  set (m1 := store_bytes (y_ram y) a (bytes_at (ram w) a (Z.to_nat n))). set (w1 := set_ram (y_machine y) m1).
  assert (S1 : run_step y lv (with_y_machine y w1) lv).
  { apply (run_write y lv w1 a n); [done|done|].
    cbn [ram w1 set_ram]. eapply same_outside_mono; [..|apply store_bytes_outside]; rewrite ?length_bytes_at; lia. }
  eapply (run_run _ _ (with_y_machine y w1)); [done|exact S1|].
  apply (IH (with_y_machine y w1) lv w (proj1 S1)); [intros b k Hb; destruct (Hown b k (or_intror Hb)); split; [done|by apply (owned_mine y)]|].
  intros x Hx. unfold y_ram. cbn [y_machine with_y_machine ram w1 set_ram]. unfold m1.
  rewrite store_bytes_load by apply bytes_at_Forall. rewrite length_bytes_at.
  destruct (Z.leb_spec a x), (Z.ltb_spec x (a + Z.of_nat (Z.to_nat n))); cbn [andb].
  2-4: apply Ho; intros r [<-|Hr]; [unfold within; cbn [fst snd]; lia|by apply Hx].
  rewrite lookup_bytes_at by lia. change (load8 (ram w) x = load8 (ram w) (a + Z.of_nat (Z.to_nat (x - a)))). f_equal. lia.
Qed.

(** The arrays of the driver and of the stack are static; the local array of
    [handle_arp] is on the stack of the task that polls. *)
Context (rx_descs tx_descs rx_buffers buf reply : Z) (Hreply : 0 <= reply < 2 ^ 32).
Context (Hcard : incl (card_ranges rx_descs tx_descs rx_buffers) statics).
Context (Hbuf : In (buf, NET_BUF_SIZE) statics) (Hrep : In (reply, 1518) statics).

Abbreviation net_task_round := (net_task_round rx_descs tx_descs rx_buffers buf reply).

Lemma net_run y lv arp_reply card :
  sys_inv y lv -> 0 <= arp_reply < 2 ^ 32 -> owned y arp_reply 42 -> card_ok rx_descs tx_descs rx_buffers card ->
  exists y', net_task_round arp_reply card y = Some y' /\ run_step y lv y' lv.
Proof.
  intros Hi Ha Hown Hc.
  destruct (net_round_moves rx_descs tx_descs rx_buffers buf reply arp_reply card (y_machine y) (y_e1000 y) (y_net y)
    Hc Hreply Ha (si_cursors _ _ _ Hi) (si_net _ _ _ Hi)) as (w & e & n & E & Ho & Hcur & Hn & _).
  unfold Kernel.net_task_round. rewrite E. cbn [mbind option_bind]. eexists. split; [done|].
  assert (S1 : run_step y lv (with_y_machine y w) lv).
  { eapply run_except; [done| |exact Ho]. intros a k Hin. apply in_app_iff in Hin as [Hin|Hin].
    - split; [|right; exists a, k; split; [by apply Hcard|lia]].
      cbn [In card_ranges] in Hin. unfold sizeof_desc, E1000_NUM_RX_DESC, E1000_NUM_TX_DESC, E1000_RX_BUF_SIZE in Hin.
      destruct Hin as [[= <- <-]|[[= <- <-]|[[= <- <-]|[]]]]; lia.
    - cbn [In] in Hin. unfold NET_BUF_SIZE in *.
      destruct Hin as [[= <- <-]|[[= <- <-]|[[= <- <-]|[]]]]; (split; [lia|]); [right; by exists buf, 2048|right; by exists reply, 1518|done]. }
  destruct S1 as [[I1 I2 I3 I4 I5 I6 I7 I8 I9 I10] K1]. by split; [split|].
Qed.

(** The card by itself. *)
Lemma card_run y lv w :
  sys_inv y lv -> same_except (card_ranges rx_descs tx_descs rx_buffers) (y_ram y) (ram w) ->
  safe_step y lv (with_y_machine y w) lv.
Proof. intros Hi Ho. apply safe_statics; [done|]. by eapply same_except_incl. Qed.

(** ** Exit, and new tasks *)

Lemma exit_run y lv g esp esp' s' g' :
  sys_inv y lv -> interrupt (y_sched y) g (EvExit esp) = (esp', s', g') -> safe_step y lv (with_y_sched y s') lv.
Proof.
  intros Hi E. pose proof (interrupt_ok _ g (EvExit esp) (si_sched _ _ _ Hi) (si_ready _ _ _ Hi)) as Hint.
  rewrite E in Hint. destruct Hint as (Hs & Hr & _). apply safe_sched; [done| |done|done].
  etransitivity; [apply exit_mark_bases|]. apply (schedule_bases (yield_isr_handler (task_exit_mark (y_sched y))) g esp esp' s' g').
  exact E.
Qed.

(** The same from [sys_exit]. *)
Lemma exit_outcome y g b esp k1 :
  syscall_outcome polls [] (kernel_of y g b) esp = Some (Exits k1) -> k1 = sys_exit_yields (kernel_of y g b).
Proof.
  unfold syscall_outcome. destruct (_ >=? _); [done|]. destruct (syscall_table polls [] !! _) as [fn|] eqn:Efn; [|done].
  generalize dependent (Z.to_nat (f_eax (frame_of (kernel_of y g b) esp))). intros n Efn.
  destruct n as [|[|[|[|[|[|[|n]]]]]]]; try discriminate Efn; injection Efn as <-; [unfold sys_exit; by intros [= <-]|..];
    unfold returning; match goal with |- (?a ≫= _) = _ -> _ => destruct a as [[r k2]|]; discriminate end.
Qed.

Lemma sys_exit_run y lv g b esp k1 esp1 esp' s' g' :
  sys_inv y lv -> syscall_outcome polls [] (kernel_of y g b) esp = Some (Exits k1) ->
  interrupt (k_sched k1) (k_gdt k1) (EvYield esp1) = (esp', s', g') ->
  safe_step y lv (with_y_sched (sys_of y k1) s') lv.
Proof.
  intros Hi Ho E. rewrite (exit_outcome _ _ _ _ _ Ho) in *. pose proof (exit_run y lv g esp1 esp' s' g' Hi E) as S1.
  eapply safe_trans; [exact S1|]. apply safe_alike; [apply S1|done].
Qed.

Context (task_exit : Z) (Hexit : 0 <= task_exit < 2 ^ 32).

Lemma spawn_run y lv entry name :
  sys_inv y lv -> 0 <= entry < 2 ^ 32 ->
  exists y' lv', spawn task_exit y entry name = Some y' /\ safe_step y lv y' lv'.
Proof.
  intros Hi He. destruct (safe_create statics y lv task_exit entry name Hi Hexit He) as (id & w & h & s & lv' & E & S1).
  unfold spawn. rewrite E. cbn [mbind option_bind]. by eexists _, lv'.
Qed.

(** ** Steps *)

Context (line_buf cat_buf newline user_demo_entry : Z).
Context (Hline : In (line_buf, CMD_MAX) statics) (Hcatb : In (cat_buf, 128) statics).
Context (Hnl : newline + 1 <= HEAP_START \/ HEAP_END <= newline) (Hentry : 0 <= user_demo_entry < 2 ^ 32).

Abbreviation shell_round := (shell_round line_buf cat_buf newline user_demo_entry polls).

Record running := Running {
  l_sys : sys;
  l_gdt : gdt_state;
  l_kbd : kbd;
}.

Inductive live_step : running -> running -> Prop :=
  (** the shell reads and executes a line; the keyboard's buffer is filled and
      emptied meanwhile *)
  | ls_shell y g b keys rest y' b' :
      Forall (fun c => c <> 10) keys -> ~ reboots (fold_left edit keys []) ->
      shell_round (keys ++ 10 :: rest) y = Some (rest, y') -> live_step (Running y g b) (Running y' g b')
  (** an interrupt or a system call, its frame pushed at [esp] *)
  | ls_interrupt y g b esp esp' k' :
      owned y esp 64 -> call_ok y (frame_at (y_ram y) esp) ->
      isr_handler table (kernel_of y g b) esp = Some (esp', k') ->
      live_step (Running y g b) (Running (sys_of y k') (k_gdt k') (k_kbd k'))
  (** the running task ends: it returns to [task_exit], or calls [sys_exit], which ends
      in INT 0x81 with a frame at [esp1] *)
  | ls_exit y g b esp esp' s' g' :
      interrupt (y_sched y) g (EvExit esp) = (esp', s', g') -> live_step (Running y g b) (Running (with_y_sched y s') g' b)
  | ls_sys_exit y g b esp k1 esp1 esp' s' g' :
      owned y esp 64 -> f_int_no (frame_at (y_ram y) esp) = 128 ->
      syscall_outcome polls [] (kernel_of y g b) esp = Some (Exits k1) ->
      interrupt (k_sched k1) (k_gdt k1) (EvYield esp1) = (esp', s', g') ->
      live_step (Running y g b) (Running (with_y_sched (sys_of y k1) s') g' (k_kbd k1))
  (** the running task computes, on its stack or in static memory, and prints *)
  | ls_run y g b a n w :
      owned y a n -> same_outside a (a + n) (y_ram y) (ram w) -> live_step (Running y g b) (Running (with_y_machine y w) g b)
  (** it creates a task *)
  | ls_spawn y g b entry name y' :
      0 <= entry < 2 ^ 32 -> spawn task_exit y entry name = Some y' -> live_step (Running y g b) (Running y' g b)
  (** it is the network task, and polls *)
  | ls_net y g b arp_reply card y' :
      0 <= arp_reply < 2 ^ 32 -> owned y arp_reply 42 -> card_ok rx_descs tx_descs rx_buffers card ->
      net_task_round arp_reply card y = Some y' -> live_step (Running y g b) (Running y' g b)
  (** the card receives or transmits *)
  | ls_card y g b w :
      same_except (card_ranges rx_descs tx_descs rx_buffers) (y_ram y) (ram w) ->
      live_step (Running y g b) (Running (with_y_machine y w) g b).

Lemma live_step_run s s' lv :
  sys_inv (l_sys s) lv -> live_step s s' -> exists lv', run_step (l_sys s) lv (l_sys s') lv'.
Proof.
  intros Hi Hst. destruct Hst as [y g b keys rest y' b' Hk Hr E|y g b esp esp' k' Hown Hok E|y g b esp esp' s' g' E
    |y g b esp k1 esp1 esp' s' g' _ _ Eo E|y g b a n w Hown Ho|y g b entry name y' He E|y g b arp_reply card y' Ha Hown Hc E|y g b w Ho]; cbn [l_sys] in *.
  - destruct (shell_round_safe statics line_buf cat_buf newline user_demo_entry polls Hline Hcatb Hnl Hentry y lv keys rest Hi Hk Hr)
      as (y2 & lv' & E2 & S2 & _). rewrite E in E2. injection E2 as <-. exists lv'. by apply safe_run.
  - by eapply isr_run.
  - exists lv. apply safe_run. by eapply exit_run.
  - exists lv. apply safe_run. by eapply sys_exit_run.
  - exists lv. by eapply run_write.
  - destruct (spawn_run y lv entry name Hi He) as (y2 & lv' & E2 & S2). rewrite E in E2. injection E2 as <-.
    exists lv'. by apply safe_run.
  - destruct (net_run y lv arp_reply card Hi Ha Hown Hc) as (y2 & E2 & S2). rewrite E in E2. injection E2 as <-. by exists lv.
  - exists lv. by apply safe_run, card_run.
Qed.

Lemma live_inv s s' lv : sys_inv (l_sys s) lv -> rtc live_step s s' -> exists lv', sys_inv (l_sys s') lv'.
Proof.
  intros Hi Hst. revert lv Hi. induction Hst as [|x z w Hst _ IH]; intros lv Hi; [by exists lv|].
  destruct (live_step_run _ _ _ Hi Hst) as [lv1 [Hi1 _]]. by apply (IH lv1).
Qed.

(** C1: the running system, one whole operation at a time: rounds of the shell over
    any line that does not reboot, interrupts and system calls with the context
    switch they end with, exits and creations of tasks, polls of the network task,
    what the card writes by itself, and computations of the running task in its own
    memory, in any order and number.  The interrupts come between these operations, not inside one (where
    [kmalloc_race] and [task_create_race] show that they can do damage), and of the system calls
    those with [call_ok], which the kernel does not check: [sys_read] into memory of
    the caller's own, [sys_sbrk] below 2^32 - 7.
    From a state with the invariant of [System] every state so reached has it again:
    the heap, the filesystem, the descriptor table, the task table, the page tables
    and the frame bitmap are well formed and do not overlap, and every task has
    stacks of its own.  In each of these states the shell comes back from every line
    that does not reboot and [net_task] from every frame; and a step changes no byte
    on the stacks of a task that is not running. *)
Theorem system_invariant s s' lv :
  sys_inv (l_sys s) lv -> rtc live_step s s' ->
  exists lv', sys_inv (l_sys s') lv' /\
    (forall keys rest, Forall (fun c => c <> 10) keys -> ~ reboots (fold_left edit keys []) ->
       exists y', shell_round (keys ++ 10 :: rest) (l_sys s') = Some (rest, y')) /\
    (forall arp_reply card, 0 <= arp_reply < 2 ^ 32 -> owned (l_sys s') arp_reply 42 ->
       card_ok rx_descs tx_descs rx_buffers card -> exists y', net_task_round arp_reply card (l_sys s') = Some y') /\
    (forall s'', live_step s' s'' -> exists lv'', sys_inv (l_sys s'') lv'' /\ others_kept (l_sys s') lv' (l_sys s'') lv'').
Proof.
  intros Hi Hst. destruct (live_inv _ _ _ Hi Hst) as [lv' Hi']. exists lv'. split; [done|]. split; [|split].
  - intros keys rest Hk Hr.
    destruct (shell_round_safe statics line_buf cat_buf newline user_demo_entry polls Hline Hcatb Hnl Hentry _ _ keys rest Hi' Hk Hr)
      as (y' & _ & E & _). by exists y'.
  - intros arp_reply card Ha Hown Hc. destruct (net_run _ _ arp_reply card Hi' Ha Hown Hc) as (y' & E & _). by exists y'.
  - intros s'' Hs. destruct (live_step_run _ _ _ Hi' Hs) as (lv'' & H1 & H2). by exists lv''.
Qed.
End live.

(** ** Instance: the machine of the memory-management witnesses, with a filesystem *)

Definition demo_statics : list (Z * Z) :=
  [(0x110000, CMD_MAX); (0x110100, 128); (0x120000, sizeof_desc * E1000_NUM_RX_DESC);
   (0x120200, sizeof_desc * E1000_NUM_TX_DESC); (0x130000, E1000_RX_BUF_SIZE * E1000_NUM_RX_DESC);
   (0x150000, NET_BUF_SIZE); (0x151000, 1518); (0x180000, 4096)].

Lemma demo_statics_range a n : In (a, n) demo_statics -> 0x110000 <= a /\ a + n <= 0x190000.
Proof.
  unfold demo_statics, CMD_MAX, sizeof_desc, E1000_NUM_RX_DESC, E1000_NUM_TX_DESC, E1000_RX_BUF_SIZE, NET_BUF_SIZE.
  cbn [In]. intros Hin. repeat (destruct Hin as [[= <- <-]|Hin]; [lia|]). done.
Qed.

Lemma demo_system : exists y lv, sys_inv demo_statics y lv /\ y_sched y = demo_sched.
Proof.
  destruct demo_boot_paging as (Hv & Ho & Hnp & _). destruct demo_sched_inv as [Hs Hr].
  pose proof heap_init_inv (Machine demo_vmm_ram []) as Hheap.
  set (lv0 := live [(HEAP_INITIAL - sizeof_block, true)]).
  assert (Hown : owns (ram demo_boot.1) demo_boot.2 lv0) by (by exists [(HEAP_INITIAL - sizeof_block, true)]).
  set (v0 := (vfs_init demo_boot.1 (Vfs [] 0)).2).
  assert (Hv0 : vfs_inv v0 (demo_boot.2, Ramfs ∅ ∅ 1)).
  { split; [done|done|]. intros fd Hfd Hu. exfalso. unfold v0, vfs_init, get_fd in Hu. cbn [snd fd_table] in Hu.
    rewrite lookup_total_replicate_2 in Hu by (unfold VFS_MAX_FDS in *; lia). done. }
  destruct (ramfs_init_moves demo_boot.1 demo_boot.2 lv0 1 v0 0x110200 Hown Hv0 ltac:(unfold HEAP_START; lia))
    as (w & h & fs & v & lv & cs & _ & M & Hvfs).
  destruct (vmm_inv_outside _ _ _ (ram w) _ _ Hv Ho (mv_out _ _ _ _ _ _ _ M)) as (V1 & V2 & _).
  exists (Sys w 0 demo_sched demo_vmm_pmm h demo_vmm v fs demo_net demo_e1000 (Io [] []) false), lv.
  split; [|done]. split; cbn [y_machine y_sched y_pmm y_heap y_vmm y_vfs y_ramfs y_net y_e1000 y_ram ram]; try done.
  - split; [apply M|]. split; [apply M|done].
  - by apply V2.
  - intros a n Hin. pose proof (demo_statics_range a n Hin) as Hb. split; [unfold HEAP_START; lia|].
    apply V2. split.
    + right. cbn [page_directory demo_vmm]. lia.
    + left. change (bitmap_end demo_vmm_pmm) with 0x100080. lia.
    + intros i Hir Hp. by rewrite Hnp in Hp.
  - apply NoDup_nil_2.
  - apply demo_net_ok.
Qed.

Lemma system_invariant_witness :
  exists y lv y' lv' g b, sys_inv demo_statics y lv /\
    shell_round 0x110000 0x110100 0x110180 0x101000 0 ([108; 115] ++ [10]) y = Some ([], y') /\
    sys_inv demo_statics (l_sys (Running y' g b)) lv'.
Proof.
  destruct demo_system as (y & lv & Hi & _).
  destruct (shell_round_safe demo_statics 0x110000 0x110100 0x110180 0x101000 0) with (y := y) (lv := lv) (keys := [108; 115]) (rest := @nil Z)
    as (y' & lv1 & E & _).
  - cbn; tauto.
  - cbn; tauto.
  - unfold HEAP_START; lia.
  - lia.
  - exact Hi.
  - repeat constructor; discriminate.
  - intros F. discriminate F.
  - destruct (system_invariant demo_statics 0 (Machine ∅ []) demo_idt demo_handlers ltac:(reflexivity)
      0x120000 0x120200 0x130000 0x150000 0x151000 ltac:(lia)
      ltac:(intros r Hr; cbn in Hr |- *; tauto) ltac:(cbn; tauto) ltac:(cbn; tauto) 0x101000 ltac:(lia)
      0x110000 0x110100 0x110180 0x101000 ltac:(cbn; tauto) ltac:(cbn; tauto) ltac:(unfold HEAP_START; lia) ltac:(lia)
      (Running y gdt_boot demo_kbd) (Running y' gdt_boot demo_kbd) lv Hi) as (lv' & Hi' & _).
    + apply rtc_once. apply (ls_shell _ _ _ _ _ _ _ _ _ _ _ _ _ _ y gdt_boot demo_kbd [108; 115] [] y' demo_kbd).
      * repeat constructor; discriminate.
      * intros F. discriminate F.
      * exact E.
    + exists y, lv, y', lv', gdt_boot, demo_kbd. split; [exact Hi|]. split; [exact E|exact Hi'].
Defined.
