(* ===== verification/Boot.v ===== *)
(** * From power-on to the shell

    The phases of [Kernel.kernel_main] one after the other, each from the state the
    one before left: memory ([Kernel.boot_memory]), interrupts, the devices with
    paging, the filesystem and the network, and the first tasks.  What the boot
    loader and the linker have to provide is [boot_layout]: the memory map, the
    places of the static arrays below the frame bitmap and of the bitmap below the
    heap, and enough free frames below the heap for the page tables.  Under it the
    kernel enters the shell with the invariant of [System].  The heap's own frames are
    free in the bitmap: [vmm_map_clobbers_heap] is what happens once those below it
    are used up. *)
From stdpp Require Import base numbers list gmap strings relations.
From Stdlib Require Import ZArith Lia.
From S2P Require Import Prelude.
From S2P Require Import Machine.
From S2P Require Import CString.
From S2P Require Import Io.
From S2P Require Import Pic.
From S2P Require Import Serial.
From S2P Require Import Keyboard.
From S2P Require Import Net.
From S2P Require Import Pci.
From S2P Require Import Multiboot.
From S2P Require Import Alloc.
From S2P Require Import Pmm.
From S2P Require Import Heap.
From S2P Require Import Vmm.
From S2P Require Import PageAlloc.
From S2P Require Import E1000.
From S2P Require Import NetStack.
From S2P Require Import Gdt.
From S2P Require Import Task.
From S2P Require Import Timer.
From S2P Require Import Idt.
From S2P Require Import Syscall.
From S2P Require Import Ramfs.
From S2P Require Import Vfs.
From S2P Require Import FsFrame.
From S2P Require Import Shell.
From S2P Require Import Kernel.
From S2P Require Import System.
From S2P Require Import Live.

(** ** The network card *)

Definition mac_ok (e : e1000) : Prop := length (mac_addr e) = 6%nat /\ Forall (fun b => 0 <= b < 256) (mac_addr e).

Lemma eeprom_wait_mac n e r e' : eeprom_wait n e = (r, e') -> mac_addr e' = mac_addr e.
Proof.
  revert e. induction n as [|n IH]; intros e; cbn [eeprom_wait]; [by intros [= _ <-]|].
  cbn [e1000_read]. destruct (negb _); [by intros [= _ <-]|]. intros E. by rewrite (IH _ E).
Qed.

Lemma insert_mac_ok i b l :
  0 <= b < 256 -> length l = 6%nat /\ Forall (fun b => 0 <= b < 256) l ->
  length (<[i := b]> l) = 6%nat /\ Forall (fun b => 0 <= b < 256) (<[i := b]> l).
Proof. intros Hb [Hl Hf]. split; [by rewrite length_insert|]. by apply Forall_insert. Qed.

#[local] Opaque eeprom_wait.

Lemma read_mac_ok n m e i : mac_ok e -> mac_ok (read_mac_loop n m e i).2.
Proof.
  revert e i. induction n as [|n IH]; intros e i He; cbn [read_mac_loop]; [done|].
  destruct (eeprom_wait _ _) as [[val|] e2] eqn:E; apply eeprom_wait_mac in E; cbn [mac_addr e1000_write with_regs] in E.
  - apply IH. unfold mac_ok in *. cbn [mac_addr with_mac]. rewrite E.
    apply insert_mac_ok; [apply u8_range|]. apply insert_mac_ok; [apply u8_range|done].
  - unfold mac_ok in *. cbn [snd]. by rewrite E.
Qed.

#[local] Transparent eeprom_wait.

Lemma clear_mta_mac n m e i : mac_addr (clear_mta n m e i) = mac_addr e.
Proof. revert e i. induction n as [|n IH]; intros e i; cbn [clear_mta]; [done|]. by rewrite IH. Qed.

(** The registers of the card, 128 KB at a multiple of their size, take one table. *)
Lemma map_mmio_grows B k n m p v bar0 off :
  vmm_inv m p v -> 0 <= bar0 < 2 ^ 32 -> bar0 mod 0x20000 = 0 -> 0 <= off -> off + PAGE_SIZE * Z.of_nat n <= 0x20000 ->
  B <= searched p -> (if present m v (bar0 / 2 ^ 22) then spare B k m p else spare B (S k) m p) ->
  let '(m', p', v') := map_mmio n m p v bar0 off in grows B m p v m' p' v' /\ spare B k m' p'.
Proof.
  intros Hinv Hb Ha. revert m p v off Hinv. induction n as [|n IH]; intros m p v off Hinv Ho Hn HB Hsp; cbn [map_mmio].
  { split; [by apply grows_refl|]. destruct (present m v (bar0 / 2 ^ 22)); [done|]. by eapply spare_le; [|exact Hsp]; lia. }
  unfold PAGE_SIZE in Hn. assert (Ew : u32 (bar0 + off) = bar0 + off) by (apply u32_small; dlia). rewrite !Ew.
  assert (Ei : (bar0 + off) / PAGE_SIZE / 1024 = bar0 / 2 ^ 22) by (unfold PAGE_SIZE; dlia).
  destruct (map_grows B k m p v (bar0 + off) (bar0 + off) (Z.lor (Z.lor PTE_PRESENT PTE_WRITABLE) PTE_CACHE_DISABLE))
    as (m1 & p1 & v1 & -> & G & Hsp1 & Hp1); [done|dlia|dlia|done|done|by rewrite Ei|].
  rewrite Ei in Hp1. specialize (IH m1 p1 v1 (off + PAGE_SIZE) (gr_inv _ _ _ _ _ _ _ G)).
  rewrite Hp1 in IH. unfold searched in *. rewrite (proj2 (gr_pmm _ _ _ _ _ _ _ G)) in IH.
  specialize (IH ltac:(unfold PAGE_SIZE in *; lia) ltac:(unfold PAGE_SIZE in *; lia) HB Hsp1).
  destruct (map_mmio n m1 p1 v1 bar0 (off + PAGE_SIZE)) as [[m' p'] v']. destruct IH as [G' Hsp']. split; [|done].
  by eapply grows_trans.
Qed.

Section card.
Context (rx_descs tx_descs rx_buffers : Z).

Lemma init_rx_ranges m e m' e' :
  init_rx rx_descs rx_buffers m e = (m', e') -> same_except (card_ranges rx_descs tx_descs rx_buffers) m m'.
Proof.
  unfold init_rx. intros E. apply (f_equal fst) in E. cbn [fst] in E. subst m'.
  assert (Hl : forall n m i, 0 <= i -> i + Z.of_nat n <= E1000_NUM_RX_DESC ->
    same_outside rx_descs (rx_descs + sizeof_desc * E1000_NUM_RX_DESC) m (init_rx_loop rx_descs rx_buffers n m i)).
  { clear. induction n as [|n IH]; intros m i Hi Hn; cbn [init_rx_loop]; [apply same_outside_refl|].
    eapply same_outside_trans; [|apply IH; lia]. intros a Ha.
    unfold desc_addr_lo, desc_addr_hi, rx_status, rx_desc, sizeof_desc, E1000_NUM_RX_DESC in *.
    by rewrite load8_store8_ne, !load8_store32_ne by lia. }
  eapply same_except_in; [by left|]. apply Hl; unfold E1000_NUM_RX_DESC; lia.
Qed.

(** [e1000_init]: it may map the card's registers, and writes to the arrays of the
    driver. *)
Lemma e1000_init_moves {S : Type} `{Ports S} B (w : machine) (s : S) (p : pmm) (v : vmm) (e : e1000) :
  vmm_inv (ram w) p v -> B <= searched p -> spare B 1 (ram w) p -> mac_ok e -> cursors_ok e ->
  (forall d s', pci_find_device s E1000_VENDOR E1000_DEVICE = (Some d, s') ->
     0 <= d_bar0 d < 2 ^ 32 /\ d_bar0 d mod 0x20000 = 0) ->
  let '(rc, w', s', p', v', e') := e1000_init rx_descs tx_descs rx_buffers w s p v e in
  mac_ok e' /\ cursors_ok e' /\
  exists m1, grows B (ram w) p v m1 p' v' /\ same_except (card_ranges rx_descs tx_descs rx_buffers) m1 (ram w').
Proof.
  intros Hinv HB Hsp Hmac Hcur Hbar. unfold e1000_init.
  destruct (pci_find_device s E1000_VENDOR E1000_DEVICE) as [[d|] s1] eqn:Ef.
  2:{ split; [done|]. split; [done|]. exists (ram w). split; [by apply grows_refl|reflexivity]. }
  destruct (Hbar d s1 eq_refl) as [Hb Ha]. unfold e1000_setup.
  destruct (pci_read16 s1 (d_bus d) (d_slot d) (d_func d) PCI_COMMAND) as [cmd s2].
  pose proof (map_mmio_grows B 0 32 (ram w) p v (d_bar0 d) 0 Hinv Hb Ha ltac:(lia) ltac:(unfold PAGE_SIZE; lia) HB) as Hm.
  cbn [ram emit]. destruct (map_mmio 32 (ram w) p v (d_bar0 d) 0) as [[m1 p1] v1]. destruct Hm as [G _].
  { destruct (present _ _ _); [by eapply spare_le; [|exact Hsp]; lia|done]. }
  unfold e1000_read at 1 2. cbv zeta. set (e3 := with_regs _ _).
  assert (Hm3 : mac_ok e3) by done.
  pose proof (read_mac_ok 3 m1 e3 0 Hm3) as Hm4. unfold read_mac_eeprom. destruct (read_mac_loop 3 m1 e3 0) as [ok e4]. cbn [snd] in Hm4.
  set (e5 := if negb ok then read_mac_ral e4 else e4).
  assert (Hm5 : mac_ok e5).
  { unfold e5. destruct (negb ok); [|done]. unfold read_mac_ral, e1000_read, mac_ok. cbn [mac_addr with_mac]. split; [done|].
    repeat constructor; apply u8_range. }
  pose proof (clear_mta_mac 128 m1 e5 0) as Hm6. set (e6 := clear_mta 128 m1 e5 0) in *. clearbody e6 e5.
  destruct (init_rx rx_descs rx_buffers m1 e6) as [m2 e7] eqn:Erx. pose proof (init_rx_ranges _ _ _ _ Erx) as Hrx.
  assert (He7 : mac_addr e7 = mac_addr e6 /\ rx_cur e7 = 0) by (unfold init_rx in Erx; apply (f_equal snd) in Erx; cbn [snd] in Erx; by subst e7).
  destruct (init_tx tx_descs m2 e7) as [m3 e8] eqn:Etx. unfold init_tx in Etx.
  pose proof (f_equal fst Etx) as Em3. pose proof (f_equal snd Etx) as Ee8. cbn [fst snd] in Em3, Ee8. clear Etx. subst m3 e8.
  unfold e1000_read. cbv zeta. split; [|split].
  - unfold mac_ok in *. cbn [mac_addr with_regs with_stats with_base e1000_write with_tx_cur].
    rewrite (proj1 He7), Hm6. done.
  - unfold cursors_ok. cbn [rx_cur tx_cur with_regs with_stats with_base e1000_write with_tx_cur]. rewrite (proj2 He7).
    unfold E1000_NUM_RX_DESC, E1000_NUM_TX_DESC. lia.
  - exists m1. split; [done|]. destruct (negb _); cbn [ram emit set_ram];
      (etransitivity; [exact Hrx|]; eapply same_except_in; [right; by left|];
       eapply same_outside_mono; [..|apply memset_same_outside]; rewrite ?Z2Nat.id; unfold sizeof_desc, E1000_NUM_TX_DESC; lia).
Qed.
End card.

(** ** Paging beside the heap and the static arrays *)

Section ground.
Context (statics : list (Z * Z)).

Record ground (m : memory) (p : pmm) (v : vmm) : Prop := {
  gd_inv : vmm_inv m p v;
  gd_heap : off_heap m p v;
  gd_statics : forall a n, In (a, n) statics -> (a + n <= HEAP_START \/ HEAP_END <= a) /\ off_range a (a + n) m p v;
}.

(** The filesystem and the allocator write to the heap. *)
Lemma ground_outside m m' p v : ground m p v -> same_outside HEAP_START HEAP_END m m' -> ground m' p v.
Proof.
  intros [G1 G2 G3] Ho. destruct (vmm_inv_outside _ _ _ _ _ _ G1 G2 Ho) as (V1 & V2 & _).
  split; [done|by apply V2|]. intros a n Hin. destruct (G3 a n Hin). split; [done|by apply V2].
Qed.

(** The rest of the kernel writes to the static arrays. *)
Lemma ground_except m m' p v :
  ground m p v -> same_except statics m m' -> ground m' p v /\ same_inside HEAP_START HEAP_END m m'.
Proof.
  intros [G1 G2 G3] Ho.
  destruct (vmm_inv_ext m m' p v G1) as (V1 & V2 & _).
  { intros x Hx. apply Ho. intros [a n] Hin Hw. destruct (G3 a n Hin) as [_ Hr]. by eapply off_range_byte. }
  split.
  - split; [done|by apply V2|]. intros a n Hin. destruct (G3 a n Hin). split; [done|by apply V2].
  - intros x Hx. apply Ho. intros [a n] Hin Hw. destruct (G3 a n Hin) as [Hd _]. unfold within in Hw. cbn [fst snd] in Hw. lia.
Qed.

(** No free frame below [B] meets the heap or a static array. *)
Definition all_clear (B : Z) (m : memory) (p : pmm) : Prop :=
  clear_of HEAP_START HEAP_END B m p /\ forall a n, In (a, n) statics -> clear_of a (a + n) B m p.

Lemma ground_grows B m p v m' p' v' :
  ground m p v -> all_clear B m p -> grows B m p v m' p' v' -> ground m' p' v' /\ same_inside HEAP_START HEAP_END m m'.
Proof.
  intros [G1 G2 G3] [C1 C2] Hg. destruct (gr_range _ _ _ _ _ _ _ Hg _ _ G2 C1) as [H1 H2]. split; [|done].
  split; [apply Hg|done|]. intros a n Hin. destruct (G3 a n Hin) as [Hd Ho]. split; [done|].
  by apply (gr_range _ _ _ _ _ _ _ Hg _ _ Ho), C2.
Qed.

Lemma all_clear_free B m p m' p' :
  (forall f, frame_free m' p' f -> frame_free m p f) -> all_clear B m p -> all_clear B m' p'.
Proof.
  intros Hf [C1 C2]. split; [intros f Hff; by apply C1, Hf|]. intros a n Hin f Hff. by apply (C2 a n Hin), Hf.
Qed.

(** The bitmap is off the heap: its users do not change which frames are free. *)
Lemma ground_free m m' p v :
  ground m p v -> same_outside HEAP_START HEAP_END m m' -> forall f, frame_free m' p f <-> frame_free m p f.
Proof.
  intros [G1 G2 _] Ho. apply pmm_ext; [|apply G1]. intros x Hx. apply Ho. pose proof (off_bitmap _ _ _ _ _ G2). lia.
Qed.
End ground.

(** ** The phases *)

Lemma boot_interrupts_ok {P : Type} idt_addr stub wakes (b : boot P) :
  0 <= y_ticks (b_sys b) -> y_ticks (b_sys b) + total wakes < 2 ^ 64 -> 5 <= total wakes ->
  exists w t d, boot_interrupts idt_addr stub wakes b =
      Some (Boot (with_timer (b_sys b) w t) (b_gdt b) d (b_kbd b) (b_pci b)) /\
    ram w = y_ram (b_sys b) /\ y_ticks (b_sys b) <= timer_ticks t <= y_ticks (b_sys b) + total wakes /\
    interrupt_handlers d = <[32%nat := Some timer_isr]> (replicate (Z.to_nat IDT_ENTRIES) None).
Proof.
  intros H0 Hb Hw. unfold boot_interrupts. destruct (idt_init _ _ _ _) as [w1 d1] eqn:E1.
  assert (Er1 : ram w1 = y_ram (b_sys b)).
  { apply (f_equal fst) in E1. cbn [fst idt_init] in E1. by subst w1. }
  assert (Ed1 : interrupt_handlers d1 = replicate (Z.to_nat IDT_ENTRIES) None).
  { apply (f_equal snd) in E1. unfold idt_init in E1. cbn [snd] in E1. subst d1. cbn [interrupt_handlers idt_set_gate set_idt].
    by rewrite set_gates_handlers. }
  destruct (pic_init _ _) as [w3 s3] eqn:E3.
  assert (Er3 : ram w3 = ram w1) by (unfold pic_init in E3; apply (f_equal fst) in E3; cbn [fst] in E3; by subst w3).
  destruct (timer_init w3 s3) as [[w4 s4] irq] eqn:E4.
  assert (Er4 : ram w4 = ram w3) by (unfold timer_init in E4; injection E4 as <- _ _; done).
  assert (Ei : irq = 32) by (unfold timer_init in E4; by injection E4 as _ _ <-).
  destruct (timer_sleep_ms_correct wakes (Timer (y_ticks (b_sys b)) s4 (y_sched (b_sys b))) 50) as
    (pre & post & t & Epre & -> & Et & _); [done|done|lia|done|]. cbn [mbind option_bind timer_ticks] in *.
  eexists _, t, _. split; [reflexivity|]. cbn [ram emit]. split; [congruence|].
  cbn [idt_register_handler interrupt_handlers]. rewrite Ed1, Ei. split; [|done]. rewrite Et, Epre.
  unfold total. rewrite foldr_app. clear.
  assert (Hm : forall a, (foldr Nat.add 0 pre <= foldr Nat.add a pre)%nat).
  { intros a. induction pre as [|k pre IH]; cbn [foldr]; lia. }
  specialize (Hm (foldr Nat.add 0%nat post)). lia.
Qed.

Lemma vfs_init_inv w v (h : heap) fs : nodes fs = ∅ -> vfs_inv (vfs_init w v).2 (h, fs) /\ ram (vfs_init w v).1 = ram w.
Proof.
  intros Hn. split; [|done]. split; [done|done|]. intros fd Hfd Hu. exfalso. unfold vfs_init, get_fd in Hu. cbn [snd fd_table] in Hu.
  rewrite lookup_total_replicate_2 in Hu by (unfold VFS_MAX_FDS in *; lia). done.
Qed.

Lemma task_init_inv w s :
  let '(w', s') := task_init w s in ram w' = ram w /\ sched_inv s' /\ scheduler_ready s' = true /\ stacks s' = [].
Proof.
  cbn [task_init]. split; [done|]. split; [|done]. split; try done. intros i Hi Hne. cbn in *. lia.
  intros i Hi. cbn in Hi. assert (i = 0) as -> by lia. done.
Qed.

Section devices.
Context {P : Type} `{Ports P}.
Context (statics : list (Z * Z)) (motd rx_descs tx_descs rx_buffers task_yield : Z) (flush_fuel polls : nat).
Context (waits : list (kernel -> kernel)).
Context (Hcard : incl (card_ranges rx_descs tx_descs rx_buffers) statics).
Context (Hmotd : motd + 25 <= HEAP_START \/ HEAP_END <= motd).

(** What the frame allocator and the linker give to paging: frames for the page
    tables below the heap, and a directory and static arrays that they leave alone. *)
Record paging_ready (m : memory) (p : pmm) (v : vmm) : Prop := {
  pr_ready : vmm_ready m p v;
  pr_total : 0 <= total_memory p;
  pr_searched : 512 <= searched p;
  pr_spare : spare 512 (Z.to_nat (num_pde (total_memory p)) + 1) m p;
  pr_clear : all_clear statics 512 m p;
  pr_heap : (page_directory v + PAGE_SIZE <= HEAP_START \/ HEAP_END <= page_directory v) /\
    (bitmap_end p <= HEAP_START \/ HEAP_END <= frame_bitmap p);
  pr_statics : forall a n, In (a, n) statics -> (a + n <= HEAP_START \/ HEAP_END <= a) /\
    (page_directory v + PAGE_SIZE <= a \/ a + n <= page_directory v) /\ (bitmap_end p <= a \/ a + n <= frame_bitmap p);
}.

(** [vmm_init] on it. *)
Lemma paging_ok w p v :
  paging_ready (ram w) p v ->
  let '(rc, w', p', v') := vmm_init w p v in
  rc = 0 /\ isr14 v' = true /\ ground statics (ram w') p' v' /\ spare 512 1 (ram w') p' /\ all_clear statics 512 (ram w') p' /\ 512 <= searched p' /\
  same_inside HEAP_START HEAP_END (ram w) (ram w').
Proof.
  intros [Hr Ht Hs Hsp [Hc1 Hc2] [Hp1 Hp2] Hst]. pose proof (init_grows 512 1 w p v Hr Ht Hs Hsp) as Hi.
  destruct (vmm_init w p v) as [[[rc w'] p'] v']. destruct Hi as (-> & Hinv & Hsp' & Hisr & Epd & [Ef Et] & Hfr & _ & Hrng).
  split; [done|]. split; [done|].
  destruct (Hrng HEAP_START HEAP_END ltac:(lia) ltac:(lia) Hc1) as [Ho Hin]. split; [|split; [done|split; [|split; [|done]]]].
  - split; [done|done|]. intros a n Hin'. destruct (Hst a n Hin') as (H1 & H2 & H3). split; [done|].
    by apply (Hrng a (a + n) H2 H3), Hc2.
  - eapply all_clear_free; [exact Hfr|by split].
  - unfold searched in *. by rewrite Et.
Qed.

Abbreviation boot_devices := (boot_devices (P := P) motd rx_descs tx_descs rx_buffers task_yield flush_fuel polls waits).

Lemma boot_devices_ok (b : boot P) lv i io :
  flush flush_fuel (kbd_io (b_kbd b)) = Some io ->
  paging_ready (y_ram (b_sys b)) (y_pmm (b_sys b)) (y_vmm (b_sys b)) ->
  owns (y_ram (b_sys b)) (y_heap (b_sys b)) lv -> y_ramfs (b_sys b) = Ramfs ∅ ∅ i ->
  net_ok (y_net (b_sys b)) -> mac_ok (y_e1000 (b_sys b)) -> cursors_ok (y_e1000 (b_sys b)) ->
  (forall d s', pci_find_device (b_pci b) E1000_VENDOR E1000_DEVICE = (Some d, s') ->
     0 <= d_bar0 d < 2 ^ 32 /\ d_bar0 d mod 0x20000 = 0) ->
  exists b' lv', boot_devices b = Some b' /\ sys_inv statics (b_sys b') lv' /\
    y_halted (b_sys b') = y_halted (b_sys b) /\ y_ticks (b_sys b') = y_ticks (b_sys b) /\
    interrupt_handlers (b_idt b') = <[128%nat := Some (syscall_handler polls waits)]> (<[129%nat := Some yield_isr]>
      (<[14%nat := Some page_fault_isr]> (<[33%nat := Some keyboard_isr]> (interrupt_handlers (b_idt b))))).
Proof.
  intros Hfl Hpr Hown Hfs Hnet Hmac Hcur Hbar. unfold Kernel.boot_devices, keyboard_init. rewrite Hfl. cbn [mbind option_bind].
  set (w1 := emit (b_machine b) _). pose proof (paging_ok w1 _ _ Hpr) as Hv.
  destruct (vmm_init w1 (y_pmm (b_sys b)) (y_vmm (b_sys b))) as [[[rc w2] p2] v2].
  destruct Hv as (-> & Hisr & G2 & Hsp & Hcl & HB & Hin). cbn [Z.eqb negb y_vfs y_heap y_ramfs y_e1000 y_net y_sched with_paging].
  assert (Ho2 : owns (ram w2) (y_heap (b_sys b)) lv) by (by eapply owns_outside; [exact Hown|]).
  rewrite Hfs. destruct (vfs_init_inv w2 (y_vfs (b_sys b)) (y_heap (b_sys b)) (Ramfs ∅ ∅ i) eq_refl) as [Hv3 Er3].
  destruct (vfs_init w2 (y_vfs (b_sys b))) as [w3 f3]. cbn [fst snd] in Hv3, Er3. rewrite <- Er3 in *.
  destruct (ramfs_init_moves w3 (y_heap (b_sys b)) lv i f3 motd Ho2 Hv3 Hmotd) as (w4 & h4 & fs4 & f4 & lv4 & cs & -> & M & Hv4).
  cbn [mbind option_bind]. pose proof (mv_out _ _ _ _ _ _ _ M) as Ho4.
  pose proof (ground_free _ _ _ _ _ G2 Ho4) as Hfr4. pose proof (ground_outside _ _ _ _ _ G2 Ho4) as G4.
  pose proof (e1000_init_moves rx_descs tx_descs rx_buffers 512 (emit w4 cs) (b_pci b) p2 v2 (y_e1000 (b_sys b))
    (gd_inv _ _ _ _ G4) HB (spare_ext _ _ _ _ _ _ Hfr4 Hsp) Hmac Hcur Hbar) as He.
  destruct (e1000_init _ _ _ _ _ _ _ _) as [[[[[rc5 w5] s5] p5] v5] e5].
  destruct He as (Hmac5 & Hcur5 & m5 & Hg & Hx). cbn [ram emit] in Hg.
  destruct (ground_grows statics 512 _ _ _ _ _ _ G4 (all_clear_free statics _ _ _ _ _ (fun f => proj1 (Hfr4 f)) Hcl) Hg) as [G5 Hin5].
  destruct (ground_except _ _ (ram w5) _ _ G5) as [[G6 G7 G8] Hin6]; [by eapply same_except_incl|].
  set (wn := if rc5 =? 0 then net_init w5 (y_net (b_sys b)) (mac_addr e5) else (w5, y_net (b_sys b))).
  assert (Hn6 : ram wn.1 = ram w5 /\ net_ok wn.2).
  { unfold wn. destruct (rc5 =? 0); [|done]. split; [done|]. destruct Hnet as [N1 N2 N3 N4], Hmac5. by split. }
  destruct wn as [w6 n6]. cbn [fst snd] in Hn6. destruct Hn6 as [Er6 Hn6].
  pose proof (task_init_inv w6 (y_sched (b_sys b))) as Ht. destruct (task_init _ _) as [w7 sc7]. destruct Ht as (Er7 & Hs & Hrd & Hst).
  cbn [syscall_init]. eexists _, lv4. split; [reflexivity|]. split; [|split; [done|split; [done|by rewrite Hisr]]].
  assert (Er : ram w7 = ram w5) by congruence.
  split; cbn [b_sys y_machine y_sched y_pmm y_heap y_vmm y_vfs y_ramfs y_net y_e1000 y_ram ram emit]; try done;
    unfold y_ram; cbn [y_machine ram emit]; rewrite ?Er; try done.
  - destruct M as [M1 M2 _ _ _ _ _]. split; [|by split].
    unfold y_ram. cbn [y_machine ram emit y_heap]. rewrite Er. eapply owns_outside; [exact M1|].
    intros x Hx'. by rewrite Hin6, Hin5.
  - rewrite Hst. done.
  - rewrite Hst. apply NoDup_nil_2.
Qed.
End devices.

(** ** The first tasks *)

(** A sleep moves the clock and asks for a switch. *)
Lemma sleep_loop_sched wakes t e t' :
  sleep_loop wakes t e = Some t' -> timer_sched t' = timer_sched t \/ timer_sched t' = set_need (timer_sched t) true.
Proof.
  revert t. induction wakes as [|k wakes IH]; intros t; cbn [sleep_loop]; destruct (_ <? _).
  1,2,4: by intros [= <-]; left.
  assert (Hk : timer_sched (Nat.iter k timer_irq_handler t) = timer_sched t \/
    timer_sched (Nat.iter k timer_irq_handler t) = set_need (timer_sched t) true).
  { clear IH. induction k as [|k [IH|IH]]; [by left|right..]; cbn [Nat.iter nat_rect timer_irq_handler timer_sched];
      unfold Nat.iter in IH; by rewrite IH. }
  intros E. destruct (IH _ E) as [-> | ->]; [done|]. right. by destruct Hk as [-> | ->].
Qed.

Section run.
Context {P : Type} `{Ports P}.
Context (statics : list (Z * Z)) (polls : nat) (w0 : machine) (s0 : idt_state).
Context (Hs0 : forall i, 0 <= i < IDT_ENTRIES -> interrupt_handlers s0 !! Z.to_nat i = Some None).
Context (Hl0 : length (interrupt_handlers s0) = Z.to_nat IDT_ENTRIES).
Context (rx_descs tx_descs rx_buffers buf reply : Z) (Hreply : 0 <= reply < 2 ^ 32).
Context (Hcard : incl (card_ranges rx_descs tx_descs rx_buffers) statics).
Context (Hbuf : In (buf, NET_BUF_SIZE) statics) (Hrep : In (reply, 1518) statics).
Context (task_exit : Z) (Hexit : 0 <= task_exit < 2 ^ 32).
Context (line_buf cat_buf newline user_demo_entry : Z).
Context (Hline : In (line_buf, CMD_MAX) statics) (Hcatb : In (cat_buf, 128) statics).
Context (Hnl : newline + 1 <= HEAP_START \/ HEAP_END <= newline) (Hentry : 0 <= user_demo_entry < 2 ^ 32).
Abbreviation live_step := (live_step statics polls w0 s0 rx_descs tx_descs rx_buffers buf reply task_exit
  line_buf cat_buf newline user_demo_entry).
Abbreviation safe_step := (safe_step statics).

Lemma live_steps_inv s s' lv :
  sys_inv statics (l_sys s) lv -> rtc live_step s s' -> exists lv', sys_inv statics (l_sys s') lv'.
Proof. intros Hi Hst. by eapply live_inv; [..|exact Hst]. Qed.

(** No step but the shell's [reboot] stops the machine. *)
Lemma live_halted s s' lv :
  sys_inv statics (l_sys s) lv -> rtc live_step s s' -> y_halted (l_sys s') = y_halted (l_sys s).
Proof.
  intros Hi Hst. revert lv Hi. induction Hst as [|x z w Hst _ IH]; intros lv Hi; [done|].
  destruct (live_steps_inv _ _ _ Hi (rtc_once _ _ Hst)) as [lv1 Hi1]. rewrite (IH lv1 Hi1).
  destruct Hst as [y g b keys rest y' b' Hk Hr E| | | | |y g b entry name y' _ E|y g b arp card y' _ _ _ E|]; cbn [l_sys] in *; try done.
  - destruct (shell_round_safe statics line_buf cat_buf newline user_demo_entry polls Hline Hcatb Hnl Hentry y lv keys rest Hi Hk Hr)
      as (y2 & lv' & E2 & _ & Hh). rewrite E in E2. by injection E2 as <-.
  - unfold spawn in E. destruct (task_create _ _ _ _ _ _) as [[[[? ?] ?] ?]|]; [|done]. by injection E as <-.
  - unfold net_task_round in E. destruct (net_round _ _ _ _ _ _ _ _ _ _) as [[[? ?] ?]|]; [|done]. by injection E as <-.
Qed.

Context (demo_a demo_b net_entry : Z) (Hentries : forall e, In e [demo_a; demo_b; net_entry] -> 0 <= e < 2 ^ 32).
(** Between the calls of [boot_tasks] and while the kernel task sleeps, the other tasks,
    the interrupts and the card run, for fewer than 2^60 ticks each time. *)
Context (wakes' : list nat) (meanwhile : nat -> boot P -> boot P).
Definition running_of (b : boot P) : running := Running (b_sys b) (b_gdt b) (b_kbd b).
Context (Hmean : forall n b, rtc live_step (running_of b) (running_of (meanwhile n b)) /\ b_idt (meanwhile n b) = b_idt b /\
  y_ticks (b_sys b) <= y_ticks (b_sys (meanwhile n b)) < y_ticks (b_sys b) + 2 ^ 60).

Lemma meanwhile_ok n b lv :
  sys_inv statics (b_sys b) lv ->
  exists lv', sys_inv statics (b_sys (meanwhile n b)) lv' /\ y_halted (b_sys (meanwhile n b)) = y_halted (b_sys b) /\
    b_idt (meanwhile n b) = b_idt b /\
    y_ticks (b_sys b) <= y_ticks (b_sys (meanwhile n b)) < y_ticks (b_sys b) + 2 ^ 60.
Proof.
  intros Hi. destruct (Hmean n b) as (Hst & Hd & Ht). destruct (live_steps_inv (running_of b) _ lv Hi Hst) as [lv' Hi'].
  exists lv'. split; [exact Hi'|]. split; [exact (live_halted (running_of b) _ lv Hi Hst)|done].
Qed.

Lemma spawn_ok y lv entry name :
  sys_inv statics y lv -> 0 <= entry < 2 ^ 32 ->
  exists y' lv', spawn task_exit y entry name = Some y' /\ sys_inv statics y' lv' /\ y_halted y' = y_halted y /\
    y_ticks y' = y_ticks y.
Proof.
  intros Hi He. destruct (safe_create statics y lv task_exit entry name Hi Hexit He) as (id & w & h & s & lv' & E & S1).
  unfold spawn. rewrite E. cbn [mbind option_bind]. eexists _, lv'. split; [done|]. by split; [apply S1|].
Qed.

Lemma sleep_safe y lv ms t :
  sys_inv statics y lv -> timer_sleep_ms wakes' (y_timer y) ms = Some t ->
  sys_inv statics (with_timer y (y_machine y) t) lv.
Proof.
  intros Hi E. pose proof (sleep_loop_sched _ _ _ _ E) as Hs. cbn [y_timer timer_sched] in Hs.
  assert (Hy : same_bases (y_sched y) (timer_sched t) /\ sched_inv (timer_sched t) /\ scheduler_ready (timer_sched t) = true).
  { destruct Hi as [_ I2 I3 _ _ _ _ _ _ _]. destruct Hs as [-> | ->]; [done|]. split; [done|]. split; [by apply sched_inv_need|done]. }
  destruct Hy as (H1 & H2 & H3). pose proof (safe_sched statics y lv (timer_sched t) Hi H1 H2 H3) as S1.
  apply (safe_alike statics _ lv (with_timer y (y_machine y) t) (proj1 S1)). done.
Qed.

Lemma boot_tasks_ok (b : boot P) lv :
  sys_inv statics (b_sys b) lv -> 0 <= y_ticks (b_sys b) < 2 ^ 63 -> 100 <= total wakes' < 2 ^ 62 ->
  exists b' lv', boot_tasks demo_a demo_b net_entry task_exit wakes' meanwhile b = Some b' /\
    sys_inv statics (b_sys b') lv' /\ y_halted (b_sys b') = y_halted (b_sys b) /\ b_idt b' = b_idt b.
Proof.
  intros Hi H0 Hw. unfold boot_tasks. destruct (meanwhile_ok 0 b lv Hi) as (lv0 & I0 & Hh0 & D0 & T0). set (b0 := meanwhile 0 b) in *.
  destruct (spawn_ok (b_sys b0) lv0 demo_a "demo_a" I0) as (y1 & lv1 & -> & I1 & Hh1 & T1); [apply Hentries; cbn; tauto|].
  cbn [mbind option_bind]. destruct (meanwhile_ok 1 (with_sys b0 y1) lv1 I1) as (lv1' & I1' & Hh1' & D1 & T1').
  set (b1 := meanwhile 1 _) in *. cbn [with_sys b_sys b_idt] in Hh1', D1, T1'.
  destruct (spawn_ok (b_sys b1) lv1' demo_b "demo_b" I1') as (y2 & lv2 & -> & I2 & Hh2 & T2); [apply Hentries; cbn; tauto|].
  cbn [mbind option_bind]. destruct (meanwhile_ok 2 (with_sys b1 y2) lv2 I2) as (lv2' & I2' & Hh2' & D2 & T2').
  set (b2 := meanwhile 2 _) in *. cbn [with_sys b_sys b_idt] in Hh2', D2, T2'. set (y3 := out (b_sys b2) _).
  assert (I3 : sys_inv statics y3 lv2') by apply (safe_out statics _ lv2' _ I2').
  assert (T3 : y_ticks y3 = y_ticks (b_sys b2)) by done.
  destruct (timer_sleep_ms_correct wakes' (y_timer y3) 1000) as (pre & post & t & _ & E & _);
    [cbn [y_timer timer_ticks]; lia|cbn [y_timer timer_ticks]; lia|lia|apply Hw|]. rewrite E. cbn [mbind option_bind].
  pose proof (sleep_safe y3 lv2' 1000 t I3 E) as I4. set (b4 := with_sys b2 _).
  destruct (meanwhile_ok 3 b4 lv2' I4) as (lv5 & I5 & Hh5 & D5 & _). set (b5 := b_emit (meanwhile 3 b4) _).
  assert (I5' : sys_inv statics (b_sys b5) lv5) by apply (safe_out statics _ lv5 _ I5).
  pose proof (link_up_cursors _ (si_cursors _ _ _ I5')) as Hc.
  destruct (e1000_link_up (y_e1000 (b_sys b5))) as [up e]. cbn [snd] in Hc.
  assert (I6 : sys_inv statics (with_y_e1000 (b_sys b5) e) lv5) by apply (safe_e1000 statics _ lv5 e I5' Hc).
  destruct (meanwhile_ok 4 (with_sys b5 (with_y_e1000 (b_sys b5) e)) lv5 I6) as (lv6 & I6' & Hh6 & D6 & _).
  set (b6 := meanwhile 4 _) in *.
  assert (Hlast : exists y6 lv7, (if up then spawn task_exit (b_sys b6) net_entry "net" else Some (b_sys b6)) = Some y6 /\
    sys_inv statics y6 lv7 /\ y_halted y6 = y_halted (b_sys b6)).
  { destruct up; [|by exists (b_sys b6), lv6].
    destruct (spawn_ok (b_sys b6) lv6 net_entry "net" I6') as (y6 & lv7 & -> & I7 & Hh7 & _); [apply Hentries; cbn; tauto|].
    by exists y6, lv7. }
  destruct Hlast as (y6 & lv7 & -> & I7 & Hh7). cbn [mbind option_bind].
  destruct (meanwhile_ok 5 (with_sys b6 y6) lv7 I7) as (lv8 & I8 & Hh8 & D8 & _). eexists _, lv8. split; [done|].
  split; [apply (safe_out statics _ lv8 _ I8)|]. split; [|by etransitivity; [exact D8|]; etransitivity; [exact D6|]; etransitivity; [exact D5|];
    etransitivity; [exact D2|]; etransitivity; [exact D1|]].
  transitivity (y_halted y6); [exact Hh8|]. rewrite Hh7. etransitivity; [exact Hh6|]. etransitivity; [exact Hh5|].
  transitivity (y_halted (b_sys b2)); [done|]. congruence.
Qed.

(** ** The whole of [kernel_main] *)

Context (gdt_addr tss_addr loc idt_addr : Z) (stub : Z -> Z) (motd task_yield buffer : Z) (mbi_fuel flush_fuel : nat).
Context (wakes : list nat) (waits : list (kernel -> kernel)).

(** The state at power-on, the memory map of the boot loader and the places the
    linker chose: the static arrays and the page directory, then the bitmap, then
    the heap, and between bitmap and heap enough free frames for the page tables. *)
Record boot_layout (b : boot P) (mbi tag count : Z) (es : list mmap_entry) : Prop := {
  bl_memory : good_layout loc buffer mbi_fuel b mbi tag count es;
  bl_bits : loc + bitmap_bytes (frames_of (foldl measure_entry (0, 0) es).2) <= HEAP_START;
  bl_frames : 512 <= frames_of (foldl measure_entry (0, 0) es).2 <= 2 ^ 20;
  bl_tables : exists l, NoDup l /\ num_pde (foldl measure_entry (0, 0) es).1 < Z.of_nat (length l) /\
    Forall (fun f => usable loc es f /\ f < 512) l;
  bl_directory : let pd := page_directory (y_vmm (b_sys b)) in pd mod PAGE_SIZE = 0 /\ 0 <= pd /\ pd + PAGE_SIZE <= loc;
  bl_statics : forall a n, In (a, n) statics -> let pd := page_directory (y_vmm (b_sys b)) in
    a + n <= loc /\ (pd + PAGE_SIZE <= a \/ a + n <= pd);
  bl_motd : motd + 25 <= HEAP_START \/ HEAP_END <= motd;
  bl_flush : exists io, flush flush_fuel (kbd_io (b_kbd b)) = Some io;
  bl_ramfs : exists i, y_ramfs (b_sys b) = Ramfs ∅ ∅ i;
  bl_net : net_ok (y_net (b_sys b));
  bl_card : mac_ok (y_e1000 (b_sys b)) /\ cursors_ok (y_e1000 (b_sys b));
  bl_bar : forall d s', pci_find_device (b_pci b) E1000_VENDOR E1000_DEVICE = (Some d, s') ->
    0 <= d_bar0 d < 2 ^ 32 /\ d_bar0 d mod 0x20000 = 0;
  bl_clock : y_ticks (b_sys b) = 0 /\ 5 <= total wakes < 2 ^ 62 /\ 100 <= total wakes' < 2 ^ 62;
  bl_on : y_halted (b_sys b) = false;
}.

Lemma measure_total es t h : 0 <= t -> 0 <= (foldl measure_entry (t, h) es).1.
Proof.
  clear. revert t h. induction es as [|e es IH]; intros t h Ht; [done|]. cbn [foldl measure_entry].
  destruct (is_available e); [|by apply IH]. apply IH. apply u64_range.
Qed.

(** After the memory phase, paging has what it needs. *)
Lemma layout_paging (b : boot P) mbi tag count es m p :
  boot_layout b mbi tag count es -> pmm_inv m p -> (forall f, frame_free m p f <-> usable loc es f) ->
  frame_bitmap p = loc -> total_frames p = frames_of (foldl measure_entry (0, 0) es).2 ->
  total_memory p = (foldl measure_entry (0, 0) es).1 ->
  (forall f, usable loc es f -> loc + bitmap_bytes (frames_of (foldl measure_entry (0, 0) es).2) <= f * PMM_FRAME_SIZE) ->
  paging_ready statics m p (y_vmm (b_sys b)).
Proof.
  clear. intros Hb Hinv Hfree Ef Et Em Hlow. destruct (bl_directory _ _ _ _ _ Hb) as (Ha & Hpd0 & Hpd). cbv zeta in *.
  set (v := y_vmm (b_sys b)) in *. set (frames := frames_of _) in *.
  pose proof (bl_bits _ _ _ _ _ Hb) as Hbits. pose proof (bl_frames _ _ _ _ _ Hb) as Hfr. fold frames in Hbits, Hfr.
  pose proof (gl_loc _ _ _ _ _ _ _ _ (bl_memory _ _ _ _ _ Hb)) as Hloc. pose proof (bitmap_bytes_nonneg frames ltac:(lia)) as Hbb.
  assert (Hend : bitmap_end p = loc + bitmap_bytes frames) by (unfold bitmap_end; by rewrite Ef, Et).
  assert (Hbelow : forall f, frame_free m p f -> bitmap_end p <= f * PAGE_SIZE).
  { intros f Hf%Hfree%Hlow. rewrite Hend. exact Hf. }
  assert (Hclear : forall lo hi, hi <= loc -> clear_of lo hi 512 m p).
  { intros lo hi Hhi f Hf _. specialize (Hbelow f Hf). right. lia. }
  split.
  - split; [done|rewrite Et; lia|done|done| |lia]. intros f Hf. pose proof (Hbelow f Hf) as Hbf. unfold kernel_frame, PAGE_SIZE in *. split; [lia|].
    intros [[Hk _]|Hk]; [lia|]. rewrite Hend in Hbf. dlia.
  - rewrite Em. by apply measure_total.
  - unfold searched. rewrite Et. dlia.
  - destruct (bl_tables _ _ _ _ _ Hb) as (l & Hnd & Hl & Hf). exists l. split; [done|]. rewrite Em.
    destruct (num_pde_spec _ (measure_total es 0 0 ltac:(lia))) as (Hn & _). split; [lia|].
    eapply Forall_impl; [|exact Hf]. intros f [H1 H2]. split; [by apply Hfree|done].
  - split; [|intros a n Hin; apply Hclear, (bl_statics _ _ _ _ _ Hb a n Hin)].
    intros f _ Hf. left. unfold HEAP_START, PAGE_SIZE. lia.
  - lia.
  - intros a n Hin. destruct (bl_statics _ _ _ _ _ Hb a n Hin) as [H1 H2]. cbv zeta in *. fold v in H2. rewrite Ef. lia.
Qed.

(** C39: the frame allocator never learns of the heap: [pmm_init] leaves the heap's
    frames free and [heap_init] does not take them.  On a machine that boots (with
    memory at the heap's first frame and beyond its word of the bitmap), after the
    memory phase and [vmm_init] the heap is well formed, and some number [k] of
    frame allocations leaves it so and uses up the frames below it; then the next
    [vmm_map] that needs a table succeeds and overwrites the first block's header:
    what is left is no heap any more, whatever its counters. *)
Theorem vmm_map_clobbers_heap (b : boot P) (mbi tag count : Z) (es : list mmap_entry) (va pa flags : Z)
  (Hlayout : boot_layout b mbi tag count es) (Huse : usable loc es (HEAP_START / PAGE_SIZE))
  (Hbig : HEAP_START / PAGE_SIZE < frames_of (foldl measure_entry (0, 0) es).2 / 32 * 32)
  (Hva : num_pde (foldl measure_entry (0, 0) es).1 * 2 ^ 22 <= va < 2 ^ 32) (Hpa : 0 <= pa < 2 ^ 32) :
  exists b1 w2 p2 v2 bs, boot_memory loc buffer mbi_fuel b mbi = Some b1 /\
    vmm_init (b_machine b1) (y_pmm (b_sys b1)) (y_vmm (b_sys b1)) = (0, w2, p2, v2) /\
    heap_inv (ram w2) (y_heap (b_sys b1)) bs /\
    exists k, let '(m3, p3) := use_frames k (ram w2) p2 in
      heap_inv m3 (y_heap (b_sys b1)) bs /\
      exists m4 p4 v4, vmm_map m3 p3 v2 va pa flags = (0, m4, p4, v4) /\ forall h' bs', ~ heap_inv m4 h' bs'.
Proof.
  clear - Hlayout Huse Hbig Hva Hpa.
  destruct (boot_memory_ok loc buffer mbi_fuel b mbi tag count es (bl_memory _ _ _ _ _ Hlayout)) as
    (w & p & h & E & Hinv & Hfree & Hheap & _ & Ef & Et & Em & Hlow).
  pose proof (layout_paging b mbi tag count es _ p Hlayout Hinv Hfree Ef Et Em Hlow) as [Hr Ht Hs Hsp [Hc _] [Hp1 Hp2] _].
  set (v := y_vmm (b_sys b)) in *. pose proof (init_grows 512 1 w p v Hr Ht Hs Hsp) as Hi. pose proof (vmm_init_cases w p v Hr Ht) as Hn.
  exists (with_sys b (with_memory (b_sys b) w p h)). cbn [with_sys b_machine with_memory b_sys y_machine y_pmm y_vmm y_heap]. fold v.
  destruct (vmm_init w p v) as [[[rc w2] p2] v2]. destruct Hi as (-> & Hv2 & _ & _ & Epd & [Ef2 Et2] & _ & Hkeep & Hrng).
  destruct (Hrng HEAP_START HEAP_END ltac:(lia) ltac:(lia) Hc) as [_ Hin].
  exists w2, p2, v2, [(HEAP_INITIAL - sizeof_block, true)]. split; [done|]. split; [done|].
  assert (Hh2 : heap_inv (ram w2) h [(HEAP_INITIAL - sizeof_block, true)]) by (by eapply heap_inv_outside). split; [done|].
  assert (Hsame : searched p2 = searched p) by (unfold searched; by rewrite Et2).
  destruct (use_up 512 (ram w2) p2 v2 (seqZ 0 512) Hv2 ltac:(by rewrite Hsame)) as [k Hk].
  { intros f Hf Hlt. apply elem_of_seqZ. destruct Hf as [Hf _]. lia. }
  exists k. destruct (use_frames k (ram w2) p2) as [m3 p3]. destruct Hk as (Hv3 & [Ef3 Et3] & Hfr3 & Hpr3 & Ho3).
  assert (Hend : bitmap_end p2 = bitmap_end p) by (unfold bitmap_end; by rewrite Ef2, Et2). split.
  { eapply heap_inv_outside; [exact Hh2|]. intros x Hx. apply Ho3. rewrite Hend, Ef2. lia. }
  destruct Hn as (_ & _ & [(_ & _ & _ & _ & _ & _ & Hpres & _)|[? _]]); [|done].
  destruct (num_pde_spec (total_memory p) Ht) as (Hnp & _). rewrite <- Em in Hva.
  apply map_clobbers; [done|lia|done| | | |].
  - assert (Hidx : num_pde (total_memory p) <= va / PAGE_SIZE / 1024 < 1024) by (unfold PAGE_SIZE; dlia).
    rewrite Hpr3, Hpres by lia. apply Z.ltb_ge, Hidx.
  - change (HEAP_START / PAGE_SIZE) with 512 in *. apply Hfr3. split; [|lia]. apply Hkeep; [lia|]. by apply Hfree.
  - unfold searched. by rewrite Et3, Et2, Et.
  - intros g [_ Hg]%Hfr3. exact Hg.
Qed.

Abbreviation kernel_main := (kernel_main (P := P) gdt_addr tss_addr loc idt_addr stub motd rx_descs tx_descs rx_buffers demo_a demo_b
  net_entry task_exit task_yield line_buf cat_buf newline user_demo_entry buffer mbi_fuel flush_fuel polls wakes wakes'
  meanwhile waits).

(** The order of registration does not matter. *)
Lemma handlers_order :
  interrupt_handlers (all_handlers polls waits w0 s0) = <[128%nat := Some (syscall_handler polls waits)]>
    (<[129%nat := Some yield_isr]> (<[14%nat := Some page_fault_isr]> (<[33%nat := Some keyboard_isr]>
      (<[32%nat := Some timer_isr]> (replicate (Z.to_nat IDT_ENTRIES) None))))).
Proof.
  assert (E0 : interrupt_handlers s0 = replicate (Z.to_nat IDT_ENTRIES) None).
  { symmetry. apply replicate_as_elem_of. split; [done|]. intros h [j Hj]%list_elem_of_lookup. apply lookup_lt_Some in Hj as Hlt.
    rewrite Hl0 in Hlt. specialize (Hs0 (Z.of_nat j) ltac:(unfold IDT_ENTRIES in *; lia)). rewrite Nat2Z.id in Hs0. congruence. }
  unfold all_handlers, syscall_init, register_irqs, idt_register_handler. cbn [snd interrupt_handlers]. rewrite E0.
  done.
Qed.

Lemma shell_run_ok y lv lines :
  sys_inv statics y lv -> y_halted y = false ->
  Forall (fun keys => Forall (fun c => c <> 10) keys /\ ~ reboots (fold_left edit keys [])) lines ->
  exists y' lv', shell_run line_buf cat_buf newline user_demo_entry polls (length lines) (typed lines) y = Some ([], y') /\
    sys_inv statics y' lv' /\ y_halted y' = false.
Proof.
  intros Hi Hh Hl. unfold shell_run. set (y1 := out y _).
  destruct (shell_loop_safe statics line_buf cat_buf newline user_demo_entry polls Hline Hcatb Hnl Hentry y1 lv lines)
    as (y' & lv' & E & S1 & Hh'); [apply (safe_out statics y lv _ Hi)|done|done|]. exists y', lv'. split; [exact E|]. by split; [apply S1|].
Qed.

Lemma kernel_main_ok (b : boot P) mbi tag count es lines :
  boot_layout b mbi tag count es ->
  Forall (fun keys => Forall (fun c => c <> 10) keys /\ ~ reboots (fold_left edit keys [])) lines ->
  exists b' lv, kernel_main (length lines) (typed lines) b mbi = Some b' /\ y_halted (b_sys b') = false /\
    interrupt_handlers (b_idt b') = interrupt_handlers (all_handlers polls waits w0 s0) /\ sys_inv statics (b_sys b') lv.
Proof.
  intros Hb Hl. pose proof (bl_memory _ _ _ _ _ Hb) as [G1 G2 G3 G4 G5 G6 G7].
  destruct (bl_clock _ _ _ _ _ Hb) as (T0 & Hw & Hw'). unfold Kernel.kernel_main.
  destruct (serial_init (y_io (b_sys b))) as [ok s1]. destruct (gdt_init _ _ _ _) as [w2 g2] eqn:Eg.
  assert (Er2 : ram w2 = ram (b_machine b)) by (unfold gdt_init in Eg; apply (f_equal fst) in Eg; cbn [fst] in Eg; by subst w2).
  clear Eg. destruct (Z.eqb_spec mbi 0) as [E0|_]; [by apply (map_mbi _ _ _ _ _ _ _ G1) in E0|].
  set (b2 := Boot _ g2 (b_idt b) (b_kbd b) (b_pci b)).
  destruct (boot_memory_ok loc buffer mbi_fuel b2 mbi tag count es) as
    (w3 & p3 & h3 & -> & Hp3 & Hf3 & Hh3 & _ & Ef & Et & Em & Hlow).
  { split; [|done..]. cbn [b2 b_machine b_sys with_y_machine y_machine]. by rewrite Er2. }
  cbn [mbind option_bind]. set (b3 := with_sys b2 _).
  destruct (boot_interrupts_ok idt_addr stub wakes b3) as (w4 & t4 & d4 & -> & Er4 & T4 & Ed4).
  { cbn. lia. } { cbn. lia. } { lia. }
  cbn [mbind option_bind]. set (b4 := Boot (with_timer _ w4 t4) _ d4 _ _).
  destruct (bl_flush _ _ _ _ _ Hb) as [io Hio]. destruct (bl_ramfs _ _ _ _ _ Hb) as [i Hi].
  destruct (boot_devices_ok statics motd rx_descs tx_descs rx_buffers task_yield flush_fuel polls waits Hcard
    (bl_motd _ _ _ _ _ Hb) b4 (live [(HEAP_INITIAL - sizeof_block, true)]) i io) as (b5 & lv5 & -> & I5 & Hh5 & T5 & Ed5).
  - exact Hio.
  - apply (layout_paging b mbi tag count es); try done; unfold y_ram; cbn [b4 b_sys with_timer y_machine]; by rewrite Er4.
  - unfold y_ram. cbn [b4 b_sys with_timer y_machine]. rewrite Er4. by exists [(HEAP_INITIAL - sizeof_block, true)].
  - exact Hi.
  - apply (bl_net _ _ _ _ _ Hb).
  - apply (bl_card _ _ _ _ _ Hb).
  - apply (bl_card _ _ _ _ _ Hb).
  - apply (bl_bar _ _ _ _ _ Hb).
  - cbn [mbind option_bind]. assert (Eh : y_halted (b_sys b5) = false) by (rewrite Hh5; apply (bl_on _ _ _ _ _ Hb)). rewrite Eh.
    assert (Et5 : 0 <= y_ticks (b_sys b5) < 2 ^ 63).
    { rewrite T5. cbn [b4 b_sys with_timer y_ticks]. cbn [b3 with_sys b_sys b2 with_memory y_ticks with_y_machine] in T4. lia. }
    destruct (boot_tasks_ok b5 lv5 I5) as (b6 & lv6 & -> & I6 & Hh6 & Ed6); [lia|lia|]. cbn [mbind option_bind].
    destruct (shell_run_ok (b_sys b6) lv6 lines I6 ltac:(congruence) Hl) as (y7 & lv7 & -> & I7 & Hh7). cbn [mbind option_bind].
    eexists _, lv7. split; [reflexivity|]. split; [done|]. split; [|done]. cbn [with_sys b_idt]. rewrite Ed6, Ed5.
    cbn [b4 b_idt]. rewrite Ed4. symmetry. apply handlers_order.
Qed.

(** C2: the kernel boots.  From power-on, with a memory map and a linker layout as
    [boot_layout] has them and whatever the network card, the serial port and the PCI
    bus answer, [kernel_main] gets through every phase and the shell reads and
    executes any number of lines that do not reboot; no phase halts, the dispatcher's
    table holds every handler, the state has the invariant of [System], and so has
    every state that the running system reaches from it ([live_step], with its
    restrictions on interrupts and system calls).
    From the first task on, what the interrupts, the other tasks and the card do
    between two calls of [kernel_main] and during the long sleep is any sequence of
    [live_step]s that takes fewer than 2^60 ticks.  Before it, interrupts are taken in
    the short sleep only (no task can be switched to yet); and in no phase inside a
    call: interrupts are enabled there too, and a tick inside [task_create] can switch
    to an unfinished task and lose the machine ([task_create_race]). *)
Theorem kernel_boots (b : boot P) (mbi tag count : Z) (es : list mmap_entry) (lines : list (list Z))
  (Hlayout : boot_layout b mbi tag count es)
  (Hlines : Forall (fun keys => Forall (fun c => c <> 10) keys /\ ~ reboots (fold_left edit keys [])) lines) :
  exists b', kernel_main (length lines) (typed lines) b mbi = Some b' /\ y_halted (b_sys b') = false /\
    interrupt_handlers (b_idt b') = interrupt_handlers (all_handlers polls waits w0 s0) /\
    forall s, rtc live_step (running_of b') s ->
      (exists lv, sys_inv statics (l_sys s) lv) /\ y_halted (l_sys s) = false.
Proof.
  destruct (kernel_main_ok b mbi tag count es lines Hlayout Hlines) as (b' & lv & E & Hh & Hd & Hi). exists b'.
  split; [done|]. split; [done|]. split; [done|]. intros s Hs. split.
  - by apply (live_steps_inv (running_of b') s lv).
  - rewrite <- Hh. by apply (live_halted (running_of b') s lv).
Qed.
End run.

(** ** Instance: 8 MB of memory, a card on the bus, and one line typed *)

Definition demo_mbi_8mb : memory :=
  store_bytes ∅ 4096
    ([64;0;0;0; 0;0;0;0] ++
     [6;0;0;0; 40;0;0;0; 24;0;0;0; 0;0;0;0] ++
     [0;0;0x10;0; 0;0;0;0; 0;0;0x70;0; 0;0;0;0; 1;0;0;0; 0;0;0;0] ++
     [0;0;0;0; 8;0;0;0]).
Definition demo_regions : list mmap_entry := [MmapEntry 0x100000 0x700000 1].

Definition demo_power_on : boot pci_bus :=
  Boot (Sys (Machine demo_mbi_8mb []) 0 demo_sched3 pmm_boot (Heap 0 0 0) (Vmm 0x19F000 0 0 0 0 0 false ∅) demo_vfs
    (Ramfs ∅ ∅ 1) demo_net demo_e1000 (Io [] []) false) gdt_boot demo_idt demo_kbd demo_bus.

Lemma demo_usable f : 418 <= f < 2048 -> usable 0x1A0000 demo_regions f.
Proof.
  intros Hf. unfold usable. change (frames_of (foldl measure_entry (0, 0) demo_regions).2) with 2048.
  split; [lia|]. change (last_reserved _) with 417. split; [|lia]. cbn [demo_regions existsb]. unfold entry_frames.
  change (e_addr _ / PMM_FRAME_SIZE) with 256. change ((_ +₆₄ _) / PMM_FRAME_SIZE) with 2048.
  change (is_available _) with true. cbn [andb]. zcases; done || lia.
Qed.

Lemma demo_boot_layout :
  boot_layout demo_statics [100%nat] 0x1A0000 0x110200 0x110300 3 3 [5%nat] demo_power_on 4096 4104 1 demo_regions.
Proof.
  split.
  - split; [|done|lia| | | |].
    + split; [lia|vm_compute; reflexivity|lia|vm_compute; reflexivity|vm_compute; reflexivity| | |lia].
      * split; [|done]. intros ? ? [].
      * left. vm_compute. discriminate.
    + left. vm_compute. discriminate.
    + left. vm_compute. discriminate.
    + left. vm_compute. discriminate.
    + exists 500, 501. split; [vm_compute; split; reflexivity|]. split; apply demo_usable; lia.
  - vm_compute. discriminate.
  - vm_compute. split; discriminate.
  - exists [500; 501; 502]. split; [apply (bool_decide_unpack _); by vm_compute|]. split; [vm_compute; reflexivity|].
    repeat constructor; (apply demo_usable; lia) || lia.
  - cbv zeta. cbn [demo_power_on b_sys y_vmm page_directory]. unfold PAGE_SIZE. split; [done|lia].
  - intros a n Hin. pose proof (demo_statics_range a n Hin). cbv zeta. cbn [demo_power_on b_sys y_vmm page_directory]. lia.
  - left. vm_compute. discriminate.
  - eexists. vm_compute. reflexivity.
  - by exists 1.
  - apply demo_net_ok.
  - split; [split; [done|repeat constructor; lia]|]. vm_compute. split; split; (discriminate || reflexivity).
  - intros d s' E.
    assert (Hd : d_bar0 <$> (pci_find_device demo_bus E1000_VENDOR E1000_DEVICE).1 = Some 0xFEBC0000) by (vm_compute; reflexivity).
    cbn [demo_power_on b_pci] in E. rewrite E in Hd. cbn [fst fmap option_fmap option_map] in Hd.
    apply (inj Some) in Hd. rewrite Hd. split; [lia|done].
  - vm_compute. repeat split; discriminate.
  - done.
Qed.

Lemma kernel_boots_witness :
  exists b', kernel_main 0 0 0x1A0000 0 (fun _ => 0) 0x110200 0x120000 0x120200 0x130000 0x101000 0x102000 0x103000
      0x104000 0x105000 0x110000 0x110100 0x110180 0x101000 0x110300 3 3 0 [5%nat] [100%nat] (fun _ => id) [] 1 (typed [[108; 115]])
      demo_power_on 4096 = Some b' /\ y_halted (b_sys b') = false.
Proof.
  destruct (kernel_boots demo_statics 0 (Machine ∅ []) demo_idt demo_handlers ltac:(reflexivity)
    0x120000 0x120200 0x130000 0x150000 0x151000 ltac:(lia)
    ltac:(intros r Hr; cbn in Hr |- *; tauto) ltac:(cbn; tauto) ltac:(cbn; tauto) 0x104000 ltac:(lia)
    0x110000 0x110100 0x110180 0x101000 ltac:(cbn; tauto) ltac:(cbn; tauto) ltac:(unfold HEAP_START; lia) ltac:(lia)
    0x101000 0x102000 0x103000 ltac:(cbn; intros e He; lia) [100%nat] (fun _ => id)
    ltac:(intros n b; split; [apply rtc_refl|split; [reflexivity|cbn; lia]])
    0 0 0x1A0000 0 (fun _ => 0) 0x110200 0x105000 0x110300 3 3 [5%nat] [] demo_power_on 4096 4104 1 demo_regions [[108; 115]])
    as (b' & E & Hh & _).
  - exact demo_boot_layout.
  - repeat constructor; (discriminate || (intros F; discriminate F)).
  - exists b'. exact (conj E Hh).
Defined.

Lemma vmm_map_clobbers_heap_witness :
  exists b1 w2 p2 v2 k, boot_memory 0x1A0000 0x110300 3 demo_power_on 4096 = Some b1 /\
    vmm_init (b_machine b1) (y_pmm (b_sys b1)) (y_vmm (b_sys b1)) = (0, w2, p2, v2) /\
    exists m4 p4 v4, vmm_map (use_frames k (ram w2) p2).1 (use_frames k (ram w2) p2).2 v2 0xC0000000 0x5000 3 = (0, m4, p4, v4) /\
      forall h' bs', ~ heap_inv m4 h' bs'.
Proof.
  destruct (vmm_map_clobbers_heap demo_statics [100%nat] 0x1A0000 0x110200 0x110300 3 3 [5%nat] demo_power_on
    4096 4104 1 demo_regions 0xC0000000 0x5000 3 demo_boot_layout) as (b1 & w2 & p2 & v2 & bs & E1 & E2 & _ & k & H).
  - apply demo_usable. change (HEAP_START / PAGE_SIZE) with 512. lia.
  - vm_compute. reflexivity.
  - change (num_pde _) with 2. lia.
  - lia.
  - exists b1, w2, p2, v2, k. split; [exact E1|]. split; [exact E2|]. destruct (use_frames k (ram w2) p2) as [m3 p3]. apply H.
Defined.
