(* ===== verification/Tests.v ===== *)
(** * The repository's unit tests, run on the model

    The suites of [tests/unit] for [string.c], [pmm.c], [heap.c] and [task.c], one
    definition per test function, with its calls and assertions in order.  A test
    is [Some true] when every assertion holds and every call returns.  String
    literals and local arrays are at fixed places of a zeroed memory; the mocked
    [malloc] of the task suite is the kernel's heap here.  Every test starts at
    power-on. *)
From stdpp Require Import base numbers list gmap strings.
From Stdlib Require Import ZArith.
From S2P Require Import Prelude.
From S2P Require Import Machine.
From S2P Require Import CString.
From S2P Require Import Multiboot.
From S2P Require Import Alloc.
From S2P Require Import Pmm.
From S2P Require Import Heap.
From S2P Require Import Gdt.
From S2P Require Import Task.
From S2P Require Import Vfs.

(** ** The framework *)

(** An assertion that fails ends the test. *)
Definition check (b : bool) : option unit := if b then Some tt else None.
Definition passes {A : Type} (t : option A) : bool := match t with Some _ => true | None => false end.

Definition ASSERT_EQ (a b : Z) : option unit := check (a =? b).
Definition ASSERT_NE (a b : Z) : option unit := check (negb (a =? b)).
Definition ASSERT_TRUE (b : bool) : option unit := check b.
Definition ASSERT_FALSE (b : bool) : option unit := check (negb b).
Definition ASSERT_NULL (p : Z) : option unit := ASSERT_EQ p 0.
Definition ASSERT_NOT_NULL (p : Z) : option unit := ASSERT_NE p 0.

(** The array at [a] starts with the string [s]. *)
Definition lit (m : memory) (a : Z) (s : string) : memory := store_bytes m a (bytes_of s ++ [0]).
Definition ASSERT_STR_EQ (m : memory) (a : Z) (s : string) : option unit :=
  r ← strcmp 64 (lit m 0x9000 s) a 0x9000; ASSERT_EQ r 0.

(** ** string.c *)

Module String_suite.
Definition two (a b : string) : memory := lit (lit ∅ 0x1000 a) 0x2000 b.
Definition len (s : string) : option Z := strlen 64 (lit ∅ 0x1000 s) 0x1000.
Definition cmp (a b : string) : option Z := strcmp 64 (two a b) 0x1000 0x2000.
Definition char (c : string) : Z := default 0 (head (bytes_of c)).

Definition test_strlen_empty := n ← len ""; ASSERT_EQ n 0.
Definition test_strlen_one := n ← len "A"; ASSERT_EQ n 1.
Definition test_strlen_normal := n ← len "hello"; ASSERT_EQ n 5.
Definition test_strlen_with_spaces := n ← len "hello world"; ASSERT_EQ n 11.

Definition test_strcmp_equal := r ← cmp "abc" "abc"; ASSERT_EQ r 0.
Definition test_strcmp_empty := r ← cmp "" ""; ASSERT_EQ r 0.
Definition test_strcmp_less := r ← cmp "abc" "abd"; ASSERT_TRUE (r <? 0).
Definition test_strcmp_greater := r ← cmp "abd" "abc"; ASSERT_TRUE (r >? 0).
Definition test_strcmp_prefix := r ← cmp "ab" "abc"; ASSERT_TRUE (r <? 0).
Definition test_strcmp_longer := r ← cmp "abc" "ab"; ASSERT_TRUE (r >? 0).

Definition test_strncmp_equal_within := ASSERT_EQ (strncmp (two "abcdef" "abcxyz") 0x1000 0x2000 3) 0.
Definition test_strncmp_differ_within := ASSERT_TRUE (strncmp (two "abcdef" "abxyz") 0x1000 0x2000 3 <? 0).
Definition test_strncmp_zero_count := ASSERT_EQ (strncmp (two "abc" "xyz") 0x1000 0x2000 0) 0.

Definition test_strcpy_basic := m ← strcpy 64 (lit ∅ 0x1000 "hello") 0x3000 0x1000; ASSERT_STR_EQ m 0x3000 "hello".
Definition test_strcpy_empty :=
  m ← strcpy 64 (lit (lit ∅ 0x1000 "") 0x3000 "old") 0x3000 0x1000; ASSERT_EQ (load8 m 0x3000) 0.

Definition test_strncpy_full :=
  let m := strncpy (lit ∅ 0x1000 "hi") 0x3000 0x1000 8 in
  _ ← ASSERT_STR_EQ m 0x3000 "hi"; ASSERT_EQ (load8 m 0x3003) 0.
Definition test_strncpy_truncate :=
  let m := strncpy (lit ∅ 0x1000 "hello") 0x3000 0x1000 3 in
  _ ← ASSERT_EQ (load8 m 0x3000) (char "h"); _ ← ASSERT_EQ (load8 m 0x3001) (char "e");
  ASSERT_EQ (load8 m 0x3002) (char "l").

(** [for (i = 0; i < n; i++) ASSERT_EQ(buf[i], c);] *)
Fixpoint all_eq (n : nat) (m : memory) (buf c : Z) : option unit :=
  match n with O => Some tt | S n' => _ ← ASSERT_EQ (load8 m buf) c; all_eq n' m (buf + 1) c end.
Definition test_memset_zero := all_eq 16 (memset (lit ∅ 0x3000 "abcdefghijklmno") 0x3000 0 16) 0x3000 0.
Definition test_memset_pattern := all_eq 8 (memset ∅ 0x3000 0xAA 8) 0x3000 0xAA.
Definition test_memset_partial :=
  let m := memset ∅ (0x3000 + 2) (char "X") 3 in
  _ ← ASSERT_EQ (load8 m 0x3000) 0; _ ← ASSERT_EQ (load8 m 0x3001) 0; _ ← ASSERT_EQ (load8 m 0x3002) (char "X");
  _ ← ASSERT_EQ (load8 m 0x3004) (char "X"); ASSERT_EQ (load8 m 0x3005) 0.

Definition test_memcpy_basic := ASSERT_STR_EQ (memcpy (lit ∅ 0x1000 "hello") 0x3000 0x1000 6) 0x3000 "hello".
Definition test_memcpy_zero_len := ASSERT_STR_EQ (memcpy (lit (lit ∅ 0x3000 "abc") 0x1000 "XYZ") 0x3000 0x1000 0) 0x3000 "abc".

Definition test_memmove_no_overlap :=
  ASSERT_STR_EQ (memmove (lit ∅ 0x1000 "hello world") 0x3000 0x1000 12) 0x3000 "hello world".
(** The first bytes of [buf], one assertion each. *)
Fixpoint bytes_eq (m : memory) (buf : Z) (l : list Z) : option unit :=
  match l with [] => Some tt | c :: l' => _ ← ASSERT_EQ (load8 m buf) c; bytes_eq m (buf + 1) l' end.
Definition test_memmove_overlap_forward :=
  bytes_eq (memmove (lit ∅ 0x1000 "abcdefgh") (0x1000 + 2) 0x1000 6) 0x1000 (bytes_of "ababcdef").
Definition test_memmove_overlap_backward :=
  bytes_eq (memmove (lit ∅ 0x1000 "abcdefgh") 0x1000 (0x1000 + 2) 6) 0x1000 (bytes_of "cdefgh").

Definition test_memcmp_equal := ASSERT_EQ (memcmp (two "abc" "abc") 0x1000 0x2000 3) 0.
Definition test_memcmp_differ := ASSERT_TRUE (memcmp (two "abc" "abd") 0x1000 0x2000 3 <? 0).
Definition test_memcmp_zero_len := ASSERT_EQ (memcmp (two "abc" "xyz") 0x1000 0x2000 0) 0.
Definition test_memcmp_partial := ASSERT_EQ (memcmp (two "abcX" "abcY") 0x1000 0x2000 3) 0.

Definition string_tests : list (option unit) :=
  [test_strlen_empty; test_strlen_one; test_strlen_normal; test_strlen_with_spaces; test_strcmp_equal; test_strcmp_empty;
   test_strcmp_less; test_strcmp_greater; test_strcmp_prefix; test_strcmp_longer; test_strncmp_equal_within;
   test_strncmp_differ_within; test_strncmp_zero_count; test_strcpy_basic; test_strcpy_empty; test_strncpy_full;
   test_strncpy_truncate; test_memset_zero; test_memset_pattern; test_memset_partial; test_memcpy_basic;
   test_memcpy_zero_len; test_memmove_no_overlap; test_memmove_overlap_forward; test_memmove_overlap_backward;
   test_memcmp_equal; test_memcmp_differ; test_memcmp_zero_len; test_memcmp_partial].

Lemma string_suite_passes : forallb passes string_tests = true.
Proof. vm_compute. reflexivity. Qed.
End String_suite.

(** ** pmm.c *)

Module Pmm_suite.
Definition BITMAP_ADDR : Z := 0x400000.
Definition AVAIL_START : Z := 0x500000.
Definition AVAIL_LEN : Z := 0x1B00000.
Definition fake_mbi_buf : Z := 0x8000.

(** One memory map tag with one available region, and the end tag. *)
Definition build_fake_mbi (m : memory) : memory :=
  let mmap := fake_mbi_buf + 8 in
  let m1 := store32 (store32 m mmap 6) (mmap + 8) 24 in
  let e := mmap + sizeof_tag_mmap in
  let m2 := store32 (store_le 8 m1 e AVAIL_START) (e + 16) 1 in
  let m3 := store32 (store_le 8 m2 (e + 8) AVAIL_LEN) (mmap + 4) (sizeof_tag_mmap + 24) in
  let p_end := mmap + 40 in
  store32 (store32 (store32 m3 p_end 0) (p_end + 4) 8) fake_mbi_buf (p_end + 8 - fake_mbi_buf).

(** [reinit] in the state at power-on. *)
Definition pmm_reinit : option (memory * pmm) :=
  '(w, p) ← pmm_init BITMAP_ADDR 3 (Machine (build_fake_mbi ∅) []) pmm_boot fake_mbi_buf; Some (ram w, p).

Definition test_alloc_single :=
  '(m, p) ← pmm_reinit; let '(addr, _, _) := pmm_alloc_frame m p in
  _ ← ASSERT_NE addr 0; ASSERT_EQ (addr mod PMM_FRAME_SIZE) 0.
Definition test_alloc_in_avail_range :=
  '(m, p) ← pmm_reinit; let '(addr, _, _) := pmm_alloc_frame m p in
  _ ← ASSERT_TRUE (addr >=? AVAIL_START); ASSERT_TRUE (addr <? AVAIL_START + AVAIL_LEN).
Definition test_alloc_returns_unique :=
  '(m, p) ← pmm_reinit;
  let '(a, m1, p1) := pmm_alloc_frame m p in
  let '(b, m2, p2) := pmm_alloc_frame m1 p1 in
  let '(c, _, _) := pmm_alloc_frame m2 p2 in
  _ ← ASSERT_NE a 0; _ ← ASSERT_NE b 0; _ ← ASSERT_NE c 0; _ ← ASSERT_NE a b; ASSERT_NE b c.
Definition test_free_and_realloc :=
  '(m, p) ← pmm_reinit;
  let '(a, m1, p1) := pmm_alloc_frame m p in
  _ ← ASSERT_NE a 0;
  let '(m2, p2) := pmm_free_frame m1 p1 a in
  let '(b, _, _) := pmm_alloc_frame m2 p2 in ASSERT_EQ a b.
(** The second free changes nothing. *)
Definition test_double_free_safe :=
  '(m, p) ← pmm_reinit;
  let '(a, m1, p1) := pmm_alloc_frame m p in
  let '(m2, p2) := pmm_free_frame m1 p1 a in
  let '(_, p3) := pmm_free_frame m2 p2 a in ASSERT_EQ (used_frames p3) (used_frames p2).
Definition test_is_allocated :=
  '(m, p) ← pmm_reinit;
  let '(a, m1, p1) := pmm_alloc_frame m p in
  _ ← ASSERT_TRUE (pmm_is_frame_allocated m1 p1 a);
  let '(m2, p2) := pmm_free_frame m1 p1 a in ASSERT_FALSE (pmm_is_frame_allocated m2 p2 a).

(** [for (i = 0; i < 4; i++) ASSERT(pmm_is_frame_allocated(base + i * PMM_FRAME_SIZE) == b);] *)
Definition all_allocated (b : bool) (m : memory) (p : pmm) (base : Z) : bool :=
  forallb (fun i => Bool.eqb (pmm_is_frame_allocated m p (base + i * PMM_FRAME_SIZE)) b) [0; 1; 2; 3].
Definition test_alloc_contiguous :=
  '(m, p) ← pmm_reinit;
  let '(base, m1, p1) := pmm_alloc_frames m p 4 in
  _ ← ASSERT_NE base 0; _ ← ASSERT_EQ (base mod PMM_FRAME_SIZE) 0;
  _ ← ASSERT_TRUE (all_allocated true m1 p1 base);
  let '(m2, p2) := pmm_free_frames m1 p1 base 4 in ASSERT_TRUE (all_allocated false m2 p2 base).
Definition test_alloc_zero_frames :=
  '(m, p) ← pmm_reinit; let '(base, _, _) := pmm_alloc_frames m p 0 in ASSERT_EQ base 0.
Definition test_reserve_frame :=
  '(m, p) ← pmm_reinit;
  let addr := AVAIL_START + PMM_FRAME_SIZE * 100 in
  _ ← ASSERT_FALSE (pmm_is_frame_allocated m p addr);
  let '(m1, p1) := pmm_reserve_frame m p addr in ASSERT_TRUE (pmm_is_frame_allocated m1 p1 addr).
Definition test_stats_initial :=
  '(_, p) ← pmm_reinit;
  let st := pmm_get_stats p in
  _ ← ASSERT_TRUE (st_total_frames st >? 0); _ ← ASSERT_TRUE (st_free_frames st >? 0);
  ASSERT_TRUE (st_free_frames st <=? st_total_frames st).
Definition test_stats_after_alloc :=
  '(m, p) ← pmm_reinit;
  let before := pmm_get_stats p in
  let '(_, _, p1) := pmm_alloc_frame m p in
  let after := pmm_get_stats p1 in
  _ ← ASSERT_EQ (st_used_frames after) (st_used_frames before + 1);
  ASSERT_EQ (st_free_frames after) (st_free_frames before - 1).

(** [for (i = 0; i < count; i++) ASSERT_NE(pmm_alloc_frame(), 0);] *)
Fixpoint alloc_loop (n : nat) (m : memory) (p : pmm) : option unit :=
  match n with
  | O => Some tt
  | S n' => let '(a, m', p') := pmm_alloc_frame m p in _ ← ASSERT_NE a 0; alloc_loop n' m' p'
  end.
Definition test_alloc_many :=
  '(m, p) ← pmm_reinit;
  let free := st_free_frames (pmm_get_stats p) in alloc_loop (Z.to_nat (if free <? 500 then free else 500)) m p.
(** Nothing is written. *)
Definition test_null_stats :=
  '(m, p) ← pmm_reinit; ASSERT_TRUE (bool_decide (pmm_get_stats_to m p 0 = m)).
Definition test_null_mbi := pmm_init BITMAP_ADDR 3 (Machine ∅ []) pmm_boot 0.

Definition pmm_tests : list bool :=
  [passes test_alloc_single; passes test_alloc_in_avail_range; passes test_alloc_returns_unique;
   passes test_free_and_realloc; passes test_double_free_safe; passes test_is_allocated; passes test_alloc_contiguous;
   passes test_alloc_zero_frames; passes test_reserve_frame; passes test_stats_initial; passes test_stats_after_alloc;
   passes test_alloc_many; passes test_null_mbi; passes test_null_stats].

Lemma pmm_suite_passes : forallb id pmm_tests = true.
Proof. vm_compute. reflexivity. Qed.
End Pmm_suite.

(** ** heap.c *)

Module Heap_suite.
(** [reinit]: a zeroed heap area. *)
Definition heap_reinit : machine * heap := heap_init (Machine ∅ []).

(** [ASSERT_NOT_NULL(p = kmalloc(n));] *)
Definition alloc (w : machine) (h : heap) (n : Z) : option (Z * machine * heap) :=
  '(p, w1, h1) ← kmalloc w h n; _ ← ASSERT_NOT_NULL p; Some (p, w1, h1).

Definition test_alloc_basic :=
  let '(w, h) := heap_reinit in '(p, w1, h1) ← alloc w h 100; kfree w1 h1 p.
Definition test_alloc_zero :=
  let '(w, h) := heap_reinit in '(p, _, _) ← kmalloc w h 0; ASSERT_NULL p.
Definition test_alloc_multiple :=
  let '(w, h) := heap_reinit in
  '(a, w1, h1) ← alloc w h 64; '(b, w2, h2) ← alloc w1 h1 128; '(c, w3, h3) ← alloc w2 h2 256;
  _ ← ASSERT_NE a b; _ ← ASSERT_NE b c;
  '(w4, h4) ← kfree w3 h3 a; '(w5, h5) ← kfree w4 h4 b; kfree w5 h5 c.
Definition test_kzalloc :=
  let '(w, h) := heap_reinit in
  '(p, w1, h1) ← kzalloc w h 256; _ ← ASSERT_NOT_NULL p;
  _ ← String_suite.all_eq 256 (ram w1) p 0; kfree w1 h1 p.
Definition test_free_reuse :=
  let '(w, h) := heap_reinit in
  '(a, w1, h1) ← alloc w h 64; '(w2, h2) ← kfree w1 h1 a;
  '(b, w3, h3) ← alloc w2 h2 64; _ ← ASSERT_EQ a b; kfree w3 h3 b.
Definition test_krealloc_grow :=
  let '(w, h) := heap_reinit in
  '(p, w1, h1) ← alloc w h 16;
  let m := memcpy (lit (ram w1) 0x1000 "hello world!") p 0x1000 13 in
  '(q, w2, h2) ← krealloc (set_ram w1 m) h1 p 256; _ ← ASSERT_NOT_NULL q;
  _ ← ASSERT_EQ (memcmp (ram w2) q 0x1000 13) 0; kfree w2 h2 q.
Definition test_krealloc_null :=
  let '(w, h) := heap_reinit in '(p, w1, h1) ← krealloc w h 0 100; _ ← ASSERT_NOT_NULL p; kfree w1 h1 p.
Definition test_krealloc_zero :=
  let '(w, h) := heap_reinit in '(p, w1, h1) ← kmalloc w h 64; '(q, _, _) ← krealloc w1 h1 p 0; ASSERT_NULL q.
Definition test_splitting :=
  let '(w, h) := heap_reinit in
  '(a, w1, h1) ← alloc w h 32; '(b, w2, h2) ← alloc w1 h1 32;
  _ ← ASSERT_TRUE (b >? a); _ ← ASSERT_TRUE (b - a <? 256);
  '(w3, h3) ← kfree w2 h2 a; kfree w3 h3 b.

(** The sizes one after the other, each freed again. *)
Fixpoint align_loop (sizes : list Z) (w : machine) (h : heap) : option unit :=
  match sizes with
  | [] => Some tt
  | n :: sizes' => '(p, w1, h1) ← alloc w h n; _ ← ASSERT_EQ (p mod 8) 0; '(w2, h2) ← kfree w1 h1 p; align_loop sizes' w2 h2
  end.
Definition test_alignment := let '(w, h) := heap_reinit in align_loop (seqZ 1 17) w h.

(** [ptrs], the last one first. *)
Fixpoint fill_loop (n : nat) (ptrs : list Z) (w : machine) (h : heap) : option (list Z * machine * heap) :=
  match n with O => Some (ptrs, w, h) | S n' => '(p, w1, h1) ← alloc w h 32; fill_loop n' (p :: ptrs) w1 h1 end.
Fixpoint free_loop (ptrs : list Z) (w : machine) (h : heap) : option (machine * heap) :=
  match ptrs with [] => Some (w, h) | p :: ptrs' => '(w1, h1) ← kfree w h p; free_loop ptrs' w1 h1 end.
Definition test_many_allocs :=
  let '(w, h) := heap_reinit in
  '(ptrs, w1, h1) ← fill_loop 128 [] w h; '(w2, h2) ← free_loop (rev ptrs) w1 h1;
  '(big, w3, h3) ← alloc w2 h2 4096; kfree w3 h3 big.
Definition test_stats :=
  let '(w, h) := heap_reinit in
  let '(total, used1, free1) := heap_get_stats h in
  _ ← ASSERT_EQ total HEAP_INITIAL; _ ← ASSERT_TRUE (free1 >? 0);
  '(p, w1, h1) ← alloc w h 512;
  let '(_, used2, free2) := heap_get_stats h1 in
  _ ← ASSERT_TRUE (used2 >? used1); _ ← ASSERT_TRUE (free2 <? free1); kfree w1 h1 p.

Definition heap_tests : list bool :=
  [passes test_alloc_basic; passes test_alloc_zero; passes test_alloc_multiple; passes test_kzalloc; passes test_free_reuse;
   passes test_krealloc_grow; passes test_krealloc_null; passes test_krealloc_zero; passes test_splitting;
   passes test_alignment; passes test_many_allocs; passes test_stats].

Lemma heap_suite_passes : forallb id heap_tests = true.
Proof. vm_compute. reflexivity. Qed.
End Heap_suite.

(** ** task.c *)

Module Task_suite.
Definition dummy_entry : Z := 0x101000.
Definition task_exit_addr : Z := 0x102000.
Definition state : Type := machine * heap * sched.

(** [task_init();] on a fresh heap. *)
Definition init : state :=
  let '(w, h) := heap_init (Machine ∅ []) in let '(w1, s) := task_init w (Sched [] 0 0 false false) in (w1, h, s).
Definition create (st : state) (name : string) : option (Z * state) :=
  let '(w, h, s) := st in
  '(id, w1, h1, s1) ← task_create task_exit_addr w h s dummy_entry name; Some (id, (w1, h1, s1)).
Definition info_is (o : option (Z * string * task_state)) (name : string) (st : task_state) : option unit :=
  '(_, name', st') ← o; ASSERT_TRUE (bool_decide (name' = name) && bool_decide (st' = st)).

Definition test_init :=
  let '(_, _, s) := init in _ ← ASSERT_EQ (task_count s) 1; ASSERT_EQ (task_current_id s) 0.
Definition test_init_kernel_task :=
  let '(_, _, s) := init in
  '(id, _, _) ← task_get_info s 0; _ ← ASSERT_EQ id 0; info_is (task_get_info s 0) "kernel" TASK_RUNNING.
Definition test_create_single :=
  '(id, (_, _, s)) ← create init "test_a";
  _ ← ASSERT_NE id (2 ^ 32 - 1); _ ← ASSERT_EQ id 1; ASSERT_EQ (task_count s) 2.
Definition test_create_state_ready :=
  '(id, (_, _, s)) ← create init "worker"; info_is (task_get_info s id) "worker" TASK_READY.
Definition test_create_multiple :=
  '(a, st1) ← create init "a"; '(b, st2) ← create st1 "b"; '(c, (_, _, s)) ← create st2 "c";
  _ ← ASSERT_EQ a 1; _ ← ASSERT_EQ b 2; _ ← ASSERT_EQ c 3; ASSERT_EQ (task_count s) 4.
Definition test_get_info_invalid :=
  let '(_, _, s) := init in ASSERT_FALSE (passes (task_get_info s 999)).
Definition test_names_preserved :=
  '(_, st1) ← create init "alpha"; '(_, (_, _, s)) ← create st1 "beta";
  '(_, name1, _) ← task_get_info s 1; _ ← ASSERT_TRUE (bool_decide (name1 = "alpha"%string));
  '(_, name2, _) ← task_get_info s 2; ASSERT_TRUE (bool_decide (name2 = "beta"%string)).

(** [n] tasks named ["t"]. *)
Fixpoint create_loop (n : nat) (st : state) : option state :=
  match n with
  | O => Some st
  | S n' => '(id, st1) ← create st "t"; _ ← ASSERT_NE id (2 ^ 32 - 1); create_loop n' st1
  end.
Definition test_create_max :=
  st ← create_loop (Z.to_nat (MAX_TASKS - 1)) init;
  _ ← ASSERT_EQ (task_count st.2) MAX_TASKS;
  '(over, _) ← create st "overflow"; ASSERT_EQ over (2 ^ 32 - 1).
Definition test_schedule_no_reschedule :=
  '(_, (_, _, s)) ← create init "worker";
  ASSERT_EQ (task_schedule_if_needed s gdt_boot 0xDEAD0000).1.1 0xDEAD0000.
Definition test_schedule_switches :=
  '(_, (_, _, s)) ← create init "worker";
  let '(new_esp, s1, _) := task_schedule_if_needed (task_request_reschedule s) gdt_boot 0xDEAD0000 in
  _ ← ASSERT_NE new_esp 0xDEAD0000; ASSERT_EQ (task_current_id s1) 1.
Definition test_schedule_sole_task :=
  let '(_, _, s) := init in
  let '(esp, s1, _) := task_schedule_if_needed (task_request_reschedule s) gdt_boot 0xBEEF0000 in
  _ ← ASSERT_EQ esp 0xBEEF0000; ASSERT_EQ (task_current_id s1) 0.

Definition task_tests : list bool :=
  [passes test_init; passes test_init_kernel_task; passes test_create_single; passes test_create_state_ready;
   passes test_create_multiple; passes test_get_info_invalid; passes test_names_preserved; passes test_create_max;
   passes test_schedule_no_reschedule; passes test_schedule_switches; passes test_schedule_sole_task].

Lemma task_suite_passes : forallb id task_tests = true.
Proof. vm_compute. reflexivity. Qed.
End Task_suite.
